(** * SendIt: peer session and chunked file transfer

    A shallow embedding of the class [PeerTransfer] of [src/utils/rtc.ts]:
    the signaling client ([sendSignal], [handleSignal],
    [initPeerConnection]), the transfer sender ([sendFile] with its nested
    closures [sendNextChunk], [reader.onload] and [trySend]) and the
    transfer receiver ([handleFileInfo], [handleFileChunkBinary],
    [handleComplete]).

    The class is event driven.  Every method and every callback is a
    function from the state of the page to the new state and the list of
    effects it performed, in the order it performed them.  The browser
    objects the class talks to (the WebSocket, the RTCPeerConnection, the
    RTCDataChannel, FileReader, timers) are part of the state; what they do
    on their own is an [Event] chosen by the environment. *)

From Stdlib Require Import ZArith List String Ascii Bool Lia DecimalString.
From Stdlib Require HexadecimalString.
From Stdlib Require Import Floats.SpecFloat.
Import ListNotations.
Open Scope Z_scope.

(** ** Numbers

    A JavaScript number is an IEEE 754 binary64 value.  Counters and sizes
    that stay integers below 2^53 are kept as [Z] (their arithmetic is
    exact there); a quotient such as [chunkIndex / totalChunks] is not
    exact, so the progress percentage is computed on [spec_float], the
    specification of binary64 of the Standard Library. *)

Module JsNumber.

Definition prec : Z := 53.
Definition emax : Z := 1024.

Definition t : Set := spec_float.

(** The number denoted by an integer literal or an integer counter. *)
Definition of_Z (z : Z) : t := binary_normalize prec emax z 0 false.

Definition div (x y : t) : t := SFdiv prec emax x y.
Definition mul (x y : t) : t := SFmul prec emax x y.

(** [a <= b] and [a === b] on numbers. *)
Definition leb (x y : t) : bool := SFleb x y.
Definition eqb (x y : t) : bool := SFeqb x y.

(** [Math.floor]. A finite value with a non-negative exponent is an
    integer already; otherwise the quotient of the signed mantissa by
    the power of two is rounded down, and it has at most 53 bits. *)
Definition Math_floor (x : t) : t :=
  match x with
  | S754_finite s m e =>
      if 0 <=? e then x
      else
        let q := cond_Zopp s (Zpos m) / 2 ^ (- e) in
        if q =? 0 then S754_zero s else of_Z q
  | _ => x
  end.

(** [Math.ceil(a / b)] for integers [a] and a positive power of two [b]
    below 2^53: the division is exact in binary64, so the result is the
    integer ceiling. *)
Definition Math_ceil_div (a b : Z) : Z := - ((- a) / b).

End JsNumber.

(** [Math.floor((a / b) * 100)] as both the sender and the receiver
    compute it. *)
Definition percent (a b : Z) : JsNumber.t :=
  JsNumber.Math_floor
    (JsNumber.mul (JsNumber.div (JsNumber.of_Z a) (JsNumber.of_Z b))
                  (JsNumber.of_Z 100)).

(** ** Files, metadata, frames *)

Definition CHUNK_SIZE : Z := 16 * 1024.

Module File.

Record t : Set := { name : string; type : string; bytes : list Byte.byte }.

Definition size (f : t) : Z := Z.of_nat (List.length (bytes f)).

(** An index of [Blob.slice]: negative counts from the end, and the
    result is clamped to the blob. *)
Definition clamp (len i : Z) : Z :=
  if i <? 0 then Z.max (len + i) 0 else Z.min i len.

Definition slice (f : t) (start end_ : Z) : list Byte.byte :=
  let s := clamp (size f) start in
  let e := clamp (size f) end_ in
  firstn (Z.to_nat (Z.max (e - s) 0)) (skipn (Z.to_nat s) (bytes f)).

End File.

Record FileMeta : Set := {
  fileId : string;
  name : string;
  size : Z;
  type : string;
  totalChunks : Z
}.

Record Blob : Set := { blob_bytes : list Byte.byte; blob_type : string }.

(** The type a [Blob] is constructed with: a type with a character
    outside U+0020..U+007E becomes the empty string, any other type is
    converted to ASCII lower case.  Strings are UTF-8 here, so a character
    above U+007E shows as bytes above 126. *)
Definition is_printable (c : ascii) : bool :=
  let n := nat_of_ascii c in Nat.leb 32 n && Nat.leb n 126.

Definition ascii_lowercase (c : ascii) : ascii :=
  let n := nat_of_ascii c in
  if Nat.leb 65 n && Nat.leb n 90 then ascii_of_nat (n + 32) else c.

Fixpoint all_printable (s : string) : bool :=
  match s with
  | EmptyString => true
  | String c rest => is_printable c && all_printable rest
  end.

Fixpoint to_lowercase (s : string) : string :=
  match s with
  | EmptyString => EmptyString
  | String c rest => String (ascii_lowercase c) (to_lowercase rest)
  end.

Definition normalized_type (ty : string) : string :=
  if all_printable ty then to_lowercase ty else EmptyString.

(** [new Blob(parts, { type })] *)
Definition new_Blob (parts : list (list Byte.byte)) (ty : string) : Blob :=
  {| blob_bytes := List.concat parts; blob_type := normalized_type ty |}.

(** What [JSON.parse] yields for a text frame, as far as [onmessage] looks
    at it: the [messageType] and, for the two known kinds, the payload. *)
Inductive ChannelMsg : Set :=
| FileInfoMsg (meta : FileMeta)
| FileCompleteMsg (id : string)
| OtherMsg (messageType : string).

(** A frame of the data channel; text and binary frames are told apart by
    the channel ([typeof e.data === 'string']). *)
Inductive Frame : Set :=
| TextFrame (msg : ChannelMsg)
| BinaryFrame (data : list Byte.byte).

(** *** The size of a text frame

    [bufferedAmount] counts the bytes of [JSON.stringify(...)]. *)

Definition dquote : string := String (ascii_of_nat 34) EmptyString.
Definition backslash : string := String (ascii_of_nat 92) EmptyString.

Fixpoint JSON_escape (s : string) : string :=
  match s with
  | EmptyString => EmptyString
  | String c rest =>
      let n := nat_of_ascii c in
      (if Nat.eqb n 34 then backslash ++ dquote
       else if Nat.eqb n 92 then backslash ++ backslash
       else if Nat.eqb n 8 then backslash ++ "b"
       else if Nat.eqb n 9 then backslash ++ "t"
       else if Nat.eqb n 10 then backslash ++ "n"
       else if Nat.eqb n 12 then backslash ++ "f"
       else if Nat.eqb n 13 then backslash ++ "r"
       else if Nat.ltb n 32 then backslash ++ "u00" ++
              (if Nat.ltb n 16 then "0" else "1") ++
              String (ascii_of_nat
                        (let d := Nat.modulo n 16 in
                         if Nat.ltb d 10 then 48 + d else 87 + d))
                     EmptyString
       else String c EmptyString) ++ JSON_escape rest
  end%string.

Definition JSON_string (s : string) : string :=
  (dquote ++ JSON_escape s ++ dquote)%string.

Definition JSON_number (z : Z) : string :=
  NilZero.string_of_int (Z.to_int z).

Definition JSON_stringify (m : ChannelMsg) : string :=
  match m with
  | FileInfoMsg meta =>
      "{" ++ JSON_string "messageType" ++ ":" ++ JSON_string "file-info" ++ ","
          ++ JSON_string "meta" ++ ":{"
          ++ JSON_string "fileId" ++ ":" ++ JSON_string (fileId meta) ++ ","
          ++ JSON_string "name" ++ ":" ++ JSON_string (name meta) ++ ","
          ++ JSON_string "size" ++ ":" ++ JSON_number (size meta) ++ ","
          ++ JSON_string "type" ++ ":" ++ JSON_string (type meta) ++ ","
          ++ JSON_string "totalChunks" ++ ":" ++ JSON_number (totalChunks meta)
          ++ "}}"
  | FileCompleteMsg id =>
      "{" ++ JSON_string "messageType" ++ ":" ++ JSON_string "file-complete" ++ ","
          ++ JSON_string "fileId" ++ ":" ++ JSON_string id ++ "}"
  | OtherMsg mt =>
      "{" ++ JSON_string "messageType" ++ ":" ++ JSON_string mt ++ "}"
  end%string.

Definition frameBytes (fr : Frame) : Z :=
  match fr with
  | TextFrame m => Z.of_nat (String.length (JSON_stringify m))
  | BinaryFrame data => Z.of_nat (List.length data)
  end.

(** [Date.now().toString()] for the clock reading [now]. *)
Definition Date_now_toString (now : Z) : string :=
  NilZero.string_of_int (Z.to_int now).

(** ** The data channel *)

Inductive RTCDataChannelState : Set :=
| dc_connecting | dc_open | dc_closing | dc_closed.

Definition is_open (s : RTCDataChannelState) : bool :=
  match s with dc_open => true | _ => false end.

(** The channel object.  [onbufferedamountlow] holds the number of the
    [sendFile] invocation whose [sendNextChunk] is installed as the
    handler.  [sendQueueLimit] is the browser's bound on queued bytes above
    which [send] throws; [None] is a browser that never refuses. *)
Record RTCDataChannel : Set := {
  readyState : RTCDataChannelState;
  bufferedAmount : Z;
  bufferedAmountLowThreshold : Z;
  onbufferedamountlow : option nat;
  sendQueueLimit : option Z
}.

Inductive SendError : Set :=
| SendQueueFull      (* the message includes 'send queue is full' *)
| InvalidStateError. (* the channel is not open *)

(** [channel.send(data)]: on success the frame is queued and counted in
    [bufferedAmount]. *)
Definition dc_send (dc : RTCDataChannel) (fr : Frame)
  : SendError + RTCDataChannel :=
  if negb (is_open (readyState dc)) then inl InvalidStateError
  else
    let queued := bufferedAmount dc + frameBytes fr in
    let full := match sendQueueLimit dc with
                | Some lim => lim <? queued
                | None => false
                end in
    if full then inl SendQueueFull
    else inr {| readyState := readyState dc;
                bufferedAmount := queued;
                bufferedAmountLowThreshold := bufferedAmountLowThreshold dc;
                onbufferedamountlow := onbufferedamountlow dc;
                sendQueueLimit := sendQueueLimit dc |}.

Definition dc_set_threshold (dc : RTCDataChannel) (th : Z) : RTCDataChannel :=
  {| readyState := readyState dc;
     bufferedAmount := bufferedAmount dc;
     bufferedAmountLowThreshold := th;
     onbufferedamountlow := onbufferedamountlow dc;
     sendQueueLimit := sendQueueLimit dc |}.

Definition dc_set_onbufferedamountlow (dc : RTCDataChannel) (h : option nat)
  : RTCDataChannel :=
  {| readyState := readyState dc;
     bufferedAmount := bufferedAmount dc;
     bufferedAmountLowThreshold := bufferedAmountLowThreshold dc;
     onbufferedamountlow := h;
     sendQueueLimit := sendQueueLimit dc |}.

Definition dc_set_bufferedAmount (dc : RTCDataChannel) (b : Z) : RTCDataChannel :=
  {| readyState := readyState dc;
     bufferedAmount := b;
     bufferedAmountLowThreshold := bufferedAmountLowThreshold dc;
     onbufferedamountlow := onbufferedamountlow dc;
     sendQueueLimit := sendQueueLimit dc |}.

Definition dc_set_readyState (dc : RTCDataChannel) (s : RTCDataChannelState)
  : RTCDataChannel :=
  {| readyState := s;
     bufferedAmount := bufferedAmount dc;
     bufferedAmountLowThreshold := bufferedAmountLowThreshold dc;
     onbufferedamountlow := onbufferedamountlow dc;
     sendQueueLimit := sendQueueLimit dc |}.

(** ** Signaling *)

Inductive WsReadyState : Set := WS_CONNECTING | WS_OPEN | WS_CLOSING | WS_CLOSED.

Record WebSocket : Set := { ws_readyState : WsReadyState }.

(** The argument of [sendSignal]: [{ type, sdp?, candidate? }]. *)
Record SignalBody : Set := {
  body_type : string;
  body_sdp : option string;
  body_candidate : option string
}.

(** A signaling envelope on the relay.  [to] is [null] when the sender had
    no remote identity. *)
Module Envelope.
Record t : Set := {
  type : string;
  from : string;
  to : option string;
  sdp : option string;
  candidate : option string
}.
End Envelope.

Inductive RTCPeerConnectionState : Set :=
| pc_new | pc_connecting | pc_connected | pc_disconnected | pc_failed | pc_closed.

(** The peer connection, as far as the class drives it: the descriptions
    and candidates it was given and whether [ondatachannel] is installed. *)
Record RTCPeerConnection : Set := {
  connectionState : RTCPeerConnectionState;
  localDescription : option (string * option string);
  remoteDescription : option (string * option string);
  iceCandidates : list (option string);
  ondatachannel : bool
}.

Definition new_RTCPeerConnection : RTCPeerConnection :=
  {| connectionState := pc_new;
     localDescription := None;
     remoteDescription := None;
     iceCandidates := [];
     ondatachannel := false |}.

(** ** The class *)

Record PeerTransfer : Set := {
  peerId : string;
  remoteId : option string;
  ws : WebSocket;
  peerConnection : option RTCPeerConnection;
  dataChannel : option RTCDataChannel;
  incomingChunks : list (list Byte.byte);
  expectedChunks : Z;
  receivingFile : option FileMeta
}.

(** The variables a call of [sendFile] closes over. *)
Record SendFileClosure : Set := {
  c_file : File.t;
  c_fileId : string;
  c_totalChunks : Z;
  chunkIndex : Z;
  isReading : bool
}.

Inductive TimerCallback : Set :=
| RetrySendSignal (msg : SignalBody) (attempt : nat)
| RetryTrySend (cid : nat) (chunkData : list Byte.byte).

(** What the event loop still owes the class. *)
Inductive Task : Set :=
| Timer (delay : Z) (cb : TimerCallback)          (* setTimeout(cb, delay) *)
| FileRead (cid : nat) (chunk : list Byte.byte)   (* reader.readAsArrayBuffer(chunk) *)
| AwaitCreateOffer                                (* createOffer().then(...) *)
| AwaitAnswer.                                    (* the awaits of the offer case *)

Record Runtime : Set := {
  self : PeerTransfer;
  closures : list SendFileClosure;
  tasks : list Task
}.

(** What the class does to the outside, in order. *)
Inductive Effect : Set :=
| ConsoleWarn (text : string)
| ConsoleError (text : string)
| Uncaught (e : SendError)        (* an exception leaves the running handler *)
| UncaughtTypeError
| OnConnect
| OnDisconnect
| OnFileInfo (meta : FileMeta)
| OnProgress (progress : JsNumber.t)
| OnComplete (file : Blob) (meta : FileMeta)
| ChannelSend (fr : Frame)        (* dataChannel.send accepted the frame *)
| WsSend (env : Envelope.t).      (* ws.send *)

(** ** Field updates *)

Definition set_remoteId (p : PeerTransfer) (r : option string) : PeerTransfer :=
  {| peerId := peerId p; remoteId := r; ws := ws p;
     peerConnection := peerConnection p; dataChannel := dataChannel p;
     incomingChunks := incomingChunks p; expectedChunks := expectedChunks p;
     receivingFile := receivingFile p |}.

Definition set_ws (p : PeerTransfer) (w : WebSocket) : PeerTransfer :=
  {| peerId := peerId p; remoteId := remoteId p; ws := w;
     peerConnection := peerConnection p; dataChannel := dataChannel p;
     incomingChunks := incomingChunks p; expectedChunks := expectedChunks p;
     receivingFile := receivingFile p |}.

Definition set_peerConnection (p : PeerTransfer) (pc : option RTCPeerConnection)
  : PeerTransfer :=
  {| peerId := peerId p; remoteId := remoteId p; ws := ws p;
     peerConnection := pc; dataChannel := dataChannel p;
     incomingChunks := incomingChunks p; expectedChunks := expectedChunks p;
     receivingFile := receivingFile p |}.

Definition set_dataChannel (p : PeerTransfer) (dc : option RTCDataChannel)
  : PeerTransfer :=
  {| peerId := peerId p; remoteId := remoteId p; ws := ws p;
     peerConnection := peerConnection p; dataChannel := dc;
     incomingChunks := incomingChunks p; expectedChunks := expectedChunks p;
     receivingFile := receivingFile p |}.

(** The three private fields of the receiver. *)
Definition set_receiving (p : PeerTransfer) (chunks : list (list Byte.byte))
           (expected : Z) (meta : option FileMeta) : PeerTransfer :=
  {| peerId := peerId p; remoteId := remoteId p; ws := ws p;
     peerConnection := peerConnection p; dataChannel := dataChannel p;
     incomingChunks := chunks; expectedChunks := expected;
     receivingFile := meta |}.

Definition with_self (rt : Runtime) (p : PeerTransfer) : Runtime :=
  {| self := p; closures := closures rt; tasks := tasks rt |}.

Definition with_closures (rt : Runtime) (cs : list SendFileClosure) : Runtime :=
  {| self := self rt; closures := cs; tasks := tasks rt |}.

Definition with_tasks (rt : Runtime) (ts : list Task) : Runtime :=
  {| self := self rt; closures := closures rt; tasks := ts |}.

Definition add_task (rt : Runtime) (t : Task) : Runtime :=
  with_tasks rt (tasks rt ++ [t]).

Fixpoint replace_nth {A : Type} (n : nat) (x : A) (l : list A) : list A :=
  match l, n with
  | [], _ => []
  | _ :: t, O => x :: t
  | h :: t, S n' => h :: replace_nth n' x t
  end.

Fixpoint remove_nth {A : Type} (n : nat) (l : list A) : list A :=
  match l, n with
  | [], _ => []
  | _ :: t, O => t
  | h :: t, S n' => h :: remove_nth n' t
  end.

Definition set_closure (rt : Runtime) (cid : nat) (c : SendFileClosure) : Runtime :=
  with_closures rt (replace_nth cid c (closures rt)).

Definition set_chunkIndex (c : SendFileClosure) (i : Z) : SendFileClosure :=
  {| c_file := c_file c; c_fileId := c_fileId c; c_totalChunks := c_totalChunks c;
     chunkIndex := i; isReading := isReading c |}.

Definition set_isReading (c : SendFileClosure) (b : bool) : SendFileClosure :=
  {| c_file := c_file c; c_fileId := c_fileId c; c_totalChunks := c_totalChunks c;
     chunkIndex := chunkIndex c; isReading := b |}.

Definition pc_set_local (pc : RTCPeerConnection) (d : string * option string)
  : RTCPeerConnection :=
  {| connectionState := connectionState pc; localDescription := Some d;
     remoteDescription := remoteDescription pc;
     iceCandidates := iceCandidates pc; ondatachannel := ondatachannel pc |}.

Definition pc_set_remote (pc : RTCPeerConnection) (d : string * option string)
  : RTCPeerConnection :=
  {| connectionState := connectionState pc; localDescription := localDescription pc;
     remoteDescription := Some d;
     iceCandidates := iceCandidates pc; ondatachannel := ondatachannel pc |}.

Definition pc_add_candidate (pc : RTCPeerConnection) (c : option string)
  : RTCPeerConnection :=
  {| connectionState := connectionState pc; localDescription := localDescription pc;
     remoteDescription := remoteDescription pc;
     iceCandidates := iceCandidates pc ++ [c]; ondatachannel := ondatachannel pc |}.

Definition pc_set_state (pc : RTCPeerConnection) (s : RTCPeerConnectionState)
  : RTCPeerConnection :=
  {| connectionState := s; localDescription := localDescription pc;
     remoteDescription := remoteDescription pc;
     iceCandidates := iceCandidates pc; ondatachannel := ondatachannel pc |}.

Definition pc_set_ondatachannel (pc : RTCPeerConnection) : RTCPeerConnection :=
  {| connectionState := connectionState pc; localDescription := localDescription pc;
     remoteDescription := remoteDescription pc;
     iceCandidates := iceCandidates pc; ondatachannel := true |}.

(** [this.peerConnection?.m(...)]: nothing happens without a connection. *)
Definition pc_call (rt : Runtime) (m : RTCPeerConnection -> RTCPeerConnection)
  : Runtime :=
  match peerConnection (self rt) with
  | Some pc => with_self rt (set_peerConnection (self rt) (Some (m pc)))
  | None => rt
  end.

(** ** Transfer receiver *)

Definition handleFileInfo (p : PeerTransfer) (meta : FileMeta)
  : PeerTransfer * list Effect :=
  (set_receiving p [] (totalChunks meta) (Some meta), [OnFileInfo meta]).

Definition handleFileChunkBinary (p : PeerTransfer) (data : list Byte.byte)
  : PeerTransfer * list Effect :=
  let chunks := incomingChunks p ++ [data] in
  (set_receiving p chunks (expectedChunks p) (receivingFile p),
   [OnProgress (percent (Z.of_nat (List.length chunks)) (expectedChunks p))]).

Definition handleComplete (p : PeerTransfer) : PeerTransfer * list Effect :=
  match receivingFile p with
  | None => (p, [])
  | Some meta =>
      (set_receiving p [] 0 None,
       [OnComplete (new_Blob (incomingChunks p) (type meta)) meta])
  end.

(** [dataChannel.onmessage], installed by [setupDataChannel]. *)
Definition onmessage (p : PeerTransfer) (fr : Frame) : PeerTransfer * list Effect :=
  match fr with
  | TextFrame (FileInfoMsg meta) => handleFileInfo p meta
  | TextFrame (FileCompleteMsg _) => handleComplete p
  | TextFrame (OtherMsg _) => (p, [])
  | BinaryFrame data => handleFileChunkBinary p data
  end.

(** ** Signal relay client and handshake *)

Definition MAX_RETRIES : nat := 20.
Definition RETRY_DELAY : Z := 100.

Definition envelope_of (p : PeerTransfer) (msg : SignalBody) : Envelope.t :=
  {| Envelope.type := body_type msg;
     Envelope.from := peerId p;
     Envelope.to := remoteId p;
     Envelope.sdp := body_sdp msg;
     Envelope.candidate := body_candidate msg |}.

(** The text of the warning; the envelope logged after it is not recorded. *)
Definition dropping_signal : string := "❌ WebSocket not open. Dropping signal:".

(** One invocation of [sendSignal(msg, attempt)]. *)
Definition sendSignal (rt : Runtime) (msg : SignalBody) (attempt : nat)
  : Runtime * list Effect :=
  match ws_readyState (ws (self rt)) with
  | WS_OPEN => (rt, [WsSend (envelope_of (self rt) msg)])
  | WS_CONNECTING =>
      if Nat.ltb attempt MAX_RETRIES
      then (add_task rt (Timer RETRY_DELAY (RetrySendSignal msg (S attempt))), [])
      else (rt, [ConsoleWarn dropping_signal])
  | _ => (rt, [ConsoleWarn dropping_signal])
  end.

Definition setupDataChannel (p : PeerTransfer) : PeerTransfer :=
  match dataChannel p with
  | None => p
  | Some dc => set_dataChannel p (Some (dc_set_threshold dc (1024 * 1024)))
  end.

(** [peerConnection.createDataChannel('data')] *)
Definition createDataChannel : RTCDataChannel :=
  {| readyState := dc_connecting; bufferedAmount := 0;
     bufferedAmountLowThreshold := 0; onbufferedamountlow := None;
     sendQueueLimit := None |}.

Definition initPeerConnection (rt : Runtime) (initiator : bool) : Runtime :=
  let p := set_peerConnection (self rt) (Some new_RTCPeerConnection) in
  if initiator then
    let p1 := setupDataChannel (set_dataChannel p (Some createDataChannel)) in
    add_task (with_self rt p1) AwaitCreateOffer
  else
    with_self rt (set_peerConnection p (Some (pc_set_ondatachannel new_RTCPeerConnection))).

(** The callback of [createOffer().then]. *)
Definition createOffer_then (rt : Runtime) (offer_sdp : string)
  : Runtime * list Effect :=
  sendSignal (pc_call rt (fun pc => pc_set_local pc ("offer"%string, Some offer_sdp)))
             {| body_type := "offer"; body_sdp := Some offer_sdp;
                body_candidate := None |} 0.

Definition option_string_eqb (a b : option string) : bool :=
  match a, b with
  | Some x, Some y => String.eqb x y
  | None, None => true
  | _, _ => false
  end.

(** [handleSignal] up to its first suspension.  In the offer case the
    function then waits for the browser ([AwaitAnswer]). *)
Definition handleSignal (rt : Runtime) (msg : Envelope.t) : Runtime * list Effect :=
  if negb (option_string_eqb (Envelope.to msg) (Some (peerId (self rt))))
  then (rt, [])
  else if String.eqb (Envelope.type msg) "offer" then
    let rt1 := with_self rt (set_remoteId (self rt) (Some (Envelope.from msg))) in
    let rt2 := initPeerConnection rt1 false in
    let rt3 := pc_call rt2 (fun pc => pc_set_remote pc ("offer"%string, Envelope.sdp msg)) in
    (add_task rt3 AwaitAnswer, [])
  else if String.eqb (Envelope.type msg) "answer" then
    (pc_call rt (fun pc => pc_set_remote pc ("answer"%string, Envelope.sdp msg)), [])
  else if String.eqb (Envelope.type msg) "candidate" then
    (pc_call rt (fun pc => pc_add_candidate pc (Envelope.candidate msg)), [])
  else (rt, []).

(** The rest of the offer case, once [createAnswer] has produced [answer_sdp]. *)
Definition handleSignal_answer (rt : Runtime) (answer_sdp : string)
  : Runtime * list Effect :=
  sendSignal (pc_call rt (fun pc => pc_set_local pc ("answer"%string, Some answer_sdp)))
             {| body_type := "answer"; body_sdp := Some answer_sdp;
                body_candidate := None |} 0.

Definition onicecandidate (rt : Runtime) (cand : option string)
  : Runtime * list Effect :=
  match cand, remoteId (self rt) with
  | Some c, Some r =>
      if String.eqb r "" then (rt, [])
      else sendSignal rt {| body_type := "candidate"; body_sdp := None;
                            body_candidate := Some c |} 0
  | _, _ => (rt, [])
  end.

Definition onconnectionstatechange (rt : Runtime) : list Effect :=
  match peerConnection (self rt) with
  | Some pc =>
      match connectionState pc with
      | pc_connected => [OnConnect]
      | pc_disconnected | pc_failed => [OnDisconnect]
      | _ => []
      end
  | None => []
  end.

(** ** Transfer sender *)

(** The texts logged on the console, in UTF-8.  The object logged after the
    text ([msg], [err]) is not recorded. *)
Definition not_ready : string := "⚠️ Data channel not ready".
Definition unexpected_send_error : string := "❌ Unexpected send error:".
Definition reader_error : string := "❌ FileReader error while reading chunk".

(** The closure [sendNextChunk] of invocation [cid]: it only starts the
    read of the next slice. *)
Definition sendNextChunk (rt : Runtime) (cid : nat) : Runtime :=
  match nth_error (closures rt) cid, dataChannel (self rt) with
  | Some c, Some dc =>
      if (c_totalChunks c <=? chunkIndex c) || isReading c then rt
      else if 16 * 1024 * 1024 <? bufferedAmount dc then rt (* wait for drain *)
      else
        let start := chunkIndex c * CHUNK_SIZE in
        let end_ := Z.min (start + CHUNK_SIZE) (File.size (c_file c)) in
        let chunk := File.slice (c_file c) start end_ in
        add_task (set_closure rt cid (set_isReading c true)) (FileRead cid chunk)
  | _, _ => rt
  end.

(** The closure [trySend] of invocation [cid], holding [chunkData]. *)
Definition trySend (rt : Runtime) (cid : nat) (chunkData : list Byte.byte)
  : Runtime * list Effect :=
  match dataChannel (self rt) with
  | None => (rt, [UncaughtTypeError])
  | Some dc =>
      if 16 * 1024 * 1024 <? bufferedAmount dc
      then (add_task rt (Timer 50 (RetryTrySend cid chunkData)), [])
      else
        match dc_send dc (BinaryFrame chunkData) with
        | inl SendQueueFull =>
            (add_task rt (Timer 50 (RetryTrySend cid chunkData)), [])
        | inl InvalidStateError => (rt, [ConsoleError unexpected_send_error])
        | inr dc1 =>
            let rt1 := with_self rt (set_dataChannel (self rt) (Some dc1)) in
            match nth_error (closures rt1) cid with
            | None => (rt1, [ChannelSend (BinaryFrame chunkData)])
            | Some c =>
                let c1 := set_chunkIndex c (chunkIndex c + 1) in
                let rt2 := set_closure rt1 cid c1 in
                let sent := [ChannelSend (BinaryFrame chunkData);
                             OnProgress (percent (chunkIndex c1) (c_totalChunks c1))] in
                if chunkIndex c1 <? c_totalChunks c1
                then (sendNextChunk rt2 cid, sent)
                else
                  let done := TextFrame (FileCompleteMsg (c_fileId c1)) in
                  match dc_send dc1 done with
                  | inl e => (rt2, sent ++ [Uncaught e])
                  | inr dc2 =>
                      (with_self rt2 (set_dataChannel (self rt2) (Some dc2)),
                       sent ++ [ChannelSend done])
                  end
            end
        end
  end.

(** [reader.onload] of invocation [cid] with the bytes read. *)
Definition reader_onload (rt : Runtime) (cid : nat) (result : list Byte.byte)
  : Runtime * list Effect :=
  match nth_error (closures rt) cid with
  | Some c => trySend (set_closure rt cid (set_isReading c false)) cid result
  | None => trySend rt cid result
  end.

Definition reader_onerror (rt : Runtime) (cid : nat) : Runtime * list Effect :=
  match nth_error (closures rt) cid with
  | Some c => (set_closure rt cid (set_isReading c false), [ConsoleError reader_error])
  | None => (rt, [ConsoleError reader_error])
  end.

(** [sendFile(file)], called when [Date.now()] reads [now]. *)
Definition sendFile (rt : Runtime) (file : File.t) (now : Z) : Runtime * list Effect :=
  match dataChannel (self rt) with
  | None => (rt, [ConsoleWarn not_ready])
  | Some dc =>
      if negb (is_open (readyState dc)) then (rt, [ConsoleWarn not_ready])
      else
        let id := Date_now_toString now in
        let total := JsNumber.Math_ceil_div (File.size file) CHUNK_SIZE in
        let meta := {| fileId := id; name := File.name file; size := File.size file;
                       type := File.type file; totalChunks := total |} in
        match dc_send dc (TextFrame (FileInfoMsg meta)) with
        | inl e => (rt, [Uncaught e])
        | inr dc1 =>
            let cid := List.length (closures rt) in
            let c := {| c_file := file; c_fileId := id; c_totalChunks := total;
                        chunkIndex := 0; isReading := false |} in
            let dc2 := dc_set_onbufferedamountlow
                         (dc_set_threshold dc1 (1024 * 1024)) (Some cid) in
            let rt1 := with_closures
                         (with_self rt (set_dataChannel (self rt) (Some dc2)))
                         (closures rt ++ [c]) in
            (sendNextChunk rt1 cid, [ChannelSend (TextFrame (FileInfoMsg meta))])
        end
  end.

(** ** The event loop *)

Inductive Event : Set :=
| CallSendFile (file : File.t) (now : Z)
| CallSetRemoteId (id : string)
| CallInitPeerConnection (initiator : bool)
| ReaderLoad (i : nat)           (* the read that is task [i] completes *)
| ReaderError (i : nat)          (* the read that is task [i] fails *)
| TimerFires (i : nat)           (* the timer that is task [i] expires *)
| OfferCreated (i : nat) (offer_sdp : string)
| AnswerCreated (i : nat) (answer_sdp : string)
| IceCandidate (cand : option string)
| ConnectionStateChange (s : RTCPeerConnectionState)
| DataChannelArrives (dc : RTCDataChannel)
| ChannelReadyState (s : RTCDataChannelState)
| ChannelDrain (n : Z)           (* the channel transmits [n] queued bytes *)
| ChannelMessage (fr : Frame)
| WsReadyStateChange (s : WsReadyState)
| WsMessage (msg : Envelope.t).

(** The channel transmits bytes; when [bufferedAmount] falls from above
    the threshold to it or below, [bufferedamountlow] fires. *)
Definition channel_drain (rt : Runtime) (n : Z) : Runtime :=
  match dataChannel (self rt) with
  | None => rt
  | Some dc =>
      let b := bufferedAmount dc in
      let b' := Z.max 0 (b - Z.max 0 n) in
      let rt1 := with_self rt (set_dataChannel (self rt)
                                 (Some (dc_set_bufferedAmount dc b'))) in
      if (bufferedAmountLowThreshold dc <? b) && (b' <=? bufferedAmountLowThreshold dc)
      then match onbufferedamountlow dc with
           | Some cid => sendNextChunk rt1 cid
           | None => rt1
           end
      else rt1
  end.

Definition take_task (rt : Runtime) (i : nat) : Runtime :=
  with_tasks rt (remove_nth i (tasks rt)).

Definition step (rt : Runtime) (ev : Event) : Runtime * list Effect :=
  match ev with
  | CallSendFile file now => sendFile rt file now
  | CallSetRemoteId id => (with_self rt (set_remoteId (self rt) (Some id)), [])
  | CallInitPeerConnection initiator => (initPeerConnection rt initiator, [])
  | ReaderLoad i =>
      match nth_error (tasks rt) i with
      | Some (FileRead cid chunk) => reader_onload (take_task rt i) cid chunk
      | _ => (rt, [])
      end
  | ReaderError i =>
      match nth_error (tasks rt) i with
      | Some (FileRead cid _) => reader_onerror (take_task rt i) cid
      | _ => (rt, [])
      end
  | TimerFires i =>
      match nth_error (tasks rt) i with
      | Some (Timer _ (RetrySendSignal msg attempt)) =>
          sendSignal (take_task rt i) msg attempt
      | Some (Timer _ (RetryTrySend cid chunkData)) =>
          trySend (take_task rt i) cid chunkData
      | _ => (rt, [])
      end
  | OfferCreated i offer_sdp =>
      match nth_error (tasks rt) i with
      | Some AwaitCreateOffer => createOffer_then (take_task rt i) offer_sdp
      | _ => (rt, [])
      end
  | AnswerCreated i answer_sdp =>
      match nth_error (tasks rt) i with
      | Some AwaitAnswer => handleSignal_answer (take_task rt i) answer_sdp
      | _ => (rt, [])
      end
  | IceCandidate cand =>
      match peerConnection (self rt) with
      | Some _ => onicecandidate rt cand
      | None => (rt, [])
      end
  | ConnectionStateChange s =>
      let rt1 := pc_call rt (fun pc => pc_set_state pc s) in
      (rt1, onconnectionstatechange rt1)
  | DataChannelArrives dc =>
      match peerConnection (self rt) with
      | Some pc =>
          if ondatachannel pc
          then (with_self rt (setupDataChannel (set_dataChannel (self rt) (Some dc))), [])
          else (rt, [])
      | None => (rt, [])
      end
  | ChannelReadyState s =>
      match dataChannel (self rt) with
      | Some dc => (with_self rt (set_dataChannel (self rt)
                                    (Some (dc_set_readyState dc s))), [])
      | None => (rt, [])
      end
  | ChannelDrain n => (channel_drain rt n, [])
  | ChannelMessage fr =>
      match dataChannel (self rt) with
      | Some _ => let '(p, eff) := onmessage (self rt) fr in (with_self rt p, eff)
      | None => (rt, [])
      end
  | WsReadyStateChange s =>
      (with_self rt (set_ws (self rt) {| ws_readyState := s |}), [])
  | WsMessage msg => handleSignal rt msg
  end.

Fixpoint run (rt : Runtime) (evs : list Event) : Runtime * list Effect :=
  match evs with
  | [] => (rt, [])
  | ev :: rest =>
      let '(rt1, eff1) := step rt ev in
      let '(rt2, eff2) := run rt1 rest in
      (rt2, eff1 ++ eff2)
  end.

(** [new PeerTransfer(serverURL, peerId)] *)
Definition new_PeerTransfer (id : string) : Runtime :=
  {| self := {| peerId := id; remoteId := None;
                ws := {| ws_readyState := WS_CONNECTING |};
                peerConnection := None; dataChannel := None;
                incomingChunks := []; expectedChunks := 0;
                receivingFile := None |};
     closures := []; tasks := [] |}.

(** ** Notions the specification uses *)

(** The channel state of the specification, read off the peer connection:
    no connection object is [Idle]; a connection that has not reported
    [connected] is [Negotiating]. *)
Inductive ChannelState : Set := Idle | Negotiating | Open | Closed | Failed.

Definition channelState (p : PeerTransfer) : ChannelState :=
  match peerConnection p with
  | None => Idle
  | Some pc =>
      match connectionState pc with
      | pc_new | pc_connecting => Negotiating
      | pc_connected => Open
      | pc_disconnected | pc_failed => Failed
      | pc_closed => Closed
      end
  end.

(** The receiver fed a sequence of frames, in order. *)
Fixpoint receive (p : PeerTransfer) (frames : list Frame) : PeerTransfer * list Effect :=
  match frames with
  | [] => (p, [])
  | fr :: rest =>
      let '(p1, eff1) := onmessage p fr in
      let '(p2, eff2) := receive p1 rest in
      (p2, eff1 ++ eff2)
  end.

(** The frames handed to the channel, the progress values and the
    completions in an effect trace. *)
Definition sent_frames (effs : list Effect) : list Frame :=
  flat_map (fun e => match e with ChannelSend fr => [fr] | _ => [] end) effs.

Definition chunk_frames (effs : list Effect) : list (list Byte.byte) :=
  flat_map (fun e => match e with ChannelSend (BinaryFrame d) => [d] | _ => [] end) effs.

Definition progress_values (effs : list Effect) : list JsNumber.t :=
  flat_map (fun e => match e with OnProgress p => [p] | _ => [] end) effs.

Definition completions (effs : list Effect) : list (Blob * FileMeta) :=
  flat_map (fun e => match e with OnComplete b m => [(b, m)] | _ => [] end) effs.

(** Calls and sends of the class, without the console. *)
Definition observable (effs : list Effect) : list Effect :=
  filter (fun e => match e with ConsoleWarn _ | ConsoleError _ => false | _ => true end) effs.

(** The retry timer of [sendSignal] expiring once for each observed state
    of the relay connection. *)
Definition retry_schedule (obs : list WsReadyState) : list Event :=
  flat_map (fun s => [WsReadyStateChange s; TimerFires 0]) obs.

(** What the environment does to one running transfer: reads complete or
    fail, timers expire, the channel transmits. *)
Definition transfer_event (ev : Event) : bool :=
  match ev with
  | ReaderLoad _ | ReaderError _ | TimerFires _ | ChannelDrain _ => true
  | _ => false
  end.

Definition buffered (rt : Runtime) : Z :=
  match dataChannel (self rt) with
  | Some dc => bufferedAmount dc
  | None => 0
  end.

(** The [i]-th slice [sendNextChunk] reads. *)
Definition chunk_of (f : File.t) (i : Z) : list Byte.byte :=
  File.slice f (i * CHUNK_SIZE) (Z.min (i * CHUNK_SIZE + CHUNK_SIZE) (File.size f)).

(** A page whose data channel is open and idle. *)
Definition fresh_channel : RTCDataChannel :=
  {| readyState := dc_open; bufferedAmount := 0;
     bufferedAmountLowThreshold := 1024 * 1024;
     onbufferedamountlow := None; sendQueueLimit := None |}.

Definition connected (id : string) : Runtime :=
  with_self (new_PeerTransfer id)
            (set_dataChannel (self (new_PeerTransfer id)) (Some fresh_channel)).


(** The metadata [sendFile] builds for [file] at clock reading [now]. *)
Definition meta_of (file : File.t) (now : Z) : FileMeta :=
  {| fileId := Date_now_toString now; name := File.name file;
     size := File.size file; type := File.type file;
     totalChunks := JsNumber.Math_ceil_div (File.size file) CHUNK_SIZE |}.

(** A transfer of invocation [cid] is in flight: chunks remain to be sent. *)
Definition in_flight (rt : Runtime) (cid : nat) : Prop :=
  exists c, nth_error (closures rt) cid = Some c /\ chunkIndex c < c_totalChunks c.

(** The number of chunks of a file, [Math.ceil(file.size / CHUNK_SIZE)]. *)
Definition total_chunks (f : File.t) : Z :=
  JsNumber.Math_ceil_div (File.size f) CHUNK_SIZE.

(** What [trySend] does when it hands chunk [k] to the channel: the chunk
    frame, the progress call and, after the last chunk, the completion
    frame. *)
Definition chunk_effects (f : File.t) (id : string) (k : Z) : list Effect :=
  [ChannelSend (BinaryFrame (chunk_of f k));
   OnProgress (percent (k + 1) (total_chunks f))]
  ++ (if k + 1 <? total_chunks f then []
      else [ChannelSend (TextFrame (FileCompleteMsg id))]).

(** The same for [count] chunks from chunk [k] on. *)
Fixpoint chunks_effects (f : File.t) (id : string) (k : Z) (count : nat)
  : list Effect :=
  match count with
  | O => []
  | S count' => chunk_effects f id k ++ chunks_effects f id (k + 1) count'
  end.

(** The page runs exactly one transfer, of file [f] with identifier [id],
    over an open channel that refuses no frame; [k] chunks were handed
    over; either nothing is pending or the read of chunk [k] is. *)
Definition transferring (f : File.t) (id : string) (k : Z) (rt : Runtime) : Prop :=
  0 <= k <= total_chunks f /\
  (exists dc, dataChannel (self rt) = Some dc /\ readyState dc = dc_open /\
              sendQueueLimit dc = None /\ onbufferedamountlow dc = Some 0%nat) /\
  exists r,
    closures rt = [{| c_file := f; c_fileId := id; c_totalChunks := total_chunks f;
                      chunkIndex := k; isReading := r |}] /\
    ((r = false /\ tasks rt = []) \/
     (r = true /\ tasks rt = [FileRead 0 (chunk_of f k)] /\
      k < total_chunks f /\ buffered rt <= 16 * 1024 * 1024)).

Definition low_threshold (rt : Runtime) : Z :=
  match dataChannel (self rt) with
  | Some dc => bufferedAmountLowThreshold dc
  | None => 0
  end.

(** A transfer that can still advance: the threshold is the one
    [sendFile] arms, and a transfer with chunks left and no read pending
    is one that [sendNextChunk] paused above 16 MiB. *)
Definition flowing (f : File.t) (id : string) (k : Z) (rt : Runtime) : Prop :=
  transferring f id k rt /\
  low_threshold rt = 1024 * 1024 /\
  0 <= buffered rt /\
  (k < total_chunks f -> tasks rt = [] -> 16 * 1024 * 1024 < buffered rt).

(** A schedule under which a transfer runs to its end: every read
    completes, and after each chunk the channel transmits all it holds. *)
Definition drain_amount (f : File.t) (now : Z) : Z :=
  frameBytes (TextFrame (FileInfoMsg (meta_of f now)))
  + frameBytes (TextFrame (FileCompleteMsg (Date_now_toString now)))
  + CHUNK_SIZE.

Definition steady_schedule (f : File.t) (now : Z) : list Event :=
  ChannelDrain (drain_amount f now)
  :: List.concat (repeat [ReaderLoad 0; ChannelDrain (drain_amount f now)]
                         (Z.to_nat (total_chunks f))).

(** The slices [k], [k+1], ... ([count] of them), and the progress values
    reported after each of them out of [n]. *)
Fixpoint chunks_from (f : File.t) (k : Z) (count : nat) : list (list Byte.byte) :=
  match count with
  | O => []
  | S count' => chunk_of f k :: chunks_from f (k + 1) count'
  end.

Fixpoint progress_from (n k : Z) (count : nat) : list JsNumber.t :=
  match count with
  | O => []
  | S count' => percent (k + 1) n :: progress_from n (k + 1) count'
  end.

(** The frames of a whole transfer as the specification lists them:
    metadata, the chunks in index order, completion. *)
Definition transfer_frames (f : File.t) (now : Z) : list Frame :=
  TextFrame (FileInfoMsg (meta_of f now))
  :: map BinaryFrame (chunks_from f 0 (Z.to_nat (total_chunks f)))
  ++ [TextFrame (FileCompleteMsg (Date_now_toString now))].

(** [bufferedAmount] after each event of a run, in order. *)
Fixpoint buffered_after (rt : Runtime) (evs : list Event) : list Z :=
  match evs with
  | [] => []
  | ev :: rest =>
      let rt1 := fst (step rt ev) in
      buffered rt1 :: buffered_after rt1 rest
  end.


(** ** Notions for the progress values *)

(** A list of progress values never goes down. *)
Fixpoint nondecreasing (l : list JsNumber.t) : bool :=
  match l with
  | a :: rest =>
      match rest with
      | b :: _ => JsNumber.leb a b && nondecreasing rest
      | [] => true
      end
  | [] => true
  end.

Definition is_100 (p : JsNumber.t) : bool := JsNumber.eqb p (JsNumber.of_Z 100).

(** How often the value 100 is reported. *)
Definition count_100 (l : list JsNumber.t) : nat := List.length (filter is_100 l).

Definition is_complete_frame (fr : Frame) : bool :=
  match fr with
  | TextFrame (FileCompleteMsg _) => true
  | _ => false
  end.

(** Every report of 100 in the trace comes after a completion frame was
    handed to the channel; [queued] tells whether one already was. *)
Fixpoint complete_before_100 (queued : bool) (effs : list Effect) : bool :=
  match effs with
  | [] => true
  | ChannelSend fr :: rest => complete_before_100 (queued || is_complete_frame fr) rest
  | OnProgress p :: rest => (negb (is_100 p) || queued) && complete_before_100 queued rest
  | _ :: rest => complete_before_100 queued rest
  end.

(** Every report of 100 in the trace is followed at once by the
    completion frame, and the completion frame is handed over nowhere
    else. *)
Fixpoint complete_follows_100 (effs : list Effect) : bool :=
  match effs with
  | [] => true
  | OnProgress p :: rest =>
      if is_100 p then
        match rest with
        | ChannelSend fr :: rest' => is_complete_frame fr && complete_follows_100 rest'
        | _ => false
        end
      else complete_follows_100 rest
  | ChannelSend fr :: rest => negb (is_complete_frame fr) && complete_follows_100 rest
  | _ :: rest => complete_follows_100 rest
  end.

(** ** Rounding to binary64, on integers

    The value of a positive float is [m * 2 ^ e]; the numbers below are
    quotients [A / B] of integers.  [rne A B] is [A / B] rounded to the
    nearest integer, ties to even. *)
Definition rne (A B : Z) : Z :=
  match 2 * (A mod B) ?= B with
  | Lt => A / B
  | Eq => if Z.even (A / B) then A / B else A / B + 1
  | Gt => A / B + 1
  end.

(** The position of a remainder [r] of a division by [B] relative to
    one half. *)
Definition loc_frac (r B : Z) : location :=
  if r =? 0 then loc_Exact else loc_Inexact (2 * r ?= B).

(** The truncated mantissa [m] with location [l] stands for [A / B]. *)
Definition stands_for (m : Z) (l : location) (A B : Z) : Prop :=
  0 < B /\ 0 <= A /\ m = A / B /\ l = loc_frac (A mod B) B.

(** [A / B * 2 ^ e] rounded to 53 bits: mantissa and exponent. *)
Definition round53 (A B e : Z) : Z * Z :=
  let n := Zdigits2 (A / B) - 53 in
  let M1 := rne A (B * 2 ^ n) in
  if M1 =? 2 ^ 53 then (2 ^ 52, e + n + 1) else (M1, e + n).

(** Order of two positive floats given by mantissa and exponent, both
    mantissas of 53 bits. *)
Definition fle (x y : Z * Z) : Prop :=
  snd x < snd y \/ (snd x = snd y /\ fst x <= fst y).

(** A positive float given by mantissa and exponent. *)
Definition SFpos (x : Z * Z) : spec_float :=
  S754_finite false (Z.to_pos (fst x)) (snd x).

(** Mantissa and exponent of the binary64 value of a positive integer
    below 2^53. *)
Definition norm_of_Z (k : Z) : Z * Z :=
  (k * 2 ^ (53 - Zdigits2 k), Zdigits2 k - 53).

(** The stages of [percent k n] on mantissa and exponent: the quotient,
    the product with 100, the floor. *)
Definition quot53 (k n : Z) : Z * Z :=
  round53 (fst (norm_of_Z k) * 2 ^ 53) (fst (norm_of_Z n))
          (snd (norm_of_Z k) - snd (norm_of_Z n) - 53).

Definition times100 (a : Z * Z) : Z * Z :=
  round53 (fst a * fst (norm_of_Z 100)) 1 (snd a + snd (norm_of_Z 100)).

Definition floorZ (b : Z * Z) : Z := fst b / 2 ^ (- snd b).

Definition percentZ (k n : Z) : Z := floorZ (times100 (quot53 k n)).

(** A mantissa of exactly 53 bits. *)
Definition canonical53 (x : Z * Z) : Prop := 2 ^ 52 <= fst x < 2 ^ 53.

(** ** Further notions *)

(** Nothing is pending and the channel holds no more than its
    [bufferedAmountLowThreshold]: no timer, no read and no
    [bufferedamountlow] event will call into the class. *)
Definition stalled (rt : Runtime) : Prop :=
  tasks rt = [] /\
  exists dc, dataChannel (self rt) = Some dc /\
             0 <= bufferedAmountLowThreshold dc /\
             bufferedAmount dc <= bufferedAmountLowThreshold dc.

(** The data a pending read or a pending retry of [trySend] holds is at
    most one chunk. *)
Definition small_task (t : Task) : Prop :=
  match t with
  | FileRead _ chunk => Z.of_nat (List.length chunk) <= CHUNK_SIZE
  | Timer _ (RetryTrySend _ chunk) => Z.of_nat (List.length chunk) <= CHUNK_SIZE
  | _ => True
  end.

(** Every transfer has a chunk index that is not negative and a
    completion frame of at most [D] bytes, and nothing pending holds more
    than a chunk. *)
Definition chunks_in_hand (D : Z) (rt : Runtime) : Prop :=
  Forall small_task (tasks rt) /\
  Forall (fun c => 0 <= chunkIndex c /\
                   frameBytes (TextFrame (FileCompleteMsg (c_fileId c))) <= D)
         (closures rt).

(** The envelopes of a handshake: the offer of [a] to [b] and the answer
    of [b] to [a], as [sendSignal] builds them. *)
Definition offer_envelope (a b sdp : string) : Envelope.t :=
  {| Envelope.type := "offer"; Envelope.from := a; Envelope.to := Some b;
     Envelope.sdp := Some sdp; Envelope.candidate := None |}.

Definition answer_envelope (b a sdp : string) : Envelope.t :=
  {| Envelope.type := "answer"; Envelope.from := b; Envelope.to := Some a;
     Envelope.sdp := Some sdp; Envelope.candidate := None |}.

(** What the page of an initiator goes through up to its offer, with the
    relay connection open: [setRemoteId], [initPeerConnection(true)], the
    offer of the browser. *)
Definition initiate (b sdp : string) : list Event :=
  [WsReadyStateChange WS_OPEN; CallSetRemoteId b; CallInitPeerConnection true;
   OfferCreated 0 sdp].

(** What the page of a responder goes through: the offer from the relay,
    the answer of the browser. *)
Definition respond (offer : Envelope.t) (sdp : string) : list Event :=
  [WsReadyStateChange WS_OPEN; WsMessage offer; AnswerCreated 0 sdp].

(** The envelopes sent on the relay in an effect trace. *)
Definition ws_sent (effs : list Effect) : list Envelope.t :=
  flat_map (fun e => match e with WsSend env => [env] | _ => [] end) effs.

(** * The relay server, [server/server.js] *)

Module Relay.

(** [v.toString(16)] for an integer [v]. *)
Definition Number_toString16 (v : Z) : string :=
  HexadecimalString.NilZero.string_of_int (Z.to_hex_int v).

Definition uuid_template : string := "xxxxxxxx-xxxx-4xxx-yxxx-xxxxxxxxxxxx".

(** [template.replace(/[xy]/g, function (c) { ... })]: the characters
    are visited from left to right and the function is called once for
    each [x] and each [y].  [rand i] is what [Math.random() * 16 | 0]
    yields in the [i]-th call, an integer from 0 to 15 since
    [Math.random()] lies in [0, 1). *)
Fixpoint replace_xy (template : string) (rand : nat -> Z) (calls : nat) : string :=
  match template with
  | EmptyString => EmptyString
  | String c rest =>
      if Ascii.eqb c "x" || Ascii.eqb c "y" then
        let r := rand calls in
        let v := if Ascii.eqb c "x" then r else Z.lor (Z.land r 3) 8 in
        (Number_toString16 v ++ replace_xy rest rand (S calls))%string
      else String c (replace_xy rest rand calls)
  end.

Definition uuidv4 (rand : nat -> Z) : string := replace_xy uuid_template rand 0.

(** A socket object [ws] of the server, named by the number of its
    connection: every [connection] event brings a new object. *)
Definition Socket : Set := nat.

(** The [Map] [clients], in insertion order. *)
Fixpoint Map_set (m : list (Socket * string)) (k : Socket) (v : string)
  : list (Socket * string) :=
  match m with
  | [] => [(k, v)]
  | (k', v') :: rest =>
      if Nat.eqb k' k then (k, v) :: rest else (k', v') :: Map_set rest k v
  end.

Fixpoint Map_delete (m : list (Socket * string)) (k : Socket) : list (Socket * string) :=
  match m with
  | [] => []
  | (k', v') :: rest =>
      if Nat.eqb k' k then rest else (k', v') :: Map_delete rest k
  end.

(** The server.  [handlers] holds, for every socket that connected, the
    [id] its two handlers close over; [readyState] is the state of each
    socket object.  [exited] tells that an exception left a handler: no
    handler catches it, so the process has ended. *)
Record Server : Set := {
  handlers : list string;
  clients : list (Socket * string);
  readyState : Socket -> WsReadyState;
  exited : bool
}.

Definition is_OPEN (s : WsReadyState) : bool :=
  match s with WS_OPEN => true | _ => false end.

Definition set_readyState (f : Socket -> WsReadyState) (ws : Socket) (s : WsReadyState)
  : Socket -> WsReadyState :=
  fun k => if Nat.eqb k ws then s else f k.

Section Payload.

(** What [JSON.parse] yields for a message.  The server looks at nothing
    in it; [Send c data] is [c.send(JSON.stringify(data))]. *)
Variable Data : Type.

Inductive Effect : Type :=
| Log (text : string)
| Send (client : Socket) (data : Data)
| SyntaxError.                     (* [JSON.parse] throws, uncaught *)

Inductive Event : Type :=
| Connection (rand : nat -> Z)     (* a socket connects; it is open *)
| Message (ws : Socket) (data : option Data)
| Close (ws : Socket)
| ReadyStateChange (ws : Socket) (s : WsReadyState).

Definition broadcast (s : Server) (sender : Socket) (data : Data) : list Effect :=
  flat_map (fun entry : Socket * string =>
              let client := fst entry in
              if negb (Nat.eqb client sender) && is_OPEN (readyState s client)
              then [Send client data] else [])
           (clients s).

(** The handlers of a running server. *)
Definition handle (s : Server) (ev : Event) : Server * list Effect :=
  match ev with
  | Connection rand =>
      let ws := List.length (handlers s) in
      let id := uuidv4 rand in
      ({| handlers := handlers s ++ [id];
          clients := Map_set (clients s) ws id;
          readyState := set_readyState (readyState s) ws WS_OPEN;
          exited := exited s |},
       [Log ("New connection " ++ id)])
  | Message ws data =>
      match nth_error (handlers s) ws with
      | None => (s, [])
      | Some _ =>
          match data with
          | None =>
              ({| handlers := handlers s; clients := clients s;
                  readyState := readyState s; exited := true |},
               [SyntaxError])
          | Some d => (s, broadcast s ws d)
          end
      end
  | Close ws =>
      match nth_error (handlers s) ws with
      | None => (s, [])
      | Some id =>
          ({| handlers := handlers s;
              clients := Map_delete (clients s) ws;
              readyState := readyState s;
              exited := exited s |},
           [Log ("Connection " ++ id ++ " closed")])
      end
  | ReadyStateChange ws st =>
      ({| handlers := handlers s; clients := clients s;
          readyState := set_readyState (readyState s) ws st;
          exited := exited s |}, [])
  end.

(** An event at the server; a process that has exited handles none. *)
Definition step (s : Server) (ev : Event) : Server * list Effect :=
  if exited s then (s, []) else handle s ev.

Fixpoint run (s : Server) (evs : list Event) : Server * list Effect :=
  match evs with
  | [] => (s, [])
  | ev :: rest =>
      let '(s1, eff1) := step s ev in
      let '(s2, eff2) := run s1 rest in
      (s2, eff1 ++ eff2)
  end.

(** The sockets sent to and what they were sent, in order. *)
Definition sends (effs : list Effect) : list (Socket * Data) :=
  flat_map (fun e => match e with Send c d => [(c, d)] | _ => [] end) effs.

End Payload.

(** The server at start. *)
Definition start : Server :=
  {| handlers := []; clients := []; readyState := fun _ => WS_CONNECTING;
     exited := false |}.

(** A hexadecimal digit. *)
Definition is_hex_digit (c : ascii) : bool :=
  let n := nat_of_ascii c in
  (Nat.leb 48 n && Nat.leb n 57) || (Nat.leb 97 n && Nat.leb n 102).

End Relay.

Arguments Relay.Log {Data} text.
Arguments Relay.Send {Data} client data.
Arguments Relay.SyntaxError {Data}.
Arguments Relay.Connection {Data} rand.
Arguments Relay.Message {Data} ws data.
Arguments Relay.Close {Data} ws.
Arguments Relay.ReadyStateChange {Data} ws s.
Arguments Relay.broadcast {Data} s sender data.
Arguments Relay.handle {Data} s ev.
Arguments Relay.step {Data} s ev.
Arguments Relay.run {Data} s evs.
Arguments Relay.sends {Data} effs.

(** The keys of [clients] are distinct sockets that have connected. *)
Definition keys_ok (s : Relay.Server) : Prop :=
  NoDup (map fst (Relay.clients s)) /\
  Forall (fun k => (k < List.length (Relay.handlers s))%nat) (map fst (Relay.clients s)).

(** No event of the list closes socket [c] or changes its state. *)
Definition untouched {Data : Type} (c : Relay.Socket) (evs : list (Relay.Event Data))
  : bool :=
  forallb (fun ev => match ev with
                     | Relay.Close w => negb (Nat.eqb w c)
                     | Relay.ReadyStateChange w _ => negb (Nat.eqb w c)
                     | _ => true
                     end) evs.

(** The digit [v.toString(16)] consists of for [v] from 0 to 15. *)
Definition hex_char (v : Z) : ascii :=
  ascii_of_nat (Z.to_nat (if v <? 10 then 48 + v else 87 + v)).

(** The character a version 4 identifier may have at position [i]: the
    hyphens, the version digit 4, the variant digit 8, 9, a or b,
    hexadecimal digits elsewhere. *)
Definition uuid_char_ok (i : nat) (c : ascii) : bool :=
  if Nat.eqb i 8 || Nat.eqb i 13 || Nat.eqb i 18 || Nat.eqb i 23 then Ascii.eqb c "-"
  else if Nat.eqb i 14 then Ascii.eqb c "4"
  else if Nat.eqb i 19
       then Ascii.eqb c "8" || Ascii.eqb c "9" || Ascii.eqb c "a" || Ascii.eqb c "b"
       else Relay.is_hex_digit c.

(** * The panel, [components/FileTransferPanel.tsx] *)

Module Panel.

(** The state of the component: its state variables and [peerRef.current].
    An object URL stands for its blob. *)
Record t : Set := {
  peerId : string;
  remotePeerId : string;
  file : option File.t;
  progress : JsNumber.t;
  received : option (Blob * string);
  connected : bool;
  peer : option Runtime
}.

Definition set_peer (p : t) (rt : option Runtime) : t :=
  {| peerId := peerId p; remotePeerId := remotePeerId p; file := file p;
     progress := progress p; received := received p; connected := connected p;
     peer := rt |}.

Definition set_file (p : t) (f : option File.t) : t :=
  {| peerId := peerId p; remotePeerId := remotePeerId p; file := f;
     progress := progress p; received := received p; connected := connected p;
     peer := peer p |}.

Definition set_progress (p : t) (x : JsNumber.t) : t :=
  {| peerId := peerId p; remotePeerId := remotePeerId p; file := file p;
     progress := x; received := received p; connected := connected p;
     peer := peer p |}.

Definition set_received (p : t) (r : option (Blob * string)) : t :=
  {| peerId := peerId p; remotePeerId := remotePeerId p; file := file p;
     progress := progress p; received := r; connected := connected p;
     peer := peer p |}.

Definition set_connected (p : t) (b : bool) : t :=
  {| peerId := peerId p; remotePeerId := remotePeerId p; file := file p;
     progress := progress p; received := received p; connected := b;
     peer := peer p |}.

Definition set_peerId (p : t) (id : string) : t :=
  {| peerId := id; remotePeerId := remotePeerId p; file := file p;
     progress := progress p; received := received p; connected := connected p;
     peer := peer p |}.

(** The component before its effect hook has run. *)
Definition initial : t :=
  {| peerId := ""; remotePeerId := ""; file := None; progress := JsNumber.of_Z 0;
     received := None; connected := false; peer := None |}.

(** The effect hook, with [id] for [Math.random().toString(36).slice(2, 10)]. *)
Definition mount (p : t) (id : string) : t :=
  set_peer (set_peerId p id) (Some (new_PeerTransfer id)).

(** The callbacks the effect hook installs on the peer; [onFileInfo] is
    not installed. *)
Definition callback (p : t) (e : Effect) : t :=
  match e with
  | OnConnect => set_connected p true
  | OnDisconnect => set_connected p false
  | OnProgress x => set_progress p x
  | OnComplete blob meta => set_received p (Some (blob, name meta))
  | _ => p
  end.

(** The peer handles an event of its own and calls back. *)
Definition on_peer_event (p : t) (ev : Event) : t * list Effect :=
  match peer p with
  | None => (p, [])
  | Some rt =>
      let '(rt1, effs) := step rt ev in
      (fold_left callback effs (set_peer p (Some rt1)), effs)
  end.

Fixpoint on_peer_events (p : t) (evs : list Event) : t * list Effect :=
  match evs with
  | [] => (p, [])
  | ev :: rest =>
      let '(p1, eff1) := on_peer_event p ev in
      let '(p2, eff2) := on_peer_events p1 rest in
      (p2, eff1 ++ eff2)
  end.

(** [handleFileChange] with the files of the input element. *)
Definition handleFileChange (p : t) (files : option (list File.t)) : t :=
  match files with
  | Some (f :: _) => set_file p (Some f)
  | _ => p
  end.

(** [handleSend], clicked when [Date.now()] reads [now]. *)
Definition handleSend (p : t) (now : Z) : t * list Effect :=
  match file p, peer p with
  | Some f, Some rt =>
      match dataChannel (self rt) with
      | Some dc =>
          if is_open (readyState dc)
          then let '(rt1, effs) := sendFile rt f now in
               (fold_left callback effs (set_peer p (Some rt1)), effs)
          else (p, [])
      | None => (p, [])
      end
  | _, _ => (p, [])
  end.

Section Trim.

(** [String.prototype.trim] *)
Variable trim : string -> string.

Definition handleConnect (p : t) : t :=
  if String.eqb (trim (remotePeerId p)) "" then p
  else
    match peer p with
    | None => p
    | Some rt =>
        let rt1 := with_self rt (set_remoteId (self rt) (Some (trim (remotePeerId p)))) in
        set_peer p (Some (initPeerConnection rt1 true))
    end.

End Trim.

End Panel.

(** One transfer of [f] at chunk [k], not reading, whose [trySend] found
    the queue full or the channel above 16 MiB and waits for its 50 ms
    timer with chunk [k] in hand. *)
Definition retry_pending (f : File.t) (id : string) (k : Z) (p : PeerTransfer) : Runtime :=
  {| self := p;
     closures := [{| c_file := f; c_fileId := id; c_totalChunks := total_chunks f;
                     chunkIndex := k; isReading := false |}];
     tasks := [Timer 50 (RetryTrySend 0 (chunk_of f k))] |}.

(** One transfer of [f] at chunk [k] whose read of chunk [k] is pending. *)
Definition read_pending (f : File.t) (id : string) (k : Z) (p : PeerTransfer) : Runtime :=
  {| self := p;
     closures := [{| c_file := f; c_fileId := id; c_totalChunks := total_chunks f;
                     chunkIndex := k; isReading := true |}];
     tasks := [FileRead 0 (chunk_of f k)] |}.

(** The task belongs to the [sendFile] invocation [i]. *)
Definition mentions (i : nat) (t : Task) : bool :=
  match t with
  | FileRead cid _ => Nat.eqb cid i
  | Timer _ (RetryTrySend cid _) => Nat.eqb cid i
  | _ => false
  end.

(** Invocation [i] of [sendFile] has nothing that would call its
    closures again: it is not reading, no read and no retry of its own
    is pending, and [onbufferedamountlow] is not its [sendNextChunk]. *)
Definition orphaned (i : nat) (rt : Runtime) : Prop :=
  (exists c, nth_error (closures rt) i = Some c /\ isReading c = false) /\
  forallb (fun t => negb (mentions i t)) (tasks rt) = true /\
  (forall dc, dataChannel (self rt) = Some dc -> onbufferedamountlow dc <> Some i).

(** ** A page that has sent before

    The closures of earlier invocations of [sendFile] stay in [closures];
    a later invocation has a higher number.  [after_earlier old rt] is the
    page [rt] with the closures [old] of earlier invocations in front:
    the invocation numbers in its tasks and in the handler of the channel
    are higher by the number of those. *)
Definition shift_task (n : nat) (t : Task) : Task :=
  match t with
  | FileRead cid chunk => FileRead (cid + n) chunk
  | Timer d (RetryTrySend cid data) => Timer d (RetryTrySend (cid + n) data)
  | _ => t
  end.

Definition shift_handler (n : nat) (dc : RTCDataChannel) : RTCDataChannel :=
  dc_set_onbufferedamountlow dc
    (option_map (fun cid => (cid + n)%nat) (onbufferedamountlow dc)).

Definition after_earlier (old : list SendFileClosure) (rt : Runtime) : Runtime :=
  {| self := set_dataChannel (self rt)
               (option_map (shift_handler (List.length old)) (dataChannel (self rt)));
     closures := old ++ closures rt;
     tasks := map (shift_task (List.length old)) (tasks rt) |}.

(** ** Backpressure of one transfer *)

(** The send queue of the channel never refuses a chunk while at most
    16 MiB are outstanding. *)
Definition takes_chunks (dc : RTCDataChannel) : Prop :=
  forall lim, sendQueueLimit dc = Some lim -> 16 * 1024 * 1024 + CHUNK_SIZE <= lim.

(** The send queue of the channel is bounded by 16 MiB or less, as in a
    browser that refuses what would exceed its 16 MiB queue, or it takes
    every chunk while at most 16 MiB are outstanding. *)
Definition queue_limit_ok (dc : RTCDataChannel) : Prop :=
  (exists lim, sendQueueLimit dc = Some lim /\ lim <= 16 * 1024 * 1024) \/
  takes_chunks dc.

(** Invocation [cid] of [sendFile] is the only one that can still act:
    its [sendNextChunk] is the handler of [bufferedamountlow], armed at
    1 MiB, and the event loop owes the page nothing, or the one read that
    [sendNextChunk] started while the channel held at most 16 MiB. *)
Definition sole_transfer (cid : nat) (rt : Runtime) : Prop :=
  exists dc c,
    dataChannel (self rt) = Some dc /\
    onbufferedamountlow dc = Some cid /\
    bufferedAmountLowThreshold dc = 1024 * 1024 /\
    takes_chunks dc /\
    nth_error (closures rt) cid = Some c /\
    0 <= chunkIndex c /\
    (tasks rt = [] \/
     exists chunk,
       tasks rt = [FileRead cid chunk] /\
       Z.of_nat (List.length chunk) <= CHUNK_SIZE /\
       isReading c = true /\
       bufferedAmount dc <= 16 * 1024 * 1024).

(** The channel has a send queue of at most 16 MiB and holds no more. *)
Definition below_limit (rt : Runtime) : Prop :=
  exists dc lim,
    dataChannel (self rt) = Some dc /\
    sendQueueLimit dc = Some lim /\ lim <= 16 * 1024 * 1024 /\
    bufferedAmount dc <= 16 * 1024 * 1024.

(** Nothing is pending and [bufferedamountlow] is armed at 1 MiB. *)
Definition paused (rt : Runtime) : Prop :=
  tasks rt = [] /\ low_threshold rt = 1024 * 1024.

(** The steady schedule for a channel that holds [b0] bytes when
    [sendFile] is called: the first transmission takes these as well. *)
Definition steady_schedule_from (b0 : Z) (f : File.t) (now : Z) : list Event :=
  ChannelDrain (b0 + drain_amount f now)
  :: List.concat (repeat [ReaderLoad 0; ChannelDrain (drain_amount f now)]
                         (Z.to_nat (total_chunks f))).
(** * Properties *)

(** ** Basic facts *)

Lemma with_self_self (rt : Runtime) : with_self rt (self rt) = rt.
Proof. destruct rt; reflexivity. Qed.

Lemma option_string_eqb_eq (a b : option string) :
  option_string_eqb a b = true <-> a = b.
Proof.
  destruct a as [x|], b as [y|]; simpl; try (split; congruence).
  rewrite String.eqb_eq. split; congruence.
Qed.

Lemma run_app (rt : Runtime) (evs1 evs2 : list Event) :
  run rt (evs1 ++ evs2) =
  let '(rt1, eff1) := run rt evs1 in
  let '(rt2, eff2) := run rt1 evs2 in
  (rt2, eff1 ++ eff2).
Proof.
  revert rt. induction evs1 as [|ev evs1 IH]; intros rt; simpl.
  - destruct (run rt evs2); reflexivity.
  - destruct (step rt ev) as [rt1 eff1]. rewrite IH.
    destruct (run rt1 evs1) as [rt2 eff2].
    destruct (run rt2 evs2) as [rt3 eff3].
    rewrite app_assoc. reflexivity.
Qed.

(** A type that a [File] or a [Blob] already has passes the [Blob]
    constructor unchanged: normalising is idempotent. *)
Lemma ascii_lowercase_printable (c : ascii) :
  is_printable c = true ->
  is_printable (ascii_lowercase c) = true /\
  ascii_lowercase (ascii_lowercase c) = ascii_lowercase c.
Proof.
  destruct c as [[] [] [] [] [] [] [] []]; intros H;
    try discriminate H; split; reflexivity.
Qed.

Lemma to_lowercase_printable (s : string) :
  all_printable s = true ->
  all_printable (to_lowercase s) = true /\
  to_lowercase (to_lowercase s) = to_lowercase s.
Proof.
  induction s as [|c s IH]; intros H; [split; reflexivity|].
  cbn [all_printable] in H. apply andb_true_iff in H as [Hc Hs].
  destruct (ascii_lowercase_printable c Hc) as [H1 H2].
  destruct (IH Hs) as [H3 H4].
  cbn [to_lowercase all_printable]. rewrite H1, H2, H3, H4. split; reflexivity.
Qed.

Lemma normalized_type_idempotent (ty : string) :
  normalized_type (normalized_type ty) = normalized_type ty.
Proof.
  unfold normalized_type at 2 3.
  destruct (all_printable ty) eqn:H; [|reflexivity].
  destruct (to_lowercase_printable ty H) as [H1 H2].
  unfold normalized_type. rewrite H1, H2. reflexivity.
Qed.

Example normalized_type_examples :
  normalized_type "Text/PLAIN" = "text/plain"%string /\
  normalized_type (String (ascii_of_nat 9) "text/plain") = EmptyString /\
  normalized_type "application/octet-stream" = "application/octet-stream"%string.
Proof. repeat split; reflexivity. Qed.

(** ** Transfer receiver *)

(** C6: with no transfer in progress a completion frame fires no event and
    leaves the receiver, and the whole page, as it was. *)
Theorem complete_without_transfer_ignored (rt : Runtime) (id : string) :
  receivingFile (self rt) = None ->
  handleComplete (self rt) = (self rt, []) /\
  onmessage (self rt) (TextFrame (FileCompleteMsg id)) = (self rt, []) /\
  step rt (ChannelMessage (TextFrame (FileCompleteMsg id))) = (rt, []).
Proof.
  intros Hnone.
  assert (Hc : handleComplete (self rt) = (self rt, [])).
  { unfold handleComplete. rewrite Hnone. reflexivity. }
  repeat split; try exact Hc.
  simpl. destruct (dataChannel (self rt)); [|reflexivity].
  rewrite Hc, with_self_self. reflexivity.
Qed.

Lemma complete_without_transfer_ignored_witness :
  receivingFile (self (connected "p2")) = None /\
  step (connected "p2") (ChannelMessage (TextFrame (FileCompleteMsg "17")))
  = (connected "p2", []).
Proof.
  split; [reflexivity|].
  apply (complete_without_transfer_ignored (connected "p2") "17"). reflexivity.
Defined.

(** ** Signaling *)

(** C8: an envelope whose [to] is not the local identity is discarded:
    nothing is processed, fired or sent, and the state is unchanged. *)
Theorem foreign_envelope_discarded (rt : Runtime) (msg : Envelope.t) :
  Envelope.to msg <> Some (peerId (self rt)) ->
  handleSignal rt msg = (rt, []) /\ step rt (WsMessage msg) = (rt, []).
Proof.
  intros Hto.
  assert (H : handleSignal rt msg = (rt, [])).
  { unfold handleSignal.
    destruct (option_string_eqb (Envelope.to msg) (Some (peerId (self rt)))) eqn:E.
    - apply option_string_eqb_eq in E. contradiction.
    - reflexivity. }
  split; [exact H | exact H].
Qed.

Lemma foreign_envelope_discarded_witness :
  let msg := {| Envelope.type := "offer"; Envelope.from := "p1";
                Envelope.to := Some "p3"%string; Envelope.sdp := Some "v=0"%string;
                Envelope.candidate := None |} in
  Envelope.to msg <> Some (peerId (self (new_PeerTransfer "p2"))) /\
  step (new_PeerTransfer "p2") (WsMessage msg) = (new_PeerTransfer "p2", []).
Proof.
  intros msg.
  assert (H : Envelope.to msg <> Some (peerId (self (new_PeerTransfer "p2")))).
  { simpl. discriminate. }
  split; [exact H|].
  apply (foreign_envelope_discarded (new_PeerTransfer "p2") msg H).
Defined.

(** C7: in the [Idle] state an offer addressed to the local identity moves
    the session to [Negotiating] and makes the offerer the remote identity;
    a candidate that arrives there is ignored without any change. *)
Theorem idle_offer_negotiates_candidate_ignored (rt : Runtime) (msg : Envelope.t) :
  channelState (self rt) = Idle ->
  Envelope.to msg = Some (peerId (self rt)) ->
  (Envelope.type msg = "offer"%string ->
   channelState (self (fst (handleSignal rt msg))) = Negotiating /\
   remoteId (self (fst (handleSignal rt msg))) = Some (Envelope.from msg) /\
   peerId (self (fst (handleSignal rt msg))) = peerId (self rt)) /\
  (Envelope.type msg = "candidate"%string ->
   handleSignal rt msg = (rt, []) /\ step rt (WsMessage msg) = (rt, [])).
Proof.
  intros Hidle Hto.
  assert (Hpc : peerConnection (self rt) = None).
  { unfold channelState in Hidle.
    destruct (peerConnection (self rt)) as [pc|]; [|reflexivity].
    destruct (connectionState pc); discriminate. }
  assert (Heq : option_string_eqb (Envelope.to msg) (Some (peerId (self rt))) = true).
  { apply option_string_eqb_eq. exact Hto. }
  split; intros Hty.
  - unfold handleSignal. rewrite Heq, Hty. simpl. repeat split; reflexivity.
  - assert (H : handleSignal rt msg = (rt, [])).
    { unfold handleSignal. rewrite Heq, Hty. simpl.
      unfold pc_call. rewrite Hpc. reflexivity. }
    split; exact H.
Qed.

Lemma idle_offer_negotiates_candidate_ignored_witness :
  let rt := new_PeerTransfer "B" in
  let offer := {| Envelope.type := "offer"; Envelope.from := "A";
                  Envelope.to := Some "B"%string; Envelope.sdp := Some "v=0"%string;
                  Envelope.candidate := None |} in
  channelState (self rt) = Idle /\
  channelState (self (fst (handleSignal rt offer))) = Negotiating /\
  remoteId (self (fst (handleSignal rt offer))) = Some "A"%string.
Proof.
  intros rt offer.
  split; [reflexivity|].
  destruct (idle_offer_negotiates_candidate_ignored rt offer eq_refl eq_refl)
    as [Hoffer _].
  destruct (Hoffer eq_refl) as (H1 & H2 & _).
  split; [exact H1 | exact H2].
Defined.

(** *** The retry loop of [sendSignal] *)

Lemma envelope_of_set_ws (p : PeerTransfer) (w : WebSocket) (msg : SignalBody) :
  envelope_of (set_ws p w) msg = envelope_of p msg.
Proof. reflexivity. Qed.

(** With no timer pending the schedule does nothing. *)
Lemma retry_schedule_idle (obs : list WsReadyState) :
  forall rt, tasks rt = [] ->
  exists rt', run rt (retry_schedule obs) = (rt', []) /\ tasks rt' = [] /\
              forall msg, envelope_of (self rt') msg = envelope_of (self rt) msg.
Proof.
  induction obs as [|s obs IH]; intros rt Ht.
  - exists rt. simpl. auto.
  - simpl. rewrite Ht. simpl.
    destruct (IH (with_self rt (set_ws (self rt) {| ws_readyState := s |})) Ht)
      as (rt' & Hrun & Ht' & Henv).
    rewrite Hrun. exists rt'. repeat split; auto.
Qed.

(** A pending retry with attempt number [a] is settled after at most
    [21 - a] expirations of the timer. *)
Lemma retry_schedule_settles (msg : SignalBody) (obs : list WsReadyState) :
  forall (a : nat) (rt : Runtime),
    tasks rt = [Timer RETRY_DELAY (RetrySendSignal msg a)] ->
    (a <= MAX_RETRIES)%nat ->
    (S MAX_RETRIES <= List.length obs + a)%nat ->
    exists rt' eff,
      run rt (retry_schedule obs) = (rt', eff) /\ tasks rt' = [] /\
      (eff = [WsSend (envelope_of (self rt) msg)] \/
       eff = [ConsoleWarn dropping_signal]).
Proof.
  unfold MAX_RETRIES.
  induction obs as [|s obs IH]; intros a rt Ht Ha Hlen; simpl in Hlen.
  - lia.
  - simpl. rewrite Ht. simpl.
    set (rt1 := take_task (with_self rt (set_ws (self rt) {| ws_readyState := s |})) 0).
    assert (Ht1 : tasks rt1 = []).
    { unfold rt1, take_task. simpl. rewrite Ht. reflexivity. }
    assert (Henv1 : envelope_of (self rt1) msg = envelope_of (self rt) msg)
      by reflexivity.
    assert (Hws : ws_readyState (ws (self rt1)) = s) by reflexivity.
    clearbody rt1.
    unfold sendSignal. rewrite Hws.
    destruct s.
    + (* still establishing *)
      unfold MAX_RETRIES. destruct (Nat.ltb a 20) eqn:Elt.
      * apply Nat.ltb_lt in Elt.
        destruct (IH (S a) (add_task rt1 (Timer RETRY_DELAY (RetrySendSignal msg (S a)))))
          as (rt' & eff & Hrun & Ht' & Heff).
        { unfold add_task. simpl. rewrite Ht1. reflexivity. }
        { lia. }
        { lia. }
        change (self (add_task rt1 (Timer RETRY_DELAY (RetrySendSignal msg (S a)))))
          with (self rt1) in Heff.
        rewrite Henv1 in Heff.
        rewrite Hrun. exists rt', eff. simpl. repeat split; auto.
      * destruct (retry_schedule_idle obs rt1 Ht1) as (rt' & Hrun & Ht' & _).
        rewrite Hrun. exists rt', [ConsoleWarn dropping_signal]. auto.
    + destruct (retry_schedule_idle obs rt1 Ht1) as (rt' & Hrun & Ht' & _).
      rewrite Hrun. exists rt', [WsSend (envelope_of (self rt1) msg)].
      rewrite Henv1. auto.
    + destruct (retry_schedule_idle obs rt1 Ht1) as (rt' & Hrun & Ht' & _).
      rewrite Hrun. exists rt', [ConsoleWarn dropping_signal]. auto.
    + destruct (retry_schedule_idle obs rt1 Ht1) as (rt' & Hrun & Ht' & _).
      rewrite Hrun. exists rt', [ConsoleWarn dropping_signal]. auto.
Qed.

(** C9: [sendSignal] sends at once on an open relay connection; while the
    connection is establishing it re-arms a 100 ms timer, for attempts
    below 20 only; in every other case it drops the envelope with a
    warning.  Whatever the connection does, after at most 20 expirations of
    the timer nothing is pending, and the envelope was sent exactly once
    or dropped with exactly one warning. *)
Theorem sendSignal_bounded_retry (rt : Runtime) (msg : SignalBody) :
  (forall a, ws_readyState (ws (self rt)) = WS_OPEN ->
             sendSignal rt msg a = (rt, [WsSend (envelope_of (self rt) msg)])) /\
  (forall a, ws_readyState (ws (self rt)) = WS_CONNECTING -> (a < 20)%nat ->
             sendSignal rt msg a =
             (add_task rt (Timer 100 (RetrySendSignal msg (S a))), [])) /\
  (forall a, ws_readyState (ws (self rt)) <> WS_OPEN ->
             (ws_readyState (ws (self rt)) = WS_CONNECTING -> (20 <= a)%nat) ->
             sendSignal rt msg a = (rt, [ConsoleWarn dropping_signal])) /\
  (forall obs, tasks rt = [] -> (20 <= List.length obs)%nat ->
     exists rt' eff,
       run (fst (sendSignal rt msg 0)) (retry_schedule obs) = (rt', eff) /\
       tasks rt' = [] /\
       (snd (sendSignal rt msg 0) ++ eff = [WsSend (envelope_of (self rt) msg)] \/
        snd (sendSignal rt msg 0) ++ eff = [ConsoleWarn dropping_signal])).
Proof.
  repeat split.
  - intros a H. unfold sendSignal. rewrite H. reflexivity.
  - intros a H Ha. unfold sendSignal, MAX_RETRIES, RETRY_DELAY. rewrite H.
    apply Nat.ltb_lt in Ha. rewrite Ha. reflexivity.
  - intros a Hno Hc. unfold sendSignal, MAX_RETRIES.
    destruct (ws_readyState (ws (self rt))); try reflexivity; try congruence.
    specialize (Hc eq_refl).
    destruct (Nat.ltb a 20) eqn:E; [apply Nat.ltb_lt in E; lia | reflexivity].
  - intros obs Ht Hlen. unfold sendSignal.
    destruct (ws_readyState (ws (self rt))) eqn:Hws; simpl.
    + destruct (retry_schedule_settles msg obs 1
                  (add_task rt (Timer RETRY_DELAY (RetrySendSignal msg 1))))
        as (rt' & eff & Hrun & Ht' & Heff).
      { unfold add_task. simpl. rewrite Ht. reflexivity. }
      { unfold MAX_RETRIES. lia. }
      { unfold MAX_RETRIES. lia. }
      exists rt', eff. repeat split; auto.
    + destruct (retry_schedule_idle obs rt Ht) as (rt' & Hrun & Ht' & _).
      exists rt', []. auto.
    + destruct (retry_schedule_idle obs rt Ht) as (rt' & Hrun & Ht' & _).
      exists rt', []. auto.
    + destruct (retry_schedule_idle obs rt Ht) as (rt' & Hrun & Ht' & _).
      exists rt', []. auto.
Qed.

Lemma sendSignal_bounded_retry_witness :
  let rt := new_PeerTransfer "p1" in
  let msg := {| body_type := "offer"; body_sdp := Some "v=0"%string;
                body_candidate := None |} in
  let obs := repeat WS_CONNECTING 20 in
  tasks rt = [] /\ (20 <= List.length obs)%nat /\
  exists rt' eff,
    run (fst (sendSignal rt msg 0)) (retry_schedule obs) = (rt', eff) /\
    tasks rt' = [] /\
    (snd (sendSignal rt msg 0) ++ eff = [WsSend (envelope_of (self rt) msg)] \/
     snd (sendSignal rt msg 0) ++ eff = [ConsoleWarn dropping_signal]).
Proof.
  intros rt msg obs.
  split; [reflexivity|]. split; [simpl; lia|].
  destruct (sendSignal_bounded_retry rt msg) as (_ & _ & _ & H).
  apply (H obs); [reflexivity | simpl; lia].
Defined.

(** ** Transfer sender *)

Arguments frameBytes : simpl never.

Lemma replace_nth_length {A : Type} (n : nat) (x : A) (l : list A) :
  List.length (replace_nth n x l) = List.length l.
Proof.
  revert n; induction l as [|h t IH]; intros [|n]; simpl; auto.
Qed.

Lemma sendNextChunk_self_closures_length (rt : Runtime) (cid : nat) :
  self (sendNextChunk rt cid) = self rt /\
  List.length (closures (sendNextChunk rt cid)) = List.length (closures rt).
Proof.
  unfold sendNextChunk.
  destruct (nth_error (closures rt) cid) as [c|]; [|auto].
  destruct (dataChannel (self rt)) as [dc|]; [|auto].
  destruct (_ || _); [auto|].
  destruct (_ <? _); [auto|].
  simpl. rewrite replace_nth_length. auto.
Qed.

(** [sendFile] on a channel that accepts the metadata frame: the frame is
    sent, the closure is created and [sendNextChunk] is called once. *)
Lemma sendFile_accepted (rt : Runtime) (file : File.t) (now : Z)
      (dc dc1 : RTCDataChannel) :
  dataChannel (self rt) = Some dc ->
  dc_send dc (TextFrame (FileInfoMsg (meta_of file now))) = inr dc1 ->
  sendFile rt file now =
  (sendNextChunk
     (with_closures
        (with_self rt (set_dataChannel (self rt)
           (Some (dc_set_onbufferedamountlow
                    (dc_set_threshold dc1 (1024 * 1024))
                    (Some (List.length (closures rt)))))))
        (closures rt ++
           [{| c_file := file; c_fileId := Date_now_toString now;
               c_totalChunks := JsNumber.Math_ceil_div (File.size file) CHUNK_SIZE;
               chunkIndex := 0; isReading := false |}]))
     (List.length (closures rt)),
   [ChannelSend (TextFrame (FileInfoMsg (meta_of file now)))]).
Proof.
  intros Hdc Hsend. unfold sendFile. rewrite Hdc.
  assert (Hopen : is_open (readyState dc) = true).
  { unfold dc_send in Hsend. destruct (is_open (readyState dc)); [reflexivity|].
    simpl in Hsend. discriminate. }
  rewrite Hopen. cbv beta iota delta [negb].
  fold (meta_of file now). rewrite Hsend. reflexivity.
Qed.

(** C5 (as amended): without a data channel, or with one that is not open,
    [sendFile] only logs a warning: no frame, no change of state, no
    exception.  Neither the state of the connection nor a transfer in
    flight is looked at: on an open channel that accepts the metadata
    frame the call sends that frame and starts a further transfer,
    whatever the state of the session and whatever transfers exist. *)
Theorem sendFile_guard (rt : Runtime) (file : File.t) (now : Z) :
  ((dataChannel (self rt) = None \/
    exists dc, dataChannel (self rt) = Some dc /\ readyState dc <> dc_open) ->
   sendFile rt file now = (rt, [ConsoleWarn not_ready])) /\
  (forall dc dc1,
      dataChannel (self rt) = Some dc ->
      dc_send dc (TextFrame (FileInfoMsg (meta_of file now))) = inr dc1 ->
      snd (sendFile rt file now) = [ChannelSend (TextFrame (FileInfoMsg (meta_of file now)))] /\
      List.length (closures (fst (sendFile rt file now))) = S (List.length (closures rt))).
Proof.
  split.
  - intros [Hnone | (dc & Hdc & Hst)]; unfold sendFile.
    + rewrite Hnone. reflexivity.
    + rewrite Hdc. destruct (readyState dc); try reflexivity. congruence.
  - intros dc dc1 Hdc Hsend.
    rewrite (sendFile_accepted rt file now dc dc1 Hdc Hsend).
    split; [reflexivity|].
    cbv beta iota delta [fst].
    rewrite (proj2 (sendNextChunk_self_closures_length _ _)).
    unfold with_closures. cbn [closures]. rewrite length_app. simpl. lia.
Qed.

Lemma sendFile_guard_witness :
  let rt := new_PeerTransfer "p1" in
  let file := {| File.name := "a.txt"; File.type := "text/plain";
                 File.bytes := [Byte.x68; Byte.x69] |} in
  dataChannel (self rt) = None /\
  sendFile rt file 1700000000000 = (rt, [ConsoleWarn not_ready]).
Proof.
  intros rt file. split; [reflexivity|].
  apply (proj1 (sendFile_guard rt file 1700000000000)). left. reflexivity.
Defined.

(** C5 (as stated) fails, in both of its cases.  The session is not in
    the [Open] state: the connection was established and the channel
    opened, then the connection reported [disconnected] ([onDisconnect]
    fired), which the specification counts as [Failed]; the channel is
    still open, and [sendFile] sends the metadata frame and starts the
    transfer.  A transfer is in flight: on an open channel a second
    [sendFile] sends its metadata frame and starts a second transfer.  In
    neither case is a warning logged or the state left as it was. *)
Lemma sendFile_not_noop_when_not_Open_or_in_flight :
  let fileA := {| File.name := "a.bin"; File.type := ""; File.bytes := [Byte.x01] |} in
  let fileB := {| File.name := "b.bin"; File.type := ""; File.bytes := [Byte.x02] |} in
  let up := fst (run (new_PeerTransfer "p1")
                     (initiate "p2" "offer"
                      ++ [WsMessage (answer_envelope "p2" "p1" "answer");
                          ConnectionStateChange pc_connected;
                          ChannelReadyState dc_open])) in
  let lost := fst (step up (ConnectionStateChange pc_disconnected)) in
  let busy := fst (sendFile (connected "p1") fileA 1700000000000) in
  (channelState (self up) = Open /\
   snd (step up (ConnectionStateChange pc_disconnected)) = [OnDisconnect] /\
   channelState (self lost) = Failed /\
   snd (sendFile lost fileA 1700000000000)
   = [ChannelSend (TextFrame (FileInfoMsg (meta_of fileA 1700000000000)))] /\
   fst (sendFile lost fileA 1700000000000) <> lost /\
   ~ (sendFile lost fileA 1700000000000 = (lost, [ConsoleWarn not_ready]))) /\
  (in_flight busy 0 /\
   snd (sendFile busy fileB 1700000000001)
   = [ChannelSend (TextFrame (FileInfoMsg (meta_of fileB 1700000000001)))] /\
   fst (sendFile busy fileB 1700000000001) <> busy /\
   ~ (sendFile busy fileB 1700000000001 = (busy, [ConsoleWarn not_ready]))).
Proof.
  intros fileA fileB up lost busy. split.
  - split; [vm_compute; reflexivity|].
    split; [vm_compute; reflexivity|].
    split; [vm_compute; reflexivity|].
    split; [vm_compute; reflexivity|].
    split; vm_compute; discriminate.
  - split; [|split; [|split]].
    + eexists. split; [vm_compute; reflexivity | vm_compute; reflexivity].
    + vm_compute. reflexivity.
    + vm_compute. discriminate.
    + vm_compute. discriminate.
Qed.

(** *** A transfer past its last chunk stays silent *)

Lemma nth_error_Forall {A : Type} (P : A -> Prop) (l : list A) (n : nat) (x : A) :
  Forall P l -> nth_error l n = Some x -> P x.
Proof.
  intros HF Hn. apply nth_error_In in Hn.
  rewrite Forall_forall in HF. auto.
Qed.






Arguments percent : simpl never.
Arguments chunk_of : simpl never.
Arguments total_chunks : simpl never.

Lemma dc_send_unlimited (dc : RTCDataChannel) (fr : Frame) :
  readyState dc = dc_open -> sendQueueLimit dc = None ->
  dc_send dc fr = inr (dc_set_bufferedAmount dc (bufferedAmount dc + frameBytes fr)).
Proof.
  intros Ho Hl. unfold dc_send, dc_set_bufferedAmount. rewrite Ho, Hl. reflexivity.
Qed.

(** Establishing [transferring] for a state given by its parts. *)
Lemma transferring_intro (f : File.t) (id : string) (k : Z) (p : PeerTransfer)
      (dc : RTCDataChannel) (r : bool) (ts : list Task) :
  0 <= k <= total_chunks f ->
  dataChannel p = Some dc -> readyState dc = dc_open ->
  sendQueueLimit dc = None -> onbufferedamountlow dc = Some 0%nat ->
  ((r = false /\ ts = []) \/
   (r = true /\ ts = [FileRead 0 (chunk_of f k)] /\
    k < total_chunks f /\ bufferedAmount dc <= 16 * 1024 * 1024)) ->
  transferring f id k
    {| self := p;
       closures := [{| c_file := f; c_fileId := id; c_totalChunks := total_chunks f;
                       chunkIndex := k; isReading := r |}];
       tasks := ts |}.
Proof.
  intros Hk Hdc Ho Hl Hh Hp. split; [exact Hk|]. split.
  - exists dc. auto.
  - exists r. split; [reflexivity|]. unfold buffered. simpl. rewrite Hdc. exact Hp.
Qed.

(** [sendNextChunk] in a state of one transfer that is not reading. *)
Lemma sendNextChunk_transferring (f : File.t) (id : string) (k : Z)
      (p : PeerTransfer) (dc : RTCDataChannel) :
  0 <= k <= total_chunks f ->
  dataChannel p = Some dc -> readyState dc = dc_open ->
  sendQueueLimit dc = None -> onbufferedamountlow dc = Some 0%nat ->
  transferring f id k
    (sendNextChunk
       {| self := p;
          closures := [{| c_file := f; c_fileId := id; c_totalChunks := total_chunks f;
                          chunkIndex := k; isReading := false |}];
          tasks := [] |} 0).
Proof.
  intros Hk Hdc Ho Hl Hh. unfold sendNextChunk. cbn [closures nth_error self].
  rewrite Hdc. cbn [c_totalChunks chunkIndex isReading c_file].
  rewrite orb_false_r.
  destruct (total_chunks f <=? k) eqn:Hdone.
  - apply (transferring_intro f id k p dc false []); auto.
  - apply Z.leb_gt in Hdone.
    destruct (16 * 1024 * 1024 <? bufferedAmount dc) eqn:Hb.
    + apply (transferring_intro f id k p dc false []); auto.
    + apply Z.ltb_ge in Hb.
      apply (transferring_intro f id k p dc true [FileRead 0 (chunk_of f k)]); auto.
Qed.

(** Normalising a state built from the field updates. *)
Ltac norm_state :=
  cbv beta iota
      delta [with_self set_closure with_closures take_task with_tasks add_task
             set_isReading set_chunkIndex set_dataChannel
             replace_nth remove_nth app
             self closures tasks
             c_file c_fileId c_totalChunks chunkIndex isReading
             peerId remoteId ws peerConnection dataChannel
             incomingChunks expectedChunks receivingFile].

Lemma step_transferring (f : File.t) (id : string) (k : Z) (rt : Runtime) (ev : Event) :
  transferring f id k rt -> transfer_event ev = true ->
  exists rt' eff,
    step rt ev = (rt', eff) /\
    ((transferring f id k rt' /\ observable eff = []) \/
     (k < total_chunks f /\ transferring f id (k + 1) rt' /\
      observable eff = chunk_effects f id k)).
Proof.
  intros (Hk & (dc & Hdc & Hopen & Hlim & Hlow) & r & Hcl & Hpend) Hev.
  destruct rt as [p cl ts]. simpl in Hdc, Hcl, Hpend. subst cl.
  unfold buffered in Hpend. cbn [self] in Hpend. rewrite Hdc in Hpend.
  assert (Hsame : forall r' ts',
             ((r' = false /\ ts' = []) \/
              (r' = true /\ ts' = [FileRead 0 (chunk_of f k)] /\
               k < total_chunks f /\ bufferedAmount dc <= 16 * 1024 * 1024)) ->
             transferring f id k
               {| self := p;
                  closures := [{| c_file := f; c_fileId := id;
                                  c_totalChunks := total_chunks f;
                                  chunkIndex := k; isReading := r' |}];
                  tasks := ts' |}).
  { intros r' ts' H. apply (transferring_intro f id k p dc r' ts'); auto. }
  destruct ev; simpl in Hev; try discriminate.
  - (* ReaderLoad *)
    destruct Hpend as [(Hr & Hts) | (Hr & Hts & Hkn & Hbuf)]; subst r ts.
    + eexists _, []. split. { simpl. destruct i; reflexivity. }
      left. split; [|reflexivity]. apply Hsame. auto.
    + destruct i as [|i].
      2:{ eexists _, []. split. { simpl. destruct i; reflexivity. }
          left. split; [|reflexivity]. apply Hsame. auto. }
      simpl. unfold reader_onload. simpl. unfold trySend. simpl. rewrite Hdc.
      assert (Hb : (16 * 1024 * 1024 <? bufferedAmount dc) = false) by (apply Z.ltb_ge; lia).
      change (16777216 <? bufferedAmount dc) with (16 * 1024 * 1024 <? bufferedAmount dc).
      rewrite Hb.
      rewrite (dc_send_unlimited dc _ Hopen Hlim).
      cbn -[Z.add Z.mul Z.ltb sendNextChunk dc_send].
      destruct (k + 1 <? total_chunks f) eqn:Hlast.
      * eexists _, _. split; [reflexivity|]. right.
        split; [exact Hkn|]. split.
        -- destruct p. simpl in Hdc. subst.
           norm_state.
           eapply sendNextChunk_transferring;
             [lia | reflexivity | exact Hopen | exact Hlim | exact Hlow].
        -- try (unfold chunk_effects; rewrite Hlast); reflexivity.
      * rewrite dc_send_unlimited; [|exact Hopen|exact Hlim].
        eexists _, _. split; [reflexivity|]. right.
        split; [exact Hkn|]. split.
        -- destruct p. simpl in Hdc. subst.
           norm_state.
           eapply transferring_intro;
             [lia | reflexivity | exact Hopen | exact Hlim | exact Hlow | left; auto].
        -- try (unfold chunk_effects; rewrite Hlast); reflexivity.
  - (* ReaderError *)
    destruct Hpend as [(Hr & Hts) | (Hr & Hts & Hkn & Hbuf)]; subst r ts.
    + eexists _, []. split. { simpl. destruct i; reflexivity. }
      left. split; [|reflexivity]. apply Hsame. auto.
    + destruct i as [|i].
      2:{ eexists _, []. split. { simpl. destruct i; reflexivity. }
          left. split; [|reflexivity]. apply Hsame. auto. }
      eexists _, _. split; [reflexivity|]. left. split; [|reflexivity].
      apply Hsame. auto.
  - (* TimerFires *)
    destruct Hpend as [(Hr & Hts) | (Hr & Hts & Hkn & Hbuf)]; subst r ts.
    + eexists _, []. split. { simpl. destruct i; reflexivity. }
      left. split; [|reflexivity]. apply Hsame. auto.
    + eexists _, []. split. { simpl. destruct i as [|[|i]]; reflexivity. }
      left. split; [|reflexivity]. apply Hsame. auto.
  - (* ChannelDrain *)
    eexists _, []. split; [reflexivity|]. left. split; [|reflexivity].
    unfold channel_drain. cbn [self]. rewrite Hdc.
    set (b' := Z.max 0 (bufferedAmount dc - Z.max 0 n)).
    assert (Hb' : bufferedAmount dc <= 16 * 1024 * 1024 -> b' <= 16 * 1024 * 1024).
    { unfold b'. lia. }
    clearbody b'.
    destruct p. simpl in Hdc. subst.
    destruct (_ && _).
    + rewrite Hlow.
      destruct Hpend as [(Hr & Hts) | (Hr & Hts & Hkn & Hbuf)]; subst r ts.
      * norm_state.
        eapply sendNextChunk_transferring;
          [exact Hk | reflexivity | exact Hopen | exact Hlim | exact Hlow].
      * unfold sendNextChunk. norm_state. cbn [nth_error orb].
        rewrite orb_true_r.
        eapply transferring_intro;
          [exact Hk | reflexivity | exact Hopen | exact Hlim | exact Hlow |].
        right. cbn [bufferedAmount dc_set_bufferedAmount]. auto.
    + norm_state.
      eapply transferring_intro;
        [exact Hk | reflexivity | exact Hopen | exact Hlim | exact Hlow |].
      destruct Hpend as [H | (H1 & H2 & H3 & H4)]; [left; exact H | right].
      cbn [bufferedAmount dc_set_bufferedAmount]. auto.
Qed.

Lemma File_size_nonneg (f : File.t) : 0 <= File.size f.
Proof. unfold File.size. lia. Qed.

Lemma total_chunks_bounds (f : File.t) :
  CHUNK_SIZE * (total_chunks f - 1) < File.size f <= CHUNK_SIZE * total_chunks f
  \/ (File.size f = 0 /\ total_chunks f = 0).
Proof.
  unfold total_chunks, JsNumber.Math_ceil_div, CHUNK_SIZE.
  pose proof (File_size_nonneg f) as Hs.
  pose proof (Z.div_mod (- File.size f) (16 * 1024) ltac:(lia)) as Hdm.
  pose proof (Z.mod_pos_bound (- File.size f) (16 * 1024) ltac:(lia)) as Hm.
  destruct (Z.eq_dec (File.size f) 0) as [H0|H0].
  - right. rewrite H0. split; reflexivity.
  - left. lia.
Qed.

Lemma total_chunks_nonneg (f : File.t) : 0 <= total_chunks f.
Proof.
  pose proof (File_size_nonneg f).
  destruct (total_chunks_bounds f) as [H'|[_ H']]; unfold CHUNK_SIZE in *; lia.
Qed.

Lemma total_chunks_pos (f : File.t) : 0 < File.size f -> 0 < total_chunks f.
Proof. intros. destruct (total_chunks_bounds f) as [H'|[H' _]]; unfold CHUNK_SIZE in *; lia. Qed.

Lemma chunk_of_length (f : File.t) (k : Z) :
  0 <= k -> Z.of_nat (List.length (chunk_of f k)) <= CHUNK_SIZE.
Proof.
  intros Hk. unfold chunk_of, File.slice, File.clamp.
  rewrite length_firstn.
  pose proof (File_size_nonneg f) as Hs. unfold CHUNK_SIZE in *.
  destruct (k * (16 * 1024) <? 0) eqn:E1; [apply Z.ltb_lt in E1; lia|].
  destruct (Z.min (k * (16 * 1024) + 16 * 1024) (File.size f) <? 0) eqn:E2;
    [apply Z.ltb_lt in E2; lia|].
  lia.
Qed.

Lemma frameBytes_nonneg (fr : Frame) : 0 <= frameBytes fr.
Proof. unfold frameBytes. destruct fr; lia. Qed.

(** [sendFile] on a page with an open, unlimited channel and no other
    transfer. *)
Lemma sendFile_flowing (rt : Runtime) (dc : RTCDataChannel) (f : File.t) (now : Z) :
  closures rt = [] -> tasks rt = [] ->
  dataChannel (self rt) = Some dc -> readyState dc = dc_open ->
  sendQueueLimit dc = None -> 0 <= bufferedAmount dc ->
  snd (sendFile rt f now) = [ChannelSend (TextFrame (FileInfoMsg (meta_of f now)))] /\
  flowing f (Date_now_toString now) 0 (fst (sendFile rt f now)) /\
  buffered (fst (sendFile rt f now))
  = bufferedAmount dc + frameBytes (TextFrame (FileInfoMsg (meta_of f now))).
Proof.
  intros Hcl Hts Hdc Hopen Hlim Hb.
  rewrite (sendFile_accepted rt f now dc _ Hdc (dc_send_unlimited dc _ Hopen Hlim)).
  rewrite Hcl. cbn [fst snd List.length app]. split; [reflexivity|].
  destruct rt as [p cl ts]. simpl in Hcl, Hts, Hdc. subst cl ts.
  destruct p. simpl in Hdc. subst.
  fold (total_chunks f). norm_state.
  pose proof (total_chunks_nonneg f) as Hn.
  pose proof (frameBytes_nonneg (TextFrame (FileInfoMsg (meta_of f now)))) as Hm.
  unfold sendNextChunk. cbn [closures nth_error self dataChannel].
  cbn [c_totalChunks chunkIndex isReading c_file orb].
  rewrite orb_false_r.
  cbn [bufferedAmount dc_set_onbufferedamountlow dc_set_threshold dc_set_bufferedAmount].
  destruct (total_chunks f <=? 0) eqn:Hdone.
  - apply Z.leb_le in Hdone.
    split; [|reflexivity]. split; [|split; [reflexivity|split]].
    + eapply transferring_intro; try reflexivity; auto; lia.
    + unfold buffered. cbn. lia.
    + intros. lia.
  - apply Z.leb_gt in Hdone.
    destruct (16 * 1024 * 1024 <? _) eqn:Hbig.
    + apply Z.ltb_lt in Hbig.
      split; [|reflexivity]. split; [|split; [reflexivity|split]].
      * eapply transferring_intro; try reflexivity; auto; lia.
      * unfold buffered. cbn. lia.
      * intros _ _. unfold buffered. cbn. exact Hbig.
    + apply Z.ltb_ge in Hbig. norm_state.
      split; [|reflexivity]. split; [|split; [reflexivity|split]].
      * eapply transferring_intro; try reflexivity; auto; try lia.
      * unfold buffered. cbn. lia.
      * intros _ H. discriminate H.
Qed.

(** Taking a [flowing] state apart. *)
Lemma flowing_inv (f : File.t) (id : string) (k : Z) (rt : Runtime) :
  flowing f id k rt ->
  exists p dc r ts,
    rt = {| self := p;
            closures := [{| c_file := f; c_fileId := id;
                            c_totalChunks := total_chunks f;
                            chunkIndex := k; isReading := r |}];
            tasks := ts |} /\
    dataChannel p = Some dc /\ readyState dc = dc_open /\
    sendQueueLimit dc = None /\ onbufferedamountlow dc = Some 0%nat /\
    bufferedAmountLowThreshold dc = 1024 * 1024 /\
    0 <= bufferedAmount dc /\ 0 <= k <= total_chunks f /\
    ((r = false /\ ts = [] /\ (k < total_chunks f -> 16 * 1024 * 1024 < bufferedAmount dc)) \/
     (r = true /\ ts = [FileRead 0 (chunk_of f k)] /\
      k < total_chunks f /\ bufferedAmount dc <= 16 * 1024 * 1024)).
Proof.
  intros ((Hk & (dc & Hdc & Ho & Hl & Hh) & r & Hcl & Hp) & Hth & Hb & Hstall).
  destruct rt as [p cl ts]. simpl in Hdc, Hcl. subst cl.
  unfold low_threshold, buffered in *. cbn [self tasks] in *. rewrite Hdc in *.
  exists p, dc, r, ts. repeat split; auto; try lia.
  destruct Hp as [(Hr & Hts) | Hp]; [left | right; exact Hp].
  repeat split; auto.
Qed.

Lemma flowing_intro (f : File.t) (id : string) (k : Z) (p : PeerTransfer)
      (dc : RTCDataChannel) (r : bool) (ts : list Task) :
  dataChannel p = Some dc -> readyState dc = dc_open ->
  sendQueueLimit dc = None -> onbufferedamountlow dc = Some 0%nat ->
  bufferedAmountLowThreshold dc = 1024 * 1024 ->
  0 <= bufferedAmount dc -> 0 <= k <= total_chunks f ->
  ((r = false /\ ts = [] /\ (k < total_chunks f -> 16 * 1024 * 1024 < bufferedAmount dc)) \/
   (r = true /\ ts = [FileRead 0 (chunk_of f k)] /\
    k < total_chunks f /\ bufferedAmount dc <= 16 * 1024 * 1024)) ->
  flowing f id k
    {| self := p;
       closures := [{| c_file := f; c_fileId := id; c_totalChunks := total_chunks f;
                       chunkIndex := k; isReading := r |}];
       tasks := ts |}.
Proof.
  intros Hdc Ho Hl Hh Hth Hb Hk Hp.
  split; [|split; [|split]].
  - apply (transferring_intro f id k p dc r ts); auto.
    destruct Hp as [(Hr & Hts & _) | Hp]; [left; auto | right; exact Hp].
  - unfold low_threshold. cbn [self]. rewrite Hdc. exact Hth.
  - unfold buffered. cbn [self]. rewrite Hdc. exact Hb.
  - intros Hkn Hts. unfold buffered. cbn [self tasks] in *. rewrite Hdc.
    destruct Hp as [(_ & _ & H) | (_ & H & _)]; [auto | congruence].
Qed.

(** [sendNextChunk] keeps a transfer [flowing]; it starts the read when
    the channel holds at most 16 MiB. *)
Lemma sendNextChunk_flowing (f : File.t) (id : string) (k : Z)
      (p : PeerTransfer) (dc : RTCDataChannel) :
  dataChannel p = Some dc -> readyState dc = dc_open ->
  sendQueueLimit dc = None -> onbufferedamountlow dc = Some 0%nat ->
  bufferedAmountLowThreshold dc = 1024 * 1024 ->
  0 <= bufferedAmount dc -> 0 <= k <= total_chunks f ->
  let rt' := sendNextChunk
               {| self := p;
                  closures := [{| c_file := f; c_fileId := id;
                                  c_totalChunks := total_chunks f;
                                  chunkIndex := k; isReading := false |}];
                  tasks := [] |} 0 in
  flowing f id k rt' /\ buffered rt' = bufferedAmount dc /\
  (k < total_chunks f -> bufferedAmount dc <= 16 * 1024 * 1024 -> tasks rt' <> []).
Proof.
  intros Hdc Ho Hl Hh Hth Hb Hk. unfold sendNextChunk. cbn [closures nth_error self].
  rewrite Hdc. cbn [c_totalChunks chunkIndex isReading c_file].
  rewrite orb_false_r.
  destruct (total_chunks f <=? k) eqn:Hdone.
  - apply Z.leb_le in Hdone. cbv zeta. split; [|split].
    + apply (flowing_intro f id k p dc false []); auto. left. repeat split; auto. lia.
    + unfold buffered. cbn [self]. rewrite Hdc. reflexivity.
    + lia.
  - apply Z.leb_gt in Hdone.
    destruct (16 * 1024 * 1024 <? bufferedAmount dc) eqn:Hbig.
    + apply Z.ltb_lt in Hbig. cbv zeta. split; [|split].
      * apply (flowing_intro f id k p dc false []); auto.
      * unfold buffered. cbn [self]. rewrite Hdc. reflexivity.
      * lia.
    + apply Z.ltb_ge in Hbig. cbv zeta. norm_state. split; [|split].
      * apply (flowing_intro f id k p dc true [FileRead 0 (chunk_of f k)]); auto.
      * unfold buffered. cbn [self]. rewrite Hdc. reflexivity.
      * intros _ _. discriminate.
Qed.

(** The pending read completes: the chunk is handed over. *)
Lemma reader_load_flowing (f : File.t) (id : string) (k : Z) (rt : Runtime) :
  flowing f id k rt -> tasks rt <> [] ->
  exists rt',
    step rt (ReaderLoad 0) = (rt', chunk_effects f id k) /\
    flowing f id (k + 1) rt' /\
    buffered rt' <= buffered rt + CHUNK_SIZE + frameBytes (TextFrame (FileCompleteMsg id)).
Proof.
  intros Hfl Hts.
  destruct (flowing_inv f id k rt Hfl)
    as (p & dc & r & ts & -> & Hdc & Ho & Hl & Hh & Hth & Hb & Hk & Hp).
  destruct Hp as [(_ & -> & _) | (-> & -> & Hkn & Hbuf)]; [cbn in Hts; congruence|].
  pose proof (chunk_of_length f k ltac:(lia)) as Hlen.
  pose proof (frameBytes_nonneg (TextFrame (FileCompleteMsg id))) as Hdone.
  simpl. unfold reader_onload. simpl. unfold trySend. simpl. rewrite Hdc.
  assert (Hle : (16 * 1024 * 1024 <? bufferedAmount dc) = false) by (apply Z.ltb_ge; lia).
  change (16777216 <? bufferedAmount dc) with (16 * 1024 * 1024 <? bufferedAmount dc).
  rewrite Hle.
  rewrite (dc_send_unlimited dc _ Ho Hl).
  cbn -[Z.add Z.mul Z.ltb sendNextChunk dc_send].
  destruct p. simpl in Hdc. subst.
  unfold chunk_effects.
  destruct (k + 1 <? total_chunks f) eqn:Hlast.
  - apply Z.ltb_lt in Hlast. eexists. split; [reflexivity|].
    norm_state.
    match goal with
    | |- flowing _ _ _ (sendNextChunk {| self := ?p'; closures := _; tasks := _ |} _) /\ _ =>
        destruct (sendNextChunk_flowing f id (k + 1) p'
                    (dc_set_bufferedAmount dc
                       (bufferedAmount dc + frameBytes (BinaryFrame (chunk_of f k)))))
          as (H1 & H2 & _)
    end; try reflexivity; auto.
    { cbn. pose proof (frameBytes_nonneg (BinaryFrame (chunk_of f k))). lia. }
    { lia. }
    split; [exact H1|]. rewrite H2. unfold buffered. cbn. unfold frameBytes at 1. unfold CHUNK_SIZE in *. lia.
  - apply Z.ltb_ge in Hlast.
    rewrite dc_send_unlimited; [|exact Ho|exact Hl].
    eexists. split; [reflexivity|]. norm_state. split.
    + eapply flowing_intro; try reflexivity; auto.
      * cbn. pose proof (frameBytes_nonneg (BinaryFrame (chunk_of f k))). lia.
      * lia.
      * left. repeat split; auto. lia.
    + unfold buffered. cbn. unfold frameBytes at 1. unfold CHUNK_SIZE in *. lia.
Qed.

(** The channel transmits all it holds: the transfer is not stalled
    afterwards. *)
Lemma drain_flowing (f : File.t) (id : string) (k : Z) (rt : Runtime) (D : Z) :
  flowing f id k rt -> buffered rt <= D ->
  exists rt',
    step rt (ChannelDrain D) = (rt', []) /\
    flowing f id k rt' /\ buffered rt' = 0 /\
    (k < total_chunks f -> tasks rt' <> []).
Proof.
  intros Hfl HD.
  destruct (flowing_inv f id k rt Hfl)
    as (p & dc & r & ts & -> & Hdc & Ho & Hl & Hh & Hth & Hb & Hk & Hp).
  unfold buffered in HD. cbn [self] in HD. rewrite Hdc in HD.
  eexists. split; [reflexivity|].
  unfold channel_drain. cbn [self]. rewrite Hdc.
  replace (Z.max 0 (bufferedAmount dc - Z.max 0 D)) with 0 by lia.
  rewrite Hth, Hh.
  destruct p. simpl in Hdc. subst.
  replace (0 <=? 1024 * 1024) with true by reflexivity. rewrite andb_true_r.
  destruct (1024 * 1024 <? bufferedAmount dc) eqn:Hcross.
  - destruct Hp as [(-> & -> & Hstall) | (-> & -> & Hkn & Hbuf)].
    + norm_state.
      match goal with
      | |- flowing _ _ _ (sendNextChunk {| self := ?p'; closures := _; tasks := _ |} _) /\ _ =>
          destruct (sendNextChunk_flowing f id k p' (dc_set_bufferedAmount dc 0))
            as (H1 & H2 & H3)
      end; try reflexivity; auto; try (cbn; lia).
      split; [exact H1|]. split; [exact H2|].
      intros Hkn. apply H3; [exact Hkn | cbn; lia].
    + unfold sendNextChunk. norm_state. cbn [nth_error]. rewrite orb_true_r.
      split; [|split].
      * eapply flowing_intro; try reflexivity; auto.
        right. repeat split; auto. cbn. lia.
      * reflexivity.
      * intros _. discriminate.
  - apply Z.ltb_ge in Hcross. norm_state. split; [|split].
    + eapply flowing_intro; try reflexivity; auto.
      destruct Hp as [(-> & -> & Hstall) | (-> & -> & Hkn & Hbuf)].
      * left. repeat split; auto. intros Hkn. specialize (Hstall Hkn). lia.
      * right. repeat split; auto. cbn. lia.
    + reflexivity.
    + intros Hkn. destruct Hp as [(-> & -> & Hstall) | (-> & -> & _ & Hbuf)].
      * specialize (Hstall Hkn). lia.
      * discriminate.
Qed.

(** *** Whole runs of one transfer *)

Lemma observable_app (e1 e2 : list Effect) :
  observable (e1 ++ e2) = observable e1 ++ observable e2.
Proof. apply filter_app. Qed.

Lemma chunks_effects_app (f : File.t) (id : string) (a b : nat) :
  forall k, chunks_effects f id k (a + b)
            = chunks_effects f id k a ++ chunks_effects f id (k + Z.of_nat a) b.
Proof.
  induction a as [|a IH]; intros k.
  - simpl. rewrite Z.add_0_r. reflexivity.
  - cbn [Nat.add chunks_effects]. rewrite IH, <- app_assoc.
    replace (k + 1 + Z.of_nat a) with (k + Z.of_nat (S a)) by lia. reflexivity.
Qed.

(** Whatever the reads, the timers and the channel do, what one transfer
    sends and reports is an initial part of its canonical trace. *)
Lemma run_transferring (f : File.t) (id : string) (evs : list Event) :
  forall k rt,
    transferring f id k rt -> forallb transfer_event evs = true ->
    exists rt' eff j,
      run rt evs = (rt', eff) /\
      transferring f id (k + Z.of_nat j) rt' /\
      observable eff = chunks_effects f id k j.
Proof.
  induction evs as [|ev evs IH]; intros k rt Htr Hevs.
  - exists rt, [], 0%nat. simpl. rewrite Z.add_0_r. auto.
  - simpl in Hevs. apply andb_true_iff in Hevs as [Hev Hevs].
    destruct (step_transferring f id k rt ev Htr Hev)
      as (rt1 & eff1 & Hstep & [(Htr1 & Hobs1) | (Hkn & Htr1 & Hobs1)]).
    + destruct (IH k rt1 Htr1 Hevs) as (rt2 & eff2 & j & Hrun & Htr2 & Hobs2).
      exists rt2, (eff1 ++ eff2), j. simpl. rewrite Hstep, Hrun.
      rewrite observable_app, Hobs1, Hobs2. auto.
    + destruct (IH (k + 1) rt1 Htr1 Hevs) as (rt2 & eff2 & j & Hrun & Htr2 & Hobs2).
      exists rt2, (eff1 ++ eff2), (S j). simpl. rewrite Hstep, Hrun.
      rewrite observable_app, Hobs1, Hobs2.
      replace (k + Z.pos (Pos.of_succ_nat j)) with (k + 1 + Z.of_nat j) by lia.
      auto.
Qed.

(** Under the steady schedule each round hands one chunk over. *)
Lemma steady_rounds (f : File.t) (id : string) (D : Z) (count : nat) :
  CHUNK_SIZE + frameBytes (TextFrame (FileCompleteMsg id)) <= D ->
  forall k rt,
    flowing f id k rt -> buffered rt = 0 ->
    (k < total_chunks f -> tasks rt <> []) ->
    k + Z.of_nat count <= total_chunks f ->
    exists rt',
      run rt (List.concat (repeat [ReaderLoad 0; ChannelDrain D] count))
      = (rt', chunks_effects f id k count) /\
      flowing f id (k + Z.of_nat count) rt' /\ buffered rt' = 0.
Proof.
  intros HD. induction count as [|count IH]; intros k rt Hfl Hb Hpend Hle.
  - exists rt. simpl. rewrite Z.add_0_r. auto.
  - destruct (reader_load_flowing f id k rt Hfl (Hpend ltac:(lia)))
      as (rt1 & Hstep1 & Hfl1 & Hb1).
    destruct (drain_flowing f id (k + 1) rt1 D Hfl1 ltac:(lia))
      as (rt2 & Hstep2 & Hfl2 & Hb2 & Hpend2).
    destruct (IH (k + 1) rt2 Hfl2 Hb2 Hpend2 ltac:(lia)) as (rt3 & Hrun & Hfl3 & Hb3).
    exists rt3. cbn [repeat List.concat app run].
    rewrite Hstep1, Hstep2, Hrun. cbn [chunks_effects app].
    replace (k + Z.of_nat (S count)) with (k + 1 + Z.of_nat count) by lia.
    auto.
Qed.

(** A page with an open channel that refuses no frame, holds nothing and
    runs no transfer sends the whole canonical trace under the steady
    schedule, and nothing else. *)
Lemma steady_run (rt : Runtime) (dc : RTCDataChannel) (f : File.t) (now : Z) :
  closures rt = [] -> tasks rt = [] ->
  dataChannel (self rt) = Some dc -> readyState dc = dc_open ->
  sendQueueLimit dc = None -> bufferedAmount dc = 0 ->
  exists rt',
    run rt (CallSendFile f now :: steady_schedule f now)
    = (rt', ChannelSend (TextFrame (FileInfoMsg (meta_of f now)))
            :: chunks_effects f (Date_now_toString now) 0 (Z.to_nat (total_chunks f))) /\
    flowing f (Date_now_toString now) (total_chunks f) rt'.
Proof.
  intros Hcl Hts Hdc Ho Hl Hb.
  destruct (sendFile_flowing rt dc f now Hcl Hts Hdc Ho Hl ltac:(lia))
    as (Heff & Hfl & Hbuf).
  pose proof (frameBytes_nonneg (TextFrame (FileCompleteMsg (Date_now_toString now)))).
  pose proof (frameBytes_nonneg (TextFrame (FileInfoMsg (meta_of f now)))).
  pose proof (total_chunks_nonneg f) as Hn.
  destruct (drain_flowing f _ 0 _ (drain_amount f now) Hfl) as (rt1 & Hstep1 & Hfl1 & Hb1 & Hp1).
  { rewrite Hbuf. unfold drain_amount, CHUNK_SIZE. lia. }
  destruct (steady_rounds f (Date_now_toString now) (drain_amount f now)
              (Z.to_nat (total_chunks f)) ltac:(unfold drain_amount; lia)
              0 rt1 Hfl1 Hb1 Hp1 ltac:(lia)) as (rt2 & Hrun & Hfl2 & _).
  exists rt2. unfold steady_schedule. cbn [run step].
  destruct (sendFile rt f now) as [rt0 eff0]. cbn [fst snd] in *. subst eff0.
  cbn [step] in Hstep1. injection Hstep1 as Hstep1. subst rt1.
  rewrite Hrun. cbn [app]. split; [reflexivity|].
  replace (0 + Z.of_nat (Z.to_nat (total_chunks f))) with (total_chunks f) in Hfl2 by lia.
  exact Hfl2.
Qed.

(** *** The slices make up the file *)

Lemma chunk_of_skipn (f : File.t) (k : Z) :
  0 <= k ->
  chunk_of f k ++ skipn (Z.to_nat ((k + 1) * CHUNK_SIZE)) (File.bytes f)
  = skipn (Z.to_nat (k * CHUNK_SIZE)) (File.bytes f).
Proof.
  intros Hk. unfold chunk_of, File.slice, File.clamp, File.size, CHUNK_SIZE.
  set (l := File.bytes f).
  destruct (k * (16 * 1024) <? 0) eqn:E1; [apply Z.ltb_lt in E1; lia|].
  destruct (Z.min (k * (16 * 1024) + 16 * 1024) (Z.of_nat (List.length l)) <? 0) eqn:E2;
    [apply Z.ltb_lt in E2; lia|].
  clear E1 E2.
  destruct (Z_le_gt_dec (Z.of_nat (List.length l)) (k * (16 * 1024))) as [Hout|Hin].
  - rewrite !(skipn_all2 l) by lia.
    rewrite firstn_nil. reflexivity.
  - replace (Z.min (k * (16 * 1024)) (Z.of_nat (List.length l))) with (k * (16 * 1024)) by lia.
    replace (Z.min (Z.min (k * (16 * 1024) + 16 * 1024) (Z.of_nat (List.length l)))
                   (Z.of_nat (List.length l)))
      with (Z.min (k * (16 * 1024) + 16 * 1024) (Z.of_nat (List.length l))) by lia.
    destruct (Z_le_gt_dec (k * (16 * 1024) + 16 * 1024) (Z.of_nat (List.length l)))
      as [Hfull|Hpart].
    + replace (Z.to_nat ((k + 1) * (16 * 1024)))
        with (Z.to_nat (16 * 1024) + Z.to_nat (k * (16 * 1024)))%nat by lia.
      rewrite <- skipn_skipn.
      replace (Z.to_nat (Z.max (Z.min (k * (16 * 1024) + 16 * 1024) (Z.of_nat (List.length l))
                                - k * (16 * 1024)) 0))
        with (Z.to_nat (16 * 1024)) by lia.
      apply firstn_skipn.
    + rewrite (skipn_all2 l (n := Z.to_nat ((k + 1) * (16 * 1024)))) by lia.
      rewrite app_nil_r. apply firstn_all2. rewrite length_skipn. lia.
Qed.

Lemma concat_chunks_from (f : File.t) (count : nat) :
  forall k, 0 <= k ->
  File.size f <= (k + Z.of_nat count) * CHUNK_SIZE ->
  List.concat (chunks_from f k count) = skipn (Z.to_nat (k * CHUNK_SIZE)) (File.bytes f).
Proof.
  induction count as [|count IH]; intros k Hk Hsz.
  - simpl. rewrite skipn_all2; [reflexivity|]. unfold File.size in Hsz. lia.
  - cbn [chunks_from List.concat]. rewrite IH by lia.
    apply chunk_of_skipn. exact Hk.
Qed.

(** The chunks of a file, concatenated in index order, are the file. *)
Lemma concat_chunks (f : File.t) :
  List.concat (chunks_from f 0 (Z.to_nat (total_chunks f))) = File.bytes f.
Proof.
  rewrite concat_chunks_from.
  - reflexivity.
  - lia.
  - pose proof (total_chunks_nonneg f).
    destruct (total_chunks_bounds f) as [H'|[H1 H2]]; unfold CHUNK_SIZE in *; lia.
Qed.

(** *** What a trace sends and reports *)

Lemma sent_frames_app (e1 e2 : list Effect) :
  sent_frames (e1 ++ e2) = sent_frames e1 ++ sent_frames e2.
Proof. apply flat_map_app. Qed.

Lemma chunk_frames_app (e1 e2 : list Effect) :
  chunk_frames (e1 ++ e2) = chunk_frames e1 ++ chunk_frames e2.
Proof. apply flat_map_app. Qed.

Lemma progress_values_app (e1 e2 : list Effect) :
  progress_values (e1 ++ e2) = progress_values e1 ++ progress_values e2.
Proof. apply flat_map_app. Qed.

Lemma progress_values_chunks_effects (f : File.t) (id : string) (count : nat) :
  forall k, progress_values (chunks_effects f id k count)
            = progress_from (total_chunks f) k count.
Proof.
  induction count as [|count IH]; intros k; [reflexivity|].
  cbn [chunks_effects progress_from]. rewrite progress_values_app, IH.
  unfold chunk_effects. destruct (k + 1 <? total_chunks f); reflexivity.
Qed.

Lemma chunk_frames_chunks_effects (f : File.t) (id : string) (count : nat) :
  forall k, chunk_frames (chunks_effects f id k count) = chunks_from f k count.
Proof.
  induction count as [|count IH]; intros k; [reflexivity|].
  cbn [chunks_effects chunks_from]. rewrite chunk_frames_app, IH.
  unfold chunk_effects. destruct (k + 1 <? total_chunks f); reflexivity.
Qed.

Lemma sent_frames_chunks_effects (f : File.t) (id : string) (count : nat) :
  forall k,
    k + Z.of_nat count <= total_chunks f ->
    sent_frames (chunks_effects f id k count)
    = map BinaryFrame (chunks_from f k count)
      ++ (if (0 <? Z.of_nat count) && (total_chunks f <=? k + Z.of_nat count)
          then [TextFrame (FileCompleteMsg id)] else []).
Proof.
  induction count as [|count IH]; intros k Hle; [reflexivity|].
  cbn [chunks_effects chunks_from map]. rewrite sent_frames_app, IH by lia.
  unfold chunk_effects.
  replace (0 <? Z.of_nat (S count)) with true by (symmetry; apply Z.ltb_lt; lia).
  cbn [andb].
  replace (k + 1 + Z.of_nat count) with (k + Z.of_nat (S count)) by lia.
  destruct (k + 1 <? total_chunks f) eqn:Hlast.
  - apply Z.ltb_lt in Hlast. cbn [app sent_frames flat_map]. f_equal. f_equal.
    destruct count as [|count].
    + cbn [Z.of_nat Z.ltb Z.compare andb].
      destruct (total_chunks f <=? _) eqn:E; [apply Z.leb_le in E; lia | reflexivity].
    + destruct (0 <? Z.of_nat (S count)) eqn:E; [reflexivity | apply Z.ltb_ge in E; lia].
  - apply Z.ltb_ge in Hlast.
    assert (count = 0%nat) by lia. subst count.
    destruct (total_chunks f <=? _) eqn:E; [reflexivity | apply Z.leb_gt in E; lia].
Qed.

(** The whole canonical trace of a file with at least one chunk sends the
    frames of the transfer. *)
Lemma sent_frames_whole (f : File.t) (now : Z) :
  0 < total_chunks f ->
  sent_frames (ChannelSend (TextFrame (FileInfoMsg (meta_of f now)))
               :: chunks_effects f (Date_now_toString now) 0 (Z.to_nat (total_chunks f)))
  = transfer_frames f now.
Proof.
  intros Hn. unfold transfer_frames.
  change (sent_frames (?e :: ?l)) with (sent_frames [e] ++ sent_frames l).
  rewrite sent_frames_chunks_effects by lia.
  replace (0 <? Z.of_nat (Z.to_nat (total_chunks f))) with true
    by (symmetry; apply Z.ltb_lt; lia).
  replace (total_chunks f <=? 0 + Z.of_nat (Z.to_nat (total_chunks f))) with true
    by (symmetry; apply Z.leb_le; lia).
  reflexivity.
Qed.

(** *** The receiver on the frames of a transfer *)

Lemma receive_app (fs1 fs2 : list Frame) :
  forall p, receive p (fs1 ++ fs2) =
            let '(p1, e1) := receive p fs1 in
            let '(p2, e2) := receive p1 fs2 in
            (p2, e1 ++ e2).
Proof.
  induction fs1 as [|fr fs1 IH]; intros p; simpl.
  - destruct (receive p fs2); reflexivity.
  - destruct (onmessage p fr) as [p1 e1]. rewrite IH.
    destruct (receive p1 fs1) as [p2 e2]. destruct (receive p2 fs2) as [p3 e3].
    rewrite app_assoc. reflexivity.
Qed.

Lemma set_receiving_same (p : PeerTransfer) :
  set_receiving p (incomingChunks p) (expectedChunks p) (receivingFile p) = p.
Proof. destruct p; reflexivity. Qed.

Lemma receive_chunks (cs : list (list Byte.byte)) :
  forall p,
    receive p (map BinaryFrame cs)
    = (set_receiving p (incomingChunks p ++ cs) (expectedChunks p) (receivingFile p),
       map OnProgress
           (progress_from (expectedChunks p)
                          (Z.of_nat (List.length (incomingChunks p)))
                          (List.length cs))).
Proof.
  induction cs as [|c cs IH]; intros p.
  - simpl. rewrite app_nil_r, set_receiving_same. reflexivity.
  - cbn [map receive onmessage]. unfold handleFileChunkBinary.
    rewrite IH. cbn [incomingChunks expectedChunks receivingFile set_receiving
                     List.length progress_from map app].
    rewrite <- app_assoc. cbn [app].
    rewrite length_app. cbn [List.length].
    replace (Z.of_nat (List.length (incomingChunks p) + 1))
      with (Z.of_nat (List.length (incomingChunks p)) + 1) by lia.
    reflexivity.
Qed.

Lemma chunks_from_length (f : File.t) (count : nat) :
  forall k, List.length (chunks_from f k count) = count.
Proof. induction count as [|count IH]; intros k; simpl; auto. Qed.

(** Fed the frames of a transfer in order, any receiver fires the
    metadata event, one progress event per chunk and the completion with
    the bytes of the file, and is idle again. *)
Lemma receive_transfer (f : File.t) (now : Z) (p : PeerTransfer) :
  receive p (transfer_frames f now)
  = (set_receiving p [] 0 None,
     OnFileInfo (meta_of f now)
     :: map OnProgress (progress_from (total_chunks f) 0 (Z.to_nat (total_chunks f)))
     ++ [OnComplete {| blob_bytes := File.bytes f;
                       blob_type := normalized_type (File.type f) |}
                    (meta_of f now)]).
Proof.
  unfold transfer_frames. cbn [receive onmessage]. unfold handleFileInfo.
  rewrite receive_app, receive_chunks.
  cbn [incomingChunks expectedChunks receivingFile set_receiving app List.length
       receive onmessage].
  unfold handleComplete.
  cbn [incomingChunks expectedChunks receivingFile set_receiving app].
  unfold new_Blob. rewrite concat_chunks.
  rewrite chunks_from_length. reflexivity.
Qed.

(** ** End to end *)

Lemma completions_app (e1 e2 : list Effect) :
  completions (e1 ++ e2) = completions e1 ++ completions e2.
Proof. apply flat_map_app. Qed.

Lemma completions_progress (ps : list JsNumber.t) :
  completions (map OnProgress ps) = [].
Proof. induction ps; simpl; auto. Qed.

(** For every file with at least one byte, a sender that starts on an
    open, idle channel which refuses no frame and runs under the steady
    schedule hands over exactly the frames of the transfer,
    [total_chunks] chunk frames among them, and nothing else; a receiver
    fed these frames completes once, with a payload equal to the bytes of
    the file. *)
Theorem nonempty_file_roundtrip
        (rt : Runtime) (dc : RTCDataChannel) (f : File.t) (now : Z) (p : PeerTransfer) :
  0 < File.size f ->
  closures rt = [] -> tasks rt = [] ->
  dataChannel (self rt) = Some dc -> readyState dc = dc_open ->
  sendQueueLimit dc = None -> bufferedAmount dc = 0 ->
  let effs := snd (run rt (CallSendFile f now :: steady_schedule f now)) in
  sent_frames effs = transfer_frames f now /\
  List.length (chunk_frames effs) = Z.to_nat (total_chunks f) /\
  List.concat (chunk_frames effs) = File.bytes f /\
  CHUNK_SIZE * (total_chunks f - 1) < File.size f <= CHUNK_SIZE * total_chunks f /\
  completions (snd (receive p (sent_frames effs)))
  = [({| blob_bytes := File.bytes f; blob_type := normalized_type (File.type f) |},
      meta_of f now)].
Proof.
  intros Hpos Hcl Hts Hdc Ho Hl Hb effs.
  destruct (steady_run rt dc f now Hcl Hts Hdc Ho Hl Hb) as (rt' & Hrun & _).
  pose proof (total_chunks_pos f Hpos) as Hn.
  assert (Hsent : sent_frames effs = transfer_frames f now).
  { unfold effs. rewrite Hrun. apply sent_frames_whole. exact Hn. }
  assert (Hchunks : chunk_frames effs = chunks_from f 0 (Z.to_nat (total_chunks f))).
  { unfold effs. rewrite Hrun. cbn [snd].
    change (chunk_frames (?e :: ?l)) with (chunk_frames [e] ++ chunk_frames l).
    rewrite chunk_frames_chunks_effects. reflexivity. }
  split; [exact Hsent|]. split; [|split; [|split]].
  - rewrite Hchunks. apply chunks_from_length.
  - rewrite Hchunks. apply concat_chunks.
  - destruct (total_chunks_bounds f) as [H'|[H' _]]; [exact H' | lia].
  - rewrite Hsent, receive_transfer. cbn [snd].
    change (completions (?e :: ?l)) with (completions [e] ++ completions l).
    rewrite completions_app, completions_progress. reflexivity.
Qed.

Lemma nonempty_file_roundtrip_witness :
  let f := {| File.name := "a.txt"; File.type := "text/plain";
              File.bytes := repeat Byte.x61 (200 * 100) |} in
  let effs := snd (run (connected "p1")
                       (CallSendFile f 1700000000000 :: steady_schedule f 1700000000000)) in
  0 < File.size f /\
  List.length (chunk_frames effs) = 2%nat /\
  completions (snd (receive (self (connected "p2")) (sent_frames effs)))
  = [({| blob_bytes := File.bytes f; blob_type := "text/plain" |},
      meta_of f 1700000000000)].
Proof.
  intros f effs.
  assert (Hpos : 0 < File.size f) by (vm_compute; reflexivity).
  split; [exact Hpos|].
  destruct (nonempty_file_roundtrip (connected "p1") fresh_channel f 1700000000000
              (self (connected "p2")) Hpos eq_refl eq_refl eq_refl eq_refl eq_refl eq_refl)
    as (_ & Hlen & _ & _ & Hdone).
  split; [exact Hlen | exact Hdone].
Defined.

(** C1 at a zero-byte file: the sender hands over the metadata frame
    only, so the receiver, fed what was sent, announces the transfer and
    never completes it; no payload is reconstructed. *)
Theorem empty_file_not_delivered :
  let f := {| File.name := "empty.bin"; File.type := ""; File.bytes := [] |} in
  let effs := snd (run (connected "p1")
                       (CallSendFile f 1700000000000 :: steady_schedule f 1700000000000)) in
  File.size f = 0 /\
  sent_frames effs = [TextFrame (FileInfoMsg (meta_of f 1700000000000))] /\
  snd (receive (self (connected "p2")) (sent_frames effs))
  = [OnFileInfo (meta_of f 1700000000000)] /\
  completions (snd (receive (self (connected "p2")) (sent_frames effs))) = [].
Proof.
  intros f effs. vm_compute. repeat split; reflexivity.
Qed.

(** *** The 40000-byte example *)

Lemma chunk_of_length_exact (f : File.t) (k : Z) :
  0 <= k ->
  Z.of_nat (List.length (chunk_of f k))
  = Z.max 0 (Z.min CHUNK_SIZE (File.size f - k * CHUNK_SIZE)).
Proof.
  intros Hk. unfold chunk_of, File.slice, File.clamp.
  rewrite length_firstn, length_skipn.
  pose proof (File_size_nonneg f) as Hs. unfold CHUNK_SIZE in *.
  destruct (k * (16 * 1024) <? 0) eqn:E1; [apply Z.ltb_lt in E1; lia|].
  destruct (Z.min (k * (16 * 1024) + 16 * 1024) (File.size f) <? 0) eqn:E2;
    [apply Z.ltb_lt in E2; lia|].
  unfold File.size in *. lia.
Qed.

Lemma percent_1_3 : percent 1 3 = JsNumber.of_Z 33.
Proof. vm_compute. reflexivity. Qed.

Lemma percent_2_3 : percent 2 3 = JsNumber.of_Z 66.
Proof. vm_compute. reflexivity. Qed.

Lemma percent_3_3 : percent 3 3 = JsNumber.of_Z 100.
Proof. vm_compute. reflexivity. Qed.

(** C2 (as amended): a 40000-byte file named report.bin is sent in 3
    chunks of 16384, 16384 and 7232 bytes; the sender reports 33, 66, 100
    (each after its chunk, 100 before the completion frame); the receiver
    fires the metadata event with name report.bin, size 40000 and
    totalChunks 3, then progress 33, 66, 100, then the completion with the
    40000 bytes of the file. *)
Theorem report_bin_transfer (content : list Byte.byte) (ty : string) (now : Z) :
  List.length content = Z.to_nat 40000 ->
  let f := {| File.name := "report.bin"; File.type := ty; File.bytes := content |} in
  let meta := {| fileId := Date_now_toString now; name := "report.bin"; size := 40000;
                 type := ty; totalChunks := 3 |} in
  let done := TextFrame (FileCompleteMsg (Date_now_toString now)) in
  let effs := snd (run (connected "p1") (CallSendFile f now :: steady_schedule f now)) in
  effs = [ChannelSend (TextFrame (FileInfoMsg meta));
          ChannelSend (BinaryFrame (chunk_of f 0)); OnProgress (JsNumber.of_Z 33);
          ChannelSend (BinaryFrame (chunk_of f 1)); OnProgress (JsNumber.of_Z 66);
          ChannelSend (BinaryFrame (chunk_of f 2)); OnProgress (JsNumber.of_Z 100);
          ChannelSend done] /\
  map (fun c => Z.of_nat (List.length c)) (chunk_frames effs) = [16384; 16384; 7232] /\
  forall p,
    snd (receive p (sent_frames effs))
    = [OnFileInfo meta;
       OnProgress (JsNumber.of_Z 33); OnProgress (JsNumber.of_Z 66);
       OnProgress (JsNumber.of_Z 100);
       OnComplete {| blob_bytes := content; blob_type := normalized_type ty |} meta].
Proof.
  intros Hlen f meta done effs.
  assert (Hsize : File.size f = 40000).
  { unfold File.size, f. cbn [File.bytes]. rewrite Hlen. reflexivity. }
  assert (Htot : total_chunks f = 3).
  { unfold total_chunks. rewrite Hsize. reflexivity. }
  assert (Hmeta : meta_of f now = meta).
  { unfold meta_of. fold (total_chunks f). rewrite Hsize, Htot. reflexivity. }
  destruct (steady_run (connected "p1") fresh_channel f now
              eq_refl eq_refl eq_refl eq_refl eq_refl eq_refl) as (rt' & Hrun & _).
  assert (Heffs : effs = [ChannelSend (TextFrame (FileInfoMsg meta));
          ChannelSend (BinaryFrame (chunk_of f 0)); OnProgress (JsNumber.of_Z 33);
          ChannelSend (BinaryFrame (chunk_of f 1)); OnProgress (JsNumber.of_Z 66);
          ChannelSend (BinaryFrame (chunk_of f 2)); OnProgress (JsNumber.of_Z 100);
          ChannelSend done]).
  { unfold effs. rewrite Hrun. cbn [snd]. rewrite Hmeta, Htot.
    change (Z.to_nat 3) with 3%nat. cbn [chunks_effects]. unfold chunk_effects.
    rewrite Htot. cbn [Z.add Z.ltb Z.compare Pos.add Pos.compare Pos.compare_cont app
                       Pos.succ].
    rewrite percent_1_3, percent_2_3, percent_3_3. reflexivity. }
  split; [exact Heffs|]. split.
  - rewrite Heffs. cbn [chunk_frames flat_map app map].
    rewrite !chunk_of_length_exact by lia. rewrite Hsize. reflexivity.
  - intros p.
    pose proof (receive_transfer f now p) as Hrecv.
    assert (Hsent : sent_frames effs = transfer_frames f now).
    { unfold effs. rewrite Hrun. apply sent_frames_whole. lia. }
    rewrite Hsent, Hrecv. cbn [snd]. rewrite Hmeta, Htot.
    change (Z.to_nat 3) with 3%nat. cbn [progress_from map app].
    cbn [Z.add Pos.add Pos.succ].
    rewrite percent_1_3, percent_2_3, percent_3_3. reflexivity.
Qed.

Lemma report_bin_transfer_witness :
  let content := repeat Byte.x00 (Z.to_nat 40000) in
  let f := {| File.name := "report.bin"; File.type := "application/octet-stream";
              File.bytes := content |} in
  let effs := snd (run (connected "p1")
                       (CallSendFile f 1700000000000 :: steady_schedule f 1700000000000)) in
  List.length content = Z.to_nat 40000 /\
  map (fun c => Z.of_nat (List.length c)) (chunk_frames effs) = [16384; 16384; 7232] /\
  progress_values effs = map JsNumber.of_Z [33; 66; 100].
Proof.
  intros content f effs.
  assert (Hlen : List.length content = Z.to_nat 40000) by apply repeat_length.
  split; [exact Hlen|].
  destruct (report_bin_transfer content "application/octet-stream" 1700000000000 Hlen)
    as (Heffs & Hchunks & _).
  split; [exact Hchunks|].
  unfold effs, f. rewrite Heffs. reflexivity.
Defined.

(** C2 (as stated) fails: for a 40000-byte file named report.bin the
    progress sequence, at the sender and at the receiver, is 33, 66, 100
    and not 34, 67, 100. *)
Lemma report_bin_progress_not_34_67_100 :
  let f := {| File.name := "report.bin"; File.type := "application/octet-stream";
              File.bytes := repeat Byte.x00 (Z.to_nat 40000) |} in
  let effs := snd (run (connected "p1")
                       (CallSendFile f 1700000000000 :: steady_schedule f 1700000000000)) in
  let recv := snd (receive (self (connected "p2")) (sent_frames effs)) in
  progress_values effs = map JsNumber.of_Z [33; 66; 100] /\
  progress_values recv = map JsNumber.of_Z [33; 66; 100] /\
  progress_values effs <> map JsNumber.of_Z [34; 67; 100] /\
  progress_values recv <> map JsNumber.of_Z [34; 67; 100] /\
  JsNumber.eqb (hd (JsNumber.of_Z 0) (progress_values recv)) (JsNumber.of_Z 34) = false.
Proof.
  intros f effs recv.
  assert (H1 : progress_values effs = map JsNumber.of_Z [33; 66; 100])
    by (vm_compute; reflexivity).
  assert (H2 : progress_values recv = map JsNumber.of_Z [33; 66; 100])
    by (vm_compute; reflexivity).
  split; [exact H1|]. split; [exact H2|].
  rewrite H1, H2. repeat split; try (vm_compute; discriminate).
Qed.

(** ** Backpressure *)

Lemma trySend_paused (rt : Runtime) (cid : nat) (data : list Byte.byte) :
  16 * 1024 * 1024 < buffered rt ->
  trySend rt cid data = (add_task rt (Timer 50 (RetryTrySend cid data)), []).
Proof.
  unfold buffered, trySend. intros Hb.
  destruct (dataChannel (self rt)) as [dc|]; [|lia].
  apply Z.ltb_lt in Hb. rewrite Hb. reflexivity.
Qed.

Lemma sendNextChunk_paused (rt : Runtime) (cid : nat) :
  16 * 1024 * 1024 < buffered rt -> sendNextChunk rt cid = rt.
Proof.
  unfold buffered, sendNextChunk. intros Hb.
  destruct (nth_error (closures rt) cid) as [c|]; [|reflexivity].
  destruct (dataChannel (self rt)) as [dc|]; [|reflexivity].
  apply Z.ltb_lt in Hb. rewrite Hb.
  destruct (_ || _); reflexivity.
Qed.

Lemma chunk_frames_sendSignal (rt : Runtime) (msg : SignalBody) (a : nat) :
  chunk_frames (snd (sendSignal rt msg a)) = [].
Proof.
  unfold sendSignal. destruct (ws_readyState (ws (self rt))); try reflexivity.
  destruct (Nat.ltb a MAX_RETRIES); reflexivity.
Qed.

Lemma chunk_frames_onmessage (p : PeerTransfer) (fr : Frame) :
  chunk_frames (snd (onmessage p fr)) = [].
Proof.
  destruct fr as [[meta|id|mt]|data]; simpl; try reflexivity.
  unfold handleComplete. destruct (receivingFile p); reflexivity.
Qed.

Lemma chunk_frames_sendFile (rt : Runtime) (f : File.t) (now : Z) :
  chunk_frames (snd (sendFile rt f now)) = [].
Proof.
  unfold sendFile. destruct (dataChannel (self rt)) as [dc|]; [|reflexivity].
  destruct (negb (is_open (readyState dc))); [reflexivity|].
  destruct (dc_send dc _); reflexivity.
Qed.

(** While the channel holds more than 16 MiB no event makes the class
    hand a chunk to the channel, whatever transfers run: [sendNextChunk]
    starts no read and [trySend] only re-arms its 50 ms timer.  Once the
    channel holds at most 16 MiB, [trySend], run by a completed read or by
    its timer, hands its chunk over to a channel that accepts it. *)
Lemma above_high_water_no_chunk (rt : Runtime) :
  (16 * 1024 * 1024 < buffered rt ->
   (forall ev, chunk_frames (snd (step rt ev)) = []) /\
   (forall cid, sendNextChunk rt cid = rt) /\
   (forall cid data,
       trySend rt cid data = (add_task rt (Timer 50 (RetryTrySend cid data)), []))) /\
  (forall dc dc1 cid data,
      dataChannel (self rt) = Some dc ->
      bufferedAmount dc <= 16 * 1024 * 1024 ->
      dc_send dc (BinaryFrame data) = inr dc1 ->
      chunk_frames (snd (trySend rt cid data)) = [data]).
Proof.
  split.
  - intros Hb. split; [|split].
    + intros ev. destruct ev; simpl; try reflexivity.
      * apply chunk_frames_sendFile.
      * destruct (nth_error (tasks rt) i) as [[d cb|cid chunk| |]|]; try reflexivity.
        unfold reader_onload.
        destruct (nth_error (closures (take_task rt i)) cid);
          rewrite trySend_paused; auto.
      * destruct (nth_error (tasks rt) i) as [[d cb|cid chunk| |]|]; try reflexivity.
        unfold reader_onerror.
        destruct (nth_error (closures (take_task rt i)) cid); reflexivity.
      * destruct (nth_error (tasks rt) i) as [[d [msg a|cid data]|cid chunk| |]|];
          try reflexivity.
        -- apply chunk_frames_sendSignal.
        -- rewrite trySend_paused; auto.
      * destruct (nth_error (tasks rt) i) as [[d cb|cid chunk| |]|]; try reflexivity.
        apply chunk_frames_sendSignal.
      * destruct (nth_error (tasks rt) i) as [[d cb|cid chunk| |]|]; try reflexivity.
        apply chunk_frames_sendSignal.
      * destruct (peerConnection (self rt)); [|reflexivity].
        unfold onicecandidate. destruct cand; [|reflexivity].
        destruct (remoteId (self rt)); [|reflexivity].
        destruct (String.eqb _ _); [reflexivity | apply chunk_frames_sendSignal].
      * unfold onconnectionstatechange.
        destruct (peerConnection (self (pc_call rt _))) as [pc|]; [|reflexivity].
        destruct (connectionState pc); reflexivity.
      * destruct (peerConnection (self rt)) as [pc|]; [|reflexivity].
        destruct (ondatachannel pc); reflexivity.
      * destruct (dataChannel (self rt)); reflexivity.
      * destruct (dataChannel (self rt)); [|reflexivity].
        pose proof (chunk_frames_onmessage (self rt) fr) as H.
        destruct (onmessage (self rt) fr). exact H.
      * unfold handleSignal.
        destruct (negb _); [reflexivity|].
        repeat (destruct (String.eqb _ _); [reflexivity|]). reflexivity.
    + intros cid. apply sendNextChunk_paused. exact Hb.
    + intros cid data. apply trySend_paused. exact Hb.
  - intros dc dc1 cid data Hdc Hle Hsend. unfold trySend. rewrite Hdc.
    assert (Hlow : (16 * 1024 * 1024 <? bufferedAmount dc) = false)
      by (apply Z.ltb_ge; exact Hle).
    rewrite Hlow, Hsend. clear Hlow.
    destruct (nth_error _ cid) as [c|]; [|reflexivity].
    destruct (chunkIndex _ <? _); [reflexivity|].
    destruct (dc_send dc1 _); reflexivity.
Qed.

(** C4 (as stated) fails: two transfers run on a channel that holds
    16 MiB less 1000 bytes.  Both start a read; the chunk of the second
    lifts [bufferedAmount] above 16 MiB, so [trySend] of the first arms
    its 50 ms timer.  The channel then transmits 5000 bytes;
    [bufferedAmount] is still far above the 1 MiB threshold, and yet the
    timer hands the chunk of the first transfer to the channel. *)
Lemma poll_resumes_above_low_threshold :
  let busy := with_self (new_PeerTransfer "p1")
                (set_dataChannel (self (new_PeerTransfer "p1"))
                   (Some (dc_set_bufferedAmount fresh_channel (16 * 1024 * 1024 - 1000)))) in
  let fA := {| File.name := "a.bin"; File.type := "";
               File.bytes := repeat Byte.x0a 100 |} in
  let fB := {| File.name := "b.bin"; File.type := "";
               File.bytes := repeat Byte.x0b 2000 |} in
  let rt := fst (run busy [CallSendFile fA 1700000000000; CallSendFile fB 1700000000001;
                           ReaderLoad 1; ReaderLoad 0]) in
  16 * 1024 * 1024 < buffered rt /\
  low_threshold rt = 1024 * 1024 /\
  Forall (fun b => 1024 * 1024 < b) (buffered_after rt [ChannelDrain 5000; TimerFires 0]) /\
  chunk_frames (snd (run rt [ChannelDrain 5000])) = [] /\
  chunk_frames (snd (run rt [ChannelDrain 5000; TimerFires 0])) = [File.bytes fA].
Proof.
  intros busy fA fB rt.
  split; [vm_compute; reflexivity|].
  split; [vm_compute; reflexivity|].
  split; [|split; vm_compute; reflexivity].
  vm_compute. repeat constructor.
Qed.

(** ** Binary64 arithmetic of the progress value *)

Lemma digits2_pos_size (p : positive) : digits2_pos p = Pos.size p.
Proof. induction p; simpl; congruence. Qed.

Lemma digits2_bounds (p : positive) :
  2 ^ (Zpos (digits2_pos p) - 1) <= Zpos p < 2 ^ Zpos (digits2_pos p).
Proof.
  rewrite digits2_pos_size.
  pose proof (Pos.size_gt p) as Hgt. pose proof (Pos.size_le p) as Hle.
  apply Pos2Z.pos_lt_pos in Hgt. apply Pos2Z.pos_le_pos in Hle.
  rewrite Pos2Z.inj_pow in Hgt, Hle.
  replace (Zpos (Pos.size p)) with (Zpos (Pos.size p) - 1 + 1) in Hle at 1 by lia.
  rewrite Z.pow_add_r in Hle by lia.
  change (2 ^ 1) with 2 in Hle. lia.
Qed.

Lemma digits2_unique (m : positive) (d : Z) :
  2 ^ (d - 1) <= Zpos m < 2 ^ d -> Zpos (digits2_pos m) = d.
Proof.
  intros [Hlo Hhi]. pose proof (digits2_bounds m) as [Hlo' Hhi'].
  assert (0 < d).
  { destruct (Z_lt_le_dec 0 d); [assumption|].
    assert (2 ^ d <= 1).
    { destruct (Z.eq_dec d 0) as [->|]; [simpl; lia|].
      rewrite Z.pow_neg_r by lia. lia. }
    lia. }
  assert (Zpos (digits2_pos m) - 1 < d).
  { apply (Z.pow_lt_mono_r_iff 2); lia. }
  assert (d - 1 < Zpos (digits2_pos m)).
  { apply (Z.pow_lt_mono_r_iff 2); lia. }
  lia.
Qed.

Lemma new_location_spec (B r : Z) :
  0 < B -> 0 <= r < B -> new_location B r = loc_frac r B.
Proof.
  intros HB Hr. unfold new_location, loc_frac.
  destruct (Z.even B) eqn:Hev.
  - unfold new_location_even. reflexivity.
  - unfold new_location_odd.
    destruct (r =? 0); [reflexivity|]. f_equal.
    assert (Hodd : Z.odd B = true) by (rewrite <- Z.negb_even, Hev; reflexivity).
    apply Z.odd_spec in Hodd. destruct Hodd as [b Hb].
    destruct (Z.compare_spec (2 * r + 1) B); destruct (Z.compare_spec (2 * r) B);
      try reflexivity; lia.
Qed.

Lemma loc_of_shr_record_of_loc (m : Z) (l : location) :
  loc_of_shr_record (shr_record_of_loc m l) = l /\
  shr_m (shr_record_of_loc m l) = m.
Proof. destruct l as [|[| |]]; split; reflexivity. Qed.

(** One step of [shr_1] halves the scale. *)
Lemma shr_1_stands (mrs : shr_record) (A B : Z) :
  stands_for (shr_m mrs) (loc_of_shr_record mrs) A B ->
  stands_for (shr_m (shr_1 mrs)) (loc_of_shr_record (shr_1 mrs)) A (2 * B).
Proof.
  intros (HB & HA & Hm & Hl).
  assert (Hdiv : A / (2 * B) = (A / B) / 2).
  { rewrite (Z.mul_comm 2 B). rewrite Z.div_div by lia. reflexivity. }
  assert (Hmod : A mod (2 * B) = B * ((A / B) mod 2) + A mod B).
  { rewrite (Z.mul_comm 2 B). rewrite Z.rem_mul_r by lia. lia. }
  pose proof (Z.mod_pos_bound A B HB) as Hr.
  pose proof (Z.div_pos A B HA HB) as Hq.
  destruct mrs as [m r s]. simpl in Hm, Hl.
  assert (Hrs : orb r s = negb (A mod B =? 0)).
  { unfold loc_frac in Hl. destruct (A mod B =? 0); destruct r, s; simpl in *;
      try reflexivity; discriminate. }
  unfold stands_for. split; [lia|]. split; [exact HA|].
  rewrite Hdiv, Hmod. rewrite <- Hm.
  assert (Hm0 : 0 <= m) by lia.
  unfold loc_frac.
  destruct m as [|p|p]; [| |lia].
  - simpl shr_1. cbn [shr_m loc_of_shr_record]. rewrite Hrs.
    change (0 / 2) with 0. change (0 mod 2) with 0.
    split; [reflexivity|].
    replace (B * 0 + A mod B) with (A mod B) by lia.
    destruct (A mod B =? 0) eqn:E; cbn [negb]; [reflexivity|].
    apply Z.eqb_neq in E.
    destruct (Z.compare_spec (2 * (A mod B)) (2 * B)); try reflexivity; lia.
  - destruct p as [p|p|].
    + (* odd *)
      simpl shr_1. cbn [shr_m loc_of_shr_record]. rewrite Hrs.
      assert (H2 : Zpos p~1 / 2 = Zpos p /\ Zpos p~1 mod 2 = 1).
      { rewrite Pos2Z.inj_xI. split.
        - rewrite Z.add_comm, Z.mul_comm, Z.div_add by lia. reflexivity.
        - rewrite Z.add_comm, Z.mul_comm, Z.mod_add by lia. reflexivity. }
      destruct H2 as [-> ->]. split; [reflexivity|].
      destruct (B * 1 + A mod B =? 0) eqn:E0; [apply Z.eqb_eq in E0; lia|].
      destruct (A mod B =? 0) eqn:E; cbn [negb].
      * apply Z.eqb_eq in E.
        destruct (Z.compare_spec (2 * (B * 1 + A mod B)) (2 * B)); try reflexivity; lia.
      * apply Z.eqb_neq in E.
        destruct (Z.compare_spec (2 * (B * 1 + A mod B)) (2 * B)); try reflexivity; lia.
    + (* even *)
      simpl shr_1. cbn [shr_m loc_of_shr_record]. rewrite Hrs.
      assert (H2 : Zpos p~0 / 2 = Zpos p /\ Zpos p~0 mod 2 = 0).
      { rewrite Pos2Z.inj_xO. split.
        - rewrite Z.mul_comm, Z.div_mul by lia. reflexivity.
        - rewrite Z.mul_comm, Z.mod_mul by lia. reflexivity. }
      destruct H2 as [-> ->]. split; [reflexivity|].
      replace (B * 0 + A mod B) with (A mod B) by lia.
      destruct (A mod B =? 0) eqn:E; cbn [negb]; [reflexivity|].
      apply Z.eqb_neq in E.
      destruct (Z.compare_spec (2 * (A mod B)) (2 * B)); try reflexivity; lia.
    + (* one *)
      simpl shr_1. cbn [shr_m loc_of_shr_record]. rewrite Hrs.
      change (1 / 2) with 0. change (1 mod 2) with 1.
      split; [reflexivity|].
      destruct (B * 1 + A mod B =? 0) eqn:E0; [apply Z.eqb_eq in E0; lia|].
      destruct (A mod B =? 0) eqn:E; cbn [negb].
      * apply Z.eqb_eq in E.
        destruct (Z.compare_spec (2 * (B * 1 + A mod B)) (2 * B)); try reflexivity; lia.
      * apply Z.eqb_neq in E.
        destruct (Z.compare_spec (2 * (B * 1 + A mod B)) (2 * B)); try reflexivity; lia.
Qed.

Lemma iter_pos_shr_1_stands (p : positive) :
  forall (mrs : shr_record) (A B : Z),
    stands_for (shr_m mrs) (loc_of_shr_record mrs) A B ->
    stands_for (shr_m (iter_pos shr_1 p mrs))
               (loc_of_shr_record (iter_pos shr_1 p mrs)) A (B * 2 ^ Zpos p).
Proof.
  induction p as [p IH|p IH|]; intros mrs A B H; simpl iter_pos.
  - apply shr_1_stands in H. apply IH in H. apply IH in H.
    replace (B * 2 ^ Zpos p~1) with (2 * B * 2 ^ Zpos p * 2 ^ Zpos p); [exact H|].
    replace (Zpos p~1) with (Zpos p + Zpos p + 1) by lia.
    rewrite !Z.pow_add_r by lia. change (2 ^ 1) with 2. ring.
  - apply IH in H. apply IH in H.
    replace (B * 2 ^ Zpos p~0) with (B * 2 ^ Zpos p * 2 ^ Zpos p); [exact H|].
    replace (Zpos p~0) with (Zpos p + Zpos p) by lia.
    rewrite !Z.pow_add_r by lia. ring.
  - apply shr_1_stands in H.
    replace (B * 2 ^ 1) with (2 * B) by (change (2 ^ 1) with 2; ring). exact H.
Qed.

Lemma round_nearest_even_stands (m : Z) (l : location) (A B : Z) :
  stands_for m l A B -> round_nearest_even m l = rne A B.
Proof.
  intros (HB & HA & -> & ->). unfold rne, loc_frac, round_nearest_even.
  destruct (A mod B =? 0) eqn:E.
  - apply Z.eqb_eq in E. rewrite E.
    destruct (Z.compare_spec (2 * 0) B); try reflexivity; lia.
  - destruct (2 * (A mod B) ?= B); reflexivity.
Qed.

Lemma rne_bounds (A B : Z) : A / B <= rne A B <= A / B + 1.
Proof.
  unfold rne. destruct (2 * (A mod B) ?= B); [destruct (Z.even (A / B))| |]; lia.
Qed.

Lemma Zdigits2_bounds (m : Z) :
  0 < m -> 2 ^ (Zdigits2 m - 1) <= m < 2 ^ Zdigits2 m.
Proof. destruct m as [|p|p]; try lia. intros _. apply digits2_bounds. Qed.

Lemma Zdigits2_unique (m d : Z) :
  2 ^ (d - 1) <= m < 2 ^ d -> 0 < m -> Zdigits2 m = d.
Proof. destruct m as [|p|p]; try lia. intros H _. apply digits2_unique. exact H. Qed.

(** The mantissa kept after dropping [n] bits has 53 bits. *)
Lemma shifted_mantissa_bounds (m n : Z) :
  0 < m -> 0 <= n -> Zdigits2 m = 53 + n ->
  2 ^ 52 <= m / 2 ^ n < 2 ^ 53.
Proof.
  intros Hm Hn Hd. pose proof (Zdigits2_bounds m Hm) as [Hlo Hhi].
  rewrite Hd in Hlo, Hhi.
  replace (53 + n - 1) with (52 + n) in Hlo by lia.
  rewrite Z.pow_add_r in Hlo, Hhi by lia.
  assert (0 < 2 ^ n) by (apply Z.pow_pos_nonneg; lia).
  split.
  - apply Z.div_le_lower_bound; lia.
  - apply Z.div_lt_upper_bound; lia.
Qed.

Lemma binary_round_aux_spec (s : bool) (m : Z) (l : location) (e A B : Z) :
  stands_for m l A B ->
  53 <= Zdigits2 m ->
  -1074 <= e + Zdigits2 m - 53 <= 970 ->
  binary_round_aux 53 1024 s m e l
  = S754_finite s (Z.to_pos (fst (round53 A B e))) (snd (round53 A B e)).
Proof.
  intros Hst Hd He.
  pose proof Hst as (HB & HA & Hm & Hl).
  assert (Hmpos : 0 < m).
  { destruct m as [|p|p]; simpl in Hd; try lia. pose proof (Z.div_pos A B HA HB). lia. }
  set (n := Zdigits2 m - 53).
  assert (Hn : 0 <= n) by (unfold n; lia).
  (* the first shift *)
  assert (H1 : exists mrs',
             shr_fexp 53 1024 m e l = (mrs', e + n) /\
             stands_for (shr_m mrs') (loc_of_shr_record mrs') A (B * 2 ^ n)).
  { unfold shr_fexp, fexp. change (emin 53 1024) with (-1074).
    replace (Z.max (Zdigits2 m + e - 53) (-1074) - e) with n by (unfold n; lia).
    destruct (loc_of_shr_record_of_loc m l) as [Hl' Hm'].
    destruct n as [|p|p] eqn:En; [| |lia].
    - exists (shr_record_of_loc m l). split; [simpl; f_equal; lia|].
      rewrite Hl', Hm'. replace (B * 2 ^ 0) with B by (simpl; lia). exact Hst.
    - exists (iter_pos shr_1 p (shr_record_of_loc m l)). split; [reflexivity|].
      apply iter_pos_shr_1_stands. rewrite Hl', Hm'. exact Hst. }
  destruct H1 as (mrs' & Hshr1 & Hst1).
  unfold binary_round_aux. rewrite Hshr1.
  rewrite (round_nearest_even_stands _ _ _ _ Hst1).
  unfold round53. rewrite <- Hm. fold n.
  set (M1 := rne A (B * 2 ^ n)).
  assert (Hpow : 0 < 2 ^ n) by (apply Z.pow_pos_nonneg; lia).
  assert (HM1 : 2 ^ 52 <= M1 <= 2 ^ 53).
  { pose proof (rne_bounds A (B * 2 ^ n)) as Hb. fold M1 in Hb.
    rewrite <- Z.div_div in Hb by lia. rewrite <- Hm in Hb.
    pose proof (shifted_mantissa_bounds m n Hmpos Hn ltac:(unfold n; lia)). lia. }
  destruct (M1 =? 2 ^ 53) eqn:Etop.
  - apply Z.eqb_eq in Etop. rewrite Etop.
    unfold shr_fexp, fexp. change (emin 53 1024) with (-1074).
    change (Zdigits2 (2 ^ 53)) with 54.
    replace (Z.max (54 + (e + n) - 53) (-1074) - (e + n)) with 1 by lia.
    cbn [shr shr_record_of_loc iter_pos shr_1 fst snd].
    change (2 ^ 53) with (Zpos (2 ^ 53)%positive).
    cbn [shr_1 shr_m Z.add]. 
    replace (e + n + 1 <=? 1024 - 53) with true by (symmetry; apply Z.leb_le; lia).
    reflexivity.
  - apply Z.eqb_neq in Etop.
    assert (Hd1 : Zdigits2 M1 = 53).
    { apply Zdigits2_unique; [|lia]. change (2 ^ (53 - 1)) with (2 ^ 52). lia. }
    unfold shr_fexp, fexp. change (emin 53 1024) with (-1074). rewrite Hd1.
    replace (Z.max (53 + (e + n) - 53) (-1074) - (e + n)) with 0 by lia.
    cbn [shr shr_record_of_loc shr_m fst snd].
    destruct M1 as [|p|p]; try lia.
    replace (e + n <=? 1024 - 53) with true by (symmetry; apply Z.leb_le; lia).
    reflexivity.
Qed.

Lemma Zdigits2_mono (a b : Z) : 0 < a -> a <= b -> Zdigits2 a <= Zdigits2 b.
Proof.
  intros Ha Hab.
  pose proof (Zdigits2_bounds a Ha) as [Hlo _].
  pose proof (Zdigits2_bounds b ltac:(lia)) as [_ Hhi].
  assert (Zdigits2 a - 1 < Zdigits2 b); [|lia].
  assert (0 < Zdigits2 b) by (destruct b; simpl; lia).
  apply (Z.pow_lt_mono_r_iff 2); lia.
Qed.

Lemma Zdigits2_pos (a : Z) : 0 < a -> 0 < Zdigits2 a.
Proof. destruct a; simpl; lia. Qed.

Lemma Zdigits2_double (q r : Z) :
  0 < q -> 0 <= r <= 1 -> Zdigits2 (2 * q + r) = Zdigits2 q + 1.
Proof.
  intros Hq Hr. pose proof (Zdigits2_bounds q Hq) as [Hlo Hhi].
  pose proof (Zdigits2_pos q Hq) as Hd.
  apply Zdigits2_unique; [|lia].
  replace (Zdigits2 q + 1 - 1) with (Zdigits2 q - 1 + 1) by lia.
  rewrite !Z.pow_add_r by lia. change (2 ^ 1) with 2. lia.
Qed.

Lemma div_le_frac (A B A' B' : Z) :
  0 < B -> 0 < B' -> A * B' <= A' * B -> A / B <= A' / B'.
Proof.
  intros HB HB' H.
  apply Z.div_le_lower_bound; [lia|].
  pose proof (Z.mul_div_le A B HB).
  assert (B' * (B * (A / B)) <= B' * A) by (apply Z.mul_le_mono_nonneg_l; lia).
  assert (B * (B' * (A / B)) <= B * A') by lia.
  apply (Z.mul_le_mono_pos_l _ _ B); lia.
Qed.

Lemma rne_mono_frac (A B A' B' : Z) :
  0 < B -> 0 < B' -> A * B' <= A' * B -> rne A B <= rne A' B'.
Proof.
  intros HB HB' H.
  pose proof (div_le_frac A B A' B' HB HB' H) as Hq.
  pose proof (rne_bounds A B) as Hb. pose proof (rne_bounds A' B') as Hb'.
  destruct (Z_lt_le_dec (A / B) (A' / B')) as [Hlt|Hge]; [lia|].
  assert (Heq : A' / B' = A / B) by lia.
  pose proof (Z.div_mod A B ltac:(lia)) as HA.
  pose proof (Z.div_mod A' B' ltac:(lia)) as HA'.
  pose proof (Z.mod_pos_bound A B HB) as Hr.
  pose proof (Z.mod_pos_bound A' B' HB') as Hr'.
  rewrite Heq in HA'.
  assert (Hfrac : (A mod B) * B' <= (A' mod B') * B) by nia.
  unfold rne. rewrite Heq.
  destruct (Z.compare_spec (2 * (A mod B)) B);
    destruct (Z.compare_spec (2 * (A' mod B')) B');
    destruct (Z.even (A / B)); try lia; nia.
Qed.

Lemma rne_double (A D : Z) : 0 < D -> rne (2 * A) (2 * D) = rne A D.
Proof.
  intros HD. unfold rne.
  rewrite Z.div_mul_cancel_l by lia.
  rewrite Z.mul_mod_distr_l by lia.
  destruct (Z.compare_spec (2 * (2 * (A mod D))) (2 * D));
    destruct (Z.compare_spec (2 * (A mod D)) D); try reflexivity; lia.
Qed.

Lemma rne_exact (A B : Z) : 0 < B -> A mod B = 0 -> rne A B = A / B.
Proof.
  intros HB H. unfold rne. rewrite H.
  destruct (Z.compare_spec (2 * 0) B); try reflexivity; lia.
Qed.

Lemma quotient_pos (A B : Z) :
  0 < B -> 0 <= A -> 53 <= Zdigits2 (A / B) -> 0 < A / B.
Proof.
  intros HB HA Hd. pose proof (Z.div_pos A B HA HB).
  destruct (A / B) as [|p|p]; simpl in Hd; lia.
Qed.

Lemma round53_double (A B e : Z) :
  0 < B -> 0 <= A -> 53 <= Zdigits2 (A / B) ->
  round53 (2 * A) B (e - 1) = round53 A B e.
Proof.
  intros HB HA Hd.
  pose proof (quotient_pos A B HB HA Hd) as Hq.
  pose proof (Z.div_mod A B ltac:(lia)) as Hdm.
  pose proof (Z.mod_pos_bound A B HB) as Hr.
  assert (H2 : exists r, 0 <= r <= 1 /\ (2 * A) / B = 2 * (A / B) + r).
  { exists ((2 * (A mod B)) / B). split.
    - split; [apply Z.div_pos; lia|].
      assert ((2 * (A mod B)) / B < 2); [|lia].
      apply Z.div_lt_upper_bound; lia.
    - replace (2 * A) with (2 * (A / B) * B + 2 * (A mod B)) by lia.
      rewrite Z.div_add_l by lia. reflexivity. }
  destruct H2 as (r & Hr01 & H2).
  unfold round53. rewrite H2, Zdigits2_double by lia.
  replace (Zdigits2 (A / B) + 1 - 53) with (Zdigits2 (A / B) - 53 + 1) by lia.
  set (n := Zdigits2 (A / B) - 53).
  assert (Hn : 0 <= n) by (unfold n; lia).
  rewrite Z.pow_add_r by lia. change (2 ^ 1) with 2.
  replace (B * (2 ^ n * 2)) with (2 * (B * 2 ^ n)) by ring.
  assert (0 < 2 ^ n) by (apply Z.pow_pos_nonneg; lia).
  rewrite rne_double by lia.
  replace (e - 1 + (n + 1) + 1) with (e + n + 1) by lia.
  replace (e - 1 + (n + 1)) with (e + n) by lia.
  reflexivity.
Qed.

Lemma round53_scale (A B e : Z) (j : Z) :
  0 <= j -> 0 < B -> 0 <= A -> 53 <= Zdigits2 (A / B) ->
  round53 (A * 2 ^ j) B (e - j) = round53 A B e.
Proof.
  intros Hj HB HA Hd. revert A e HA Hd.
  pattern j. apply natlike_ind; [| |exact Hj].
  - intros A e HA Hd. rewrite Z.mul_1_r, Z.sub_0_r. reflexivity.
  - clear j Hj. intros j Hj IH A e HA Hd.
    unfold Z.succ. rewrite Z.pow_add_r by lia. change (2 ^ 1) with 2.
    replace (A * (2 ^ j * 2)) with (2 * A * 2 ^ j) by ring.
    replace (e - (j + 1)) with (e - 1 - j) by lia.
    pose proof (quotient_pos A B HB HA Hd) as Hq.
    rewrite IH.
    + apply round53_double; assumption.
    + lia.
    + assert (A / B <= (2 * A) / B) by (apply Z.div_le_mono; lia).
      pose proof (Zdigits2_mono (A / B) ((2 * A) / B) Hq H). lia.
Qed.

(** The rounded mantissa has 53 bits. *)
Lemma round53_canonical (A B e : Z) :
  0 < B -> 0 <= A -> 53 <= Zdigits2 (A / B) ->
  2 ^ 52 <= fst (round53 A B e) < 2 ^ 53 /\
  e + (Zdigits2 (A / B) - 53) <= snd (round53 A B e)
    <= e + (Zdigits2 (A / B) - 53) + 1 /\
  2 ^ 52 <= rne A (B * 2 ^ (Zdigits2 (A / B) - 53)) <= 2 ^ 53.
Proof.
  intros HB HA Hd.
  pose proof (quotient_pos A B HB HA Hd) as Hq.
  set (n := Zdigits2 (A / B) - 53).
  assert (Hn : 0 <= n) by (unfold n; lia).
  assert (Hpow : 0 < 2 ^ n) by (apply Z.pow_pos_nonneg; lia).
  assert (HM1 : 2 ^ 52 <= rne A (B * 2 ^ n) <= 2 ^ 53).
  { pose proof (rne_bounds A (B * 2 ^ n)) as Hb.
    rewrite <- Z.div_div in Hb by lia.
    pose proof (shifted_mantissa_bounds (A / B) n Hq Hn ltac:(unfold n; lia)). lia. }
  unfold round53. fold n.
  destruct (Z.eqb_spec (rne A (B * 2 ^ n)) (2 ^ 53)); cbn [fst snd];
    repeat split; lia.
Qed.

Lemma round53_mono_frac (A B A' B' e : Z) :
  0 < B -> 0 < B' -> 0 <= A -> 53 <= Zdigits2 (A / B) ->
  A * B' <= A' * B ->
  fle (round53 A B e) (round53 A' B' e).
Proof.
  intros HB HB' HA Hd H.
  pose proof (quotient_pos A B HB HA Hd) as Hq.
  pose proof (div_le_frac A B A' B' HB HB' H) as Hqq.
  pose proof (Zdigits2_mono _ _ Hq Hqq) as Hdd.
  assert (HA' : 0 <= A') by nia.
  destruct (round53_canonical A B e HB HA Hd) as (_ & _ & HM).
  destruct (round53_canonical A' B' e HB' HA' ltac:(lia)) as (_ & _ & HM').
  unfold round53, fle.
  set (n := Zdigits2 (A / B) - 53) in *.
  set (n' := Zdigits2 (A' / B') - 53) in *.
  assert (Hn : 0 <= n) by (unfold n; lia).
  assert (Hnn : n <= n') by (unfold n, n'; lia).
  destruct (Z.eq_dec n n') as [Heq|Hne].
  - rewrite <- Heq in *.
    assert (Hpow : 0 < 2 ^ n) by (apply Z.pow_pos_nonneg; lia).
    assert (Hle : rne A (B * 2 ^ n) <= rne A' (B' * 2 ^ n)).
    { apply rne_mono_frac; try lia. nia. }
    destruct (Z.eqb_spec (rne A (B * 2 ^ n)) (2 ^ 53));
      destruct (Z.eqb_spec (rne A' (B' * 2 ^ n)) (2 ^ 53)); cbn [fst snd]; lia.
  - destruct (Z.eqb_spec (rne A (B * 2 ^ n)) (2 ^ 53));
      destruct (Z.eqb_spec (rne A' (B' * 2 ^ n')) (2 ^ 53)); cbn [fst snd]; lia.
Qed.

Lemma Pos_iter_xO (p q : positive) :
  Zpos (Pos.iter xO p q) = Zpos p * 2 ^ Zpos q.
Proof.
  induction q as [|q IH] using Pos.peano_ind.
  - cbn [Pos.iter]. change (2 ^ 1) with 2. lia.
  - rewrite Pos.iter_succ, Pos2Z.inj_xO, IH, Pos2Z.inj_succ.
    unfold Z.succ. rewrite Z.pow_add_r by lia. change (2 ^ 1) with 2. ring.
Qed.

Lemma stands_for_integer (m : Z) : 0 <= m -> stands_for m loc_Exact m 1.
Proof.
  intros Hm. unfold stands_for. rewrite Z.div_1_r, Z.mod_1_r. repeat split; lia.
Qed.

Lemma round53_integer (m e : Z) :
  2 ^ 52 <= m < 2 ^ 53 -> round53 m 1 e = (m, e).
Proof.
  intros Hm. unfold round53. rewrite Z.div_1_r.
  rewrite (Zdigits2_unique m 53) by (change (2 ^ (53 - 1)) with (2 ^ 52); lia).
  change (1 * 2 ^ (53 - 53)) with 1.
  rewrite rne_exact, Z.div_1_r by (try lia; apply Z.mod_1_r).
  destruct (Z.eqb_spec m (2 ^ 53)); [lia|]. f_equal; lia.
Qed.

Lemma norm_of_Z_bounds (k : Z) :
  0 < k < 2 ^ 53 ->
  2 ^ 52 <= fst (norm_of_Z k) < 2 ^ 53 /\ -52 <= snd (norm_of_Z k) <= 0 /\
  Zdigits2 (fst (norm_of_Z k)) = 53.
Proof.
  intros [Hk Hk53]. unfold norm_of_Z. cbn [fst snd].
  pose proof (Zdigits2_bounds k Hk) as [Hlo Hhi].
  pose proof (Zdigits2_pos k Hk) as Hd.
  assert (Hd53 : Zdigits2 k <= 53).
  { assert (Zdigits2 k - 1 < 53); [|lia]. apply (Z.pow_lt_mono_r_iff 2); lia. }
  assert (Hpow : 0 < 2 ^ (53 - Zdigits2 k)) by (apply Z.pow_pos_nonneg; lia).
  assert (H52 : 2 ^ 52 = 2 ^ (Zdigits2 k - 1) * 2 ^ (53 - Zdigits2 k)).
  { rewrite <- Z.pow_add_r by lia. f_equal. lia. }
  assert (H53 : 2 ^ 53 = 2 ^ Zdigits2 k * 2 ^ (53 - Zdigits2 k)).
  { rewrite <- Z.pow_add_r by lia. f_equal. lia. }
  assert (Hb : 2 ^ 52 <= k * 2 ^ (53 - Zdigits2 k) < 2 ^ 53).
  { rewrite H52, H53. split.
    - apply Z.mul_le_mono_nonneg_r; lia.
    - apply Z.mul_lt_mono_pos_r; lia. }
  split; [exact Hb|]. split; [lia|].
  apply Zdigits2_unique; [|lia]. change (2 ^ (53 - 1)) with (2 ^ 52). exact Hb.
Qed.

(** The binary64 value of a positive integer below 2^53. *)
Lemma of_Z_normal (k : Z) :
  0 < k < 2 ^ 53 -> JsNumber.of_Z k = SFpos (norm_of_Z k).
Proof.
  intros Hk. destruct (norm_of_Z_bounds k Hk) as (Hm & He & Hdm).
  destruct k as [|p|p]; try lia.
  unfold JsNumber.of_Z, binary_normalize, binary_round, shl_align, fexp.
  unfold JsNumber.prec, JsNumber.emax. change (emin 53 1024) with (-1074).
  unfold norm_of_Z in *. cbn [fst snd Zdigits2] in *.
  set (d := Zpos (digits2_pos p)) in *.
  replace (Z.max (d + 0 - 53) (-1074)) with (d - 53) by lia.
  replace (d - 53 - 0) with (d - 53) by lia.
  assert (Haux : forall mz : positive,
             Zpos mz = Zpos p * 2 ^ (53 - d) ->
             binary_round_aux 53 1024 false (Zpos mz) (d - 53) loc_Exact
             = SFpos (Zpos p * 2 ^ (53 - d), d - 53)).
  { intros mz Hmz.
    rewrite (binary_round_aux_spec false (Zpos mz) loc_Exact (d - 53) (Zpos mz) 1).
    - rewrite round53_integer by (rewrite Hmz; exact Hm).
      unfold SFpos. cbn [fst snd]. rewrite Hmz. reflexivity.
    - apply stands_for_integer. lia.
    - rewrite Hmz, Hdm. lia.
    - rewrite Hmz, Hdm. lia. }
  assert (Hcase : d - 53 = 0 \/ exists q, d - 53 = Z.neg q).
  { destruct (d - 53) as [|q|q] eqn:Ed; [left; reflexivity | lia | right; eauto]. }
  destruct Hcase as [H0 | [q Hq]].
  - specialize (Haux p). rewrite H0 in *. cbv iota.
    apply Haux. replace (53 - d) with 0 by lia. simpl. lia.
  - specialize (Haux (Pos.iter xO p q)). rewrite Hq in *. cbv iota.
    apply Haux. rewrite Pos_iter_xO. f_equal. f_equal. lia.
Qed.

(** Division of two positive floats with 53-bit mantissas. *)
Lemma SFdiv_canonical (mx my : Z) (ex ey : Z) :
  2 ^ 52 <= mx < 2 ^ 53 -> 2 ^ 52 <= my < 2 ^ 53 ->
  -900 <= ex - ey <= 900 ->
  JsNumber.div (SFpos (mx, ex)) (SFpos (my, ey))
  = SFpos (round53 (mx * 2 ^ 53) my (ex - ey - 53)) /\
  53 <= Zdigits2 ((mx * 2 ^ 53) / my) <= 54.
Proof.
  intros Hx Hy He.
  assert (Hdx : Zdigits2 mx = 53)
    by (apply Zdigits2_unique; [change (2 ^ (53 - 1)) with (2 ^ 52)|]; lia).
  assert (Hdy : Zdigits2 my = 53)
    by (apply Zdigits2_unique; [change (2 ^ (53 - 1)) with (2 ^ 52)|]; lia).
  destruct mx as [|px|px]; try lia. destruct my as [|py|py]; try lia.
  assert (Hq : 2 ^ 52 <= (Zpos px * 2 ^ 53) / Zpos py < 2 ^ 54).
  { split.
    - apply Z.div_le_lower_bound; lia.
    - apply Z.div_lt_upper_bound; lia. }
  assert (Hdq : 53 <= Zdigits2 ((Zpos px * 2 ^ 53) / Zpos py) <= 54).
  { pose proof (Zdigits2_mono (2 ^ 52) _ ltac:(lia) (proj1 Hq)) as H1.
    pose proof (Zdigits2_mono ((Zpos px * 2 ^ 53) / Zpos py) (2 ^ 54 - 1)
                  ltac:(lia) ltac:(lia)) as H2.
    change (Zdigits2 (2 ^ 52)) with 53 in H1.
    change (Zdigits2 (2 ^ 54 - 1)) with 54 in H2. lia. }
  split; [|exact Hdq].
  unfold JsNumber.div, SFpos, SFdiv, SFdiv_core_binary, fexp.
  unfold JsNumber.prec, JsNumber.emax. change (emin 53 1024) with (-1074).
  cbn [fst snd Z.to_pos xorb]. rewrite Hdx, Hdy.
  replace (Z.min (Z.max (53 + ex - (53 + ey) - 53) (-1074)) (ex - ey))
    with (ex - ey - 53) by lia.
  replace (ex - ey - (ex - ey - 53)) with 53 by lia.
  rewrite Z.shiftl_mul_pow2 by lia.
  pose proof (Z.mod_pos_bound (Zpos px * 2 ^ 53) (Zpos py) ltac:(lia)) as Hr.
  assert (Hqr : Z.div_eucl (Zpos px * 2 ^ 53) (Zpos py)
                = ((Zpos px * 2 ^ 53) / Zpos py, (Zpos px * 2 ^ 53) mod Zpos py)).
  { unfold Z.div, Z.modulo.
    destruct (Z.div_eucl (Zpos px * 2 ^ 53) (Zpos py)); reflexivity. }
  rewrite Hqr.
  rewrite (binary_round_aux_spec false _ _ (ex - ey - 53) (Zpos px * 2 ^ 53) (Zpos py)).
  - reflexivity.
  - unfold stands_for. repeat split; try lia.
    apply new_location_spec; lia.
  - lia.
  - lia.
Qed.

(** Multiplication of two positive floats with 53-bit mantissas. *)
Lemma SFmul_canonical (mx my : Z) (ex ey : Z) :
  2 ^ 52 <= mx < 2 ^ 53 -> 2 ^ 52 <= my < 2 ^ 53 ->
  -900 <= ex + ey <= 900 ->
  JsNumber.mul (SFpos (mx, ex)) (SFpos (my, ey))
  = SFpos (round53 (mx * my) 1 (ex + ey)) /\
  105 <= Zdigits2 ((mx * my) / 1) <= 106.
Proof.
  intros Hx Hy He.
  destruct mx as [|px|px]; try lia. destruct my as [|py|py]; try lia.
  rewrite Z.div_1_r.
  assert (Hp : 2 ^ 104 <= Zpos px * Zpos py < 2 ^ 106) by nia.
  assert (Hd : 105 <= Zdigits2 (Zpos px * Zpos py) <= 106).
  { pose proof (Zdigits2_mono (2 ^ 104) _ ltac:(lia) (proj1 Hp)) as H1.
    pose proof (Zdigits2_mono (Zpos px * Zpos py) (2 ^ 106 - 1)
                  ltac:(lia) ltac:(lia)) as H2.
    change (Zdigits2 (2 ^ 104)) with 105 in H1.
    change (Zdigits2 (2 ^ 106 - 1)) with 106 in H2. lia. }
  split; [|exact Hd].
  unfold JsNumber.mul, SFpos, SFmul. unfold JsNumber.prec, JsNumber.emax.
  cbn [fst snd Z.to_pos xorb].
  rewrite (binary_round_aux_spec false _ loc_Exact (ex + ey) (Zpos px * Zpos py) 1).
  - reflexivity.
  - rewrite Pos2Z.inj_mul. apply stands_for_integer. lia.
  - rewrite Pos2Z.inj_mul. lia.
  - rewrite Pos2Z.inj_mul. lia.
Qed.

(** [<=] on positive floats compares exponents, then mantissas. *)
Lemma leb_SFpos (x y : Z * Z) :
  0 < fst x -> 0 < fst y ->
  (JsNumber.leb (SFpos x) (SFpos y) = true <-> fle x y).
Proof.
  destruct x as [m e], y as [m' e']. cbn [fst snd]. intros Hm Hm'.
  unfold JsNumber.leb, SFleb, SFcompare, SFpos, fle. cbn [fst snd].
  destruct m as [|p|p]; try lia. destruct m' as [|p'|p']; try lia.
  cbn [Z.to_pos].
  destruct (Z.compare_spec e e') as [He|He|He].
  - fold (Pos.compare p p'). destruct (Pos.compare_spec p p') as [Hp|Hp|Hp];
      split; intros H; try reflexivity; try discriminate; lia.
  - split; intros; [lia | reflexivity].
  - split; intros H; [discriminate | lia].
Qed.

Lemma eqb_SFpos (x y : Z * Z) :
  0 < fst x -> 0 < fst y ->
  JsNumber.eqb (SFpos x) (SFpos y) = true -> x = y.
Proof.
  destruct x as [m e], y as [m' e']. cbn [fst snd]. intros Hm Hm'.
  unfold JsNumber.eqb, SFeqb, SFcompare, SFpos. cbn [fst snd].
  destruct m as [|p|p]; try lia. destruct m' as [|p'|p']; try lia.
  cbn [Z.to_pos].
  destruct (Z.compare_spec e e') as [He|He|He]; try discriminate.
  fold (Pos.compare p p'). destruct (Pos.compare_spec p p') as [Hp|Hp|Hp];
    try discriminate.
  intros _. congruence.
Qed.

(** [Math.floor] of a positive float with a negative exponent. *)
Lemma Math_floor_SFpos (m e : Z) :
  0 < m -> e < 0 ->
  JsNumber.Math_floor (SFpos (m, e)) = JsNumber.of_Z (m / 2 ^ (- e)).
Proof.
  intros Hm He. unfold JsNumber.Math_floor, SFpos. cbn [fst snd].
  destruct (Z.leb_spec 0 e); [lia|].
  destruct m as [|p|p]; try lia. cbn [Z.to_pos cond_Zopp].
  destruct (Z.eqb_spec (Zpos p / 2 ^ (- e)) 0) as [H0|H0]; [rewrite H0|]; reflexivity.
Qed.

(** Integers below 2^53 keep their order as numbers. *)
Lemma of_Z_leb (a b : Z) :
  0 <= a <= b -> b < 2 ^ 53 -> JsNumber.leb (JsNumber.of_Z a) (JsNumber.of_Z b) = true.
Proof.
  intros [Ha Hab] Hb.
  destruct (Z.eq_dec a 0) as [->|Ha0].
  - destruct (Z.eq_dec b 0) as [->|Hb0]; [reflexivity|].
    rewrite (of_Z_normal b) by lia. reflexivity.
  - rewrite (of_Z_normal a), (of_Z_normal b) by lia.
    destruct (norm_of_Z_bounds a ltac:(lia)) as (Hma & _ & _).
    destruct (norm_of_Z_bounds b ltac:(lia)) as (Hmb & _ & _).
    apply leb_SFpos; try lia.
    unfold fle, norm_of_Z in *. cbn [fst snd] in *.
    pose proof (Zdigits2_mono a b ltac:(lia) Hab) as Hd.
    destruct (Z.eq_dec (Zdigits2 a) (Zdigits2 b)) as [Heq|Hne]; [right|left; lia].
    split; [lia|]. rewrite Heq.
    apply Z.mul_le_mono_nonneg_r; [|lia].
    apply Z.pow_nonneg. lia.
Qed.

Lemma of_Z_eqb (a b : Z) :
  0 <= a < 2 ^ 53 -> 0 <= b < 2 ^ 53 ->
  JsNumber.eqb (JsNumber.of_Z a) (JsNumber.of_Z b) = (a =? b).
Proof.
  intros Ha Hb.
  destruct (Z.eqb_spec a b) as [->|Hne].
  - destruct (Z.eq_dec b 0) as [->|Hb0]; [reflexivity|].
    rewrite (of_Z_normal b) by lia.
    unfold JsNumber.eqb, SFeqb, SFcompare, SFpos.
    rewrite Z.compare_refl. fold (Pos.compare (Z.to_pos (fst (norm_of_Z b)))
                                              (Z.to_pos (fst (norm_of_Z b)))).
    rewrite Pos.compare_refl. reflexivity.
  - destruct (JsNumber.eqb (JsNumber.of_Z a) (JsNumber.of_Z b)) eqn:E; [|reflexivity].
    exfalso. apply Hne.
    destruct (Z.eq_dec a 0) as [->|Ha0]; destruct (Z.eq_dec b 0) as [->|Hb0];
      try reflexivity.
    + rewrite (of_Z_normal b) in E by lia. discriminate E.
    + rewrite (of_Z_normal a) in E by lia. discriminate E.
    + rewrite (of_Z_normal a), (of_Z_normal b) in E by lia.
      destruct (norm_of_Z_bounds a ltac:(lia)) as (Hma & _ & _).
      destruct (norm_of_Z_bounds b ltac:(lia)) as (Hmb & _ & _).
      apply eqb_SFpos in E; try lia.
      pose proof (f_equal fst E) as Hm. pose proof (f_equal snd E) as Hd.
      unfold norm_of_Z in Hm, Hd. cbn [fst snd] in Hm, Hd.
      assert (Hdd : Zdigits2 a = Zdigits2 b) by lia. rewrite Hdd in Hm.
      pose proof (Zdigits2_pos b ltac:(lia)).
      assert (0 < 2 ^ (53 - Zdigits2 b)).
      { apply Z.pow_pos_nonneg; [lia|].
        unfold norm_of_Z in Hmb. cbn [fst] in Hmb.
        destruct (Z_le_gt_dec (Zdigits2 b) 53); [lia|].
        rewrite (Z.pow_neg_r 2 (53 - Zdigits2 b)) in Hmb by lia. lia. }
      apply (Z.mul_reg_r _ _ (2 ^ (53 - Zdigits2 b))); lia.
Qed.

Lemma fle_scaled (x y : Z * Z) :
  canonical53 x -> canonical53 y -> fle x y ->
  0 <= snd y - snd x /\ fst x <= fst y * 2 ^ (snd y - snd x).
Proof.
  unfold canonical53, fle. intros Hx Hy [Hlt | [Heq Hle]].
  - split; [lia|].
    assert (2 ^ 1 <= 2 ^ (snd y - snd x)) by (apply Z.pow_le_mono_r; lia).
    change (2 ^ 1) with 2 in *. nia.
  - split; [lia|]. rewrite Heq, Z.sub_diag. simpl. lia.
Qed.

(** Rounding [x * C / B] is monotone in the float [x]. *)
Lemma round53_mono_float (C B d : Z) (x y : Z * Z) :
  0 < C -> 0 < B ->
  canonical53 x -> canonical53 y -> fle x y ->
  53 <= Zdigits2 ((fst x * C) / B) -> 53 <= Zdigits2 ((fst y * C) / B) ->
  fle (round53 (fst x * C) B (snd x + d)) (round53 (fst y * C) B (snd y + d)).
Proof.
  intros HC HB Hx Hy Hxy Hdx Hdy.
  destruct (fle_scaled x y Hx Hy Hxy) as [Hj Hle].
  unfold canonical53 in *.
  set (j := snd y - snd x) in *.
  rewrite <- (round53_scale (fst y * C) B (snd y + d) j) by (try assumption; nia).
  replace (snd y + d - j) with (snd x + d) by (unfold j; lia).
  assert (0 < 2 ^ j) by (apply Z.pow_pos_nonneg; lia).
  assert (fst x * C <= fst y * 2 ^ j * C) by (apply Z.mul_le_mono_nonneg_r; lia).
  assert (fst x * C * B <= fst y * C * 2 ^ j * B).
  { replace (fst y * C * 2 ^ j) with (fst y * 2 ^ j * C) by ring.
    apply Z.mul_le_mono_nonneg_r; lia. }
  apply round53_mono_frac; try assumption; nia.
Qed.

Lemma norm_of_Z_mono (a b : Z) :
  0 < a -> a <= b -> b < 2 ^ 53 -> fle (norm_of_Z a) (norm_of_Z b).
Proof.
  intros Ha Hab Hb.
  pose proof (Zdigits2_mono a b Ha Hab) as Hd.
  unfold fle, norm_of_Z. cbn [fst snd].
  destruct (Z.eq_dec (Zdigits2 a) (Zdigits2 b)) as [Heq|Hne]; [right|left; lia].
  split; [lia|]. rewrite Heq.
  apply Z.mul_le_mono_nonneg_r; [|lia]. apply Z.pow_nonneg. lia.
Qed.

Lemma norm_of_Z_100 : norm_of_Z 100 = (100 * 2 ^ 46, -46).
Proof. reflexivity. Qed.

(** The quotient stage. *)
Lemma quot53_spec (k n : Z) :
  0 < k -> k <= n -> n < 2 ^ 53 ->
  JsNumber.div (JsNumber.of_Z k) (JsNumber.of_Z n) = SFpos (quot53 k n) /\
  canonical53 (quot53 k n) /\ -105 <= snd (quot53 k n) <= -51 /\
  53 <= Zdigits2 ((fst (norm_of_Z k) * 2 ^ 53) / fst (norm_of_Z n)).
Proof.
  intros Hk Hkn Hn.
  destruct (norm_of_Z_bounds k ltac:(lia)) as (Hmk & Hek & _).
  destruct (norm_of_Z_bounds n ltac:(lia)) as (Hmn & Hen & _).
  assert (Hee : snd (norm_of_Z k) <= snd (norm_of_Z n)).
  { pose proof (Zdigits2_mono k n Hk Hkn). unfold norm_of_Z. cbn [snd]. lia. }
  rewrite (of_Z_normal k), (of_Z_normal n) by lia.
  destruct (SFdiv_canonical (fst (norm_of_Z k)) (fst (norm_of_Z n))
              (snd (norm_of_Z k)) (snd (norm_of_Z n)) Hmk Hmn ltac:(lia))
    as [Hdiv Hdig].
  rewrite <- !surjective_pairing in Hdiv.
  split; [exact Hdiv|].
  destruct (round53_canonical (fst (norm_of_Z k) * 2 ^ 53) (fst (norm_of_Z n))
              (snd (norm_of_Z k) - snd (norm_of_Z n) - 53)
              ltac:(lia) ltac:(lia) ltac:(lia)) as (Hc & He & _).
  fold (quot53 k n) in Hc, He.
  split; [exact Hc|]. split; lia.
Qed.

(** The product stage. *)
Lemma times100_spec (a : Z * Z) :
  canonical53 a -> -200 <= snd a <= 100 ->
  JsNumber.mul (SFpos a) (JsNumber.of_Z 100) = SFpos (times100 a) /\
  canonical53 (times100 a) /\ snd a + 6 <= snd (times100 a) <= snd a + 8.
Proof.
  intros Ha He. unfold canonical53 in Ha.
  rewrite (of_Z_normal 100) by lia.
  assert (H100 : 2 ^ 52 <= fst (norm_of_Z 100) < 2 ^ 53)
    by (rewrite norm_of_Z_100; cbn [fst]; lia).
  destruct (SFmul_canonical (fst a) (fst (norm_of_Z 100)) (snd a) (snd (norm_of_Z 100))
              Ha H100 ltac:(rewrite norm_of_Z_100; cbn [snd]; lia)) as [Hmul Hdig].
  rewrite <- !surjective_pairing in Hmul.
  split; [exact Hmul|].
  destruct (round53_canonical (fst a * fst (norm_of_Z 100)) 1
              (snd a + snd (norm_of_Z 100)) ltac:(lia) ltac:(lia) ltac:(lia))
    as (Hc & He' & _).
  fold (times100 a) in Hc, He'.
  assert (H46 : snd (norm_of_Z 100) = -46) by reflexivity.
  rewrite H46 in He'.
  split; [exact Hc|]. lia.
Qed.

Lemma times100_mono (a b : Z * Z) :
  canonical53 a -> canonical53 b -> fle a b -> fle (times100 a) (times100 b).
Proof.
  intros Ha Hb Hab. unfold times100.
  assert (H100 : 2 ^ 52 <= fst (norm_of_Z 100) < 2 ^ 53)
    by (rewrite norm_of_Z_100; cbn [fst]; lia).
  assert (Hdig : forall x, canonical53 x ->
                           53 <= Zdigits2 ((fst x * fst (norm_of_Z 100)) / 1)).
  { intros x Hx. unfold canonical53 in Hx.
    rewrite Z.div_1_r.
    pose proof (Zdigits2_mono (2 ^ 52) (fst x * fst (norm_of_Z 100))
                  ltac:(lia) ltac:(nia)) as H.
    change (Zdigits2 (2 ^ 52)) with 53 in H. exact H. }
  apply round53_mono_float; auto; lia.
Qed.

Lemma floorZ_mono (a b : Z * Z) :
  canonical53 a -> canonical53 b -> snd b < 0 -> fle a b -> floorZ a <= floorZ b.
Proof.
  intros Ha Hb Hneg Hab. unfold floorZ.
  destruct (fle_scaled a b Ha Hb Hab) as [Hj Hle].
  unfold canonical53 in *.
  set (j := snd b - snd a) in *.
  replace (- snd a) with (j + - snd b) by (unfold j; lia).
  rewrite Z.pow_add_r by lia.
  assert (0 < 2 ^ j) by (apply Z.pow_pos_nonneg; lia).
  assert (0 < 2 ^ (- snd b)) by (apply Z.pow_pos_nonneg; lia).
  rewrite <- Z.div_div by lia.
  apply Z.div_le_mono; [lia|].
  apply Z.div_le_upper_bound; lia.
Qed.

Lemma percent_percentZ (k n : Z) :
  0 < k -> k <= n -> n < 2 ^ 53 ->
  percent k n = JsNumber.of_Z (percentZ k n) /\
  canonical53 (times100 (quot53 k n)) /\ snd (times100 (quot53 k n)) < 0.
Proof.
  intros Hk Hkn Hn. unfold percent, percentZ.
  destruct (quot53_spec k n Hk Hkn Hn) as (Hdiv & Hca & Hea & _).
  destruct (times100_spec (quot53 k n) Hca ltac:(lia)) as (Hmul & Hcb & Heb).
  rewrite Hdiv, Hmul.
  rewrite (surjective_pairing (times100 (quot53 k n))) at 1.
  unfold canonical53 in Hcb.
  rewrite Math_floor_SFpos by lia.
  split; [reflexivity|]. split; [exact Hcb | lia].
Qed.

Lemma quot53_mono (k k' n : Z) :
  0 < k -> k <= k' -> k' <= n -> n < 2 ^ 53 -> fle (quot53 k n) (quot53 k' n).
Proof.
  intros Hk Hkk Hkn Hn.
  destruct (norm_of_Z_bounds k ltac:(lia)) as (Hmk & _ & _).
  destruct (norm_of_Z_bounds k' ltac:(lia)) as (Hmk' & _ & _).
  destruct (norm_of_Z_bounds n ltac:(lia)) as (Hmn & _ & _).
  destruct (quot53_spec k n Hk ltac:(lia) Hn) as (_ & _ & _ & Hd).
  destruct (quot53_spec k' n ltac:(lia) Hkn Hn) as (_ & _ & _ & Hd').
  unfold quot53.
  replace (snd (norm_of_Z k) - snd (norm_of_Z n) - 53)
    with (snd (norm_of_Z k) + (- snd (norm_of_Z n) - 53)) by lia.
  replace (snd (norm_of_Z k') - snd (norm_of_Z n) - 53)
    with (snd (norm_of_Z k') + (- snd (norm_of_Z n) - 53)) by lia.
  apply round53_mono_float; auto; try lia.
  apply norm_of_Z_mono; lia.
Qed.

Lemma quot53_same (n : Z) : 0 < n -> n < 2 ^ 53 -> quot53 n n = (2 ^ 52, -52).
Proof.
  intros Hn Hn53.
  destruct (norm_of_Z_bounds n ltac:(lia)) as (Hm & _ & _).
  unfold quot53, round53.
  set (m := fst (norm_of_Z n)) in *.
  replace (m * 2 ^ 53 / m) with (2 ^ 53)
    by (rewrite Z.mul_comm, Z.div_mul; lia).
  change (Zdigits2 (2 ^ 53) - 53) with 1. change (2 ^ 1) with 2.
  assert (Hmod : (m * 2 ^ 53) mod (m * 2) = 0).
  { replace (m * 2 ^ 53) with (2 ^ 52 * (m * 2)) by (change (2 ^ 53) with (2 ^ 52 * 2); ring).
    apply Z.mod_mul. lia. }
  rewrite rne_exact by (try lia; exact Hmod).
  replace (m * 2 ^ 53 / (m * 2)) with (2 ^ 52).
  - destruct (Z.eqb_spec (2 ^ 52) (2 ^ 53)); [lia|]. f_equal; lia.
  - replace (m * 2 ^ 53) with (2 ^ 52 * (m * 2)) by (change (2 ^ 53) with (2 ^ 52 * 2); ring).
    rewrite Z.div_mul; lia.
Qed.

(** Below the whole, the quotient is at most the float before one. *)
Lemma quot53_below (k n : Z) :
  0 < k -> k < n -> n < 2 ^ 53 -> fle (quot53 k n) (2 ^ 53 - 1, -53).
Proof.
  intros Hk Hkn Hn.
  destruct (norm_of_Z_bounds k ltac:(lia)) as (Hmk & Hek & _).
  destruct (norm_of_Z_bounds n ltac:(lia)) as (Hmn & Hen & _).
  destruct (quot53_spec k n Hk ltac:(lia) Hn) as (_ & _ & _ & Hd).
  pose proof (Zdigits2_mono k n Hk ltac:(lia)) as Hdd.
  pose proof (Zdigits2_pos k Hk) as Hdk.
  set (j := Zdigits2 n - Zdigits2 k).
  assert (Hj : 0 <= j) by (unfold j; lia).
  rewrite <- (round53_integer (2 ^ 53 - 1) (-53)) by lia.
  rewrite <- (round53_scale (2 ^ 53 - 1) 1 (-53) j) by (try lia; rewrite Z.div_1_r; simpl; lia).
  unfold quot53.
  replace (snd (norm_of_Z k) - snd (norm_of_Z n) - 53) with (-53 - j)
    by (unfold norm_of_Z, j; cbn [snd]; lia).
  apply round53_mono_frac; try lia.
  unfold norm_of_Z in *. cbn [fst snd] in *.
  assert (Hdn : Zdigits2 n <= 53) by lia.
  assert (HP : 0 < 2 ^ (53 - Zdigits2 n)) by (apply Z.pow_pos_nonneg; lia).
  assert (Hsplit : 2 ^ (53 - Zdigits2 k) = 2 ^ (53 - Zdigits2 n) * 2 ^ j).
  { rewrite <- Z.pow_add_r by lia. f_equal. unfold j. lia. }
  rewrite Hsplit.
  assert (Hj2 : 0 < 2 ^ j) by (apply Z.pow_pos_nonneg; lia).
  assert (Hcore : k * 2 ^ 53 <= (2 ^ 53 - 1) * n) by lia.
  replace (k * (2 ^ (53 - Zdigits2 n) * 2 ^ j) * 2 ^ 53 * 1)
    with ((k * 2 ^ 53) * (2 ^ (53 - Zdigits2 n) * 2 ^ j)) by ring.
  replace ((2 ^ 53 - 1) * 2 ^ j * (n * 2 ^ (53 - Zdigits2 n)))
    with (((2 ^ 53 - 1) * n) * (2 ^ (53 - Zdigits2 n) * 2 ^ j)) by ring.
  apply Z.mul_le_mono_nonneg_r; [|exact Hcore]. nia.
Qed.

Lemma quot53_canonical (k n : Z) :
  0 < k -> k <= n -> n < 2 ^ 53 -> canonical53 (quot53 k n).
Proof. intros Hk Hkn Hn. apply (quot53_spec k n Hk Hkn Hn). Qed.

Lemma percentZ_mono (k k' n : Z) :
  0 < k -> k <= k' -> k' <= n -> n < 2 ^ 53 -> percentZ k n <= percentZ k' n.
Proof.
  intros Hk Hkk Hkn Hn. unfold percentZ.
  destruct (percent_percentZ k n Hk ltac:(lia) Hn) as (_ & Hc & _).
  destruct (percent_percentZ k' n ltac:(lia) Hkn Hn) as (_ & Hc' & Hneg).
  apply floorZ_mono; try assumption.
  apply times100_mono.
  - apply quot53_canonical; lia.
  - apply quot53_canonical; lia.
  - apply quot53_mono; lia.
Qed.

Lemma percentZ_whole (n : Z) : 0 < n -> n < 2 ^ 53 -> percentZ n n = 100.
Proof.
  intros Hn Hn53. unfold percentZ. rewrite quot53_same by assumption.
  vm_compute. reflexivity.
Qed.

Lemma canonical53_pred_one : canonical53 (2 ^ 53 - 1, -53).
Proof. unfold canonical53. cbn [fst]. lia. Qed.

Lemma percentZ_below (k n : Z) :
  0 < k -> k < n -> n < 2 ^ 53 -> percentZ k n <= 99.
Proof.
  intros Hk Hkn Hn. unfold percentZ.
  destruct (percent_percentZ k n Hk ltac:(lia) Hn) as (_ & Hc & _).
  pose proof canonical53_pred_one as Hp.
  destruct (times100_spec (2 ^ 53 - 1, -53) Hp ltac:(cbn [snd]; lia)) as (_ & Hc1 & He1).
  cbn [snd] in He1.
  assert (Hle : floorZ (times100 (quot53 k n)) <= floorZ (times100 (2 ^ 53 - 1, -53))).
  { apply floorZ_mono; try assumption; [lia|].
    apply times100_mono; try assumption.
    - apply quot53_canonical; lia.
    - apply quot53_below; lia. }
  assert (Hv : floorZ (times100 (2 ^ 53 - 1, -53)) = 99) by (vm_compute; reflexivity).
  lia.
Qed.

Lemma percentZ_nonneg (k n : Z) :
  0 < k -> k <= n -> n < 2 ^ 53 -> 0 <= percentZ k n.
Proof.
  intros Hk Hkn Hn.
  destruct (percent_percentZ k n Hk Hkn Hn) as (_ & Hc & Hneg).
  unfold percentZ, floorZ. unfold canonical53 in Hc.
  apply Z.div_pos; [lia|]. apply Z.pow_pos_nonneg; lia.
Qed.

Lemma percentZ_range (k n : Z) :
  0 < k -> k <= n -> n < 2 ^ 53 -> 0 <= percentZ k n <= 100.
Proof.
  intros Hk Hkn Hn. split; [apply percentZ_nonneg; lia|].
  rewrite <- (percentZ_whole n) by lia. apply percentZ_mono; lia.
Qed.

(** [percent] is non-decreasing in the number of chunks done. *)
Lemma percent_mono (k k' n : Z) :
  0 < k -> k <= k' -> k' <= n -> n < 2 ^ 53 ->
  JsNumber.leb (percent k n) (percent k' n) = true.
Proof.
  intros Hk Hkk Hkn Hn.
  destruct (percent_percentZ k n Hk ltac:(lia) Hn) as (E & _).
  destruct (percent_percentZ k' n ltac:(lia) Hkn Hn) as (E' & _).
  pose proof (percentZ_range k n Hk ltac:(lia) Hn).
  pose proof (percentZ_range k' n ltac:(lia) Hkn Hn).
  pose proof (percentZ_mono k k' n Hk Hkk Hkn Hn).
  rewrite E, E'. apply of_Z_leb; lia.
Qed.

(** [percent] is 100 exactly at the last chunk. *)
Lemma percent_100 (k n : Z) :
  0 < k -> k <= n -> n < 2 ^ 53 ->
  JsNumber.eqb (percent k n) (JsNumber.of_Z 100) = (k =? n).
Proof.
  intros Hk Hkn Hn.
  destruct (percent_percentZ k n Hk Hkn Hn) as (E & _).
  pose proof (percentZ_range k n Hk Hkn Hn).
  rewrite E, of_Z_eqb by lia.
  destruct (Z.eqb_spec k n) as [->|Hne].
  - rewrite percentZ_whole by lia. reflexivity.
  - pose proof (percentZ_below k n Hk ltac:(lia) Hn). apply Z.eqb_neq. lia.
Qed.

(** ** Progress *)

Lemma total_chunks_le_size (f : File.t) : total_chunks f <= File.size f.
Proof.
  pose proof (File_size_nonneg f).
  destruct (total_chunks_bounds f) as [H'|[H1 H2]]; unfold CHUNK_SIZE in *; lia.
Qed.

Lemma progress_values_observable (effs : list Effect) :
  progress_values (observable effs) = progress_values effs.
Proof.
  unfold progress_values, observable.
  induction effs as [|e effs IH]; [reflexivity|].
  destruct e; cbn [filter flat_map app]; rewrite ?IH; reflexivity.
Qed.

Lemma sent_frames_observable (effs : list Effect) :
  sent_frames (observable effs) = sent_frames effs.
Proof.
  unfold sent_frames, observable.
  induction effs as [|e effs IH]; [reflexivity|].
  destruct e; cbn [filter flat_map app]; rewrite ?IH; reflexivity.
Qed.

Lemma progress_values_map_OnProgress (l : list JsNumber.t) :
  progress_values (map OnProgress l) = l.
Proof.
  unfold progress_values.
  induction l as [|a l IH]; [reflexivity|]. cbn [map flat_map app]. rewrite IH. reflexivity.
Qed.

Lemma nondecreasing_cons (a b : JsNumber.t) (l : list JsNumber.t) :
  nondecreasing (a :: b :: l) = JsNumber.leb a b && nondecreasing (b :: l).
Proof. reflexivity. Qed.

(** The values [percent (k+1) n], ..., [percent (k+j) n] never go down. *)
Lemma nondecreasing_progress_from (n : Z) (j : nat) :
  forall k, 0 <= k -> k + Z.of_nat j <= n -> n < 2 ^ 53 ->
            nondecreasing (progress_from n k j) = true.
Proof.
  induction j as [|j IH]; intros k Hk Hle Hn; [reflexivity|].
  destruct j as [|j]; [reflexivity|].
  specialize (IH (k + 1) ltac:(lia) ltac:(lia) Hn).
  cbn [progress_from] in IH |- *.
  rewrite nondecreasing_cons, IH, andb_true_r.
  apply percent_mono; lia.
Qed.

(** Short of the last chunk no value is 100. *)
Lemma count_100_progress_partial (n : Z) (j : nat) :
  forall k, 0 <= k -> k + Z.of_nat j < n -> n < 2 ^ 53 ->
            count_100 (progress_from n k j) = 0%nat.
Proof.
  induction j as [|j IH]; intros k Hk Hlt Hn; [reflexivity|].
  cbn [progress_from]. unfold count_100. cbn [filter].
  unfold is_100 at 1. rewrite percent_100 by lia.
  destruct (Z.eqb_spec (k + 1) n) as [E|_]; [lia|].
  apply IH; lia.
Qed.

(** Up to the last chunk exactly one value is 100, the last. *)
Lemma count_100_progress_whole (n : Z) (j : nat) :
  forall k, 0 <= k -> k + Z.of_nat j = n -> (0 < j)%nat -> n < 2 ^ 53 ->
            count_100 (progress_from n k j) = 1%nat.
Proof.
  induction j as [|j IH]; intros k Hk Heq Hj Hn; [lia|].
  cbn [progress_from]. unfold count_100. cbn [filter].
  unfold is_100 at 1. rewrite percent_100 by lia.
  destruct (Z.eqb_spec (k + 1) n) as [E|E].
  - assert (j = 0%nat) by lia. subst j. reflexivity.
  - apply IH; lia.
Qed.

Lemma complete_follows_100_chunks_effects (f : File.t) (id : string) (j : nat) :
  forall k, 0 <= k -> k + Z.of_nat j <= total_chunks f -> total_chunks f < 2 ^ 53 ->
            complete_follows_100 (chunks_effects f id k j) = true.
Proof.
  induction j as [|j IH]; intros k Hk Hle Hn; [reflexivity|].
  cbn [chunks_effects]. unfold chunk_effects.
  cbn [app complete_follows_100 is_complete_frame negb andb].
  unfold is_100. rewrite percent_100 by lia.
  destruct (Z.ltb_spec (k + 1) (total_chunks f)), (Z.eqb_spec (k + 1) (total_chunks f));
    try lia.
  - cbn [app]. apply IH; lia.
  - cbn [app complete_follows_100 is_complete_frame andb]. apply IH; lia.
Qed.

(** A receiver fed the metadata frame, the first [j] chunks and then at
    most the completion frame reports the same values as the sender. *)
Lemma receive_progress (f : File.t) (now : Z) (p : PeerTransfer) (j : nat)
      (rest : list Frame) :
  (forall q, progress_values (snd (receive q rest)) = []) ->
  progress_values
    (snd (receive p (TextFrame (FileInfoMsg (meta_of f now))
                     :: map BinaryFrame (chunks_from f 0 j) ++ rest)))
  = progress_from (total_chunks f) 0 j.
Proof.
  intros Hrest. cbn [receive onmessage]. unfold handleFileInfo.
  rewrite receive_app, receive_chunks.
  cbn [incomingChunks expectedChunks receivingFile set_receiving app List.length].
  match goal with |- context [receive ?q rest] =>
    specialize (Hrest q); destruct (receive q rest) as [q' e'] end.
  cbn [snd] in *. cbn [progress_values flat_map app].
  fold (progress_values (map OnProgress
          (progress_from (totalChunks (meta_of f now)) (Z.of_nat 0) (List.length (chunks_from f 0 j)))
        ++ e')).
  rewrite progress_values_app, progress_values_map_OnProgress, Hrest, app_nil_r.
  rewrite chunks_from_length. reflexivity.
Qed.

Lemma receive_complete_progress (id : string) (q : PeerTransfer) :
  progress_values (snd (receive q [TextFrame (FileCompleteMsg id)])) = [].
Proof.
  cbn [receive onmessage]. unfold handleComplete.
  destruct (receivingFile q); reflexivity.
Qed.

(** Whatever the reads, the timers and the channel do after [sendFile]
    on an idle open channel that refuses no frame: what the sender sends
    and reports is the metadata frame and an initial part of the
    canonical trace. *)
Lemma transfer_trace (rt : Runtime) (dc : RTCDataChannel) (f : File.t) (now : Z)
      (evs : list Event) :
  closures rt = [] -> tasks rt = [] ->
  dataChannel (self rt) = Some dc -> readyState dc = dc_open ->
  sendQueueLimit dc = None -> 0 <= bufferedAmount dc ->
  forallb transfer_event evs = true ->
  exists j,
    Z.of_nat j <= total_chunks f /\
    observable (snd (run rt (CallSendFile f now :: evs)))
    = ChannelSend (TextFrame (FileInfoMsg (meta_of f now)))
      :: chunks_effects f (Date_now_toString now) 0 j.
Proof.
  intros Hcl Hts Hdc Ho Hl Hb Hevs.
  destruct (sendFile_flowing rt dc f now Hcl Hts Hdc Ho Hl Hb) as (Heff & [Htr _] & _).
  destruct (run_transferring f _ evs 0 _ Htr Hevs) as (rt' & eff & j & Hrun & Htr' & Hobs).
  exists j. split; [destruct Htr' as [Hk _]; lia|].
  cbn [run step]. destruct (sendFile rt f now) as [rt0 eff0]. cbn [fst snd] in *.
  rewrite Hrun. cbn [snd]. rewrite observable_app, Hobs. subst eff0. reflexivity.
Qed.

(** The progress values in the metadata frame followed by the first [j]
    rounds of the canonical trace, at the sender and at a receiver fed
    the frames. *)
Lemma trace_progress (f : File.t) (now : Z) (p : PeerTransfer) (j : nat) :
  0 < total_chunks f -> total_chunks f < 2 ^ 53 -> Z.of_nat j <= total_chunks f ->
  let tr := ChannelSend (TextFrame (FileInfoMsg (meta_of f now)))
            :: chunks_effects f (Date_now_toString now) 0 j in
  progress_values tr = progress_from (total_chunks f) 0 j /\
  progress_values (snd (receive p (sent_frames tr))) = progress_from (total_chunks f) 0 j /\
  complete_follows_100 tr = true.
Proof.
  intros Hpos Hn Hj tr. split; [|split].
  - unfold tr.
    change (progress_values (?e :: ?l)) with (progress_values [e] ++ progress_values l).
    rewrite progress_values_chunks_effects. reflexivity.
  - unfold tr.
    change (sent_frames (?e :: ?l)) with (sent_frames [e] ++ sent_frames l).
    rewrite sent_frames_chunks_effects by lia.
    cbn [sent_frames flat_map app].
    apply receive_progress. intros q.
    destruct ((0 <? Z.of_nat j) && (total_chunks f <=? 0 + Z.of_nat j));
      [apply receive_complete_progress | reflexivity].
  - unfold tr. cbn [complete_follows_100 is_complete_frame negb andb].
    apply complete_follows_100_chunks_effects; lia.
Qed.

(** C3 (as stated) fails: the sender reports 100 before the completion
    frame is handed to the channel.  For a file of one byte the sender
    hands over the metadata frame and the chunk, reports 100, and only
    then hands over the completion frame. *)
Lemma progress_100_precedes_completion_frame :
  let f := {| File.name := "a.txt"; File.type := "text/plain";
              File.bytes := [Byte.x61] |} in
  let now := 1700000000000 in
  let effs := snd (run (connected "p1") (CallSendFile f now :: steady_schedule f now)) in
  effs = [ChannelSend (TextFrame (FileInfoMsg (meta_of f now)));
          ChannelSend (BinaryFrame [Byte.x61]);
          OnProgress (JsNumber.of_Z 100);
          ChannelSend (TextFrame (FileCompleteMsg (Date_now_toString now)))] /\
  complete_before_100 false effs = false.
Proof.
  intros f now effs.
  assert (H : effs = [ChannelSend (TextFrame (FileInfoMsg (meta_of f now)));
          ChannelSend (BinaryFrame [Byte.x61]);
          OnProgress (JsNumber.of_Z 100);
          ChannelSend (TextFrame (FileCompleteMsg (Date_now_toString now)))])
    by (vm_compute; reflexivity).
  split; [exact H|]. rewrite H. vm_compute. reflexivity.
Qed.

(** * Transfers on a page that has sent before *)

(** ** Earlier invocations do not matter *)

Lemma nth_error_after {A : Type} (old l : list A) (i : nat) :
  nth_error (old ++ l) (i + List.length old) = nth_error l i.
Proof.
  rewrite nth_error_app2 by lia. f_equal. lia.
Qed.

Lemma replace_nth_after {A : Type} (old l : list A) (i : nat) (x : A) :
  replace_nth (i + List.length old) x (old ++ l) = old ++ replace_nth i x l.
Proof.
  induction old as [|h old IH]; cbn [List.length app].
  - rewrite Nat.add_0_r. reflexivity.
  - rewrite Nat.add_succ_r. cbn [replace_nth]. rewrite IH. reflexivity.
Qed.

Lemma remove_nth_map {A B : Type} (g : A -> B) (l : list A) :
  forall i, remove_nth i (map g l) = map g (remove_nth i l).
Proof.
  induction l as [|h t IH]; intros [|i]; cbn [map remove_nth]; try reflexivity.
  rewrite IH. reflexivity.
Qed.

Lemma after_earlier_add_task (old : list SendFileClosure) (rt : Runtime) (t : Task) :
  add_task (after_earlier old rt) (shift_task (List.length old) t)
  = after_earlier old (add_task rt t).
Proof.
  unfold add_task, with_tasks, after_earlier. cbn [self closures tasks].
  rewrite map_app. reflexivity.
Qed.

Lemma after_earlier_set_closure (old : list SendFileClosure) (rt : Runtime) (cid : nat)
      (c : SendFileClosure) :
  set_closure (after_earlier old rt) (cid + List.length old) c
  = after_earlier old (set_closure rt cid c).
Proof.
  unfold set_closure, with_closures, after_earlier. cbn [self closures tasks].
  rewrite replace_nth_after. reflexivity.
Qed.

Lemma after_earlier_take_task (old : list SendFileClosure) (rt : Runtime) (i : nat) :
  take_task (after_earlier old rt) i = after_earlier old (take_task rt i).
Proof.
  unfold take_task, with_tasks, after_earlier. cbn [self closures tasks].
  rewrite remove_nth_map. reflexivity.
Qed.

Lemma after_earlier_channel (old : list SendFileClosure) (rt : Runtime)
      (dc : RTCDataChannel) :
  with_self (after_earlier old rt)
            (set_dataChannel (self (after_earlier old rt))
                             (Some (shift_handler (List.length old) dc)))
  = after_earlier old (with_self rt (set_dataChannel (self rt) (Some dc))).
Proof. reflexivity. Qed.

Lemma sendNextChunk_after (old : list SendFileClosure) (rt : Runtime) (cid : nat) :
  sendNextChunk (after_earlier old rt) (cid + List.length old)
  = after_earlier old (sendNextChunk rt cid).
Proof.
  unfold sendNextChunk.
  replace (nth_error (closures (after_earlier old rt)) (cid + List.length old))
    with (nth_error (closures rt) cid)
    by (symmetry; apply nth_error_after).
  destruct (nth_error (closures rt) cid) as [c|]; [|reflexivity].
  cbn [after_earlier self dataChannel set_dataChannel].
  destruct (dataChannel (self rt)) as [dc|]; [|reflexivity].
  cbn [option_map shift_handler bufferedAmount dc_set_onbufferedamountlow].
  destruct (_ || _); [reflexivity|].
  destruct (_ <? _); [reflexivity|].
  rewrite <- after_earlier_add_task, <- after_earlier_set_closure. reflexivity.
Qed.

Lemma dc_send_shift (n : nat) (dc : RTCDataChannel) (fr : Frame) :
  dc_send (shift_handler n dc) fr
  = match dc_send dc fr with
    | inl e => inl e
    | inr dc1 => inr (shift_handler n dc1)
    end.
Proof.
  unfold dc_send, shift_handler.
  cbn [readyState bufferedAmount sendQueueLimit dc_set_onbufferedamountlow].
  destruct (negb (is_open (readyState dc))); [reflexivity|].
  destruct (sendQueueLimit dc) as [lim|]; [destruct (lim <? _)|]; reflexivity.
Qed.

Lemma trySend_after (old : list SendFileClosure) (rt : Runtime) (cid : nat)
      (data : list Byte.byte) :
  trySend (after_earlier old rt) (cid + List.length old) data
  = (after_earlier old (fst (trySend rt cid data)), snd (trySend rt cid data)).
Proof.
  unfold trySend.
  cbn [after_earlier self dataChannel set_dataChannel].
  destruct (dataChannel (self rt)) as [dc|] eqn:Hdc; [|reflexivity].
  cbn [option_map].
  change (bufferedAmount (shift_handler (List.length old) dc)) with (bufferedAmount dc).
  destruct (16 * 1024 * 1024 <? bufferedAmount dc).
  { cbn [fst snd]. rewrite <- after_earlier_add_task. unfold after_earlier.
    rewrite Hdc. reflexivity. }
  rewrite dc_send_shift.
  destruct (dc_send dc (BinaryFrame data)) as [[|]|dc1].
  { cbn [fst snd]. rewrite <- after_earlier_add_task. unfold after_earlier.
    rewrite Hdc. reflexivity. }
  { cbn [fst snd]. unfold after_earlier. rewrite Hdc. reflexivity. }
  match goal with |- context [nth_error (closures ?r) (cid + List.length old)] =>
    change r with (after_earlier old (with_self rt (set_dataChannel (self rt) (Some dc1))))
  end.
  replace (nth_error
             (closures (after_earlier old
                          (with_self rt (set_dataChannel (self rt) (Some dc1)))))
             (cid + List.length old))
    with (nth_error (closures (with_self rt (set_dataChannel (self rt) (Some dc1)))) cid)
    by (symmetry; apply nth_error_after).
  destruct (nth_error (closures (with_self rt (set_dataChannel (self rt) (Some dc1)))) cid)
    as [c|]; [|reflexivity].
  cbv zeta. rewrite after_earlier_set_closure.
  destruct (chunkIndex _ <? c_totalChunks _).
  { cbn [fst snd]. rewrite sendNextChunk_after. reflexivity. }
  rewrite dc_send_shift.
  destruct (dc_send dc1 _) as [e|dc2]; reflexivity.
Qed.

Lemma sendSignal_after (old : list SendFileClosure) (rt : Runtime) (msg : SignalBody)
      (a : nat) :
  sendSignal (after_earlier old rt) msg a
  = (after_earlier old (fst (sendSignal rt msg a)), snd (sendSignal rt msg a)).
Proof.
  unfold sendSignal. cbn [after_earlier self ws set_dataChannel].
  destruct (ws_readyState (ws (self rt))); try reflexivity.
  destruct (Nat.ltb a MAX_RETRIES); [|reflexivity].
  cbn [fst snd]. rewrite <- after_earlier_add_task. reflexivity.
Qed.

Lemma channel_drain_after (old : list SendFileClosure) (rt : Runtime) (n : Z) :
  channel_drain (after_earlier old rt) n = after_earlier old (channel_drain rt n).
Proof.
  unfold channel_drain.
  cbn [after_earlier self dataChannel set_dataChannel].
  destruct (dataChannel (self rt)) as [dc|] eqn:Hdc.
  2:{ unfold after_earlier. rewrite Hdc. reflexivity. }
  cbn [option_map shift_handler bufferedAmount bufferedAmountLowThreshold
       onbufferedamountlow dc_set_onbufferedamountlow].
  destruct (_ && _); [|reflexivity].
  destruct (onbufferedamountlow dc) as [cid|]; [|reflexivity].
  cbn [option_map]. rewrite <- sendNextChunk_after. reflexivity.
Qed.

(** A page with earlier invocations in front does, on every event of a
    transfer, what the page without them does. *)
Lemma step_after (old : list SendFileClosure) (rt : Runtime) (ev : Event) :
  transfer_event ev = true ->
  step (after_earlier old rt) ev
  = (after_earlier old (fst (step rt ev)), snd (step rt ev)).
Proof.
  intros Hev. destruct ev; cbn [transfer_event] in Hev; try discriminate; cbn [step].
  - (* ReaderLoad *)
    cbn [after_earlier tasks]. rewrite nth_error_map.
    destruct (nth_error (tasks rt) i) as [[d [msg a|cid data]|cid chunk| |]|];
      cbn [option_map shift_task fst snd]; try reflexivity.
    fold (after_earlier old rt). rewrite after_earlier_take_task.
    unfold reader_onload.
    replace (nth_error (closures (after_earlier old (take_task rt i)))
                       (cid + List.length old))
      with (nth_error (closures (take_task rt i)) cid)
      by (symmetry; apply nth_error_after).
    destruct (nth_error (closures (take_task rt i)) cid) as [c|].
    + rewrite after_earlier_set_closure. apply trySend_after.
    + apply trySend_after.
  - (* ReaderError *)
    cbn [after_earlier tasks]. rewrite nth_error_map.
    destruct (nth_error (tasks rt) i) as [[d [msg a|cid data]|cid chunk| |]|];
      cbn [option_map shift_task fst snd]; try reflexivity.
    fold (after_earlier old rt). rewrite after_earlier_take_task.
    unfold reader_onerror.
    replace (nth_error (closures (after_earlier old (take_task rt i)))
                       (cid + List.length old))
      with (nth_error (closures (take_task rt i)) cid)
      by (symmetry; apply nth_error_after).
    destruct (nth_error (closures (take_task rt i)) cid) as [c|]; [|reflexivity].
    rewrite after_earlier_set_closure. reflexivity.
  - (* TimerFires *)
    cbn [after_earlier tasks]. rewrite nth_error_map.
    destruct (nth_error (tasks rt) i) as [[d [msg a|cid data]|cid chunk| |]|];
      cbn [option_map shift_task fst snd]; try reflexivity;
      fold (after_earlier old rt); rewrite after_earlier_take_task.
    + apply sendSignal_after.
    + apply trySend_after.
  - (* ChannelDrain *)
    cbn [fst snd]. rewrite channel_drain_after. reflexivity.
Qed.

Lemma run_after (old : list SendFileClosure) (evs : list Event) :
  forall rt,
    forallb transfer_event evs = true ->
    run (after_earlier old rt) evs
    = (after_earlier old (fst (run rt evs)), snd (run rt evs)).
Proof.
  induction evs as [|ev evs IH]; intros rt Hevs; [reflexivity|].
  cbn [forallb] in Hevs. apply andb_true_iff in Hevs as [Hev Hevs].
  cbn [run]. rewrite (step_after old rt ev Hev).
  destruct (step rt ev) as [rt1 eff1]. cbn [fst snd].
  rewrite (IH rt1 Hevs). destruct (run rt1 evs) as [rt2 eff2]. reflexivity.
Qed.

(** [sendFile] on a page on which nothing is pending: the closures of
    earlier invocations only give the new one a higher number. *)
Lemma sendFile_after (rt : Runtime) (dc dc1 : RTCDataChannel) (f : File.t) (now : Z) :
  tasks rt = [] ->
  dataChannel (self rt) = Some dc ->
  dc_send dc (TextFrame (FileInfoMsg (meta_of f now))) = inr dc1 ->
  sendFile rt f now
  = (after_earlier (closures rt) (fst (sendFile (with_closures rt []) f now)),
     snd (sendFile (with_closures rt []) f now)).
Proof.
  intros Hts Hdc Hsend.
  rewrite (sendFile_accepted rt f now dc dc1 Hdc Hsend).
  rewrite (sendFile_accepted (with_closures rt []) f now dc dc1 Hdc Hsend).
  cbn [fst snd]. f_equal.
  change (List.length (closures (with_closures rt []))) with 0%nat.
  rewrite <- (sendNextChunk_after (closures rt) _ 0).
  cbn [Nat.add]. f_equal.
  destruct rt as [p cl ts]. cbn [tasks] in Hts. subst ts. reflexivity.
Qed.

(** What follows [sendFile] on a page on which nothing is pending does
    not depend on the invocations that came earlier. *)
Lemma run_sendFile_after (rt : Runtime) (dc dc1 : RTCDataChannel) (f : File.t) (now : Z)
      (evs : list Event) :
  tasks rt = [] ->
  dataChannel (self rt) = Some dc ->
  dc_send dc (TextFrame (FileInfoMsg (meta_of f now))) = inr dc1 ->
  forallb transfer_event evs = true ->
  snd (run rt (CallSendFile f now :: evs))
  = snd (run (with_closures rt []) (CallSendFile f now :: evs)).
Proof.
  intros Hts Hdc Hsend Hevs. cbn [run step].
  rewrite (sendFile_after rt dc dc1 f now Hts Hdc Hsend).
  destruct (sendFile (with_closures rt []) f now) as [rt1 eff1]. cbn [fst snd].
  rewrite (run_after (closures rt) evs rt1 Hevs).
  destruct (run rt1 evs) as [rt2 eff2]. reflexivity.
Qed.

(** Whatever the reads, the timers and the channel do after [sendFile]
    on an open channel that refuses no frame, called while nothing is
    pending on the page: what the sender sends and reports is the
    metadata frame and an initial part of the canonical trace, whatever
    was sent on the page before. *)
Lemma transfer_trace_later (rt : Runtime) (dc : RTCDataChannel) (f : File.t) (now : Z)
      (evs : list Event) :
  tasks rt = [] ->
  dataChannel (self rt) = Some dc -> readyState dc = dc_open ->
  sendQueueLimit dc = None -> 0 <= bufferedAmount dc ->
  forallb transfer_event evs = true ->
  exists j,
    Z.of_nat j <= total_chunks f /\
    observable (snd (run rt (CallSendFile f now :: evs)))
    = ChannelSend (TextFrame (FileInfoMsg (meta_of f now)))
      :: chunks_effects f (Date_now_toString now) 0 j.
Proof.
  intros Hts Hdc Ho Hl Hb Hevs.
  rewrite (run_sendFile_after rt dc _ f now evs Hts Hdc
             (dc_send_unlimited dc _ Ho Hl) Hevs).
  apply (transfer_trace (with_closures rt []) dc f now evs); auto.
Qed.

(** On a channel that holds [bufferedAmount dc] bytes the schedule that
    first transmits these as well runs the transfer to its end. *)
Lemma steady_run_from (rt : Runtime) (dc : RTCDataChannel) (f : File.t) (now : Z) :
  closures rt = [] -> tasks rt = [] ->
  dataChannel (self rt) = Some dc -> readyState dc = dc_open ->
  sendQueueLimit dc = None -> 0 <= bufferedAmount dc ->
  exists rt',
    run rt (CallSendFile f now :: steady_schedule_from (bufferedAmount dc) f now)
    = (rt', ChannelSend (TextFrame (FileInfoMsg (meta_of f now)))
            :: chunks_effects f (Date_now_toString now) 0 (Z.to_nat (total_chunks f))) /\
    flowing f (Date_now_toString now) (total_chunks f) rt'.
Proof.
  intros Hcl Hts Hdc Ho Hl Hb.
  destruct (sendFile_flowing rt dc f now Hcl Hts Hdc Ho Hl Hb) as (Heff & Hfl & Hbuf).
  pose proof (frameBytes_nonneg (TextFrame (FileCompleteMsg (Date_now_toString now)))).
  pose proof (frameBytes_nonneg (TextFrame (FileInfoMsg (meta_of f now)))).
  pose proof (total_chunks_nonneg f) as Hn.
  destruct (drain_flowing f _ 0 _ (bufferedAmount dc + drain_amount f now) Hfl)
    as (rt1 & Hstep1 & Hfl1 & Hb1 & Hp1).
  { rewrite Hbuf. unfold drain_amount, CHUNK_SIZE. lia. }
  destruct (steady_rounds f (Date_now_toString now) (drain_amount f now)
              (Z.to_nat (total_chunks f)) ltac:(unfold drain_amount; lia)
              0 rt1 Hfl1 Hb1 Hp1 ltac:(lia)) as (rt2 & Hrun & Hfl2 & _).
  exists rt2. unfold steady_schedule_from. cbn [run step].
  destruct (sendFile rt f now) as [rt0 eff0]. cbn [fst snd] in *. subst eff0.
  cbn [step] in Hstep1. injection Hstep1 as Hstep1. subst rt1.
  rewrite Hrun. cbn [app]. split; [reflexivity|].
  replace (0 + Z.of_nat (Z.to_nat (total_chunks f))) with (total_chunks f) in Hfl2 by lia.
  exact Hfl2.
Qed.

Lemma forallb_steady_schedule_from (b0 : Z) (f : File.t) (now : Z) :
  forallb transfer_event (steady_schedule_from b0 f now) = true.
Proof.
  unfold steady_schedule_from. cbn [forallb transfer_event andb].
  induction (Z.to_nat (total_chunks f)) as [|n IH]; [reflexivity|].
  cbn [repeat List.concat app forallb transfer_event andb]. exact IH.
Qed.

(** ** A zero-byte file *)



(** ** Progress *)

(** C3 (as amended): for every transfer of a file of at least one byte
    (and fewer than 2^53, as every size a page can read) started by
    [sendFile] on an open channel that refuses no frame, called while
    nothing is pending on the page, whatever the page has sent before and
    whatever the channel still holds, and whatever the reads, the timers
    and the channel do afterwards: the sender has reported
    [Math.floor((i / totalChunks) * 100)] for i = 1, ..., j, one value
    after each of the j chunks it handed over; a receiver fed the frames
    sent reports the same values; the values never go down; the value 100
    is among them exactly once if all chunks were handed over and not at
    all before; and every report of 100 at the sender is followed at once
    by the completion frame, which is handed to the channel after the
    report and nowhere else.  Under the steady schedule all chunks are
    handed over, so 100 is reported exactly once. *)
Theorem progress_nondecreasing_100_with_last_chunk
        (rt : Runtime) (dc : RTCDataChannel) (f : File.t) (now : Z)
        (p : PeerTransfer) (evs : list Event) :
  0 < File.size f -> File.size f < 2 ^ 53 ->
  tasks rt = [] ->
  dataChannel (self rt) = Some dc -> readyState dc = dc_open ->
  sendQueueLimit dc = None -> 0 <= bufferedAmount dc ->
  forallb transfer_event evs = true ->
  let n := total_chunks f in
  let effs := snd (run rt (CallSendFile f now :: evs)) in
  let whole := snd (run rt (CallSendFile f now
                            :: steady_schedule_from (bufferedAmount dc) f now)) in
  (exists j, Z.of_nat j <= n /\
     progress_values effs = progress_from n 0 j /\
     count_100 (progress_values effs) = (if Z.of_nat j =? n then 1%nat else 0%nat)) /\
  progress_values (snd (receive p (sent_frames effs))) = progress_values effs /\
  nondecreasing (progress_values effs) = true /\
  complete_follows_100 (observable effs) = true /\
  progress_values whole = progress_from n 0 (Z.to_nat n) /\
  count_100 (progress_values whole) = 1%nat.
Proof.
  intros Hpos H53 Hts Hdc Ho Hl Hb Hevs n effs whole.
  pose proof (total_chunks_pos f Hpos) as Hn0.
  pose proof (total_chunks_le_size f) as Hns.
  fold n in Hn0, Hns.
  destruct (transfer_trace_later rt dc f now evs Hts Hdc Ho Hl Hb Hevs)
    as (j & Hj & Hobs).
  fold effs in Hobs. fold n in Hj.
  pose proof (trace_progress f now p j Hn0 ltac:(lia) Hj) as Htr.
  cbv zeta in Htr. rewrite <- Hobs in Htr.
  rewrite progress_values_observable, sent_frames_observable in Htr.
  fold n in Htr. destruct Htr as (Hpv & Hrv & Hcf).
  split; [|split; [|split; [|split]]].
  - exists j. split; [exact Hj|]. split; [exact Hpv|]. rewrite Hpv.
    destruct (Z.eqb_spec (Z.of_nat j) n) as [E|E].
    + apply count_100_progress_whole; lia.
    + apply count_100_progress_partial; lia.
  - rewrite Hrv, Hpv. reflexivity.
  - rewrite Hpv. apply nondecreasing_progress_from; lia.
  - exact Hcf.
  - assert (Hw : progress_values whole = progress_from n 0 (Z.to_nat n)).
    { unfold whole.
      rewrite (run_sendFile_after rt dc _ f now _ Hts Hdc
                 (dc_send_unlimited dc _ Ho Hl)
                 (forallb_steady_schedule_from (bufferedAmount dc) f now)).
      destruct (steady_run_from (with_closures rt []) dc f now
                  eq_refl Hts Hdc Ho Hl Hb) as (rt' & Hrun & _).
      rewrite Hrun. cbn [snd].
      apply (trace_progress f now p (Z.to_nat n)); unfold n; lia. }
    split; [exact Hw|]. rewrite Hw.
    apply count_100_progress_whole; lia.
Qed.

Lemma progress_nondecreasing_100_with_last_chunk_witness :
  let first := {| File.name := "a.txt"; File.type := "text/plain";
                  File.bytes := [Byte.x61] |} in
  let rt := fst (run (connected "p1") [CallSendFile first 1700000000000; ReaderLoad 0]) in
  let f := {| File.name := "b.txt"; File.type := "text/plain";
              File.bytes := [Byte.x62; Byte.x63; Byte.x64] |} in
  let now := 1700000000001 in
  let evs := [ChannelDrain 100; ReaderLoad 0; TimerFires 0] in
  let effs := snd (run rt (CallSendFile f now :: evs)) in
  let whole := snd (run rt (CallSendFile f now
                            :: steady_schedule_from (buffered rt) f now)) in
  (List.length (closures rt) = 1%nat /\ tasks rt = [] /\ 0 < buffered rt /\
   0 < File.size f /\ File.size f < 2 ^ 53 /\ forallb transfer_event evs = true) /\
  progress_values (snd (receive (self (connected "p2")) (sent_frames effs)))
  = progress_values effs /\
  nondecreasing (progress_values effs) = true /\
  complete_follows_100 (observable effs) = true /\
  count_100 (progress_values whole) = 1%nat.
Proof.
  intros first rt f now evs effs whole.
  split; [repeat split; reflexivity|].
  destruct (dataChannel (self rt)) as [dc|] eqn:Hdc; [|discriminate Hdc].
  assert (Hdc' : Some dc = dataChannel (self rt)) by (symmetry; exact Hdc).
  assert (Ho : readyState dc = dc_open) by (injection Hdc' as ->; reflexivity).
  assert (Hl : sendQueueLimit dc = None) by (injection Hdc' as ->; reflexivity).
  assert (Hb : 0 <= bufferedAmount dc) by (injection Hdc' as ->; discriminate).
  assert (Hbuf : buffered rt = bufferedAmount dc) by (injection Hdc' as ->; reflexivity).
  destruct (progress_nondecreasing_100_with_last_chunk
              rt dc f now (self (connected "p2")) evs
              eq_refl eq_refl eq_refl Hdc Ho Hl Hb eq_refl)
    as (_ & Hrecv & Hmono & Hfollow & _ & Honce).
  unfold whole. rewrite Hbuf. auto.
Defined.

(** ** Backpressure of one transfer *)

Lemma dc_send_accepted (dc dc1 : RTCDataChannel) (fr : Frame) :
  dc_send dc fr = inr dc1 ->
  dc1 = dc_set_bufferedAmount dc (bufferedAmount dc + frameBytes fr) /\
  readyState dc = dc_open /\
  (forall lim, sendQueueLimit dc = Some lim -> bufferedAmount dc + frameBytes fr <= lim).
Proof.
  unfold dc_send. destruct (is_open (readyState dc)) eqn:Ho; cbn [negb]; [|discriminate].
  assert (Hopen : readyState dc = dc_open)
    by (destruct (readyState dc); try discriminate; reflexivity).
  destruct (sendQueueLimit dc) as [lim|] eqn:Hl.
  - destruct (lim <? _) eqn:Hfull; [discriminate|]. intros H. injection H as <-.
    split; [unfold dc_set_bufferedAmount; rewrite Hl; reflexivity|].
    split; [exact Hopen|].
    intros lim' E. injection E as <-. apply Z.ltb_ge in Hfull. exact Hfull.
  - intros H. injection H as <-.
    split; [unfold dc_set_bufferedAmount; rewrite Hl; reflexivity|].
    split; [exact Hopen|]. intros lim' E. discriminate E.
Qed.

Lemma nth_error_replace_nth_same {A : Type} (l : list A) :
  forall i x y, nth_error l i = Some y -> nth_error (replace_nth i x l) i = Some x.
Proof.
  induction l as [|h t IH]; intros [|i] x y H; cbn [nth_error replace_nth] in *;
    try discriminate; [reflexivity | eapply IH; exact H].
Qed.

Lemma sole_intro (cid : nat) (p : PeerTransfer) (cl : list SendFileClosure)
      (ts : list Task) (dc : RTCDataChannel) (c : SendFileClosure) :
  dataChannel p = Some dc ->
  onbufferedamountlow dc = Some cid ->
  bufferedAmountLowThreshold dc = 1024 * 1024 ->
  takes_chunks dc ->
  nth_error cl cid = Some c -> 0 <= chunkIndex c ->
  (ts = [] \/
   exists chunk,
     ts = [FileRead cid chunk] /\
     Z.of_nat (List.length chunk) <= CHUNK_SIZE /\
     isReading c = true /\
     bufferedAmount dc <= 16 * 1024 * 1024) ->
  sole_transfer cid {| self := p; closures := cl; tasks := ts |}.
Proof.
  intros Hdc Hh Hth Htk Hc Hk Hp. exists dc, c. cbn [self closures tasks]. auto 10.
Qed.

(** [sendNextChunk] of the sole transfer with nothing pending: it leaves
    the page as it is or starts one read, of at most a chunk, while the
    channel holds at most 16 MiB. *)
Lemma sendNextChunk_sole (cid : nat) (p : PeerTransfer) (cl : list SendFileClosure)
      (dc : RTCDataChannel) (c : SendFileClosure) :
  dataChannel p = Some dc ->
  onbufferedamountlow dc = Some cid ->
  bufferedAmountLowThreshold dc = 1024 * 1024 ->
  takes_chunks dc ->
  nth_error cl cid = Some c -> 0 <= chunkIndex c ->
  sole_transfer cid (sendNextChunk {| self := p; closures := cl; tasks := [] |} cid).
Proof.
  intros Hdc Hh Hth Htk Hc Hk. unfold sendNextChunk. cbn [closures self].
  rewrite Hc, Hdc.
  destruct (_ || _); [apply (sole_intro cid p cl [] dc c); auto|].
  destruct (16 * 1024 * 1024 <? bufferedAmount dc) eqn:Hb;
    [apply (sole_intro cid p cl [] dc c); auto|].
  apply Z.ltb_ge in Hb.
  unfold add_task, set_closure, with_tasks, with_closures. cbn [self closures tasks app].
  apply (sole_intro cid p _ _ dc (set_isReading c true)); auto.
  - eapply nth_error_replace_nth_same. exact Hc.
  - right. eexists. split; [reflexivity|]. split; [|split; [reflexivity | exact Hb]].
    apply (chunk_of_length (c_file c) (chunkIndex c) Hk).
Qed.

(** [trySend] of the sole transfer with a chunk just read: the channel
    holds at most 16 MiB, so the chunk is handed over (or the channel is
    not open); no timer is armed. *)
Lemma trySend_sole (cid : nat) (p : PeerTransfer) (cl : list SendFileClosure)
      (dc : RTCDataChannel) (c : SendFileClosure) (data : list Byte.byte) :
  dataChannel p = Some dc ->
  onbufferedamountlow dc = Some cid ->
  bufferedAmountLowThreshold dc = 1024 * 1024 ->
  takes_chunks dc ->
  nth_error cl cid = Some c -> 0 <= chunkIndex c ->
  bufferedAmount dc <= 16 * 1024 * 1024 ->
  Z.of_nat (List.length data) <= CHUNK_SIZE ->
  sole_transfer cid (fst (trySend {| self := p; closures := cl; tasks := [] |} cid data)).
Proof.
  intros Hdc Hh Hth Htk Hc Hk Hb Hlen. unfold trySend. cbn [self]. rewrite Hdc.
  assert (Hle : (16 * 1024 * 1024 <? bufferedAmount dc) = false) by (apply Z.ltb_ge; exact Hb).
  rewrite Hle.
  destruct (dc_send dc (BinaryFrame data)) as [[|]|dc1] eqn:Hs.
  - exfalso. unfold dc_send in Hs.
    destruct (negb (is_open (readyState dc))); [discriminate|].
    destruct (sendQueueLimit dc) as [lim|] eqn:Hl; [|discriminate].
    specialize (Htk lim Hl).
    destruct (lim <? _) eqn:Hfull; [|discriminate].
    apply Z.ltb_lt in Hfull. unfold frameBytes in Hfull. lia.
  - cbn [fst]. apply (sole_intro cid p cl [] dc c); auto.
  - apply dc_send_accepted in Hs as (-> & _ & _).
    set (dc1 := dc_set_bufferedAmount dc (bufferedAmount dc + frameBytes (BinaryFrame data))).
    assert (Hdc1 : dataChannel (set_dataChannel p (Some dc1)) = Some dc1) by reflexivity.
    unfold with_self. cbn [self closures tasks]. rewrite Hc.
    cbv zeta.
    unfold set_closure, with_closures. cbn [self closures tasks].
    assert (Hc1 : nth_error (replace_nth cid (set_chunkIndex c (chunkIndex c + 1)) cl) cid
                  = Some (set_chunkIndex c (chunkIndex c + 1)))
      by (eapply nth_error_replace_nth_same; exact Hc).
    assert (Hk1 : 0 <= chunkIndex (set_chunkIndex c (chunkIndex c + 1)))
      by (cbn [chunkIndex set_chunkIndex]; lia).
    destruct (chunkIndex (set_chunkIndex c (chunkIndex c + 1))
              <? c_totalChunks (set_chunkIndex c (chunkIndex c + 1))).
    + cbn [fst].
      apply (sendNextChunk_sole cid _ _ dc1 _ Hdc1 Hh Hth Htk Hc1 Hk1).
    + destruct (dc_send dc1 _) as [e|dc2] eqn:Hs2; cbn [fst].
      * apply (sole_intro cid _ _ [] dc1 _ Hdc1 Hh Hth Htk Hc1 Hk1). left. reflexivity.
      * apply dc_send_accepted in Hs2 as (-> & _ & _).
        unfold with_self. cbn [self closures tasks].
        eapply (sole_intro cid _ _ [] _ _); [reflexivity | exact Hh | exact Hth | exact Htk
                                             | exact Hc1 | exact Hk1 | left; reflexivity].
Qed.

(** The sole transfer stays the sole transfer under every event of a
    transfer. *)
Lemma step_sole (cid : nat) (rt : Runtime) (ev : Event) :
  sole_transfer cid rt -> transfer_event ev = true ->
  sole_transfer cid (fst (step rt ev)).
Proof.
  intros (dc & c & Hdc & Hh & Hth & Htk & Hc & Hk & Hp) Hev.
  destruct rt as [p cl ts]. cbn [self closures tasks] in *.
  assert (Hsame : sole_transfer cid {| self := p; closures := cl; tasks := ts |})
    by (apply (sole_intro cid p cl ts dc c); auto).
  destruct ev; cbn [transfer_event] in Hev; try discriminate; cbn [step tasks].
  - (* ReaderLoad *)
    destruct Hp as [-> | (chunk & -> & Hlen & Hr & Hb)].
    + destruct i; exact Hsame.
    + destruct i as [|i]; [|destruct i; exact Hsame].
      cbn [nth_error]. unfold take_task, with_tasks, reader_onload.
      cbn [self closures tasks remove_nth]. rewrite Hc.
      unfold set_closure, with_closures. cbn [self closures tasks].
      apply (trySend_sole cid p _ dc (set_isReading c false)); auto.
      eapply nth_error_replace_nth_same. exact Hc.
  - (* ReaderError *)
    destruct Hp as [-> | (chunk & -> & Hlen & Hr & Hb)].
    + destruct i; exact Hsame.
    + destruct i as [|i]; [|destruct i; exact Hsame].
      cbn [nth_error]. unfold take_task, with_tasks, reader_onerror.
      cbn [self closures tasks remove_nth]. rewrite Hc.
      unfold set_closure, with_closures. cbn [self closures tasks fst].
      apply (sole_intro cid p _ [] dc (set_isReading c false)); auto.
      eapply nth_error_replace_nth_same. exact Hc.
  - (* TimerFires *)
    destruct Hp as [-> | (chunk & -> & Hlen & Hr & Hb)].
    + destruct i; exact Hsame.
    + destruct i as [|i]; [exact Hsame | destruct i; exact Hsame].
  - (* ChannelDrain *)
    cbn [fst]. unfold channel_drain. cbn [self]. rewrite Hdc.
    set (b' := Z.max 0 (bufferedAmount dc - Z.max 0 n)).
    assert (Hb' : bufferedAmount dc <= 16 * 1024 * 1024 -> b' <= 16 * 1024 * 1024)
      by (unfold b'; lia).
    clearbody b'.
    set (dc' := dc_set_bufferedAmount dc b').
    assert (Hdc' : dataChannel (set_dataChannel p (Some dc')) = Some dc') by reflexivity.
    unfold with_self. cbn [self closures tasks].
    destruct (_ && _).
    + rewrite Hh.
      destruct Hp as [-> | (chunk & -> & Hlen & Hr & Hb)].
      * apply (sendNextChunk_sole cid _ cl dc' c Hdc' Hh Hth Htk Hc Hk).
      * unfold sendNextChunk. cbn [self closures]. rewrite Hc, Hdc', Hr, orb_true_r.
        apply (sole_intro cid _ cl _ dc' c Hdc' Hh Hth Htk Hc Hk).
        right. exists chunk. cbn [bufferedAmount dc' dc_set_bufferedAmount]. auto.
    + apply (sole_intro cid _ cl _ dc' c Hdc' Hh Hth Htk Hc Hk).
      destruct Hp as [-> | (chunk & -> & Hlen & Hr & Hb)]; [left; reflexivity|].
      right. exists chunk. cbn [bufferedAmount dc' dc_set_bufferedAmount]. auto.
Qed.

Lemma run_sole (cid : nat) (evs : list Event) :
  forall rt, sole_transfer cid rt -> forallb transfer_event evs = true ->
             sole_transfer cid (fst (run rt evs)).
Proof.
  induction evs as [|ev evs IH]; intros rt Hs Hevs; [exact Hs|].
  cbn [forallb] in Hevs. apply andb_true_iff in Hevs as [Hev Hevs].
  pose proof (step_sole cid rt ev Hs Hev) as H1.
  cbn [run]. destruct (step rt ev) as [rt1 eff1]. cbn [fst] in H1.
  specialize (IH rt1 H1 Hevs). destruct (run rt1 evs) as [rt2 eff2]. exact IH.
Qed.

(** [sendFile], called while nothing is pending, makes its invocation
    the sole transfer. *)
Lemma sendFile_sole (rt : Runtime) (dc dc1 : RTCDataChannel) (f : File.t) (now : Z) :
  tasks rt = [] ->
  dataChannel (self rt) = Some dc ->
  dc_send dc (TextFrame (FileInfoMsg (meta_of f now))) = inr dc1 ->
  takes_chunks dc ->
  sole_transfer (List.length (closures rt)) (fst (sendFile rt f now)).
Proof.
  intros Hts Hdc Hsend Htk.
  rewrite (sendFile_accepted rt f now dc dc1 Hdc Hsend). cbn [fst].
  apply dc_send_accepted in Hsend as (-> & _ & _).
  destruct rt as [p cl ts]. cbn [self closures tasks] in *. subst ts.
  unfold with_closures, with_self. cbn [self closures tasks].
  eapply sendNextChunk_sole; try reflexivity.
  - exact Htk.
  - rewrite nth_error_app2 by lia. rewrite Nat.sub_diag. reflexivity.
  - cbn [chunkIndex]. lia.
Qed.

(** A send queue of at most 16 MiB never holds more. *)
Lemma dc_send_below (dc dc1 : RTCDataChannel) (fr : Frame) (lim : Z) :
  dc_send dc fr = inr dc1 ->
  sendQueueLimit dc = Some lim -> lim <= 16 * 1024 * 1024 ->
  sendQueueLimit dc1 = Some lim /\ bufferedAmount dc1 <= 16 * 1024 * 1024.
Proof.
  intros Hs Hl Hlim. apply dc_send_accepted in Hs as (-> & _ & Hroom).
  specialize (Hroom lim Hl). cbn [sendQueueLimit bufferedAmount dc_set_bufferedAmount].
  split; [exact Hl | lia].
Qed.

Lemma below_limit_self (rt1 rt2 : Runtime) :
  self rt2 = self rt1 -> below_limit rt1 -> below_limit rt2.
Proof. intros E (dc & lim & H). exists dc, lim. rewrite E. exact H. Qed.

Lemma below_limit_channel (rt : Runtime) (dc : RTCDataChannel) (lim : Z) :
  sendQueueLimit dc = Some lim -> lim <= 16 * 1024 * 1024 ->
  bufferedAmount dc <= 16 * 1024 * 1024 ->
  below_limit (with_self rt (set_dataChannel (self rt) (Some dc))).
Proof. intros Hl Hlim Hb. exists dc, lim. cbn. auto. Qed.

Lemma trySend_below (rt : Runtime) (cid : nat) (data : list Byte.byte) :
  below_limit rt -> below_limit (fst (trySend rt cid data)).
Proof.
  intros Hbl. pose proof Hbl as (dc & lim & Hdc & Hl & Hlim & Hb).
  unfold trySend. rewrite Hdc.
  destruct (16 * 1024 * 1024 <? bufferedAmount dc);
    [cbn [fst]; apply (below_limit_self rt); [reflexivity | exact Hbl]|].
  destruct (dc_send dc (BinaryFrame data)) as [[|]|dc1] eqn:Hs;
    try (cbn [fst]; apply (below_limit_self rt); [reflexivity | exact Hbl]).
  destruct (dc_send_below dc dc1 _ lim Hs Hl Hlim) as [Hl1 Hb1].
  pose proof (below_limit_channel rt dc1 lim Hl1 Hlim Hb1) as Hbl1.
  destruct (nth_error _ cid) as [c|]; [|exact Hbl1].
  cbv zeta.
  destruct (chunkIndex _ <? c_totalChunks _).
  - cbn [fst]. eapply below_limit_self; [|exact Hbl1].
    rewrite (proj1 (sendNextChunk_self_closures_length _ _)). reflexivity.
  - destruct (dc_send dc1 _) as [e|dc2] eqn:Hs2; cbn [fst].
    + eapply below_limit_self; [|exact Hbl1]. reflexivity.
    + destruct (dc_send_below dc1 dc2 _ lim Hs2 Hl1 Hlim) as [Hl2 Hb2].
      exists dc2, lim. cbn. auto.
Qed.

Lemma step_below (rt : Runtime) (ev : Event) :
  below_limit rt -> transfer_event ev = true -> below_limit (fst (step rt ev)).
Proof.
  intros Hbl Hev.
  destruct ev; cbn [transfer_event] in Hev; try discriminate; cbn [step].
  - destruct (nth_error (tasks rt) i) as [[d cb|cid chunk| |]|]; try exact Hbl.
    unfold reader_onload.
    destruct (nth_error (closures (take_task rt i)) cid) as [c|];
      apply trySend_below; eapply below_limit_self; try exact Hbl; reflexivity.
  - destruct (nth_error (tasks rt) i) as [[d cb|cid chunk| |]|]; try exact Hbl.
    unfold reader_onerror.
    destruct (nth_error (closures (take_task rt i)) cid) as [c|]; cbn [fst];
      eapply below_limit_self; try exact Hbl; reflexivity.
  - destruct (nth_error (tasks rt) i) as [[d [msg a|cid data]|cid chunk| |]|];
      try exact Hbl.
    + unfold sendSignal. destruct (ws_readyState _); try exact Hbl.
      destruct (Nat.ltb a MAX_RETRIES); cbn [fst];
        eapply below_limit_self; try exact Hbl; reflexivity.
    + apply trySend_below. eapply below_limit_self; try exact Hbl; reflexivity.
  - cbn [fst]. destruct Hbl as (dc & lim & Hdc & Hl & Hlim & Hb).
    unfold channel_drain. rewrite Hdc.
    assert (Hbl1 : below_limit
                     (with_self rt (set_dataChannel (self rt)
                        (Some (dc_set_bufferedAmount dc
                                 (Z.max 0 (bufferedAmount dc - Z.max 0 n))))))).
    { apply (below_limit_channel rt _ lim); cbn; auto. lia. }
    destruct (_ && _); [|exact Hbl1].
    destruct (onbufferedamountlow dc) as [cid|]; [|exact Hbl1].
    eapply below_limit_self; [|exact Hbl1].
    rewrite (proj1 (sendNextChunk_self_closures_length _ _)). reflexivity.
Qed.

Lemma run_below (evs : list Event) :
  forall rt, below_limit rt -> forallb transfer_event evs = true ->
             below_limit (fst (run rt evs)).
Proof.
  induction evs as [|ev evs IH]; intros rt Hs Hevs; [exact Hs|].
  cbn [forallb] in Hevs. apply andb_true_iff in Hevs as [Hev Hevs].
  pose proof (step_below rt ev Hs Hev) as H1.
  cbn [run]. destruct (step rt ev) as [rt1 eff1]. cbn [fst] in H1.
  specialize (IH rt1 H1 Hevs). destruct (run rt1 evs) as [rt2 eff2]. exact IH.
Qed.

Lemma sendFile_below (rt : Runtime) (dc dc1 : RTCDataChannel) (f : File.t) (now : Z)
      (lim : Z) :
  dataChannel (self rt) = Some dc ->
  dc_send dc (TextFrame (FileInfoMsg (meta_of f now))) = inr dc1 ->
  sendQueueLimit dc = Some lim -> lim <= 16 * 1024 * 1024 ->
  below_limit (fst (sendFile rt f now)).
Proof.
  intros Hdc Hsend Hl Hlim.
  rewrite (sendFile_accepted rt f now dc dc1 Hdc Hsend). cbn [fst].
  destruct (dc_send_below dc dc1 _ lim Hsend Hl Hlim) as [Hl1 Hb1].
  eapply below_limit_self;
    [rewrite (proj1 (sendNextChunk_self_closures_length _ _)); reflexivity|].
  exists (dc_set_onbufferedamountlow (dc_set_threshold dc1 (1024 * 1024))
            (Some (List.length (closures rt)))), lim.
  cbn. auto.
Qed.

Lemma buffered_channel_drain (rt : Runtime) (dc : RTCDataChannel) (n : Z) :
  dataChannel (self rt) = Some dc ->
  buffered (channel_drain rt n) = Z.max 0 (bufferedAmount dc - Z.max 0 n).
Proof.
  intros Hdc. unfold channel_drain. rewrite Hdc.
  destruct (_ && _); [destruct (onbufferedamountlow dc) as [cid|]|];
    unfold buffered; rewrite ?(proj1 (sendNextChunk_self_closures_length _ _));
    reflexivity.
Qed.

(** While nothing is pending and the channel stays above the 1 MiB
    threshold, no event of a transfer has any effect: no read completes,
    no timer expires, and [bufferedamountlow] does not fire. *)
Lemma step_paused (rt : Runtime) (ev : Event) :
  paused rt -> transfer_event ev = true ->
  1024 * 1024 < buffered (fst (step rt ev)) ->
  snd (step rt ev) = [] /\ paused (fst (step rt ev)).
Proof.
  intros [Hts Hth] Hev Hb.
  assert (Hsame : paused rt) by (split; assumption).
  destruct ev; cbn [transfer_event] in Hev; try discriminate; cbn [step] in *.
  - rewrite Hts. destruct i; cbn [nth_error fst snd]; auto.
  - rewrite Hts. destruct i; cbn [nth_error fst snd]; auto.
  - rewrite Hts. destruct i; cbn [nth_error fst snd]; auto.
  - cbn [fst snd] in *. split; [reflexivity|].
    unfold low_threshold in Hth.
    destruct (dataChannel (self rt)) as [dc|] eqn:Hdc.
    2:{ unfold channel_drain. rewrite Hdc. exact Hsame. }
    rewrite (buffered_channel_drain rt dc n Hdc) in Hb.
    unfold channel_drain. rewrite Hdc.
    destruct (_ && _) eqn:Hcross.
    + exfalso. apply andb_true_iff in Hcross as [_ Hlow]. apply Z.leb_le in Hlow. lia.
    + split; [exact Hts|]. unfold low_threshold. cbn. exact Hth.
Qed.

Lemma run_paused (evs : list Event) :
  forall rt,
    paused rt -> forallb transfer_event evs = true ->
    Forall (fun b => 1024 * 1024 < b) (buffered_after rt evs) ->
    snd (run rt evs) = [] /\ paused (fst (run rt evs)).
Proof.
  induction evs as [|ev evs IH]; intros rt Hp Hevs Hb; [auto|].
  cbn [forallb] in Hevs. apply andb_true_iff in Hevs as [Hev Hevs].
  cbn [buffered_after] in Hb. inversion Hb as [|b bs Hb1 Hbs]; subst.
  destruct (step_paused rt ev Hp Hev Hb1) as [He Hp1].
  cbn [run]. destruct (step rt ev) as [rt1 eff1]. cbn [fst snd] in *. subst eff1.
  destruct (IH rt1 Hp1 Hevs Hbs) as [He2 Hp2].
  destruct (run rt1 evs) as [rt2 eff2]. cbn [fst snd] in *. subst eff2. auto.
Qed.

(** C4 (as amended): a transfer started by [sendFile] while nothing is
    pending on the page, on an open channel that accepts the metadata
    frame and whose send queue is bounded by at most 16 MiB or by at least
    16 MiB and a chunk, or not at all, and which no further [sendFile]
    follows.  Whatever the reads, the timers and the channel do: once the
    channel holds more than 16 MiB, no chunk is handed to it (nothing is
    sent or reported at all) for as long as it holds more than the 1 MiB
    at which [bufferedamountlow] is armed.  (A bound between 16 MiB and
    16 MiB and a chunk lets [trySend] find the queue full at 16 MiB or
    less and arm its timer, which the invariant [sole_transfer] excludes;
    with a bound of at most 16 MiB the channel never holds more.) *)
Theorem backpressure_pauses_until_low_water
        (rt : Runtime) (dc dc1 : RTCDataChannel) (f : File.t) (now : Z)
        (evs1 evs2 : list Event) :
  tasks rt = [] ->
  dataChannel (self rt) = Some dc ->
  dc_send dc (TextFrame (FileInfoMsg (meta_of f now))) = inr dc1 ->
  queue_limit_ok dc ->
  forallb transfer_event evs1 = true -> forallb transfer_event evs2 = true ->
  let rt1 := fst (run rt (CallSendFile f now :: evs1)) in
  16 * 1024 * 1024 < buffered rt1 ->
  Forall (fun b => 1024 * 1024 < b) (buffered_after rt1 evs2) ->
  low_threshold rt1 = 1024 * 1024 /\
  chunk_frames (snd (run rt1 evs2)) = [] /\
  snd (run rt1 evs2) = [].
Proof.
  intros Hts Hdc Hsend Hq Hevs1 Hevs2 rt1 Hhigh Hlow.
  assert (Hrt1 : rt1 = fst (run (fst (sendFile rt f now)) evs1)).
  { unfold rt1. cbn [run step]. destruct (sendFile rt f now) as [r0 e0].
    cbn [fst]. destruct (run r0 evs1) as [r1 e1]. reflexivity. }
  destruct Hq as [(lim & Hl & Hlim) | Htk].
  - exfalso.
    pose proof (run_below evs1 _ (sendFile_below rt dc dc1 f now lim Hdc Hsend Hl Hlim)
                  Hevs1) as (dc' & lim' & Hdc' & _ & _ & Hb).
    rewrite <- Hrt1 in Hdc'. unfold buffered in Hhigh. rewrite Hdc' in Hhigh. lia.
  - pose proof (run_sole _ evs1 _ (sendFile_sole rt dc dc1 f now Hts Hdc Hsend Htk) Hevs1)
      as (dc' & c & Hdc' & Hh & Hth & _ & _ & _ & Hp).
    rewrite <- Hrt1 in Hdc', Hp.
    assert (Hpaused : paused rt1).
    { split.
      - destruct Hp as [Hp | (chunk & _ & _ & _ & Hb)]; [exact Hp|].
        unfold buffered in Hhigh. rewrite Hdc' in Hhigh. lia.
      - unfold low_threshold. rewrite Hdc'. exact Hth. }
    destruct (run_paused evs2 rt1 Hpaused Hevs2 Hlow) as [He _].
    split; [exact (proj2 Hpaused)|]. rewrite He. split; reflexivity.
Qed.

Lemma backpressure_pauses_until_low_water_witness :
  let dc := dc_set_bufferedAmount fresh_channel (16 * 1024 * 1024 - 50) in
  let rt := with_self (new_PeerTransfer "p1")
              (set_dataChannel (self (new_PeerTransfer "p1")) (Some dc)) in
  let f := {| File.name := "a.bin"; File.type := "";
              File.bytes := [Byte.x01; Byte.x02; Byte.x03] |} in
  let now := 1700000000000 in
  let evs1 := [ChannelDrain 10] in
  let evs2 := [ChannelDrain 5000; TimerFires 0; ReaderLoad 0;
               ChannelDrain (14 * 1024 * 1024)] in
  let rt1 := fst (run rt (CallSendFile f now :: evs1)) in
  (16 * 1024 * 1024 < buffered rt1 /\ in_flight rt1 0 /\
   Forall (fun b => 1024 * 1024 < b) (buffered_after rt1 evs2)) /\
  chunk_frames (snd (run rt1 evs2)) = [].
Proof.
  intros dc rt f now evs1 evs2 rt1.
  assert (Hhigh : 16 * 1024 * 1024 < buffered rt1) by reflexivity.
  assert (Hlow : Forall (fun b => 1024 * 1024 < b) (buffered_after rt1 evs2))
    by (repeat constructor).
  split.
  { split; [exact Hhigh|]. split; [|exact Hlow].
    eexists. split; [reflexivity|]. reflexivity. }
  refine (proj1 (proj2 (backpressure_pauses_until_low_water rt dc
            (dc_set_bufferedAmount dc
               (bufferedAmount dc + frameBytes (TextFrame (FileInfoMsg (meta_of f now)))))
            f now evs1 evs2 eq_refl eq_refl eq_refl _ eq_refl eq_refl Hhigh Hlow))).
  right. intros lim H. discriminate H.
Defined.

(** * Further properties of the code *)

(** ** The receiver on arbitrary frames *)

Lemma receive_completes (q : PeerTransfer) (ids : list string) :
  receivingFile q = None ->
  receive q (map (fun i => TextFrame (FileCompleteMsg i)) ids) = (q, []).
Proof.
  intros Hq. induction ids as [|i ids IH]; [reflexivity|].
  cbn [map receive onmessage]. unfold handleComplete. rewrite Hq, IH. reflexivity.
Qed.

Lemma receive_info_chunks (p : PeerTransfer) (meta : FileMeta)
      (cs : list (list Byte.byte)) :
  receive p (TextFrame (FileInfoMsg meta) :: map BinaryFrame cs)
  = (set_receiving p cs (totalChunks meta) (Some meta),
     OnFileInfo meta
     :: map OnProgress (progress_from (totalChunks meta) 0 (List.length cs))).
Proof.
  cbn [receive onmessage]. unfold handleFileInfo. rewrite receive_chunks.
  reflexivity.
Qed.

Lemma completions_info_progress (meta : FileMeta) (ps : list JsNumber.t) :
  completions (OnFileInfo meta :: map OnProgress ps) = [].
Proof.
  change (completions (?a :: ?l)) with (completions [a] ++ completions l).
  rewrite completions_progress. reflexivity.
Qed.

(** The receiver checks neither the number of chunks nor the identifier
    of the completion frame: after a metadata frame, whatever chunks
    arrive are reported one by one and the first completion frame
    delivers their concatenation, in a blob of the type the metadata
    announces as the [Blob] constructor normalises it; the receiver is
    idle again, and further completion frames fire nothing. *)
Theorem receiver_delivers_chunks_received
        (p : PeerTransfer) (meta : FileMeta) (cs : list (list Byte.byte))
        (id : string) (ids : list string) :
  receive p (TextFrame (FileInfoMsg meta)
             :: map BinaryFrame cs
             ++ TextFrame (FileCompleteMsg id)
             :: map (fun i => TextFrame (FileCompleteMsg i)) ids)
  = (set_receiving p [] 0 None,
     OnFileInfo meta
     :: map OnProgress (progress_from (totalChunks meta) 0 (List.length cs))
     ++ [OnComplete {| blob_bytes := List.concat cs; blob_type := normalized_type (type meta) |} meta]).
Proof.
  rewrite app_comm_cons, receive_app, receive_info_chunks.
  cbn [receive onmessage]. unfold handleComplete.
  cbn [incomingChunks expectedChunks receivingFile set_receiving].
  rewrite receive_completes by reflexivity.
  reflexivity.
Qed.

(** A metadata frame that arrives while a transfer is being received
    discards the chunks received so far: the first transfer is never
    completed, and the completion delivers the chunks that came after
    the second metadata frame only. *)
Theorem metadata_restarts_reception
        (p : PeerTransfer) (m1 m2 : FileMeta) (cs1 cs2 : list (list Byte.byte))
        (id : string) :
  completions
    (snd (receive p (TextFrame (FileInfoMsg m1) :: map BinaryFrame cs1
                     ++ TextFrame (FileInfoMsg m2) :: map BinaryFrame cs2
                     ++ [TextFrame (FileCompleteMsg id)])))
  = [({| blob_bytes := List.concat cs2; blob_type := normalized_type (type m2) |}, m2)].
Proof.
  rewrite app_comm_cons, receive_app, receive_info_chunks.
  rewrite app_comm_cons, receive_app, receive_info_chunks.
  cbn [receive onmessage]. unfold handleComplete.
  cbn [incomingChunks expectedChunks receivingFile set_receiving snd].
  rewrite !completions_app, !completions_info_progress.
  reflexivity.
Qed.

(** Division by zero: with no chunk expected the percentage is
    [Infinity]. *)
Lemma percent_of_zero (k : Z) :
  0 < k < 2 ^ 53 -> percent k 0 = S754_infinity false.
Proof.
  intros Hk. unfold percent. rewrite (of_Z_normal k) by exact Hk. reflexivity.
Qed.

(** A chunk that arrives when no chunk is expected (no metadata frame
    since the last completion, or metadata announcing zero chunks) is
    stored all the same, and the progress reported for it is the result
    of a division by zero, [Infinity]. *)
Theorem chunk_unexpected_reports_infinity (p : PeerTransfer) (data : list Byte.byte) :
  expectedChunks p = 0 ->
  Z.of_nat (List.length (incomingChunks p)) + 1 < 2 ^ 53 ->
  onmessage p (BinaryFrame data)
  = (set_receiving p (incomingChunks p ++ [data]) 0 (receivingFile p),
     [OnProgress (S754_infinity false)]).
Proof.
  intros He Hlen. cbn [onmessage]. unfold handleFileChunkBinary.
  rewrite He, length_app. cbn [List.length].
  rewrite percent_of_zero by lia. reflexivity.
Qed.

Lemma chunk_unexpected_reports_infinity_witness :
  snd (onmessage (self (new_PeerTransfer "p2")) (BinaryFrame [Byte.x61]))
  = [OnProgress (S754_infinity false)].
Proof.
  rewrite (chunk_unexpected_reports_infinity (self (new_PeerTransfer "p2")) [Byte.x61]
             eq_refl ltac:(vm_compute; reflexivity)).
  reflexivity.
Defined.

(** ** The sender under any schedule *)

Lemma concat_chunks_from_skipn (f : File.t) (count : nat) :
  forall k, 0 <= k ->
  List.concat (chunks_from f k count)
  ++ skipn (Z.to_nat ((k + Z.of_nat count) * CHUNK_SIZE)) (File.bytes f)
  = skipn (Z.to_nat (k * CHUNK_SIZE)) (File.bytes f).
Proof.
  induction count as [|count IH]; intros k Hk.
  - simpl. rewrite Z.add_0_r. reflexivity.
  - cbn [chunks_from List.concat]. rewrite <- app_assoc.
    replace (k + Z.of_nat (S count)) with (k + 1 + Z.of_nat count) by lia.
    rewrite IH by lia. apply chunk_of_skipn. exact Hk.
Qed.

Lemma nth_error_chunks_from (f : File.t) (count : nat) :
  forall k i c,
    nth_error (chunks_from f k count) i = Some c ->
    (i < count)%nat /\ c = chunk_of f (k + Z.of_nat i).
Proof.
  induction count as [|count IH]; intros k i c H.
  - destruct i; discriminate.
  - destruct i as [|i]; cbn [chunks_from nth_error] in H.
    + injection H as <-. rewrite Z.add_0_r. split; [lia | reflexivity].
    + destruct (IH (k + 1) i c H) as [Hi ->]. split; [lia|]. f_equal. lia.
Qed.

Lemma chunk_frames_trace (f : File.t) (now : Z) (effs : list Effect) (j : nat) :
  observable effs = ChannelSend (TextFrame (FileInfoMsg (meta_of f now)))
                    :: chunks_effects f (Date_now_toString now) 0 j ->
  chunk_frames effs = chunks_from f 0 j.
Proof.
  intros Hobs.
  assert (H : chunk_frames (observable effs) = chunk_frames effs).
  { unfold chunk_frames, observable. clear Hobs.
    induction effs as [|e effs IH]; [reflexivity|].
    destruct e; cbn [filter flat_map app]; rewrite ?IH; reflexivity. }
  rewrite <- H, Hobs.
  change (chunk_frames (?e :: ?l)) with (chunk_frames [e] ++ chunk_frames l).
  rewrite chunk_frames_chunks_effects. reflexivity.
Qed.

(** Whatever the reads, the timers and the channel do after [sendFile]
    on an idle open channel that refuses no frame, the sender never
    skips, repeats or reorders a chunk: the frames handed over are the
    metadata frame, the chunks 0, ..., j-1 in this order and, exactly
    when j is the number of chunks and not zero, the completion frame;
    the bytes handed over are an initial part of the file. *)
Theorem frames_in_order_any_schedule
        (rt : Runtime) (dc : RTCDataChannel) (f : File.t) (now : Z) (evs : list Event) :
  closures rt = [] -> tasks rt = [] ->
  dataChannel (self rt) = Some dc -> readyState dc = dc_open ->
  sendQueueLimit dc = None -> 0 <= bufferedAmount dc ->
  forallb transfer_event evs = true ->
  let effs := snd (run rt (CallSendFile f now :: evs)) in
  exists j,
    Z.of_nat j <= total_chunks f /\
    chunk_frames effs = chunks_from f 0 j /\
    sent_frames effs
    = TextFrame (FileInfoMsg (meta_of f now))
      :: map BinaryFrame (chunk_frames effs)
      ++ (if (0 <? Z.of_nat j) && (total_chunks f <=? Z.of_nat j)
          then [TextFrame (FileCompleteMsg (Date_now_toString now))] else []) /\
    List.concat (chunk_frames effs)
    ++ skipn (Z.to_nat (Z.of_nat j * CHUNK_SIZE)) (File.bytes f) = File.bytes f.
Proof.
  intros Hcl Hts Hdc Ho Hl Hb Hevs effs.
  destruct (transfer_trace rt dc f now evs Hcl Hts Hdc Ho Hl Hb Hevs) as (j & Hj & Hobs).
  fold effs in Hobs.
  pose proof (chunk_frames_trace f now effs j Hobs) as Hch.
  exists j. split; [exact Hj|]. split; [exact Hch|]. split.
  - rewrite <- sent_frames_observable, Hobs, Hch.
    change (sent_frames (?e :: ?l)) with (sent_frames [e] ++ sent_frames l).
    rewrite sent_frames_chunks_effects by lia. reflexivity.
  - rewrite Hch.
    pose proof (concat_chunks_from_skipn f j 0 ltac:(lia)) as H.
    cbn [Z.add Z.mul Z.to_nat skipn] in H. exact H.
Qed.

Lemma frames_in_order_any_schedule_witness :
  let f := {| File.name := "a.txt"; File.type := "text/plain";
              File.bytes := repeat Byte.x61 (200 * 100) |} in
  let evs := [ChannelDrain 100; ReaderLoad 0; TimerFires 0; ReaderError 0] in
  let effs := snd (run (connected "p1") (CallSendFile f 1700000000000 :: evs)) in
  forallb transfer_event evs = true /\
  exists j, Z.of_nat j <= total_chunks f /\ chunk_frames effs = chunks_from f 0 j.
Proof.
  intros f evs effs. split; [reflexivity|].
  destruct (frames_in_order_any_schedule (connected "p1") fresh_channel f 1700000000000 evs
              eq_refl eq_refl eq_refl eq_refl eq_refl ltac:(simpl; lia) eq_refl)
    as (j & Hj & Hch & _).
  exists j. split; [exact Hj | exact Hch].
Defined.

(** After [sendFile] on an open channel that refuses no frame, called
    while nothing is pending on the page (whatever the page has sent
    before and whatever the channel still holds), under any schedule of
    reads, timers and transmissions every chunk frame handed over is
    non-empty and holds at most 16384 bytes: the frame of chunk [i] holds
    the smaller of 16384 and the bytes of the file from offset
    [16384 * i] on. *)
Theorem chunk_frame_sizes
        (rt : Runtime) (dc : RTCDataChannel) (f : File.t) (now : Z) (evs : list Event) :
  tasks rt = [] ->
  dataChannel (self rt) = Some dc -> readyState dc = dc_open ->
  sendQueueLimit dc = None -> 0 <= bufferedAmount dc ->
  forallb transfer_event evs = true ->
  forall i c,
    nth_error (chunk_frames (snd (run rt (CallSendFile f now :: evs)))) i = Some c ->
    Z.of_nat (List.length c) = Z.min CHUNK_SIZE (File.size f - Z.of_nat i * CHUNK_SIZE) /\
    0 < Z.of_nat (List.length c) <= CHUNK_SIZE.
Proof.
  intros Hts Hdc Ho Hl Hb Hevs i c Hnth.
  destruct (transfer_trace_later rt dc f now evs Hts Hdc Ho Hl Hb Hevs) as (j & Hj & Hobs).
  rewrite (chunk_frames_trace f now _ j Hobs) in Hnth.
  destruct (nth_error_chunks_from f j 0 i c Hnth) as [Hi ->].
  cbn [Z.add]. rewrite chunk_of_length_exact by lia.
  destruct (total_chunks_bounds f) as [H'|[_ H']]; unfold CHUNK_SIZE in *; lia.
Qed.

Lemma chunk_frame_sizes_witness :
  let f := {| File.name := "a.txt"; File.type := "text/plain";
              File.bytes := repeat Byte.x61 (200 * 100) |} in
  let effs := snd (run (connected "p1")
                       (CallSendFile f 1700000000000 :: steady_schedule f 1700000000000)) in
  exists c, nth_error (chunk_frames effs) 1 = Some c /\
            Z.of_nat (List.length c) = 20000 - 16384.
Proof.
  intros f effs.
  destruct (nth_error (chunk_frames effs) 1) as [c|] eqn:Hc;
    [|vm_compute in Hc; discriminate].
  exists c. split; [reflexivity|].
  destruct (chunk_frame_sizes (connected "p1") fresh_channel f 1700000000000
              (steady_schedule f 1700000000000)
              eq_refl eq_refl eq_refl eq_refl ltac:(simpl; lia)
              ltac:(vm_compute; reflexivity) 1%nat c Hc) as [Hlen _].
  rewrite Hlen. vm_compute. reflexivity.
Defined.

(** *** A failed read *)

Lemma step_stalled (rt : Runtime) (ev : Event) :
  stalled rt -> transfer_event ev = true ->
  stalled (fst (step rt ev)) /\ snd (step rt ev) = [] /\
  closures (fst (step rt ev)) = closures rt.
Proof.
  intros (Hts & dc & Hdc & Hth & Hb) Hev.
  destruct ev; simpl in Hev; try discriminate.
  - cbn [step]. rewrite Hts. destruct i; cbn [nth_error fst snd];
      (split; [split; [exact Hts | exists dc; auto] | auto]).
  - cbn [step]. rewrite Hts. destruct i; cbn [nth_error fst snd];
      (split; [split; [exact Hts | exists dc; auto] | auto]).
  - cbn [step]. rewrite Hts. destruct i; cbn [nth_error fst snd];
      (split; [split; [exact Hts | exists dc; auto] | auto]).
  - cbn [step fst snd]. unfold channel_drain. rewrite Hdc.
    replace (bufferedAmountLowThreshold dc <? bufferedAmount dc) with false
      by (symmetry; apply Z.ltb_ge; exact Hb).
    cbn [andb]. split; [|split; reflexivity].
    split; [exact Hts|].
    exists (dc_set_bufferedAmount dc (Z.max 0 (bufferedAmount dc - Z.max 0 n))).
    cbn [with_self self set_dataChannel dataChannel dc_set_bufferedAmount
         bufferedAmountLowThreshold bufferedAmount].
    split; [reflexivity|]. lia.
Qed.

Lemma run_stalled (evs : list Event) :
  forall rt, stalled rt -> forallb transfer_event evs = true ->
             stalled (fst (run rt evs)) /\ snd (run rt evs) = [] /\
             closures (fst (run rt evs)) = closures rt.
Proof.
  induction evs as [|ev evs IH]; intros rt Hst Hevs; [simpl; auto|].
  simpl in Hevs. apply andb_true_iff in Hevs as [Hev Hevs].
  destruct (step_stalled rt ev Hst Hev) as (Hst1 & Heff1 & Hcl1).
  cbn [run]. destruct (step rt ev) as [rt1 eff1]. cbn [fst snd] in *.
  destruct (IH rt1 Hst1 Hevs) as (Hst2 & Heff2 & Hcl2).
  destruct (run rt1 evs) as [rt2 eff2]. cbn [fst snd] in *.
  subst eff1 eff2. rewrite Hcl2, Hcl1. auto.
Qed.

(** A failed read is not retried.  If the only pending task is a read of
    a chunk and the channel holds no more than its low threshold, then
    after the read fails nothing calls [sendNextChunk] again: whatever
    reads, timers and transmissions follow, the class logs the error and
    does nothing else; no frame is sent, no progress is reported, and the
    chunk index of every transfer stays where it was. *)
Theorem failed_read_stalls_transfer
        (rt : Runtime) (dc : RTCDataChannel) (cid : nat) (chunk : list Byte.byte)
        (evs : list Event) :
  tasks rt = [FileRead cid chunk] ->
  dataChannel (self rt) = Some dc ->
  0 <= bufferedAmountLowThreshold dc ->
  bufferedAmount dc <= bufferedAmountLowThreshold dc ->
  forallb transfer_event evs = true ->
  snd (run rt (ReaderError 0 :: evs)) = [ConsoleError reader_error] /\
  map chunkIndex (closures (fst (run rt (ReaderError 0 :: evs))))
  = map chunkIndex (closures rt) /\
  tasks (fst (run rt (ReaderError 0 :: evs))) = [].
Proof.
  intros Hts Hdc Hth Hb Hevs.
  cbn [run step]. rewrite Hts. cbn [nth_error].
  assert (H1 : exists rt1,
             reader_onerror (take_task rt 0) cid = (rt1, [ConsoleError reader_error]) /\
             stalled rt1 /\ map chunkIndex (closures rt1) = map chunkIndex (closures rt)).
  { unfold reader_onerror, take_task, with_tasks. cbn [closures].
    rewrite Hts. cbn [remove_nth].
    destruct (nth_error (closures rt) cid) as [c|] eqn:Hc.
    - eexists. split; [reflexivity|]. split.
      + split; [reflexivity|]. exists dc. cbn. auto.
      + cbn [set_closure with_closures closures].
        clear -Hc. revert cid Hc.
        induction (closures rt) as [|c0 cl IH]; intros cid Hc; [destruct cid; discriminate|].
        destruct cid as [|cid]; cbn [nth_error replace_nth map] in *.
        * injection Hc as ->. reflexivity.
        * rewrite (IH cid Hc). reflexivity.
    - eexists. split; [reflexivity|]. split; [|reflexivity].
      split; [reflexivity|]. exists dc. cbn. auto. }
  destruct H1 as (rt1 & -> & Hst & Hcl).
  destruct (run_stalled evs rt1 Hst Hevs) as (Hst2 & Heff2 & Hcl2).
  destruct (run rt1 evs) as [rt2 eff2]. cbn [fst snd] in *. subst eff2.
  rewrite Hcl2, Hcl. destruct Hst2 as [Hts2 _]. auto.
Qed.

Lemma failed_read_stalls_transfer_witness :
  let f := {| File.name := "a.txt"; File.type := "text/plain";
              File.bytes := repeat Byte.x61 (200 * 100) |} in
  let rt := fst (run (connected "p1") [CallSendFile f 1700000000000]) in
  let evs := [ChannelDrain 100; ReaderLoad 0; TimerFires 0; ChannelDrain 100000] in
  map chunkIndex (closures rt) = [0] /\
  map c_totalChunks (closures rt) = [2] /\
  snd (run rt (ReaderError 0 :: evs)) = [ConsoleError reader_error] /\
  map chunkIndex (closures (fst (run rt (ReaderError 0 :: evs)))) = [0].
Proof.
  intros f rt evs.
  assert (Hidx : map chunkIndex (closures rt) = [0]) by (vm_compute; reflexivity).
  split; [exact Hidx|]. split; [vm_compute; reflexivity|].
  destruct (dataChannel (self rt)) as [dc|] eqn:Hdc; [|vm_compute in Hdc; discriminate].
  assert (Hth : bufferedAmountLowThreshold dc = 1024 * 1024).
  { vm_compute in Hdc. injection Hdc as <-. reflexivity. }
  assert (Hb : bufferedAmount dc <= bufferedAmountLowThreshold dc).
  { vm_compute in Hdc. injection Hdc as <-. vm_compute. discriminate. }
  destruct (failed_read_stalls_transfer rt dc 0 (chunk_of f 0) evs
              ltac:(vm_compute; reflexivity) Hdc ltac:(lia) Hb eq_refl)
    as (Heff & Hcl & _).
  split; [exact Heff|]. rewrite Hcl. exact Hidx.
Defined.

(** *** The bound on the bytes queued *)

Lemma Forall_remove_nth {A : Type} (P : A -> Prop) (l : list A) (n : nat) :
  Forall P l -> Forall P (remove_nth n l).
Proof.
  intros H. revert n. induction H as [|x l Hx Hl IH]; intros [|n]; simpl; auto.
Qed.

Lemma Forall_replace_nth {A : Type} (P : A -> Prop) (l : list A) (n : nat) (x : A) :
  Forall P l -> P x -> Forall P (replace_nth n x l).
Proof.
  intros H Hx. revert n. induction H as [|y l Hy Hl IH]; intros [|n]; simpl; auto.
Qed.

Lemma buffered_self (rt1 rt2 : Runtime) : self rt1 = self rt2 -> buffered rt1 = buffered rt2.
Proof. unfold buffered. intros ->. reflexivity. Qed.

Lemma slice_small (f : File.t) (k : Z) :
  0 <= k ->
  Z.of_nat (List.length (File.slice f (k * CHUNK_SIZE)
                                    (Z.min (k * CHUNK_SIZE + CHUNK_SIZE) (File.size f))))
  <= CHUNK_SIZE.
Proof. apply chunk_of_length. Qed.

Lemma sendNextChunk_in_hand (D : Z) (rt : Runtime) (cid : nat) :
  chunks_in_hand D rt ->
  chunks_in_hand D (sendNextChunk rt cid) /\ buffered (sendNextChunk rt cid) = buffered rt.
Proof.
  intros [Hts Hcl]. split.
  2:{ apply buffered_self. apply sendNextChunk_self_closures_length. }
  unfold sendNextChunk.
  destruct (nth_error (closures rt) cid) as [c|] eqn:Hc; [|split; assumption].
  destruct (dataChannel (self rt)) as [dc|]; [|split; assumption].
  destruct (_ || _); [split; assumption|].
  destruct (_ <? _); [split; assumption|].
  pose proof (nth_error_Forall _ _ _ _ Hcl Hc) as [Hidx HD].
  split.
  - cbn [add_task with_tasks tasks set_closure with_closures].
    apply Forall_app. split; [exact Hts|].
    constructor; [|constructor]. cbn [small_task]. apply slice_small. exact Hidx.
  - cbn [add_task with_tasks closures set_closure with_closures].
    apply Forall_replace_nth; [exact Hcl|]. cbn. auto.
Qed.

Lemma trySend_in_hand (D : Z) (rt : Runtime) (cid : nat) (data : list Byte.byte) :
  0 <= D -> chunks_in_hand D rt -> Z.of_nat (List.length data) <= CHUNK_SIZE ->
  forall rt' eff,
    trySend rt cid data = (rt', eff) ->
    chunks_in_hand D rt' /\
    buffered rt' <= Z.max (buffered rt) (16 * 1024 * 1024 + CHUNK_SIZE + D).
Proof.
  intros HD0' Hin Hdata rt' eff H. pose proof Hin as [Hts Hcl].
  assert (Htimer : chunks_in_hand D (add_task rt (Timer 50 (RetryTrySend cid data)))).
  { split; [|exact Hcl]. cbn [add_task with_tasks tasks].
    apply Forall_app. split; [exact Hts|]. constructor; [exact Hdata | constructor]. }
  assert (Hbt : buffered (add_task rt (Timer 50 (RetryTrySend cid data))) = buffered rt)
    by reflexivity.
  unfold trySend in H.
  destruct (dataChannel (self rt)) as [dc|] eqn:Hdc.
  2:{ injection H as <- _. split; [exact Hin | lia]. }
  assert (Hbuf : buffered rt = bufferedAmount dc) by (unfold buffered; rewrite Hdc; reflexivity).
  destruct (16 * 1024 * 1024 <? bufferedAmount dc) eqn:Hb.
  { injection H as <- _. split; [exact Htimer | lia]. }
  apply Z.ltb_ge in Hb.
  unfold dc_send at 1 in H.
  destruct (negb (is_open (readyState dc))).
  { injection H as <- _. split; [exact Hin | lia]. }
  destruct (match sendQueueLimit dc with
            | Some lim => lim <? bufferedAmount dc + frameBytes (BinaryFrame data)
            | None => false
            end).
  { injection H as <- _. split; [exact Htimer | lia]. }
  set (dc1 := {| readyState := readyState dc;
                 bufferedAmount := bufferedAmount dc + frameBytes (BinaryFrame data);
                 bufferedAmountLowThreshold := bufferedAmountLowThreshold dc;
                 onbufferedamountlow := onbufferedamountlow dc;
                 sendQueueLimit := sendQueueLimit dc |}) in H.
  assert (Hb1 : bufferedAmount dc1 <= 16 * 1024 * 1024 + CHUNK_SIZE).
  { unfold dc1, frameBytes. cbn [bufferedAmount]. lia. }
  cbn [with_self closures] in H.
  destruct (nth_error (closures rt) cid) as [c|] eqn:Hc.
  2:{ injection H as <- _. split; [split; assumption|].
      unfold buffered at 1. cbn [with_self self set_dataChannel dataChannel]. lia. }
  pose proof (nth_error_Forall _ _ _ _ Hcl Hc) as [Hidx HD].
  pose proof (frameBytes_nonneg (TextFrame (FileCompleteMsg (c_fileId c)))) as HD0.
  set (rt2 := set_closure _ cid _) in H.
  assert (Hin2 : chunks_in_hand D rt2).
  { split; [exact Hts|]. unfold rt2. cbn [set_closure with_closures closures].
    apply Forall_replace_nth; [exact Hcl|]. cbn. split; [lia | exact HD]. }
  assert (Hbuf2 : buffered rt2 = bufferedAmount dc1) by reflexivity.
  cbn [chunkIndex c_totalChunks c_fileId set_chunkIndex] in H.
  destruct (chunkIndex c + 1 <? c_totalChunks c).
  { injection H as <- _. destruct (sendNextChunk_in_hand D rt2 cid Hin2) as [H1 H2].
    split; [exact H1|]. rewrite H2, Hbuf2. lia. }
  unfold dc_send in H.
  destruct (negb (is_open (readyState dc1))).
  { injection H as <- _. split; [exact Hin2|]. rewrite Hbuf2. lia. }
  destruct (match sendQueueLimit dc1 with
            | Some lim => lim <? _
            | None => false
            end).
  { injection H as <- _. split; [exact Hin2|]. rewrite Hbuf2. lia. }
  injection H as <- _. split.
  - destruct Hin2 as [H1 H2]. split; assumption.
  - assert (Hfb : frameBytes (BinaryFrame data) = Z.of_nat (List.length data))
      by reflexivity.
    unfold buffered at 1. unfold dc1 in *.
    cbn [with_self self set_dataChannel dataChannel bufferedAmount] in *. lia.
Qed.

Lemma take_task_in_hand (D : Z) (rt : Runtime) (i : nat) :
  chunks_in_hand D rt ->
  chunks_in_hand D (take_task rt i) /\ buffered (take_task rt i) = buffered rt.
Proof.
  intros [Hts Hcl]. split; [|reflexivity]. split; [|exact Hcl].
  cbn [take_task with_tasks tasks]. apply Forall_remove_nth. exact Hts.
Qed.

Lemma set_isReading_in_hand (D : Z) (rt : Runtime) (cid : nat) (c : SendFileClosure)
      (b : bool) :
  chunks_in_hand D rt -> nth_error (closures rt) cid = Some c ->
  chunks_in_hand D (set_closure rt cid (set_isReading c b)) /\
  buffered (set_closure rt cid (set_isReading c b)) = buffered rt.
Proof.
  intros [Hts Hcl] Hc. split; [|reflexivity]. split; [exact Hts|].
  cbn [set_closure with_closures closures].
  apply Forall_replace_nth; [exact Hcl|].
  exact (nth_error_Forall _ _ _ _ Hcl Hc).
Qed.

Lemma step_in_hand (D : Z) (rt : Runtime) (ev : Event) :
  0 <= D -> chunks_in_hand D rt -> transfer_event ev = true ->
  chunks_in_hand D (fst (step rt ev)) /\
  buffered (fst (step rt ev)) <= Z.max (buffered rt) (16 * 1024 * 1024 + CHUNK_SIZE + D).
Proof.
  intros HD Hin Hev.
  assert (Hsame : chunks_in_hand D rt /\
                  buffered rt <= Z.max (buffered rt) (16 * 1024 * 1024 + CHUNK_SIZE + D))
    by (split; [exact Hin | lia]).
  destruct ev; simpl in Hev; try discriminate; cbn [step].
  - (* ReaderLoad *)
    destruct (nth_error (tasks rt) i) as [[d cb|cid chunk| |]|] eqn:Ht; try exact Hsame.
    pose proof (nth_error_Forall _ _ _ _ (proj1 Hin) Ht) as Hsmall. cbn in Hsmall.
    destruct (take_task_in_hand D rt i Hin) as [Hin1 Hb1].
    unfold reader_onload.
    destruct (nth_error (closures (take_task rt i)) cid) as [c|] eqn:Hc.
    + destruct (set_isReading_in_hand D _ cid c false Hin1 Hc) as [Hin2 Hb2].
      destruct (trySend _ cid chunk) as [rt' eff] eqn:E.
      destruct (trySend_in_hand D _ cid chunk HD Hin2 Hsmall rt' eff E) as [H1 H2].
      cbn [fst]. split; [exact H1|]. rewrite Hb2, Hb1 in H2. exact H2.
    + destruct (trySend _ cid chunk) as [rt' eff] eqn:E.
      destruct (trySend_in_hand D _ cid chunk HD Hin1 Hsmall rt' eff E) as [H1 H2].
      cbn [fst]. split; [exact H1|]. rewrite Hb1 in H2. exact H2.
  - (* ReaderError *)
    destruct (nth_error (tasks rt) i) as [[d cb|cid chunk| |]|] eqn:Ht; try exact Hsame.
    destruct (take_task_in_hand D rt i Hin) as [Hin1 Hb1].
    unfold reader_onerror.
    destruct (nth_error (closures (take_task rt i)) cid) as [c|] eqn:Hc; cbn [fst].
    + destruct (set_isReading_in_hand D _ cid c false Hin1 Hc) as [Hin2 Hb2].
      split; [exact Hin2|]. rewrite Hb2, Hb1. lia.
    + split; [exact Hin1|]. rewrite Hb1. lia.
  - (* TimerFires *)
    destruct (nth_error (tasks rt) i) as [[d [msg a|cid chunk]|cid chunk| |]|] eqn:Ht;
      try exact Hsame.
    + destruct (take_task_in_hand D rt i Hin) as [Hin1 Hb1].
      unfold sendSignal.
      destruct (ws_readyState (ws (self (take_task rt i)))); cbn [fst];
        try (split; [exact Hin1 | rewrite Hb1; lia]).
      destruct (Nat.ltb a MAX_RETRIES); cbn [fst];
        try (split; [exact Hin1 | rewrite Hb1; lia]).
      split.
      * destruct Hin1 as [H1 H2]. split; [|exact H2].
        cbn [add_task with_tasks tasks]. apply Forall_app. split; [exact H1|].
        constructor; [exact I | constructor].
      * change (buffered (add_task (take_task rt i) _)) with (buffered (take_task rt i)).
        rewrite Hb1. lia.
    + pose proof (nth_error_Forall _ _ _ _ (proj1 Hin) Ht) as Hsmall. cbn in Hsmall.
      destruct (take_task_in_hand D rt i Hin) as [Hin1 Hb1].
      destruct (trySend _ cid chunk) as [rt' eff] eqn:E.
      destruct (trySend_in_hand D _ cid chunk HD Hin1 Hsmall rt' eff E) as [H1 H2].
      cbn [fst]. split; [exact H1|]. rewrite Hb1 in H2. exact H2.
  - (* ChannelDrain *)
    cbn [fst]. unfold channel_drain.
    destruct (dataChannel (self rt)) as [dc|] eqn:Hdc; [|exact Hsame].
    set (rt1 := with_self rt _).
    assert (Hin1 : chunks_in_hand D rt1) by (destruct Hin; split; assumption).
    assert (Hb1 : buffered rt1 <= Z.max (buffered rt) (16 * 1024 * 1024 + CHUNK_SIZE + D)).
    { unfold buffered at 2. rewrite Hdc. unfold rt1, buffered.
      cbn [with_self self set_dataChannel dataChannel dc_set_bufferedAmount bufferedAmount].
      unfold CHUNK_SIZE. lia. }
    destruct (_ && _); [|split; assumption].
    destruct (onbufferedamountlow dc) as [cid|]; [|split; assumption].
    destruct (sendNextChunk_in_hand D rt1 cid Hin1) as [H1 H2].
    split; [exact H1|]. rewrite H2. exact Hb1.
Qed.

(** Backpressure bounds the queue.  From a state in which nothing
    pending holds more than a chunk, whatever reads, timers and
    transmissions follow and however many transfers run, the bytes
    queued on the channel never exceed 16 MiB plus one chunk plus one
    completion frame, unless more were queued to begin with. *)
Theorem buffered_amount_bounded (D : Z) (rt : Runtime) (evs : list Event) :
  0 <= D -> chunks_in_hand D rt -> forallb transfer_event evs = true ->
  Forall (fun b => b <= Z.max (buffered rt) (16 * 1024 * 1024 + CHUNK_SIZE + D))
         (buffered_after rt evs).
Proof.
  intros HD. revert rt. induction evs as [|ev evs IH]; intros rt Hin Hevs; [constructor|].
  simpl in Hevs. apply andb_true_iff in Hevs as [Hev Hevs].
  destruct (step_in_hand D rt ev HD Hin Hev) as [Hin1 Hb1].
  cbn [buffered_after]. constructor; [exact Hb1|].
  eapply Forall_impl; [|apply (IH _ Hin1 Hevs)].
  cbv beta. intros b Hb. lia.
Qed.

Lemma buffered_amount_bounded_witness :
  let f := {| File.name := "a.txt"; File.type := "text/plain";
              File.bytes := [Byte.x61; Byte.x62; Byte.x63] |} in
  let rt := fst (run (connected "p1") [CallSendFile f 1700000000000]) in
  let evs := [ReaderLoad 0; ReaderLoad 0; ChannelDrain 5; TimerFires 0] in
  Forall (fun b => b <= 16 * 1024 * 1024 + CHUNK_SIZE + 100) (buffered_after rt evs).
Proof.
  intros f rt evs.
  assert (Hin : chunks_in_hand 100 rt).
  { split.
    - vm_compute. constructor; [|constructor]. discriminate.
    - vm_compute. constructor; [|constructor]. split; discriminate. }
  pose proof (buffered_amount_bounded 100 rt evs ltac:(lia) Hin eq_refl) as H.
  eapply Forall_impl; [|exact H].
  cbv beta. intros b Hb.
  assert (Hrt : buffered rt <= 16 * 1024 * 1024) by (vm_compute; discriminate).
  unfold CHUNK_SIZE in *. lia.
Defined.

(** ** The handshake *)

(** An offer addressed to the local identity is accepted in every state,
    also during a session: the offerer becomes the remote identity and
    the peer connection is replaced by a new one that holds the offer
    and waits for a data channel; the previous connection, its
    descriptions and its candidates are dropped.  The data channel in
    use, the transfer being received and the transfers being sent are
    left as they are. *)
Theorem offer_replaces_session (rt : Runtime) (msg : Envelope.t) :
  Envelope.to msg = Some (peerId (self rt)) ->
  Envelope.type msg = "offer"%string ->
  let rt' := fst (handleSignal rt msg) in
  snd (handleSignal rt msg) = [] /\
  remoteId (self rt') = Some (Envelope.from msg) /\
  peerConnection (self rt')
  = Some {| connectionState := pc_new; localDescription := None;
            remoteDescription := Some ("offer"%string, Envelope.sdp msg);
            iceCandidates := []; ondatachannel := true |} /\
  channelState (self rt') = Negotiating /\
  dataChannel (self rt') = dataChannel (self rt) /\
  incomingChunks (self rt') = incomingChunks (self rt) /\
  receivingFile (self rt') = receivingFile (self rt) /\
  closures rt' = closures rt /\
  tasks rt' = tasks rt ++ [AwaitAnswer].
Proof.
  intros Hto Hty rt'.
  assert (Heq : option_string_eqb (Envelope.to msg) (Some (peerId (self rt))) = true).
  { apply option_string_eqb_eq. exact Hto. }
  unfold rt', handleSignal. rewrite Heq, Hty. cbn.
  repeat split; reflexivity.
Qed.

Lemma offer_replaces_session_witness :
  let rt := fst (run (connected "B")
                     [ConnectionStateChange pc_connected;
                      ChannelMessage (BinaryFrame [Byte.x61])]) in
  let rt' := fst (handleSignal rt (offer_envelope "C" "B" "v=0")) in
  remoteId (self rt') = Some "C"%string /\
  channelState (self rt') = Negotiating /\
  dataChannel (self rt') = Some fresh_channel /\
  incomingChunks (self rt') = [[Byte.x61]].
Proof.
  intros rt rt'.
  destruct (offer_replaces_session rt (offer_envelope "C" "B" "v=0") eq_refl eq_refl)
    as (_ & Hr & _ & Hs & Hdc & Hin & _).
  split; [exact Hr|]. split; [exact Hs|].
  split; [exact (eq_trans Hdc eq_refl) | exact (eq_trans Hin eq_refl)].
Defined.

(** The handshake in one round trip.  With both relay connections open,
    a page [a] that sets the remote identity [b] and initiates sends one
    envelope, its offer addressed to [b]; a new page [b] that receives
    it sends one envelope, its answer addressed to [a]; when [a] receives
    the answer, each page holds its own description as local and the
    other's as remote, [b] has [a] as remote identity, the initiator
    holds a data channel whose low threshold is 1 MiB and the responder
    waits for it. *)
Theorem handshake_round_trip (a b sdp_a sdp_b : string) :
  let offer := offer_envelope a b sdp_a in
  let answer := answer_envelope b a sdp_b in
  let A1 := run (new_PeerTransfer a) (initiate b sdp_a) in
  let B1 := run (new_PeerTransfer b) (respond offer sdp_b) in
  let A2 := run (fst A1) [WsMessage answer] in
  snd A1 = [WsSend offer] /\
  snd B1 = [WsSend answer] /\
  snd A2 = [] /\
  peerConnection (self (fst A2))
  = Some {| connectionState := pc_new;
            localDescription := Some ("offer"%string, Some sdp_a);
            remoteDescription := Some ("answer"%string, Some sdp_b);
            iceCandidates := []; ondatachannel := false |} /\
  peerConnection (self (fst B1))
  = Some {| connectionState := pc_new;
            localDescription := Some ("answer"%string, Some sdp_b);
            remoteDescription := Some ("offer"%string, Some sdp_a);
            iceCandidates := []; ondatachannel := true |} /\
  remoteId (self (fst B1)) = Some a /\
  dataChannel (self (fst A2))
  = Some {| readyState := dc_connecting; bufferedAmount := 0;
            bufferedAmountLowThreshold := 1024 * 1024;
            onbufferedamountlow := None; sendQueueLimit := None |} /\
  dataChannel (self (fst B1)) = None /\
  tasks (fst A2) = [] /\ tasks (fst B1) = [].
Proof.
  intros offer answer A1 B1 A2.
  assert (HA1 : A1 = ({| self := {| peerId := a; remoteId := Some b;
                                    ws := {| ws_readyState := WS_OPEN |};
                                    peerConnection :=
                                      Some {| connectionState := pc_new;
                                              localDescription := Some ("offer"%string, Some sdp_a);
                                              remoteDescription := None;
                                              iceCandidates := []; ondatachannel := false |};
                                    dataChannel :=
                                      Some {| readyState := dc_connecting; bufferedAmount := 0;
                                              bufferedAmountLowThreshold := 1024 * 1024;
                                              onbufferedamountlow := None;
                                              sendQueueLimit := None |};
                                    incomingChunks := []; expectedChunks := 0;
                                    receivingFile := None |};
                         closures := []; tasks := [] |}, [WsSend offer])).
  { reflexivity. }
  assert (HB1 : snd B1 = [WsSend answer] /\
                peerConnection (self (fst B1))
                = Some {| connectionState := pc_new;
                          localDescription := Some ("answer"%string, Some sdp_b);
                          remoteDescription := Some ("offer"%string, Some sdp_a);
                          iceCandidates := []; ondatachannel := true |} /\
                remoteId (self (fst B1)) = Some a /\
                dataChannel (self (fst B1)) = None /\ tasks (fst B1) = []).
  { unfold B1, respond. cbn [run step]. unfold handleSignal.
    cbn [with_self self set_ws peerId new_PeerTransfer Envelope.to offer offer_envelope
         option_string_eqb].
    rewrite String.eqb_refl. cbn. repeat split; reflexivity. }
  assert (HA2 : A2 = ({| self := {| peerId := a; remoteId := Some b;
                                    ws := {| ws_readyState := WS_OPEN |};
                                    peerConnection :=
                                      Some {| connectionState := pc_new;
                                              localDescription := Some ("offer"%string, Some sdp_a);
                                              remoteDescription := Some ("answer"%string, Some sdp_b);
                                              iceCandidates := []; ondatachannel := false |};
                                    dataChannel :=
                                      Some {| readyState := dc_connecting; bufferedAmount := 0;
                                              bufferedAmountLowThreshold := 1024 * 1024;
                                              onbufferedamountlow := None;
                                              sendQueueLimit := None |};
                                    incomingChunks := []; expectedChunks := 0;
                                    receivingFile := None |};
                         closures := []; tasks := [] |}, [])).
  { unfold A2. rewrite HA1. cbn [fst run step]. unfold handleSignal.
    cbn [self peerId Envelope.to answer answer_envelope option_string_eqb].
    rewrite String.eqb_refl. cbn. reflexivity. }
  destruct HB1 as (H1 & H2 & H3 & H4 & H5).
  rewrite HA1, HA2. cbn [fst snd self peerConnection dataChannel tasks].
  repeat split; assumption.
Qed.

Lemma pc_call_fields (rt : Runtime) (m : RTCPeerConnection -> RTCPeerConnection) :
  peerId (self (pc_call rt m)) = peerId (self rt) /\
  remoteId (self (pc_call rt m)) = remoteId (self rt) /\
  ws (self (pc_call rt m)) = ws (self rt).
Proof.
  unfold pc_call. destruct (peerConnection (self rt)); repeat split; reflexivity.
Qed.

(** An initiator that was given no remote identity addresses its offer
    to nobody: with the relay connection open the offer is sent with
    [to] null, and every page that receives it discards it, whatever its
    own identity and state. *)
Theorem offer_without_remote_identity_is_discarded
        (rt : Runtime) (sdp : string) (receiver : Runtime) :
  remoteId (self rt) = None ->
  ws_readyState (ws (self rt)) = WS_OPEN ->
  exists env,
    snd (createOffer_then rt sdp) = [WsSend env] /\
    Envelope.type env = "offer"%string /\
    Envelope.to env = None /\
    handleSignal receiver env = (receiver, []).
Proof.
  intros Hr Hws. unfold createOffer_then, sendSignal.
  destruct (pc_call_fields rt (fun pc => pc_set_local pc ("offer"%string, Some sdp)))
    as (Hid & Hrem & Hw).
  rewrite Hw, Hws. eexists. split; [reflexivity|].
  unfold envelope_of. rewrite Hrem, Hr. cbn [Envelope.type Envelope.to body_type].
  split; [reflexivity|]. split; [reflexivity|].
  unfold handleSignal. reflexivity.
Qed.

Lemma offer_without_remote_identity_is_discarded_witness :
  let rt := fst (run (new_PeerTransfer "A")
                     [WsReadyStateChange WS_OPEN; CallInitPeerConnection true]) in
  exists env,
    snd (step rt (OfferCreated 0 "v=0")) = [WsSend env] /\
    Envelope.to env = None /\
    handleSignal (new_PeerTransfer "B") env = (new_PeerTransfer "B", []).
Proof.
  intros rt.
  destruct (offer_without_remote_identity_is_discarded
              (take_task rt 0) "v=0" (new_PeerTransfer "B") eq_refl eq_refl)
    as (env & Hsent & _ & Hto & Hdrop).
  exists env. split; [exact Hsent|]. split; [exact Hto | exact Hdrop].
Defined.

(** Candidates are taken from anybody and in arrival order: with a peer
    connection in place, candidate envelopes addressed to the local
    identity are all added to it, in the order of arrival, whoever sent
    them; nothing else changes and nothing is sent. *)
Theorem candidates_added_in_arrival_order
        (rt : Runtime) (pc : RTCPeerConnection) (envs : list Envelope.t) :
  peerConnection (self rt) = Some pc ->
  Forall (fun env => Envelope.type env = "candidate"%string /\
                     Envelope.to env = Some (peerId (self rt))) envs ->
  run rt (map WsMessage envs)
  = (with_self rt
       (set_peerConnection (self rt)
          (Some {| connectionState := connectionState pc;
                   localDescription := localDescription pc;
                   remoteDescription := remoteDescription pc;
                   iceCandidates := iceCandidates pc ++ map Envelope.candidate envs;
                   ondatachannel := ondatachannel pc |})),
     []).
Proof.
  intros Hpc Hall. revert rt pc Hpc Hall.
  induction envs as [|env envs IH]; intros rt pc Hpc Hall.
  - cbn [map run]. rewrite app_nil_r.
    destruct rt as [p cl ts]. destruct p. cbn in Hpc. subst. destruct pc. reflexivity.
  - inversion Hall as [|? ? [Hty Hto] Hrest]; subst.
    cbn [map run step]. unfold handleSignal.
    assert (Heq : option_string_eqb (Envelope.to env) (Some (peerId (self rt))) = true).
    { apply option_string_eqb_eq. exact Hto. }
    rewrite Heq, Hty. cbn [negb String.eqb Ascii.eqb Bool.eqb].
    unfold pc_call. rewrite Hpc.
    rewrite (IH _ (pc_add_candidate pc (Envelope.candidate env))); [|reflexivity|exact Hrest].
    cbn [with_self self closures tasks set_peerConnection peerId remoteId ws dataChannel
         incomingChunks expectedChunks receivingFile pc_add_candidate
         connectionState localDescription remoteDescription iceCandidates ondatachannel
         map app].
    rewrite <- app_assoc. reflexivity.
Qed.

Lemma candidates_added_in_arrival_order_witness :
  let rt := fst (run (new_PeerTransfer "A") [CallInitPeerConnection true]) in
  let cand (from c : string) :=
      {| Envelope.type := "candidate"; Envelope.from := from; Envelope.to := Some "A"%string;
         Envelope.sdp := None; Envelope.candidate := Some c |} in
  exists pc',
    peerConnection (self (fst (run rt [WsMessage (cand "B"%string "c1"%string);
                                     WsMessage (cand "X"%string "c2"%string)])))
    = Some pc' /\
    iceCandidates pc' = [Some "c1"%string; Some "c2"%string].
Proof.
  intros rt cand.
  pose proof (candidates_added_in_arrival_order rt new_RTCPeerConnection
                [cand "B"%string "c1"%string; cand "X"%string "c2"%string] eq_refl
                ltac:(repeat constructor)) as H.
  cbn [map] in H. rewrite H. eexists. split; reflexivity.
Defined.

(** ** A whole session *)

Lemma onmessage_dataChannel (p : PeerTransfer) (fr : Frame) :
  dataChannel (fst (onmessage p fr)) = dataChannel p.
Proof.
  destruct fr as [[meta|id|mt]|data]; cbn [onmessage]; try reflexivity.
  unfold handleComplete. destruct (receivingFile p); reflexivity.
Qed.

(** Frames that arrive on the data channel are handled one by one by
    the receiver. *)
Lemma run_channel_messages (frames : list Frame) :
  forall rt,
    dataChannel (self rt) <> None ->
    run rt (map ChannelMessage frames)
    = (with_self rt (fst (receive (self rt) frames)), snd (receive (self rt) frames)).
Proof.
  induction frames as [|fr frames IH]; intros rt Hdc.
  - cbn [map run receive fst snd]. rewrite with_self_self. reflexivity.
  - cbn [map run step receive].
    destruct (dataChannel (self rt)) as [dc|] eqn:E; [|congruence].
    pose proof (onmessage_dataChannel (self rt) fr) as Hkeep.
    destruct (onmessage (self rt) fr) as [p1 e1]. cbn [fst] in Hkeep.
    rewrite IH by (cbn [with_self self]; rewrite Hkeep, E; discriminate).
    cbn [with_self self closures tasks].
    destruct (receive p1 frames) as [p2 e2]. reflexivity.
Qed.

Lemma ws_sent_app (e1 e2 : list Effect) : ws_sent (e1 ++ e2) = ws_sent e1 ++ ws_sent e2.
Proof. apply flat_map_app. Qed.

Lemma ws_sent_chunks_effects (f : File.t) (id : string) (count : nat) :
  forall k, ws_sent (chunks_effects f id k count) = [].
Proof.
  induction count as [|count IH]; intros k; [reflexivity|].
  cbn [chunks_effects]. rewrite ws_sent_app, IH.
  unfold chunk_effects. destruct (k + 1 <? total_chunks f); reflexivity.
Qed.

Lemma ws_sent_receive (frames : list Frame) :
  forall p, ws_sent (snd (receive p frames)) = [].
Proof.
  induction frames as [|fr frames IH]; intros p; [reflexivity|].
  cbn [receive]. destruct (onmessage p fr) as [p1 e1] eqn:E.
  specialize (IH p1). destruct (receive p1 frames) as [p2 e2].
  cbn [snd] in *. rewrite ws_sent_app, IH, app_nil_r.
  destruct fr as [[meta|id|mt]|data]; cbn [onmessage] in E.
  - injection E as _ <-. reflexivity.
  - unfold handleComplete in E. destruct (receivingFile p); injection E as _ <-; reflexivity.
  - injection E as _ <-. reflexivity.
  - injection E as _ <-. reflexivity.
Qed.

(** Two new pages, [a] and [b], with open relay connections: [a] sets
    [b] as the remote identity and initiates, [b] answers, the
    connection is reported connected on both sides, the data channel
    opens for [a] and arrives at [b], and [a] sends a file of at least
    one byte under the steady schedule.  Then the relay carried exactly
    the offer and the answer, the channel carried exactly the frames of
    the transfer, and [b] completes once, with the bytes of the file. *)
Theorem session_delivers_file
        (a b sdp_a sdp_b : string) (f : File.t) (now : Z) (channel_b : RTCDataChannel) :
  0 < File.size f ->
  let offer := offer_envelope a b sdp_a in
  let answer := answer_envelope b a sdp_b in
  let effs_a :=
      snd (run (new_PeerTransfer a)
               (initiate b sdp_a
                ++ [WsMessage answer; ConnectionStateChange pc_connected;
                    ChannelReadyState dc_open]
                ++ CallSendFile f now :: steady_schedule f now)) in
  let effs_b :=
      snd (run (new_PeerTransfer b)
               (respond offer sdp_b
                ++ [ConnectionStateChange pc_connected; DataChannelArrives channel_b]
                ++ map ChannelMessage (sent_frames effs_a))) in
  ws_sent effs_a = [offer] /\
  ws_sent effs_b = [answer] /\
  sent_frames effs_a = transfer_frames f now /\
  completions effs_b
  = [({| blob_bytes := File.bytes f; blob_type := normalized_type (File.type f) |}, meta_of f now)].
Proof.
  intros Hpos offer answer effs_a effs_b.
  pose proof (total_chunks_pos f Hpos) as Hn.
  set (rtA := {| self := {| peerId := a; remoteId := Some b;
                            ws := {| ws_readyState := WS_OPEN |};
                            peerConnection :=
                              Some {| connectionState := pc_connected;
                                      localDescription := Some ("offer"%string, Some sdp_a);
                                      remoteDescription := Some ("answer"%string, Some sdp_b);
                                      iceCandidates := []; ondatachannel := false |};
                            dataChannel :=
                              Some {| readyState := dc_open; bufferedAmount := 0;
                                      bufferedAmountLowThreshold := 1024 * 1024;
                                      onbufferedamountlow := None;
                                      sendQueueLimit := None |};
                            incomingChunks := []; expectedChunks := 0;
                            receivingFile := None |};
                 closures := []; tasks := [] |}).
  assert (HA : run (new_PeerTransfer a)
                   (initiate b sdp_a
                    ++ [WsMessage answer; ConnectionStateChange pc_connected;
                        ChannelReadyState dc_open])
               = (rtA, [WsSend offer; OnConnect])).
  { rewrite run_app.
    assert (HA1 : run (new_PeerTransfer a) (initiate b sdp_a)
                  = ({| self := {| peerId := a; remoteId := Some b;
                                   ws := {| ws_readyState := WS_OPEN |};
                                   peerConnection :=
                                     Some {| connectionState := pc_new;
                                             localDescription :=
                                               Some ("offer"%string, Some sdp_a);
                                             remoteDescription := None;
                                             iceCandidates := [];
                                             ondatachannel := false |};
                                   dataChannel :=
                                     Some {| readyState := dc_connecting;
                                             bufferedAmount := 0;
                                             bufferedAmountLowThreshold := 1024 * 1024;
                                             onbufferedamountlow := None;
                                             sendQueueLimit := None |};
                                   incomingChunks := []; expectedChunks := 0;
                                   receivingFile := None |};
                        closures := []; tasks := [] |}, [WsSend offer]))
      by reflexivity.
    rewrite HA1. cbn [run step]. unfold handleSignal.
    cbn [self peerId Envelope.to answer answer_envelope option_string_eqb].
    rewrite String.eqb_refl. reflexivity. }
  destruct (steady_run rtA _ f now eq_refl eq_refl eq_refl eq_refl eq_refl eq_refl)
    as (rtA' & HrunA & _).
  assert (Heffs_a : effs_a
                    = [WsSend offer; OnConnect]
                      ++ ChannelSend (TextFrame (FileInfoMsg (meta_of f now)))
                         :: chunks_effects f (Date_now_toString now) 0
                                           (Z.to_nat (total_chunks f))).
  { unfold effs_a. rewrite app_assoc, run_app, HA, HrunA. reflexivity. }
  assert (Hsent : sent_frames effs_a = transfer_frames f now).
  { rewrite Heffs_a, sent_frames_app. cbn [sent_frames flat_map app].
    apply sent_frames_whole. exact Hn. }
  split; [|split; [|split]].
  - rewrite Heffs_a, ws_sent_app.
    change (ws_sent (?e :: ?l)) with (ws_sent [e] ++ ws_sent l) at 2.
    rewrite ws_sent_chunks_effects. reflexivity.
  - unfold effs_b. rewrite app_assoc, run_app.
    destruct (run (new_PeerTransfer b)
                  (respond offer sdp_b
                   ++ [ConnectionStateChange pc_connected; DataChannelArrives channel_b]))
      as [rtB effB] eqn:HB.
    assert (HB' : effB = [WsSend answer; OnConnect] /\ dataChannel (self rtB) <> None).
    { revert HB. unfold respond. cbn [app run step]. unfold handleSignal.
      cbn [fst snd with_self self set_ws peerId new_PeerTransfer
           Envelope.to offer offer_envelope option_string_eqb].
      rewrite String.eqb_refl. cbn. intros H. injection H as <- <-.
      split; [reflexivity|]. cbn. discriminate. }
    destruct HB' as [-> HdcB].
    rewrite (run_channel_messages _ rtB HdcB). cbn [snd].
    rewrite ws_sent_app, ws_sent_receive. reflexivity.
  - exact Hsent.
  - unfold effs_b. rewrite app_assoc, run_app.
    destruct (run (new_PeerTransfer b)
                  (respond offer sdp_b
                   ++ [ConnectionStateChange pc_connected; DataChannelArrives channel_b]))
      as [rtB effB] eqn:HB.
    assert (HB' : effB = [WsSend answer; OnConnect] /\ dataChannel (self rtB) <> None).
    { revert HB. unfold respond. cbn [app run step]. unfold handleSignal.
      cbn [fst snd with_self self set_ws peerId new_PeerTransfer
           Envelope.to offer offer_envelope option_string_eqb].
      rewrite String.eqb_refl. cbn. intros H. injection H as <- <-.
      split; [reflexivity|]. cbn. discriminate. }
    destruct HB' as [-> HdcB].
    rewrite (run_channel_messages _ rtB HdcB). cbn [snd].
    rewrite Hsent, receive_transfer. cbn [snd].
    rewrite completions_app. cbn [completions flat_map app].
    change (completions (?e :: ?l)) with (completions [e] ++ completions l).
    rewrite completions_app, completions_progress. reflexivity.
Qed.

Lemma session_delivers_file_witness :
  let f := {| File.name := "a.txt"; File.type := "text/plain";
              File.bytes := [Byte.x61; Byte.x62; Byte.x63] |} in
  let now := 1700000000000 in
  let effs_a :=
      snd (run (new_PeerTransfer "A")
               (initiate "B" "o"
                ++ [WsMessage (answer_envelope "B" "A" "n");
                    ConnectionStateChange pc_connected; ChannelReadyState dc_open]
                ++ CallSendFile f now :: steady_schedule f now)) in
  let effs_b :=
      snd (run (new_PeerTransfer "B")
               (respond (offer_envelope "A" "B" "o") "n"
                ++ [ConnectionStateChange pc_connected; DataChannelArrives fresh_channel]
                ++ map ChannelMessage (sent_frames effs_a))) in
  0 < File.size f /\
  completions effs_b
  = [({| blob_bytes := [Byte.x61; Byte.x62; Byte.x63]; blob_type := "text/plain" |},
      meta_of f now)].
Proof.
  intros f now effs_a effs_b.
  assert (Hpos : 0 < File.size f) by reflexivity.
  split; [exact Hpos|].
  exact (proj2 (proj2 (proj2 (session_delivers_file "A" "B" "o" "n" f now fresh_channel Hpos)))).
Defined.

(** * The relay server *)

Lemma Map_set_keys (m : list (Relay.Socket * string)) (k : Relay.Socket) (v : string) :
  ~ In k (map fst m) -> map fst (Relay.Map_set m k v) = map fst m ++ [k].
Proof.
  induction m as [|[k' v'] m IH]; intros Hk; [reflexivity|].
  cbn [Relay.Map_set map fst app] in *.
  destruct (Nat.eqb_spec k' k) as [->|Hne].
  - exfalso. apply Hk. left. reflexivity.
  - cbn [map fst]. rewrite IH; [reflexivity|]. intros H. apply Hk. right. exact H.
Qed.

Lemma Map_delete_keys (m : list (Relay.Socket * string)) (k : Relay.Socket) :
  NoDup (map fst m) ->
  NoDup (map fst (Relay.Map_delete m k)) /\
  (forall c, In c (map fst (Relay.Map_delete m k)) <-> c <> k /\ In c (map fst m)).
Proof.
  induction m as [|[k' v'] m IH]; intros Hnd.
  - split; [constructor|]. intros c. cbn. tauto.
  - cbn [map fst] in Hnd. inversion Hnd as [|? ? Hnotin Hnd']; subst.
    destruct (IH Hnd') as [IH1 IH2].
    cbn [Relay.Map_delete]. destruct (Nat.eqb_spec k' k) as [->|Hne].
    + split; [exact Hnd'|]. intros c. cbn [map fst In]. split.
      * intros Hc. split; [|right; exact Hc]. intros ->. contradiction.
      * intros [Hck [Hc|Hc]]; [congruence | exact Hc].
    + cbn [map fst]. split.
      * constructor; [|exact IH1]. intros Hin. apply IH2 in Hin. tauto.
      * intros c. cbn [In]. rewrite IH2. split.
        -- intros [->|[H1 H2]]; [split; [congruence | left; reflexivity] | tauto].
        -- intros [H1 [H2|H2]]; [left; exact H2 | right; tauto].
Qed.

(** A process that has exited handles nothing, and never runs again. *)
Lemma step_exited {Data : Type} (s : Relay.Server) (ev : Relay.Event Data) :
  Relay.exited s = true -> Relay.step s ev = (s, []).
Proof. intros H. unfold Relay.step. rewrite H. reflexivity. Qed.

Lemma run_exited {Data : Type} (evs : list (Relay.Event Data)) (s : Relay.Server) :
  Relay.exited s = true -> Relay.run s evs = (s, []).
Proof.
  intros H. induction evs as [|ev evs IH]; [reflexivity|].
  cbn [Relay.run]. rewrite step_exited by exact H. rewrite IH. reflexivity.
Qed.

Lemma step_running {Data : Type} (s : Relay.Server) (ev : Relay.Event Data) :
  Relay.exited s = false -> Relay.step s ev = Relay.handle s ev.
Proof. intros H. unfold Relay.step. rewrite H. reflexivity. Qed.

Lemma run_running {Data : Type} (evs : list (Relay.Event Data)) :
  forall s, Relay.exited (fst (Relay.run s evs)) = false -> Relay.exited s = false.
Proof.
  intros s H. destruct (Relay.exited s) eqn:E; [|reflexivity].
  rewrite run_exited in H by exact E. cbn [fst] in H. congruence.
Qed.

Lemma handle_keys_ok {Data : Type} (s : Relay.Server) (ev : Relay.Event Data) :
  keys_ok s -> keys_ok (fst (Relay.handle s ev)).
Proof.
  intros [Hnd Hlt]. destruct ev as [rand|ws data|ws|ws st]; cbn [Relay.handle].
  - assert (Hfresh : ~ In (List.length (Relay.handlers s)) (map fst (Relay.clients s))).
    { intros Hin. rewrite Forall_forall in Hlt. specialize (Hlt _ Hin). lia. }
    unfold keys_ok. cbn [fst Relay.clients Relay.handlers].
    rewrite Map_set_keys by exact Hfresh. rewrite length_app. cbn [List.length].
    split.
    + apply NoDup_app; [exact Hnd | repeat constructor; intros [] |].
      intros c Hc [<-|[]]. contradiction.
    + apply Forall_app. split.
      * eapply Forall_impl; [|exact Hlt]. cbv beta. intros; lia.
      * constructor; [lia | constructor].
  - destruct (nth_error (Relay.handlers s) ws); [destruct data|]; split; assumption.
  - destruct (nth_error (Relay.handlers s) ws); [|split; assumption].
    destruct (Map_delete_keys (Relay.clients s) ws Hnd) as [H1 H2].
    split; [exact H1|]. cbn [fst Relay.clients Relay.handlers].
    rewrite Forall_forall in *. intros c Hc. apply H2 in Hc. apply Hlt. tauto.
  - split; assumption.
Qed.

Lemma step_keys_ok {Data : Type} (s : Relay.Server) (ev : Relay.Event Data) :
  keys_ok s -> keys_ok (fst (Relay.step s ev)).
Proof.
  intros Hok. unfold Relay.step.
  destruct (Relay.exited s); [exact Hok | apply handle_keys_ok; exact Hok].
Qed.

Lemma run_keys_ok {Data : Type} (evs : list (Relay.Event Data)) :
  forall s, keys_ok s -> keys_ok (fst (Relay.run s evs)).
Proof.
  induction evs as [|ev evs IH]; intros s Hs; [exact Hs|].
  cbn [Relay.run]. pose proof (step_keys_ok s ev Hs) as H1.
  destruct (Relay.step s ev) as [s1 e1]. cbn [fst] in H1.
  specialize (IH s1 H1). destruct (Relay.run s1 evs) as [s2 e2]. exact IH.
Qed.

Lemma start_keys_ok : keys_ok Relay.start.
Proof. split; constructor. Qed.

Lemma sends_broadcast {Data : Type} (s : Relay.Server) (ws : Relay.Socket) (d : Data) :
  Relay.sends (Relay.broadcast s ws d)
  = map (fun c => (c, d))
        (filter (fun c => negb (Nat.eqb c ws) && Relay.is_OPEN (Relay.readyState s c))
                (map fst (Relay.clients s))).
Proof.
  unfold Relay.broadcast, Relay.sends.
  induction (Relay.clients s) as [|[c id] m IH]; [reflexivity|].
  cbn [flat_map map fst filter]. rewrite flat_map_app, IH.
  destruct (negb (Nat.eqb c ws) && Relay.is_OPEN (Relay.readyState s c)); reflexivity.
Qed.

Lemma keys_of_sends {Data : Type} (d : Data) (l : list Relay.Socket) :
  map fst (map (fun c => (c, d)) l) = l.
Proof. rewrite map_map. cbn [fst]. apply map_id. Qed.

(** While the server runs, whatever happened before, a message that it
    receives from a socket that connected is passed on exactly once to
    each other client in [clients] that is open, to nobody else, never
    back to the sender, and unchanged; the server keeps its state. *)
Theorem relay_broadcast_once_to_others
        {Data : Type} (evs : list (Relay.Event Data)) (ws : Relay.Socket) (d : Data) :
  let s := fst (Relay.run Relay.start evs) in
  let out := Relay.sends (snd (Relay.step s (Relay.Message ws (Some d)))) in
  Relay.exited s = false ->
  (ws < List.length (Relay.handlers s))%nat ->
  fst (Relay.step s (Relay.Message ws (Some d))) = s /\
  NoDup (map fst out) /\
  ~ In ws (map fst out) /\
  Forall (fun x => snd x = d) out /\
  forall c, In c (map fst out) <->
            c <> ws /\ In c (map fst (Relay.clients s)) /\
            Relay.readyState s c = WS_OPEN.
Proof.
  intros s out Hrun Hws.
  pose proof (run_keys_ok evs Relay.start start_keys_ok) as [Hnd _]. fold s in Hnd.
  unfold out. rewrite step_running by exact Hrun. cbn [Relay.handle].
  destruct (nth_error (Relay.handlers s) ws) as [id|] eqn:Hh.
  2:{ apply nth_error_None in Hh. lia. }
  cbn [fst snd]. rewrite sends_broadcast, keys_of_sends.
  split; [reflexivity|]. split; [apply NoDup_filter; exact Hnd|].
  split.
  { intros Hin. apply filter_In in Hin as [_ Hc].
    rewrite Nat.eqb_refl in Hc. discriminate. }
  split.
  { apply Forall_forall. intros x Hx. apply in_map_iff in Hx as (c & <- & _).
    reflexivity. }
  intros c. rewrite filter_In, andb_true_iff, negb_true_iff, Nat.eqb_neq.
  unfold Relay.is_OPEN.
  destruct (Relay.readyState s c); split; intros H; try tauto;
    destruct H as (H1 & H2 & H3) || destruct H as (H1 & H2 & H3); discriminate.
Qed.

Lemma relay_broadcast_once_to_others_witness :
  let evs : list (Relay.Event string) :=
      [Relay.Connection (fun _ => 3); Relay.Connection (fun _ => 10);
       Relay.Connection (fun _ => 7); Relay.Close 2%nat] in
  let s := fst (Relay.run Relay.start evs) in
  let out := Relay.sends (snd (Relay.step s (Relay.Message 0%nat (Some "hello"%string)))) in
  Relay.exited s = false /\
  out = [(1%nat, "hello"%string)] /\
  forall c, In c (map fst out) <->
            c <> 0%nat /\ In c (map fst (Relay.clients s)) /\
            Relay.readyState s c = WS_OPEN.
Proof.
  intros evs s out.
  assert (Hrun : Relay.exited s = false) by reflexivity.
  split; [exact Hrun|]. split; [reflexivity|].
  exact (proj2 (proj2 (proj2 (proj2
           (relay_broadcast_once_to_others evs 0%nat "hello"%string Hrun
              ltac:(cbn; lia)))))).
Defined.

Lemma handle_closed_socket {Data : Type} (s : Relay.Server) (ev : Relay.Event Data)
      (ws : Relay.Socket) :
  keys_ok s -> (ws < List.length (Relay.handlers s))%nat ->
  ~ In ws (map fst (Relay.clients s)) ->
  (ws < List.length (Relay.handlers (fst (Relay.handle s ev))))%nat /\
  ~ In ws (map fst (Relay.clients (fst (Relay.handle s ev)))) /\
  ~ In ws (map fst (Relay.sends (snd (Relay.handle s ev)))).
Proof.
  intros [Hnd Hlt] Hws Hout.
  destruct ev as [rand|w data|w|w st]; cbn [Relay.handle].
  - cbn [fst snd Relay.handlers Relay.clients Relay.sends flat_map app map].
    rewrite length_app. cbn [List.length]. split; [lia|]. split; [|intros []].
    rewrite Map_set_keys.
    + rewrite in_app_iff. cbn [In]. intros [H|[H|[]]]; [contradiction | lia].
    + intros Hin. rewrite Forall_forall in Hlt. specialize (Hlt _ Hin). lia.
  - destruct (nth_error (Relay.handlers s) w) as [id|]; [destruct data as [d|]|];
      cbn [fst snd Relay.handlers Relay.clients Relay.sends flat_map map app]; try tauto.
    split; [exact Hws|]. split; [exact Hout|].
    fold (Relay.sends (Relay.broadcast s w d)).
    rewrite sends_broadcast, keys_of_sends. intros Hin.
    apply filter_In in Hin as [Hin _]. contradiction.
  - destruct (nth_error (Relay.handlers s) w) as [id|];
      cbn [fst snd Relay.handlers Relay.clients Relay.sends flat_map map app]; try tauto.
    split; [exact Hws|]. split; [|intros []].
    intros Hin. apply (Map_delete_keys _ w Hnd) in Hin. tauto.
  - cbn [fst snd Relay.handlers Relay.clients Relay.sends flat_map map]. tauto.
Qed.

Lemma step_closed_socket {Data : Type} (s : Relay.Server) (ev : Relay.Event Data)
      (ws : Relay.Socket) :
  keys_ok s -> (ws < List.length (Relay.handlers s))%nat ->
  ~ In ws (map fst (Relay.clients s)) ->
  (ws < List.length (Relay.handlers (fst (Relay.step s ev))))%nat /\
  ~ In ws (map fst (Relay.clients (fst (Relay.step s ev)))) /\
  ~ In ws (map fst (Relay.sends (snd (Relay.step s ev)))).
Proof.
  intros Hok Hws Hout. unfold Relay.step.
  destruct (Relay.exited s); [|apply handle_closed_socket; assumption].
  cbn [fst snd Relay.sends flat_map map]. tauto.
Qed.

Lemma sends_app {Data : Type} (e1 e2 : list (Relay.Effect Data)) :
  Relay.sends (e1 ++ e2) = Relay.sends e1 ++ Relay.sends e2.
Proof. apply flat_map_app. Qed.

Lemma run_closed_socket {Data : Type} (evs : list (Relay.Event Data)) (ws : Relay.Socket) :
  forall s,
    keys_ok s -> (ws < List.length (Relay.handlers s))%nat ->
    ~ In ws (map fst (Relay.clients s)) ->
    ~ In ws (map fst (Relay.sends (snd (Relay.run s evs)))).
Proof.
  induction evs as [|ev evs IH]; intros s Hok Hws Hout; [intros []|].
  cbn [Relay.run].
  destruct (step_closed_socket s ev ws Hok Hws Hout) as (H1 & H2 & H3).
  pose proof (step_keys_ok s ev Hok) as Hok1.
  destruct (Relay.step s ev) as [s1 e1]. cbn [fst snd] in *.
  specialize (IH s1 Hok1 H1 H2). destruct (Relay.run s1 evs) as [s2 e2].
  cbn [snd] in *. rewrite sends_app, map_app, in_app_iff. tauto.
Qed.

(** Once a socket has closed nothing is sent to it any more, whatever
    the server receives afterwards and whoever connects. *)
Theorem relay_closed_socket_gets_nothing
        {Data : Type} (evs1 evs2 : list (Relay.Event Data)) (ws : Relay.Socket) :
  let s1 := fst (Relay.run Relay.start evs1) in
  (ws < List.length (Relay.handlers s1))%nat ->
  ~ In ws (map fst (Relay.sends (snd (Relay.run s1 (Relay.Close ws :: evs2))))).
Proof.
  intros s1 Hws.
  pose proof (run_keys_ok evs1 Relay.start start_keys_ok) as Hok. fold s1 in Hok.
  destruct (Relay.exited s1) eqn:Hex.
  { rewrite run_exited by exact Hex. intros []. }
  cbn [Relay.run]. rewrite step_running by exact Hex. cbn [Relay.handle].
  destruct (nth_error (Relay.handlers s1) ws) as [id|] eqn:Hh.
  2:{ apply nth_error_None in Hh. lia. }
  pose proof (handle_keys_ok s1 (@Relay.Close Data ws) Hok) as Hok1.
  cbn [Relay.handle] in Hok1. rewrite Hh in Hok1. cbn [fst] in Hok1.
  match goal with |- context [Relay.run ?s evs2] =>
    pose proof (run_closed_socket evs2 ws s Hok1 Hws) as Hrun;
    destruct (Relay.run s evs2) as [s2 e2] end.
  cbn [snd app Relay.sends flat_map] in *. apply Hrun.
  intros Hin. destruct Hok as [Hnd _].
  apply (Map_delete_keys _ ws Hnd) in Hin. tauto.
Qed.

Lemma relay_closed_socket_gets_nothing_witness :
  let evs1 : list (Relay.Event string) :=
      [Relay.Connection (fun _ => 3); Relay.Connection (fun _ => 10)] in
  let evs2 := [Relay.Message 1%nat (Some "hello"%string);
               Relay.Connection (fun _ => 7);
               Relay.Message 2%nat (Some "again"%string)] in
  (0 < List.length (Relay.handlers (fst (Relay.run Relay.start evs1))))%nat /\
  ~ In 0%nat (map fst (Relay.sends
                         (snd (Relay.run (fst (Relay.run Relay.start evs1))
                                         (Relay.Close 0%nat :: evs2))))).
Proof.
  intros evs1 evs2.
  assert (H : (0 < List.length (Relay.handlers (fst (Relay.run Relay.start evs1))))%nat)
    by (cbn; lia).
  split; [exact H|].
  exact (relay_closed_socket_gets_nothing evs1 evs2 0%nat H).
Defined.

Lemma handle_alive {Data : Type} (s : Relay.Server) (ev : Relay.Event Data)
      (c : Relay.Socket) :
  keys_ok s -> untouched c [ev] = true ->
  In c (map fst (Relay.clients s)) -> Relay.readyState s c = WS_OPEN ->
  In c (map fst (Relay.clients (fst (Relay.handle s ev)))) /\
  Relay.readyState (fst (Relay.handle s ev)) c = WS_OPEN.
Proof.
  intros [Hnd Hlt] Hev Hin Hopen.
  destruct ev as [rand|w data|w|w st]; cbn [Relay.handle untouched forallb] in *.
  - cbn [fst Relay.clients Relay.readyState]. split.
    + rewrite Map_set_keys; [apply in_app_iff; left; exact Hin|].
      intros H. rewrite Forall_forall in Hlt. specialize (Hlt _ H). lia.
    + unfold Relay.set_readyState. destruct (Nat.eqb c _); [reflexivity | exact Hopen].
  - destruct (nth_error (Relay.handlers s) w); [destruct data|]; cbn [fst]; auto.
  - rewrite andb_true_r, negb_true_iff, Nat.eqb_neq in Hev.
    destruct (nth_error (Relay.handlers s) w); cbn [fst Relay.clients Relay.readyState];
      [|auto].
    split; [|exact Hopen]. apply (Map_delete_keys _ w Hnd). split; [congruence | exact Hin].
  - rewrite andb_true_r, negb_true_iff, Nat.eqb_neq in Hev.
    cbn [fst Relay.clients Relay.readyState]. split; [exact Hin|].
    unfold Relay.set_readyState.
    destruct (Nat.eqb_spec c w) as [->|_]; [congruence | exact Hopen].
Qed.

Lemma run_alive {Data : Type} (evs : list (Relay.Event Data)) (c : Relay.Socket) :
  forall s,
    keys_ok s -> untouched c evs = true ->
    Relay.exited (fst (Relay.run s evs)) = false ->
    In c (map fst (Relay.clients s)) -> Relay.readyState s c = WS_OPEN ->
    In c (map fst (Relay.clients (fst (Relay.run s evs)))) /\
    Relay.readyState (fst (Relay.run s evs)) c = WS_OPEN.
Proof.
  induction evs as [|ev evs IH]; intros s Hok Hun Hrun Hin Hopen; [auto|].
  cbn [untouched forallb] in Hun. apply andb_true_iff in Hun as [Hev Hun].
  assert (Hev' : untouched c [ev] = true)
    by (cbn [untouched forallb]; rewrite Hev; reflexivity).
  pose proof (run_running (ev :: evs) s Hrun) as Hs.
  pose proof (step_keys_ok s ev Hok) as Hok1.
  pose proof (handle_alive s ev c Hok Hev' Hin Hopen) as [H1 H2].
  cbn [Relay.run] in *. rewrite step_running in * by exact Hs.
  destruct (Relay.handle s ev) as [s1 e1]. cbn [fst] in *.
  specialize (IH s1 Hok1 Hun). destruct (Relay.run s1 evs) as [s2 e2].
  cbn [fst] in *. apply IH; assumption.
Qed.

(** A socket that connected, has not closed and whose state did not
    change since is sent every message the server receives from another
    socket, whatever else happened in between, as long as the server
    runs. *)
Theorem relay_delivers_to_open_socket
        {Data : Type} (evs0 evs : list (Relay.Event Data)) (rand : nat -> Z)
        (ws : Relay.Socket) (d : Data) :
  let s0 := fst (Relay.run Relay.start evs0) in
  let c := List.length (Relay.handlers s0) in
  let s1 := fst (Relay.run s0 (Relay.Connection rand :: evs)) in
  Relay.exited s1 = false ->
  untouched c evs = true ->
  ws <> c -> (ws < List.length (Relay.handlers s1))%nat ->
  In (c, d) (Relay.sends (snd (Relay.step s1 (Relay.Message ws (Some d))))).
Proof.
  intros s0 c s1 Hrun Hun Hne Hws.
  pose proof (run_keys_ok evs0 Relay.start start_keys_ok) as Hok0. fold s0 in Hok0.
  pose proof (run_running _ s0 Hrun) as Hrun0.
  pose proof (handle_keys_ok s0 (@Relay.Connection Data rand) Hok0) as Hok1.
  assert (Hs1 : In c (map fst (Relay.clients s1)) /\ Relay.readyState s1 c = WS_OPEN).
  { unfold s1 in *. cbn [Relay.run] in *. rewrite step_running in * by exact Hrun0.
    cbn [Relay.handle] in *. cbn [fst] in Hok1.
    match goal with |- context [Relay.run ?s evs] =>
      pose proof (run_alive evs c s Hok1 Hun) as Halive;
      destruct (Relay.run s evs) as [s2 e2] end.
    cbn [fst] in *. apply Halive.
    - exact Hrun.
    - cbn [Relay.clients]. rewrite Map_set_keys.
      + apply in_app_iff. right. left. reflexivity.
      + intros H. destruct Hok0 as [_ Hlt]. rewrite Forall_forall in Hlt.
        specialize (Hlt _ H). unfold c in *. lia.
    - cbn [Relay.readyState]. unfold Relay.set_readyState, c.
      rewrite Nat.eqb_refl. reflexivity. }
  destruct Hs1 as [Hin Hopen].
  rewrite step_running by exact Hrun. cbn [Relay.handle].
  destruct (nth_error (Relay.handlers s1) ws) as [id|] eqn:Hh.
  2:{ apply nth_error_None in Hh. lia. }
  cbn [snd]. rewrite sends_broadcast.
  apply in_map_iff. exists c. split; [reflexivity|].
  apply filter_In. split; [exact Hin|].
  rewrite Hopen. cbn [Relay.is_OPEN]. rewrite andb_true_r, negb_true_iff.
  apply Nat.eqb_neq. congruence.
Qed.

Lemma relay_delivers_to_open_socket_witness :
  let evs0 : list (Relay.Event string) := [Relay.Connection (fun _ => 3)] in
  let evs : list (Relay.Event string) :=
      [Relay.Connection (fun _ => 5); Relay.Close 2%nat;
       Relay.ReadyStateChange 0%nat WS_CLOSING] in
  let s1 := fst (Relay.run (fst (Relay.run Relay.start evs0))
                           (Relay.Connection (fun _ => 9) :: evs)) in
  Relay.exited s1 = false /\
  In (1%nat, "hello"%string)
     (Relay.sends (snd (Relay.step s1 (Relay.Message 0%nat (Some "hello"%string))))).
Proof.
  intros evs0 evs s1.
  assert (Hrun : Relay.exited s1 = false) by reflexivity.
  split; [exact Hrun|].
  exact (relay_delivers_to_open_socket evs0 evs (fun _ => 9) 0%nat "hello"%string
           Hrun eq_refl ltac:(discriminate) ltac:(cbn; lia)).
Defined.



(** ** Connection identifiers *)

Lemma nibble_cases (v : Z) (P : Z -> Prop) :
  0 <= v < 16 ->
  P 0 -> P 1 -> P 2 -> P 3 -> P 4 -> P 5 -> P 6 -> P 7 ->
  P 8 -> P 9 -> P 10 -> P 11 -> P 12 -> P 13 -> P 14 -> P 15 -> P v.
Proof.
  intros Hv p0 p1 p2 p3 p4 p5 p6 p7 p8 p9 p10 p11 p12 p13 p14 p15.
  assert (H : v = 0 \/ v = 1 \/ v = 2 \/ v = 3 \/ v = 4 \/ v = 5 \/ v = 6 \/ v = 7 \/
              v = 8 \/ v = 9 \/ v = 10 \/ v = 11 \/ v = 12 \/ v = 13 \/ v = 14 \/ v = 15)
    by lia.
  repeat (destruct H as [->|H]; [assumption|]). subst. assumption.
Qed.

Lemma toString16_digit (v : Z) :
  0 <= v < 16 -> Relay.Number_toString16 v = String (hex_char v) EmptyString.
Proof. intros Hv. pattern v. apply (nibble_cases v); [exact Hv|..]; reflexivity. Qed.

Lemma hex_char_is_hex (v : Z) : 0 <= v < 16 -> Relay.is_hex_digit (hex_char v) = true.
Proof. intros Hv. pattern v. apply (nibble_cases v); [exact Hv|..]; reflexivity. Qed.

Lemma variant_nibble (r : Z) :
  0 <= r < 16 -> 8 <= Z.lor (Z.land r 3) 8 < 12.
Proof. intros Hr. pattern r. apply (nibble_cases r); [exact Hr|..]; cbn; lia. Qed.

Lemma variant_char (r : Z) :
  0 <= r < 16 ->
  let c := hex_char (Z.lor (Z.land r 3) 8) in
  Ascii.eqb c "8" || Ascii.eqb c "9" || Ascii.eqb c "a" || Ascii.eqb c "b" = true.
Proof. intros Hr. pattern r. apply (nibble_cases r); [exact Hr|..]; reflexivity. Qed.

(** Whatever the random numbers, [uuidv4] yields 36 characters: hyphens
    at positions 8, 13, 18 and 23, the version digit 4 at position 14,
    one of 8, 9, a, b at position 19 and lower-case hexadecimal digits
    everywhere else. *)
Theorem uuidv4_format (rand : nat -> Z) :
  (forall i, 0 <= rand i < 16) ->
  String.length (Relay.uuidv4 rand) = 36%nat /\
  forall i, (i < 36)%nat ->
            exists c, String.get i (Relay.uuidv4 rand) = Some c /\ uuid_char_ok i c = true.
Proof.
  intros Hrand.
  assert (Hv : forall i, 0 <= Z.lor (Z.land (rand i) 3) 8 < 16).
  { intros i. pose proof (variant_nibble (rand i) (Hrand i)). lia. }
  unfold Relay.uuidv4, Relay.uuid_template.
  cbn [Relay.replace_xy Ascii.eqb Bool.eqb orb].
  rewrite !toString16_digit by (apply Hrand || apply Hv).
  cbn [String.append].
  split; [reflexivity|].
  intros i Hi.
  do 36 (destruct i as [|i];
         [eexists; split; [reflexivity|];
          first [ reflexivity
                | apply hex_char_is_hex; apply Hrand
                | apply (variant_char _ (Hrand _)) ] |]).
  lia.
Qed.

Lemma uuidv4_format_witness :
  String.length (Relay.uuidv4 (fun i => Z.of_nat i mod 16)) = 36%nat /\
  Relay.uuidv4 (fun i => Z.of_nat i mod 16) = "01234567-89ab-4cde-b012-3456789abcde"%string.
Proof.
  split; [|reflexivity].
  exact (proj1 (uuidv4_format (fun i => Z.of_nat i mod 16)
                  (fun i => Z.mod_pos_bound (Z.of_nat i) 16 eq_refl))).
Defined.

(** * The panel *)

Lemma callback_set_peer (q : Panel.t) (e : Effect) (x : option Runtime) :
  Panel.callback (Panel.set_peer q x) e = Panel.set_peer (Panel.callback q e) x.
Proof. destruct e; reflexivity. Qed.

Lemma callbacks_set_peer (effs : list Effect) :
  forall q x, fold_left Panel.callback effs (Panel.set_peer q x)
              = Panel.set_peer (fold_left Panel.callback effs q) x.
Proof.
  induction effs as [|e effs IH]; intros q x; [reflexivity|].
  cbn [fold_left]. rewrite callback_set_peer. apply IH.
Qed.

Lemma set_peer_set_peer (q : Panel.t) (x y : option Runtime) :
  Panel.set_peer (Panel.set_peer q x) y = Panel.set_peer q y.
Proof. reflexivity. Qed.

(** The panel on a list of events of its peer: the peer runs, and the
    callbacks are applied in the order of the calls. *)
Lemma on_peer_events_run (evs : list Event) :
  forall p rt,
    Panel.peer p = Some rt ->
    Panel.on_peer_events p evs
    = (fold_left Panel.callback (snd (run rt evs)) (Panel.set_peer p (Some (fst (run rt evs)))),
       snd (run rt evs)).
Proof.
  induction evs as [|ev evs IH]; intros p rt Hp.
  - cbn [Panel.on_peer_events run fst snd fold_left].
    destruct p. cbn in Hp. subst. reflexivity.
  - cbn [Panel.on_peer_events run]. unfold Panel.on_peer_event. rewrite Hp.
    destruct (step rt ev) as [rt1 eff1].
    rewrite (IH _ rt1) by (rewrite callbacks_set_peer; reflexivity).
    destruct (run rt1 evs) as [rt2 eff2]. cbn [fst snd].
    rewrite fold_left_app, !callbacks_set_peer, set_peer_set_peer. reflexivity.
Qed.

Lemma last_cons_default {A : Type} (l : list A) :
  forall a d1 d2, last (a :: l) d1 = last (a :: l) d2.
Proof.
  induction l as [|b l IH]; intros a d1 d2; [reflexivity|].
  change (last (a :: b :: l) d1) with (last (b :: l) d1).
  change (last (a :: b :: l) d2) with (last (b :: l) d2).
  apply IH.
Qed.

Lemma callbacks_progress (ps : list JsNumber.t) :
  forall q, fold_left Panel.callback (map OnProgress ps) q
            = Panel.set_progress q (last ps (Panel.progress q)).
Proof.
  induction ps as [|x ps IH]; intros q.
  - destruct q; reflexivity.
  - cbn [map fold_left Panel.callback]. rewrite IH.
    destruct ps as [|y ps]; [reflexivity|].
    change (last (x :: y :: ps) (Panel.progress q)) with (last (y :: ps) (Panel.progress q)).
    rewrite (last_cons_default ps y (Panel.progress (Panel.set_progress q x))
                               (Panel.progress q)).
    reflexivity.
Qed.

Lemma last_progress_from (n : Z) (j : nat) :
  forall k d, last (progress_from n k (S j)) d = percent (k + Z.of_nat (S j)) n.
Proof.
  induction j as [|j IH]; intros k d.
  - reflexivity.
  - cbn [progress_from] in *. 
    change (last (?a :: ?b :: ?l) d) with (last (b :: l) d).
    rewrite (IH (k + 1)). f_equal. lia.
Qed.

Lemma percent_whole (n : Z) : 0 < n < 2 ^ 53 -> percent n n = JsNumber.of_Z 100.
Proof.
  intros [Hn Hn53].
  destruct (percent_percentZ n n Hn ltac:(lia) Hn53) as [-> _].
  rewrite percentZ_whole by lia. reflexivity.
Qed.

(** The panel of the receiving side.  Once the frames of a transfer of a
    file of at least one byte have arrived on the data channel, the panel
    shows the progress 100 and offers the bytes of the file for download
    under the name the sender's file has. *)
Theorem panel_shows_received_file (p : Panel.t) (rt : Runtime) (f : File.t) (now : Z) :
  Panel.peer p = Some rt -> dataChannel (self rt) <> None ->
  0 < File.size f < 2 ^ 53 ->
  let p' := fst (Panel.on_peer_events p (map ChannelMessage (transfer_frames f now))) in
  Panel.progress p' = JsNumber.of_Z 100 /\
  Panel.received p'
  = Some ({| blob_bytes := File.bytes f; blob_type := normalized_type (File.type f) |}, File.name f) /\
  Panel.connected p' = Panel.connected p.
Proof.
  intros Hp Hdc [Hpos H53] p'.
  pose proof (total_chunks_pos f Hpos) as Hn.
  pose proof (total_chunks_le_size f) as Hns.
  unfold p'. rewrite (on_peer_events_run _ p rt Hp).
  rewrite (run_channel_messages _ rt Hdc), receive_transfer. cbn [fst snd].
  rewrite callbacks_set_peer.
  cbn [fold_left Panel.callback]. rewrite fold_left_app, callbacks_progress.
  cbn [fold_left Panel.callback Panel.set_peer Panel.set_received Panel.set_progress
       Panel.progress Panel.received Panel.connected name meta_of].
  split; [|split; reflexivity].
  destruct (Z.to_nat (total_chunks f)) as [|j] eqn:Hj; [lia|].
  rewrite last_progress_from, <- Hj.
  replace (0 + Z.of_nat (Z.to_nat (total_chunks f))) with (total_chunks f) by lia.
  apply percent_whole. lia.
Qed.

Lemma panel_shows_received_file_witness :
  let f := {| File.name := "a.txt"; File.type := "text/plain";
              File.bytes := [Byte.x61; Byte.x62; Byte.x63] |} in
  let p := Panel.set_peer (Panel.mount Panel.initial "p2") (Some (connected "p2")) in
  let p' := fst (Panel.on_peer_events
                   p (map ChannelMessage (transfer_frames f 1700000000000))) in
  0 < File.size f < 2 ^ 53 /\
  Panel.progress p' = JsNumber.of_Z 100 /\
  Panel.received p'
  = Some ({| blob_bytes := [Byte.x61; Byte.x62; Byte.x63]; blob_type := "text/plain" |},
          "a.txt"%string).
Proof.
  intros f p p'.
  assert (Hsize : 0 < File.size f < 2 ^ 53) by (split; reflexivity).
  split; [exact Hsize|].
  destruct (panel_shows_received_file p (connected "p2") f 1700000000000
              eq_refl ltac:(discriminate) Hsize) as (H1 & H2 & _).
  split; [exact H1 | exact H2].
Defined.

(** A click on Send either does nothing at all, silently, or finds a
    file selected and the data channel open and calls [sendFile], which
    then hands the metadata frame to the channel or lets the exception
    of [send] escape.  The warning of [sendFile] is never logged from
    the panel. *)
Theorem panel_send_silent_unless_open (p : Panel.t) (now : Z) :
  (forall text, ~ In (ConsoleWarn text) (snd (Panel.handleSend p now))) /\
  (Panel.handleSend p now = (p, []) \/
   exists f rt dc,
     Panel.file p = Some f /\ Panel.peer p = Some rt /\
     dataChannel (self rt) = Some dc /\ readyState dc = dc_open /\
     snd (Panel.handleSend p now) = snd (sendFile rt f now) /\
     Panel.peer (fst (Panel.handleSend p now)) = Some (fst (sendFile rt f now)) /\
     (snd (sendFile rt f now) = [ChannelSend (TextFrame (FileInfoMsg (meta_of f now)))] \/
      exists e, snd (sendFile rt f now) = [Uncaught e])).
Proof.
  unfold Panel.handleSend.
  destruct (Panel.file p) as [f|] eqn:Hf; [|split; [intros text []|left; reflexivity]].
  destruct (Panel.peer p) as [rt|] eqn:Hrt; [|split; [intros text []|left; reflexivity]].
  destruct (dataChannel (self rt)) as [dc|] eqn:Hdc;
    [|split; [intros text []|left; reflexivity]].
  destruct (readyState dc) eqn:Hrs; cbn [is_open];
    try (split; [intros text []|left; reflexivity]).
  assert (Hsend : snd (sendFile rt f now)
                  = [ChannelSend (TextFrame (FileInfoMsg (meta_of f now)))] \/
                  exists e, snd (sendFile rt f now) = [Uncaught e]).
  { unfold sendFile. rewrite Hdc, Hrs. cbn [is_open negb].
    fold (meta_of f now).
    destruct (dc_send dc (TextFrame (FileInfoMsg (meta_of f now)))) as [e|dc1];
      [right; exists e; reflexivity | left; reflexivity]. }
  destruct (sendFile rt f now) as [rt1 effs] eqn:Hsf. cbn [fst snd] in *.
  split.
  - intros text Hin. destruct Hsend as [->|[e ->]]; cbn in Hin;
      destruct Hin as [H|[]]; discriminate.
  - right. exists f, rt, dc. rewrite Hsf. cbn [fst snd].
    repeat split; try reflexivity; try assumption.
    rewrite callbacks_set_peer. reflexivity.
Qed.

Lemma createOffer_then_sent (rt : Runtime) (sdp : string) :
  ws_readyState (ws (self rt)) = WS_OPEN ->
  snd (createOffer_then rt sdp)
  = [WsSend {| Envelope.type := "offer"; Envelope.from := peerId (self rt);
               Envelope.to := remoteId (self rt); Envelope.sdp := Some sdp;
               Envelope.candidate := None |}].
Proof.
  intros Hws. unfold createOffer_then, sendSignal.
  destruct (pc_call_fields rt (fun pc => pc_set_local pc ("offer"%string, Some sdp)))
    as (Hid & Hrem & Hw).
  rewrite Hw, Hws. unfold envelope_of. rewrite Hid, Hrem. reflexivity.
Qed.

(** A click on Connect with a remote identity that is blank after
    trimming does nothing.  Otherwise the trimmed identity becomes the
    remote identity and the panel initiates: with the relay connection
    open, the offer the browser then produces is sent from the local
    identity to the trimmed one, and nothing else is sent. *)
Theorem panel_connect_addresses_offer
        (trim : string -> string) (p : Panel.t) (rt : Runtime) (sdp : string) :
  Panel.peer p = Some rt ->
  (trim (Panel.remotePeerId p) = ""%string -> Panel.handleConnect trim p = p) /\
  (trim (Panel.remotePeerId p) <> ""%string ->
   tasks rt = [] -> ws_readyState (ws (self rt)) = WS_OPEN ->
   snd (Panel.on_peer_event (Panel.handleConnect trim p) (OfferCreated 0 sdp))
   = [WsSend (offer_envelope (peerId (self rt)) (trim (Panel.remotePeerId p)) sdp)]).
Proof.
  intros Hp. unfold Panel.handleConnect. split.
  - intros ->. reflexivity.
  - intros Hne Hts Hws. apply String.eqb_neq in Hne. rewrite Hne, Hp.
    unfold Panel.on_peer_event. cbn [Panel.peer Panel.set_peer].
    set (rtX := initPeerConnection _ true).
    assert (Hstep : step rtX (OfferCreated 0 sdp)
                    = createOffer_then (take_task rtX 0) sdp).
    { unfold rtX, initPeerConnection.
      cbn [step add_task with_tasks with_self tasks]. rewrite Hts. reflexivity. }
    rewrite Hstep.
    pose proof (createOffer_then_sent (take_task rtX 0) sdp Hws) as Hsent.
    destruct (createOffer_then (take_task rtX 0) sdp) as [rt1 effs].
    cbn [snd] in *. rewrite Hsent. reflexivity.
Qed.

Lemma panel_connect_addresses_offer_witness :
  let trim (s : string) := if String.eqb s " p2 " then "p2"%string else s in
  let p := {| Panel.peerId := "p1"; Panel.remotePeerId := " p2 "; Panel.file := None;
              Panel.progress := JsNumber.of_Z 0; Panel.received := None;
              Panel.connected := false;
              Panel.peer := Some (fst (step (new_PeerTransfer "p1")
                                            (WsReadyStateChange WS_OPEN))) |} in
  snd (Panel.on_peer_event (Panel.handleConnect trim p) (OfferCreated 0 "v=0"))
  = [WsSend (offer_envelope "p1" "p2" "v=0")].
Proof.
  intros trim p.
  destruct (panel_connect_addresses_offer
              trim p (fst (step (new_PeerTransfer "p1") (WsReadyStateChange WS_OPEN)))
              "v=0" eq_refl) as [_ H].
  exact (H ltac:(discriminate) eq_refl eq_refl).
Defined.

(** ** The range of the progress values *)

Lemma percent_range (k n : Z) :
  0 < k -> k <= n -> n < 2 ^ 53 ->
  exists q, 0 <= q <= 100 /\ percent k n = JsNumber.of_Z q.
Proof.
  intros Hk Hkn Hn. exists (percentZ k n).
  split; [apply percentZ_range; assumption|].
  apply (percent_percentZ k n Hk Hkn Hn).
Qed.

Lemma progress_from_range (n : Z) (j : nat) :
  forall k, 0 <= k -> k + Z.of_nat j <= n -> n < 2 ^ 53 ->
            Forall (fun x => exists q, 0 <= q <= 100 /\ x = JsNumber.of_Z q)
                   (progress_from n k j).
Proof.
  induction j as [|j IH]; intros k Hk Hle Hn; [constructor|].
  cbn [progress_from]. constructor.
  - apply percent_range; lia.
  - apply IH; lia.
Qed.

(** Every progress value is a whole number from 0 to 100.  For a file of
    at least one byte sent on an idle open channel that refuses no
    frame, whatever the reads, the timers and the channel do, each value
    the sender reports and each value a receiver fed the frames sent
    reports is the number of an integer between 0 and 100: the rounding
    of the division and of the product never takes it outside. *)
Theorem progress_within_0_100
        (rt : Runtime) (dc : RTCDataChannel) (f : File.t) (now : Z)
        (p : PeerTransfer) (evs : list Event) :
  0 < File.size f -> File.size f < 2 ^ 53 ->
  closures rt = [] -> tasks rt = [] ->
  dataChannel (self rt) = Some dc -> readyState dc = dc_open ->
  sendQueueLimit dc = None -> 0 <= bufferedAmount dc ->
  forallb transfer_event evs = true ->
  let effs := snd (run rt (CallSendFile f now :: evs)) in
  Forall (fun x => exists q, 0 <= q <= 100 /\ x = JsNumber.of_Z q)
         (progress_values effs) /\
  Forall (fun x => exists q, 0 <= q <= 100 /\ x = JsNumber.of_Z q)
         (progress_values (snd (receive p (sent_frames effs)))).
Proof.
  intros Hpos H53 Hcl Hts Hdc Ho Hl Hb Hevs effs.
  pose proof (total_chunks_pos f Hpos) as Hn0.
  pose proof (total_chunks_le_size f) as Hns.
  destruct (transfer_trace rt dc f now evs Hcl Hts Hdc Ho Hl Hb Hevs) as (j & Hj & Hobs).
  fold effs in Hobs.
  pose proof (trace_progress f now p j Hn0 ltac:(lia) Hj) as Htr.
  cbv zeta in Htr. rewrite <- Hobs in Htr.
  rewrite progress_values_observable, sent_frames_observable in Htr.
  destruct Htr as (Hpv & Hrv & _).
  rewrite Hpv, Hrv. split; apply progress_from_range; lia.
Qed.

Lemma progress_within_0_100_witness :
  let f := {| File.name := "a.txt"; File.type := "text/plain";
              File.bytes := [Byte.x61; Byte.x62; Byte.x63] |} in
  let evs := [ChannelDrain 100; ReaderLoad 0] in
  let effs := snd (run (connected "p1") (CallSendFile f 1700000000000 :: evs)) in
  (0 < File.size f /\ File.size f < 2 ^ 53) /\
  Forall (fun x => exists q, 0 <= q <= 100 /\ x = JsNumber.of_Z q) (progress_values effs).
Proof.
  intros f evs effs.
  assert (Hpos : 0 < File.size f) by reflexivity.
  assert (H53 : File.size f < 2 ^ 53) by reflexivity.
  split; [split; assumption|].
  exact (proj1 (progress_within_0_100 (connected "p1") fresh_channel f 1700000000000
                  (self (connected "p2")) evs Hpos H53
                  eq_refl eq_refl eq_refl eq_refl eq_refl ltac:(simpl; lia) eq_refl)).
Defined.

(** ** The accuracy of the progress values *)

(** The rounded mantissa is within one unit of the quotient. *)
Lemma round53_value (A B e : Z) :
  0 < B -> 0 <= A -> 53 <= Zdigits2 (A / B) ->
  let M := fst (round53 A B e) in
  let d := snd (round53 A B e) - e in
  0 <= d /\ (M - 1) * (B * 2 ^ d) <= A /\ A < (M + 1) * (B * 2 ^ d).
Proof.
  intros HB HA Hd. unfold round53.
  set (n := Zdigits2 (A / B) - 53).
  assert (Hn : 0 <= n) by (unfold n; lia).
  assert (Hpow : 0 < 2 ^ n) by (apply Z.pow_pos_nonneg; lia).
  set (Bn := B * 2 ^ n).
  assert (HBn : 0 < Bn) by (unfold Bn; nia).
  pose proof (rne_bounds A Bn) as [Hlo Hhi].
  pose proof (Z.mul_div_le A Bn HBn) as H1.
  pose proof (Z.mul_succ_div_gt A Bn HBn) as H2.
  set (M1 := rne A Bn) in *.
  assert (Hl : (M1 - 1) * Bn <= A) by nia.
  assert (Hu : A < (M1 + 1) * Bn) by nia.
  destruct (Z.eqb_spec M1 (2 ^ 53)) as [E|E]; cbn [fst snd].
  - replace (e + n + 1 - e) with (n + 1) by lia.
    rewrite Z.pow_add_r by lia. change (2 ^ 1) with 2.
    fold Bn. replace (B * (2 ^ n * 2)) with (2 * Bn) by (unfold Bn; ring).
    rewrite E in Hl, Hu. split; [lia|]. split; nia.
  - replace (e + n - e) with n by lia. fold Bn. auto.
Qed.

Lemma quot53_value (k n : Z) :
  0 < k -> k <= n -> n < 2 ^ 53 ->
  let a := quot53 k n in
  (fst a - 1) * n <= k * 2 ^ (- snd a) /\ k * 2 ^ (- snd a) < (fst a + 1) * n.
Proof.
  intros Hk Hkn Hn a.
  destruct (quot53_spec k n Hk Hkn Hn) as (_ & _ & Hea & Hdig). fold a in Hea.
  destruct (norm_of_Z_bounds k ltac:(lia)) as (Hmk & _ & _).
  destruct (norm_of_Z_bounds n ltac:(lia)) as (Hmn & _ & _).
  pose proof (round53_value (fst (norm_of_Z k) * 2 ^ 53) (fst (norm_of_Z n))
                (snd (norm_of_Z k) - snd (norm_of_Z n) - 53)
                ltac:(lia) ltac:(lia) Hdig) as Hv.
  cbv zeta in Hv. fold (quot53 k n) in Hv. fold a in Hv.
  pose proof (Zdigits2_pos k Hk) as Hdk.
  pose proof (Zdigits2_pos n ltac:(lia)) as Hdn.
  pose proof (Zdigits2_mono k n Hk Hkn) as Hdkn.
  assert (Hdn53 : Zdigits2 n <= 53).
  { destruct (norm_of_Z_bounds n ltac:(lia)) as (_ & He & _).
    unfold norm_of_Z in He. cbn [snd] in He. lia. }
  unfold norm_of_Z in Hv. cbn [fst snd] in Hv.
  set (sk := 53 - Zdigits2 k) in *. set (sn := 53 - Zdigits2 n) in *.
  set (d := snd a - (Zdigits2 k - 53 - (Zdigits2 n - 53) - 53)) in *.
  destruct Hv as (Hd0 & Hl & Hu).
  assert (Hexp : - snd a + (sn + d) = sk + 53) by (unfold d, sk, sn; lia).
  assert (Hp1 : 0 < 2 ^ (sn + d)) by (apply Z.pow_pos_nonneg; unfold sn; lia).
  assert (Hsplit : 2 ^ (- snd a) * 2 ^ (sn + d) = 2 ^ sk * 2 ^ 53).
  { rewrite <- !Z.pow_add_r by (unfold sk, sn in *; lia). f_equal. exact Hexp. }
  assert (Hsd : 2 ^ sn * 2 ^ d = 2 ^ (sn + d))
    by (rewrite Z.pow_add_r by (unfold sn; lia); reflexivity).
  replace (n * 2 ^ sn * 2 ^ d) with (n * 2 ^ (sn + d)) in Hl, Hu by (rewrite <- Hsd; ring).
  replace (k * 2 ^ sk * 2 ^ 53) with (k * 2 ^ (- snd a) * 2 ^ (sn + d)) in Hl, Hu
    by (rewrite <- Z.mul_assoc, Hsplit; ring).
  split.
  - apply (Z.mul_le_mono_pos_r _ _ (2 ^ (sn + d)) Hp1). lia.
  - apply (Z.mul_lt_mono_pos_r (2 ^ (sn + d)) _ _ Hp1). lia.
Qed.

Lemma times100_value (a : Z * Z) :
  canonical53 a -> -200 <= snd a <= 100 ->
  let b := times100 a in
  let g := snd b - snd a in
  6 <= g <= 8 /\ (fst b - 1) * 2 ^ g <= 100 * fst a /\ 100 * fst a < (fst b + 1) * 2 ^ g.
Proof.
  intros Ha He b g.
  destruct (times100_spec a Ha He) as (_ & _ & Hg). fold b in Hg.
  unfold canonical53 in Ha.
  assert (Hdig : 53 <= Zdigits2 ((fst a * fst (norm_of_Z 100)) / 1)).
  { rewrite Z.div_1_r.
    pose proof (Zdigits2_mono (2 ^ 52) (fst a * fst (norm_of_Z 100))
                  ltac:(lia) ltac:(rewrite norm_of_Z_100; cbn [fst]; nia)) as H.
    change (Zdigits2 (2 ^ 52)) with 53 in H. exact H. }
  pose proof (round53_value (fst a * fst (norm_of_Z 100)) 1 (snd a + snd (norm_of_Z 100))
                ltac:(lia) ltac:(rewrite norm_of_Z_100; cbn [fst]; nia) Hdig) as Hv.
  cbv zeta in Hv. fold (times100 a) in Hv. fold b in Hv.
  rewrite norm_of_Z_100 in Hv. cbn [fst snd] in Hv.
  destruct Hv as (Hd0 & Hl & Hu).
  split; [unfold g; lia|].
  assert (Hd : snd b - (snd a + -46) = g + 46) by (unfold g; lia).
  rewrite Hd in Hl, Hu. rewrite Z.pow_add_r in Hl, Hu by (unfold g; lia).
  assert (Hp : 0 < 2 ^ 46) by (apply Z.pow_pos_nonneg; lia).
  assert (Hg0 : 0 < 2 ^ g) by (apply Z.pow_pos_nonneg; unfold g; lia).
  split.
  - apply (Z.mul_le_mono_pos_r _ _ (2 ^ 46) Hp). lia.
  - apply (Z.mul_lt_mono_pos_r (2 ^ 46) _ _ Hp). lia.
Qed.

Lemma percentZ_accuracy (k n : Z) :
  0 < k -> k <= n -> n <= 2 ^ 42 ->
  100 * k / n - 1 <= percentZ k n <= 100 * k / n.
Proof.
  intros Hk Hkn Hn.
  assert (Hn53 : n < 2 ^ 53) by lia.
  destruct (quot53_spec k n Hk Hkn Hn53) as (_ & Hca & Hea & _).
  destruct (quot53_value k n Hk Hkn Hn53) as (H1 & H1').
  destruct (times100_value (quot53 k n) Hca ltac:(lia)) as (Hg & H2 & H2').
  destruct (times100_spec (quot53 k n) Hca ltac:(lia)) as (_ & Hcb & _).
  unfold percentZ, floorZ.
  set (a := quot53 k n) in *. set (b := times100 a) in *.
  set (g := snd b - snd a) in *.
  unfold canonical53 in Hca, Hcb.
  set (P := 2 ^ (- snd a)) in *. set (Q := 2 ^ (- snd b)).
  set (G := 2 ^ g) in *.
  assert (HP : 2 ^ 51 <= P) by (unfold P; apply Z.pow_le_mono_r; lia).
  assert (HQ : 0 < Q) by (unfold Q; apply Z.pow_pos_nonneg; unfold g in *; lia).
  assert (HG : 64 <= G <= 256).
  { unfold G. split.
    - change 64 with (2 ^ 6). apply Z.pow_le_mono_r; lia.
    - change 256 with (2 ^ 8). apply Z.pow_le_mono_r; lia. }
  assert (HPQ : P = Q * G).
  { unfold P, Q, G. rewrite <- Z.pow_add_r by (unfold g in *; lia).
    f_equal. unfold g. lia. }
  set (m := 100 * k / n).
  pose proof (Z.mul_div_le (100 * k) n ltac:(lia)) as Hm1. fold m in Hm1.
  pose proof (Z.mul_succ_div_gt (100 * k) n ltac:(lia)) as Hm2. fold m in Hm2.
  assert (Hm0 : 0 <= m) by (unfold m; apply Z.div_pos; lia).
  assert (Hm100 : m <= 100) by (unfold m; apply Z.div_le_upper_bound; lia).
  split.
  - apply Z.div_le_lower_bound; [exact HQ|].
    (* m * P <= 100 * Ma + 99 *)
    assert (Ha : m * P * n < 100 * (fst a + 1) * n).
    { apply Z.le_lt_trans with (100 * (k * P)).
      - replace (m * P * n) with ((n * m) * P) by ring.
        replace (100 * (k * P)) with ((100 * k) * P) by ring.
        apply Z.mul_le_mono_nonneg_r; lia.
      - replace (100 * (fst a + 1) * n) with (100 * ((fst a + 1) * n)) by ring. lia. }
    assert (Ha' : m * P < 100 * (fst a + 1)).
    { apply (Z.mul_lt_mono_pos_r n); lia. }
    assert (Hb : m * P <= fst b * G + G + 98) by lia.
    assert (Hc : (m - 1) * P <= fst b * G) by nia.
    rewrite HPQ in Hc.
    apply (Z.mul_le_mono_pos_r _ _ G ltac:(lia)).
    replace (Q * (m - 1) * G) with ((m - 1) * (Q * G)) by ring. exact Hc.
  - assert (Hlt : fst b / Q < m + 1); [|lia].
    apply Z.div_lt_upper_bound; [exact HQ|].
    assert (Ha : (fst b - 1) * G * n <= 100 * (k * P + n)).
    { apply Z.le_trans with (100 * fst a * n).
      - apply Z.mul_le_mono_nonneg_r; lia.
      - replace (100 * fst a * n) with (100 * ((fst a - 1) * n + n)) by ring. lia. }
    assert (Hb : 100 * (k * P) <= ((m + 1) * n - 1) * P).
    { replace (100 * (k * P)) with ((100 * k) * P) by ring.
      apply Z.mul_le_mono_nonneg_r; lia. }
    assert (Hc : fst b * G * n < (m + 1) * n * P).
    { replace (fst b * G * n) with ((fst b - 1) * G * n + G * n) by ring.
      assert (Hd : (100 + G) * n < P).
      { apply Z.le_lt_trans with (356 * 2 ^ 42); [|lia].
        apply Z.mul_le_mono_nonneg; lia. }
      nia. }
    rewrite HPQ in Hc.
    assert (Hd : fst b * (G * n) < Q * (m + 1) * (G * n)).
    { replace (fst b * (G * n)) with (fst b * G * n) by ring.
      replace (Q * (m + 1) * (G * n)) with ((m + 1) * n * (Q * G)) by ring. exact Hc. }
    apply (Z.mul_lt_mono_pos_r (G * n)); [nia | exact Hd].
Qed.

(** The reported percentage is the exact one rounded down, or one less,
    and never more.  For [i] chunks done out of [n] (with [n] up to
    2^42), [Math.floor((i / n) * 100)] is the number of an integer [q]
    with [floor(100 i / n) - 1 <= q <= floor(100 i / n)]. *)
Theorem percent_exact_or_one_less (i n : Z) :
  0 < i -> i <= n -> n <= 2 ^ 42 ->
  exists q, percent i n = JsNumber.of_Z q /\ 100 * i / n - 1 <= q <= 100 * i / n.
Proof.
  intros Hi Hin Hn. exists (percentZ i n). split.
  - apply (percent_percentZ i n Hi Hin ltac:(lia)).
  - apply percentZ_accuracy; assumption.
Qed.

Lemma percent_exact_or_one_less_witness :
  percent 29 100 = JsNumber.of_Z 28 /\
  exists q, percent 29 100 = JsNumber.of_Z q /\ 29 - 1 <= q <= 29.
Proof.
  split; [vm_compute; reflexivity|].
  exact (percent_exact_or_one_less 29 100 ltac:(lia) ltac:(lia) ltac:(lia)).
Defined.

(** ** A retry overtaken by the low-buffer event *)

Lemma dc_send_room (dc : RTCDataChannel) (fr : Frame) :
  readyState dc = dc_open ->
  (forall q, sendQueueLimit dc = Some q -> bufferedAmount dc + frameBytes fr <= q) ->
  dc_send dc fr = inr (dc_set_bufferedAmount dc (bufferedAmount dc + frameBytes fr)).
Proof.
  intros Ho Hroom. unfold dc_send, dc_set_bufferedAmount. rewrite Ho. cbn [is_open negb].
  destruct (sendQueueLimit dc) as [q|] eqn:Hq; [|reflexivity].
  specialize (Hroom q eq_refl).
  replace (q <? bufferedAmount dc + frameBytes fr) with false
    by (symmetry; apply Z.ltb_ge; exact Hroom).
  reflexivity.
Qed.

Lemma sendNextChunk_reads (p : PeerTransfer) (dcx : RTCDataChannel)
      (c : SendFileClosure) (ts : list Task) :
  dataChannel p = Some dcx -> chunkIndex c < c_totalChunks c -> isReading c = false ->
  bufferedAmount dcx <= 16 * 1024 * 1024 ->
  sendNextChunk {| self := p; closures := [c]; tasks := ts |} 0
  = {| self := p; closures := [set_isReading c true];
       tasks := ts ++ [FileRead 0 (File.slice (c_file c) (chunkIndex c * CHUNK_SIZE)
                                    (Z.min (chunkIndex c * CHUNK_SIZE + CHUNK_SIZE)
                                           (File.size (c_file c))))] |}.
Proof.
  intros Hdc Hlt Hr Hb. unfold sendNextChunk. cbn [closures nth_error self].
  rewrite Hdc, Hr.
  replace (c_totalChunks c <=? chunkIndex c) with false by (symmetry; apply Z.leb_gt; lia).
  replace (16 * 1024 * 1024 <? bufferedAmount dcx) with false
    by (symmetry; apply Z.ltb_ge; lia).
  reflexivity.
Qed.

Lemma sendNextChunk_busy (p : PeerTransfer) (c : SendFileClosure) (ts : list Task) :
  isReading c = true ->
  sendNextChunk {| self := p; closures := [c]; tasks := ts |} 0
  = {| self := p; closures := [c]; tasks := ts |}.
Proof.
  intros Hr. unfold sendNextChunk. cbn [closures nth_error self].
  rewrite Hr, orb_true_r. destruct (dataChannel p); reflexivity.
Qed.

Lemma trySend_sends (p : PeerTransfer) (dcx : RTCDataChannel) (c : SendFileClosure)
      (ts : list Task) (data : list Byte.byte) :
  dataChannel p = Some dcx -> readyState dcx = dc_open ->
  bufferedAmount dcx <= 16 * 1024 * 1024 ->
  (forall q, sendQueueLimit dcx = Some q ->
             bufferedAmount dcx + Z.of_nat (List.length data) <= q) ->
  chunkIndex c + 1 < c_totalChunks c ->
  trySend {| self := p; closures := [c]; tasks := ts |} 0 data
  = (sendNextChunk
       {| self := set_dataChannel p
                    (Some (dc_set_bufferedAmount
                             dcx (bufferedAmount dcx + Z.of_nat (List.length data))));
          closures := [set_chunkIndex c (chunkIndex c + 1)];
          tasks := ts |} 0,
     [ChannelSend (BinaryFrame data);
      OnProgress (percent (chunkIndex c + 1) (c_totalChunks c))]).
Proof.
  intros Hdc Hopen Hb Hroom Hlt. unfold trySend. cbn [self]. rewrite Hdc.
  replace (16 * 1024 * 1024 <? bufferedAmount dcx) with false
    by (symmetry; apply Z.ltb_ge; lia).
  rewrite (dc_send_room dcx (BinaryFrame data) Hopen Hroom).
  cbn [with_self closures nth_error set_chunkIndex chunkIndex c_totalChunks].
  replace (chunkIndex c + 1 <? c_totalChunks c) with true by (symmetry; apply Z.ltb_lt; lia).
  reflexivity.
Qed.

(** A retry of [trySend] can be overtaken.  A chunk is read while the
    channel holds at most 16 MiB, but [send] finds the queue full (or the
    channel above 16 MiB), so [trySend] waits for its 50 ms timer.  The
    transfer is then not marked as reading, and a [bufferedamountlow]
    event that comes before the timer starts a second read of the same
    chunk.  The timer sends the chunk and moves on; the second read,
    once complete, sends the same chunk again and moves on once more:
    chunk [k] is handed over twice, progress is reported for [k+1] and
    [k+2], and the transfer continues with chunk [k+2]; chunk [k+1] is
    not read. *)
Theorem retry_overtaken_sends_chunk_twice
        (f : File.t) (id : string) (k : Z) (p : PeerTransfer) (dc : RTCDataChannel)
        (n : Z) :
  0 <= k -> k + 2 < total_chunks f ->
  dataChannel p = Some dc -> readyState dc = dc_open ->
  onbufferedamountlow dc = Some 0%nat ->
  (16 * 1024 * 1024 < bufferedAmount dc \/
   exists q, sendQueueLimit dc = Some q /\ q < bufferedAmount dc + CHUNK_SIZE) ->
  bufferedAmountLowThreshold dc < bufferedAmount dc ->
  Z.max 0 (bufferedAmount dc - Z.max 0 n) <= bufferedAmountLowThreshold dc ->
  bufferedAmountLowThreshold dc <= 16 * 1024 * 1024 - 2 * CHUNK_SIZE ->
  (forall q, sendQueueLimit dc = Some q ->
             Z.max 0 (bufferedAmount dc - Z.max 0 n) + 2 * CHUNK_SIZE <= q) ->
  let result := run (read_pending f id k p)
                    [ReaderLoad 0; ChannelDrain n; TimerFires 0; ReaderLoad 0] in
  snd result
  = [ChannelSend (BinaryFrame (chunk_of f k)); OnProgress (percent (k + 1) (total_chunks f));
     ChannelSend (BinaryFrame (chunk_of f k)); OnProgress (percent (k + 2) (total_chunks f))] /\
  map chunkIndex (closures (fst result)) = [k + 2] /\
  tasks (fst result) = [FileRead 0 (chunk_of f (k + 2))].
Proof.
  intros Hk Hk2 Hdc Hopen Hlow Hfull Hab Hdrain Hth Hroom result.
  pose proof (chunk_of_length f k Hk) as Hlen.
  assert (Hlen' : Z.of_nat (List.length (chunk_of f k)) = CHUNK_SIZE).
  { rewrite chunk_of_length_exact by exact Hk.
    destruct (total_chunks_bounds f) as [H'|[_ H']]; unfold CHUNK_SIZE in *; lia. }
  set (b1 := Z.max 0 (bufferedAmount dc - Z.max 0 n)) in *.
  set (len := Z.of_nat (List.length (chunk_of f k))) in *.
  set (c0 := {| c_file := f; c_fileId := id; c_totalChunks := total_chunks f;
                chunkIndex := k; isReading := false |}).
  set (retry := Timer 50 (RetryTrySend 0 (chunk_of f k))).
  (* the read completes, the chunk cannot be sent: [trySend] waits *)
  assert (H0 : step (read_pending f id k p) (ReaderLoad 0) = (retry_pending f id k p, [])).
  { unfold read_pending, retry_pending.
    cbn [step tasks nth_error]. unfold take_task, reader_onload, with_tasks.
    cbn [self closures tasks remove_nth nth_error].
    unfold set_closure, with_closures. cbn [self closures tasks replace_nth].
    unfold trySend. cbn [self]. rewrite Hdc.
    destruct (16 * 1024 * 1024 <? bufferedAmount dc) eqn:Hb; [reflexivity|].
    apply Z.ltb_ge in Hb. destruct Hfull as [Hfull|(q & Hq & Hfull)]; [lia|].
    unfold dc_send. rewrite Hopen, Hq. cbn [is_open negb].
    change (frameBytes (BinaryFrame (chunk_of f k))) with len.
    replace (q <? bufferedAmount dc + len) with true by (symmetry; apply Z.ltb_lt; lia).
    reflexivity. }
  (* the channel drains across the threshold: chunk [k] is read again *)
  assert (H1 : step (retry_pending f id k p) (ChannelDrain n)
               = ({| self := set_dataChannel p (Some (dc_set_bufferedAmount dc b1));
                     closures := [set_isReading c0 true];
                     tasks := [retry; FileRead 0 (chunk_of f k)] |}, [])).
  { cbn [step]. unfold channel_drain, retry_pending. cbn [self]. rewrite Hdc. fold b1.
    replace (bufferedAmountLowThreshold dc <? bufferedAmount dc) with true
      by (symmetry; apply Z.ltb_lt; exact Hab).
    replace (b1 <=? bufferedAmountLowThreshold dc) with true
      by (symmetry; apply Z.leb_le; exact Hdrain).
    cbn [andb]. rewrite Hlow. unfold with_self. cbn [self closures tasks]. fold c0 retry.
    rewrite (sendNextChunk_reads _ (dc_set_bufferedAmount dc b1) c0 [retry]);
      [reflexivity | reflexivity | cbn; lia | reflexivity
       | cbn [dc_set_bufferedAmount bufferedAmount]; unfold CHUNK_SIZE in *; lia]. }
  (* the timer: chunk [k] is sent, the index moves to [k + 1] *)
  assert (H2 : step {| self := set_dataChannel p (Some (dc_set_bufferedAmount dc b1));
                       closures := [set_isReading c0 true];
                       tasks := [retry; FileRead 0 (chunk_of f k)] |} (TimerFires 0)
               = ({| self := set_dataChannel p (Some (dc_set_bufferedAmount dc (b1 + len)));
                     closures := [set_chunkIndex (set_isReading c0 true) (k + 1)];
                     tasks := [FileRead 0 (chunk_of f k)] |},
                  [ChannelSend (BinaryFrame (chunk_of f k));
                   OnProgress (percent (k + 1) (total_chunks f))])).
  { cbn [step tasks nth_error retry]. unfold take_task, with_tasks.
    cbn [self closures tasks remove_nth].
    rewrite (trySend_sends _ (dc_set_bufferedAmount dc b1) _ _ (chunk_of f k));
      [|reflexivity|exact Hopen
       |cbn [dc_set_bufferedAmount bufferedAmount]; unfold CHUNK_SIZE in *; lia
       |cbn [dc_set_bufferedAmount bufferedAmount sendQueueLimit]; intros q Hq;
        specialize (Hroom q Hq); fold len; lia
       |cbn; lia].
    rewrite sendNextChunk_busy by reflexivity. reflexivity. }
  (* the second read completes: chunk [k] is sent again, the index moves to [k + 2] *)
  assert (H3 : step {| self := set_dataChannel p (Some (dc_set_bufferedAmount dc (b1 + len)));
                       closures := [set_chunkIndex (set_isReading c0 true) (k + 1)];
                       tasks := [FileRead 0 (chunk_of f k)] |} (ReaderLoad 0)
               = ({| self := set_dataChannel
                               p (Some (dc_set_bufferedAmount dc (b1 + len + len)));
                     closures := [{| c_file := f; c_fileId := id;
                                     c_totalChunks := total_chunks f;
                                     chunkIndex := k + 2; isReading := true |}];
                     tasks := [FileRead 0 (chunk_of f (k + 2))] |},
                  [ChannelSend (BinaryFrame (chunk_of f k));
                   OnProgress (percent (k + 2) (total_chunks f))])).
  { cbn [step tasks nth_error]. unfold take_task, reader_onload, with_tasks.
    cbn [self closures tasks remove_nth nth_error].
    unfold set_closure, with_closures. cbn [self closures tasks replace_nth].
    rewrite (trySend_sends _ (dc_set_bufferedAmount dc (b1 + len)) _ _ (chunk_of f k));
      [|reflexivity|exact Hopen
       |cbn [dc_set_bufferedAmount bufferedAmount]; unfold CHUNK_SIZE in *; lia
       |cbn [dc_set_bufferedAmount bufferedAmount sendQueueLimit]; intros q Hq;
        specialize (Hroom q Hq); fold len; lia
       |cbn; lia].
    cbn [set_isReading set_chunkIndex c0 chunkIndex c_totalChunks c_file c_fileId isReading].
    replace (k + 1 + 1) with (k + 2) by lia.
    rewrite (sendNextChunk_reads _ (dc_set_bufferedAmount dc (b1 + len + len)));
      [reflexivity | destruct p; reflexivity | cbn; lia | reflexivity
       | cbn [dc_set_bufferedAmount bufferedAmount]; fold len; unfold CHUNK_SIZE in *; lia]. }
  unfold result. cbn [run]. rewrite H0, H1, H2, H3. cbn [fst snd app closures tasks map chunkIndex].
  repeat split; reflexivity.
Qed.

Lemma retry_overtaken_sends_chunk_twice_witness :
  let f := {| File.name := "report.bin"; File.type := "";
              File.bytes := repeat Byte.x00 (Z.to_nat 40000) |} in
  let channel := {| readyState := dc_open; bufferedAmount := 16 * 1024 * 1024 - 1000;
                    bufferedAmountLowThreshold := 1024 * 1024;
                    onbufferedamountlow := Some 0%nat;
                    sendQueueLimit := Some (16 * 1024 * 1024) |} in
  let p := set_dataChannel (self (new_PeerTransfer "p1")) (Some channel) in
  let result := run (read_pending f "1700000000000" 0 p)
                    [ReaderLoad 0; ChannelDrain (16 * 1024 * 1024); TimerFires 0;
                     ReaderLoad 0] in
  total_chunks f = 3 /\
  map chunkIndex (closures (fst result)) = [2].
Proof.
  intros f channel p result.
  assert (Htot : total_chunks f = 3) by (vm_compute; reflexivity).
  split; [exact Htot|].
  destruct (retry_overtaken_sends_chunk_twice
              f "1700000000000" 0 p channel (16 * 1024 * 1024)
              ltac:(lia) ltac:(rewrite Htot; lia) eq_refl eq_refl eq_refl
              ltac:(right; exists (16 * 1024 * 1024); split; [reflexivity|];
                    cbn [channel bufferedAmount]; unfold CHUNK_SIZE; lia)
              ltac:(cbn [channel bufferedAmount bufferedAmountLowThreshold]; lia)
              ltac:(cbn [channel bufferedAmount bufferedAmountLowThreshold]; lia)
              ltac:(cbn [channel bufferedAmountLowThreshold]; unfold CHUNK_SIZE; lia)
              ltac:(cbn [channel sendQueueLimit bufferedAmount]; intros q Hq;
                    injection Hq as <-; unfold CHUNK_SIZE; lia))
    as (_ & Hidx & _).
  exact Hidx.
Defined.

(** ** A transfer that lost its handler *)

Lemma nth_error_replace_nth_other {A : Type} (l : list A) (j i : nat) (x : A) :
  j <> i -> nth_error (replace_nth j x l) i = nth_error l i.
Proof.
  revert j i. induction l as [|h t IH]; intros j i Hne; [destruct j; reflexivity|].
  destruct j as [|j], i as [|i]; cbn [replace_nth nth_error]; try reflexivity.
  - congruence.
  - apply IH. congruence.
Qed.

Lemma forallb_remove_nth {A : Type} (P : A -> bool) (l : list A) (n : nat) :
  forallb P l = true -> forallb P (remove_nth n l) = true.
Proof.
  revert n. induction l as [|h t IH]; intros [|n] H; cbn [remove_nth forallb] in *; auto.
  - apply andb_true_iff in H. tauto.
  - apply andb_true_iff in H as [H1 H2]. rewrite H1, (IH n H2). reflexivity.
Qed.

Lemma forallb_nth_error {A : Type} (P : A -> bool) (l : list A) (n : nat) (x : A) :
  forallb P l = true -> nth_error l n = Some x -> P x = true.
Proof.
  intros H Hn. rewrite forallb_forall in H. apply H. eapply nth_error_In. exact Hn.
Qed.

(** What concerns invocation [i] in a state: its closure, the tasks and
    the handler. *)
Lemma sendNextChunk_other (rt : Runtime) (cid i : nat) :
  cid <> i ->
  forallb (fun t => negb (mentions i t)) (tasks rt) = true ->
  self (sendNextChunk rt cid) = self rt /\
  nth_error (closures (sendNextChunk rt cid)) i = nth_error (closures rt) i /\
  forallb (fun t => negb (mentions i t)) (tasks (sendNextChunk rt cid)) = true.
Proof.
  intros Hne Hts. unfold sendNextChunk.
  destruct (nth_error (closures rt) cid) as [c|]; [|auto].
  destruct (dataChannel (self rt)) as [dc|]; [|auto].
  destruct (_ || _); [auto|].
  destruct (_ <? _); [auto|].
  cbn [add_task with_tasks set_closure with_closures self closures tasks].
  split; [reflexivity|]. split.
  - apply nth_error_replace_nth_other. exact Hne.
  - rewrite forallb_app, Hts. cbn [forallb mentions negb andb].
    apply Nat.eqb_neq in Hne. rewrite Hne. reflexivity.
Qed.

Lemma trySend_other (rt : Runtime) (cid i : nat) (data : list Byte.byte) :
  cid <> i ->
  forallb (fun t => negb (mentions i t)) (tasks rt) = true ->
  (forall dc, dataChannel (self rt) = Some dc -> onbufferedamountlow dc <> Some i) ->
  forall rt' eff,
    trySend rt cid data = (rt', eff) ->
    nth_error (closures rt') i = nth_error (closures rt) i /\
    forallb (fun t => negb (mentions i t)) (tasks rt') = true /\
    (forall dc, dataChannel (self rt') = Some dc -> onbufferedamountlow dc <> Some i).
Proof.
  intros Hne Hts Hh rt' eff H.
  assert (Hneb : Nat.eqb cid i = false) by (apply Nat.eqb_neq; exact Hne).
  assert (Htimer : forallb (fun t => negb (mentions i t))
                           (tasks (add_task rt (Timer 50 (RetryTrySend cid data)))) = true).
  { cbn [add_task with_tasks tasks]. rewrite forallb_app, Hts.
    cbn [forallb mentions negb andb]. rewrite Hneb. reflexivity. }
  unfold trySend in H.
  destruct (dataChannel (self rt)) as [dc|] eqn:Hdc.
  2:{ injection H as <- _. rewrite Hdc. repeat split; auto. }
  specialize (Hh dc eq_refl).
  destruct (16 * 1024 * 1024 <? bufferedAmount dc).
  { injection H as <- _. cbn [add_task with_tasks self closures]. rewrite Hdc.
    split; [reflexivity|]. split; [exact Htimer|]. intros d Hd. injection Hd as <-. exact Hh. }
  unfold dc_send at 1 in H.
  destruct (negb (is_open (readyState dc))).
  { injection H as <- _. rewrite Hdc. split; [reflexivity|]. split; [exact Hts|].
    intros d Hd. injection Hd as <-. exact Hh. }
  destruct (match sendQueueLimit dc with
            | Some lim => lim <? bufferedAmount dc + frameBytes (BinaryFrame data)
            | None => false
            end).
  { injection H as <- _. cbn [add_task with_tasks self closures]. rewrite Hdc.
    split; [reflexivity|]. split; [exact Htimer|]. intros d Hd. injection Hd as <-. exact Hh. }
  set (dc1 := {| readyState := readyState dc;
                 bufferedAmount := bufferedAmount dc + frameBytes (BinaryFrame data);
                 bufferedAmountLowThreshold := bufferedAmountLowThreshold dc;
                 onbufferedamountlow := onbufferedamountlow dc;
                 sendQueueLimit := sendQueueLimit dc |}) in H.
  assert (Hh1 : onbufferedamountlow dc1 <> Some i) by exact Hh.
  cbn [with_self closures] in H.
  destruct (nth_error (closures rt) cid) as [c|] eqn:Hc.
  2:{ injection H as <- _. cbn [with_self self closures tasks set_dataChannel dataChannel].
      split; [reflexivity|]. split; [exact Hts|].
      intros d Hd. injection Hd as <-. exact Hh1. }
  set (rt2 := set_closure _ cid _) in H.
  assert (H2c : nth_error (closures rt2) i = nth_error (closures rt) i).
  { unfold rt2. cbn [set_closure with_closures closures with_self].
    apply nth_error_replace_nth_other. exact Hne. }
  assert (H2t : forallb (fun t => negb (mentions i t)) (tasks rt2) = true) by exact Hts.
  assert (H2s : dataChannel (self rt2) = Some dc1) by reflexivity.
  cbn [chunkIndex c_totalChunks c_fileId set_chunkIndex] in H.
  destruct (chunkIndex c + 1 <? c_totalChunks c).
  { injection H as <- _.
    destruct (sendNextChunk_other rt2 cid i Hne H2t) as (Hs & Hc' & Ht').
    rewrite Hc', H2c, Hs, H2s. split; [reflexivity|]. split; [exact Ht'|].
    intros d Hd. injection Hd as <-. exact Hh1. }
  unfold dc_send in H.
  destruct (negb (is_open (readyState dc1))).
  { injection H as <- _. rewrite H2c, H2s. split; [reflexivity|]. split; [exact H2t|].
    intros d Hd. injection Hd as <-. exact Hh1. }
  destruct (match sendQueueLimit dc1 with
            | Some lim => lim <? _
            | None => false
            end).
  { injection H as <- _. rewrite H2c, H2s. split; [reflexivity|]. split; [exact H2t|].
    intros d Hd. injection Hd as <-. exact Hh1. }
  injection H as <- _.
  cbn [with_self self closures tasks set_dataChannel dataChannel].
  split; [exact H2c|]. split; [exact H2t|].
  intros d Hd. injection Hd as <-. exact Hh1.
Qed.

Lemma step_orphaned (rt : Runtime) (ev : Event) (i : nat) :
  orphaned i rt -> transfer_event ev = true ->
  orphaned i (fst (step rt ev)) /\
  nth_error (closures (fst (step rt ev))) i = nth_error (closures rt) i.
Proof.
  intros ((c & Hc & Hr) & Hts & Hh) Hev.
  assert (Hkeep : forall rt',
             nth_error (closures rt') i = nth_error (closures rt) i ->
             forallb (fun t => negb (mentions i t)) (tasks rt') = true ->
             (forall dc, dataChannel (self rt') = Some dc ->
                         onbufferedamountlow dc <> Some i) ->
             orphaned i rt' /\ nth_error (closures rt') i = nth_error (closures rt) i).
  { intros rt' H1 H2 H3. split; [|exact H1]. split; [|split; assumption].
    exists c. rewrite H1. auto. }
  assert (Hsame : orphaned i rt /\ nth_error (closures rt) i = nth_error (closures rt) i).
  { apply Hkeep; auto. }
  assert (Htake : forall j, forallb (fun t => negb (mentions i t))
                                    (tasks (take_task rt j)) = true).
  { intros j. cbn [take_task with_tasks tasks]. apply forallb_remove_nth. exact Hts. }
  destruct ev; simpl in Hev; try discriminate; cbn [step].
  - (* ReaderLoad *)
    destruct (nth_error (tasks rt) i0) as [[d cb|cid chunk| |]|] eqn:Ht; try exact Hsame.
    pose proof (forallb_nth_error _ _ _ _ Hts Ht) as Hm. cbn [mentions] in Hm.
    apply negb_true_iff, Nat.eqb_neq in Hm.
    unfold reader_onload. cbn [take_task with_tasks closures].
    destruct (nth_error (closures rt) cid) as [c'|] eqn:Hc'.
    + destruct (trySend _ cid chunk) as [rt' eff] eqn:E.
      destruct (trySend_other (set_closure (take_task rt i0) cid (set_isReading c' false))
                              cid i chunk Hm (Htake i0) Hh rt' eff E) as (H1 & H2 & H3).
      cbn [fst]. apply Hkeep; [|exact H2|exact H3].
      rewrite H1. cbn [set_closure with_closures closures take_task with_tasks].
      apply nth_error_replace_nth_other. exact Hm.
    + destruct (trySend _ cid chunk) as [rt' eff] eqn:E.
      destruct (trySend_other _ cid i chunk Hm (Htake i0) Hh rt' eff E) as (H1 & H2 & H3).
      cbn [fst]. apply Hkeep; [exact H1|exact H2|exact H3].
  - (* ReaderError *)
    destruct (nth_error (tasks rt) i0) as [[d cb|cid chunk| |]|] eqn:Ht; try exact Hsame.
    pose proof (forallb_nth_error _ _ _ _ Hts Ht) as Hm. cbn [mentions] in Hm.
    apply negb_true_iff, Nat.eqb_neq in Hm.
    unfold reader_onerror. cbn [take_task with_tasks closures].
    destruct (nth_error (closures rt) cid) as [c'|] eqn:Hc'; cbn [fst].
    + apply Hkeep; [|exact (Htake i0)|exact Hh].
      cbn [set_closure with_closures closures].
      apply nth_error_replace_nth_other. exact Hm.
    + apply Hkeep; [reflexivity|exact (Htake i0)|exact Hh].
  - (* TimerFires *)
    destruct (nth_error (tasks rt) i0) as [[d [msg a|cid chunk]|cid chunk| |]|] eqn:Ht;
      try exact Hsame.
    + unfold sendSignal. cbn [take_task with_tasks self].
      destruct (ws_readyState (ws (self rt))); cbn [fst];
        try (apply Hkeep; [reflexivity|exact (Htake i0)|exact Hh]).
      destruct (Nat.ltb a MAX_RETRIES); cbn [fst];
        try (apply Hkeep; [reflexivity|exact (Htake i0)|exact Hh]).
      apply Hkeep; [reflexivity| |exact Hh].
      cbn [add_task with_tasks tasks]. rewrite forallb_app.
      fold (tasks (take_task rt i0)). rewrite (Htake i0). reflexivity.
    + pose proof (forallb_nth_error _ _ _ _ Hts Ht) as Hm. cbn [mentions] in Hm.
      apply negb_true_iff, Nat.eqb_neq in Hm.
      destruct (trySend _ cid chunk) as [rt' eff] eqn:E.
      destruct (trySend_other _ cid i chunk Hm (Htake i0) Hh rt' eff E) as (H1 & H2 & H3).
      cbn [fst]. apply Hkeep; [exact H1|exact H2|exact H3].
  - (* ChannelDrain *)
    cbn [fst]. unfold channel_drain.
    destruct (dataChannel (self rt)) as [dc|] eqn:Hdc; [|exact Hsame].
    specialize (Hh dc eq_refl).
    set (rt1 := with_self rt _).
    assert (H1 : orphaned i rt1 /\ nth_error (closures rt1) i = nth_error (closures rt) i).
    { apply Hkeep; [reflexivity|exact Hts|].
      intros d Hd. cbn in Hd. injection Hd as <-. exact Hh. }
    destruct (_ && _); [|exact H1].
    destruct (onbufferedamountlow dc) as [cid|] eqn:Hcid; [|exact H1].
    assert (Hm : cid <> i) by congruence.
    destruct (sendNextChunk_other rt1 cid i Hm Hts) as (Hs & Hc' & Ht').
    apply Hkeep; [exact Hc'|exact Ht'|].
    rewrite Hs. intros d Hd. cbn in Hd. injection Hd as <-.
    cbn [dc_set_bufferedAmount onbufferedamountlow]. rewrite Hcid. exact Hh.
Qed.

Lemma run_orphaned (evs : list Event) (i : nat) :
  forall rt, orphaned i rt -> forallb transfer_event evs = true ->
             nth_error (closures (fst (run rt evs))) i = nth_error (closures rt) i.
Proof.
  induction evs as [|ev evs IH]; intros rt Ho Hevs; [reflexivity|].
  simpl in Hevs. apply andb_true_iff in Hevs as [Hev Hevs].
  destruct (step_orphaned rt ev i Ho Hev) as [Ho1 Hc1].
  cbn [run]. destruct (step rt ev) as [rt1 eff1]. cbn [fst] in *.
  specialize (IH rt1 Ho1 Hevs). destruct (run rt1 evs) as [rt2 eff2]. cbn [fst] in *.
  rewrite IH. exact Hc1.
Qed.

(** A second [sendFile] takes the [bufferedamountlow] handler away from
    a transfer that waits for it.  If transfer [i] is not reading and has
    no read and no retry pending (it was paused above 16 MiB, or its read
    failed), then after another [sendFile] that the channel accepts,
    whatever reads, timers and transmissions follow, the closure of
    transfer [i] is never changed again: its chunk index stays where it
    was, so the rest of its file is never sent. *)
Theorem second_sendFile_abandons_paused_transfer
        (rt : Runtime) (dc : RTCDataChannel) (i : nat) (c : SendFileClosure)
        (f : File.t) (now : Z) (evs : list Event) :
  nth_error (closures rt) i = Some c -> isReading c = false ->
  forallb (fun t => negb (mentions i t)) (tasks rt) = true ->
  dataChannel (self rt) = Some dc -> readyState dc = dc_open ->
  (forall q, sendQueueLimit dc = Some q ->
             bufferedAmount dc + frameBytes (TextFrame (FileInfoMsg (meta_of f now))) <= q) ->
  forallb transfer_event evs = true ->
  nth_error (closures (fst (run rt (CallSendFile f now :: evs)))) i = Some c.
Proof.
  intros Hc Hr Hts Hdc Hopen Hroom Hevs.
  assert (Hi : (i < List.length (closures rt))%nat)
    by (apply nth_error_Some; congruence).
  pose proof (sendFile_accepted rt f now dc _ Hdc
                (dc_send_room dc _ Hopen Hroom)) as Hsf.
  cbn [run step]. rewrite Hsf.
  match goal with |- context [run (sendNextChunk ?r ?cid) evs] =>
    set (rt1 := r); set (new := cid) end.
  assert (Hne : new <> i) by (unfold new; lia).
  assert (Hts1 : forallb (fun t => negb (mentions i t)) (tasks rt1) = true) by exact Hts.
  assert (Hc1 : nth_error (closures rt1) i = Some c).
  { unfold rt1. cbn [with_closures closures]. rewrite nth_error_app1 by exact Hi. exact Hc. }
  destruct (sendNextChunk_other rt1 new i Hne Hts1) as (Hs & Hc2 & Hts2).
  assert (Ho : orphaned i (sendNextChunk rt1 new)).
  { split; [exists c; rewrite Hc2; auto|]. split; [exact Hts2|].
    rewrite Hs. unfold rt1. cbn [with_closures with_self self set_dataChannel dataChannel].
    intros d Hd. injection Hd as <-. cbn [dc_set_onbufferedamountlow onbufferedamountlow].
    intros H. injection H as H. unfold new in Hne. congruence. }
  pose proof (run_orphaned evs i _ Ho Hevs) as Hrun.
  destruct (run (sendNextChunk rt1 new) evs) as [rt2 eff2]. cbn [fst] in *.
  rewrite Hrun, Hc2. exact Hc1.
Qed.

Lemma second_sendFile_abandons_paused_transfer_witness :
  let f1 := {| File.name := "a.txt"; File.type := "text/plain";
               File.bytes := [Byte.x61; Byte.x62; Byte.x63] |} in
  let f2 := {| File.name := "b.txt"; File.type := "text/plain"; File.bytes := [Byte.x64] |} in
  let channel := {| readyState := dc_open; bufferedAmount := 17 * 1024 * 1024;
                    bufferedAmountLowThreshold := 0; onbufferedamountlow := None;
                    sendQueueLimit := None |} in
  let page := with_self (new_PeerTransfer "p1")
                        (set_dataChannel (self (new_PeerTransfer "p1")) (Some channel)) in
  let rt := fst (run page [CallSendFile f1 1700000000000]) in
  let paused := {| c_file := f1; c_fileId := "1700000000000"; c_totalChunks := 1;
                   chunkIndex := 0; isReading := false |} in
  let evs := [ChannelDrain (17 * 1024 * 1024); ReaderLoad 0; ChannelDrain 100;
              TimerFires 0] in
  nth_error (closures rt) 0 = Some paused /\
  nth_error (closures (fst (run rt (CallSendFile f2 1700000000001 :: evs)))) 0 = Some paused.
Proof.
  intros f1 f2 channel page rt paused evs.
  assert (Hc : nth_error (closures rt) 0 = Some paused) by reflexivity.
  split; [exact Hc|].
  destruct (dataChannel (self rt)) as [dc|] eqn:Hdc; [|vm_compute in Hdc; discriminate].
  assert (Hopen : readyState dc = dc_open /\ sendQueueLimit dc = None).
  { vm_compute in Hdc. injection Hdc as <-. split; reflexivity. }
  destruct Hopen as [Hopen Hlim].
  exact (second_sendFile_abandons_paused_transfer
           rt dc 0%nat paused f2 1700000000001 evs Hc eq_refl eq_refl Hdc Hopen
           ltac:(intros q Hq; congruence) eq_refl).
Defined.

(** ** A channel that is not open any more *)

Lemma map_chunkIndex_set_isReading (l : list SendFileClosure) (cid : nat)
      (c : SendFileClosure) (b : bool) :
  nth_error l cid = Some c ->
  map chunkIndex (replace_nth cid (set_isReading c b) l) = map chunkIndex l.
Proof.
  revert cid. induction l as [|c0 l IH]; intros cid Hc; [destruct cid; discriminate|].
  destruct cid as [|cid]; cbn [nth_error replace_nth map] in *.
  - injection Hc as ->. reflexivity.
  - rewrite (IH cid Hc). reflexivity.
Qed.

(** If the data channel is no longer open when a chunk has been read,
    [send] throws an error that is not a full queue: the error is logged
    and the chunk is dropped without a retry.  With no more than the low
    threshold queued, nothing calls into the transfer again: whatever
    reads, timers and transmissions follow, no frame is sent, no progress
    is reported and the chunk index stays where it was. *)
Theorem closed_channel_drops_chunk
        (rt : Runtime) (dc : RTCDataChannel) (cid : nat) (chunk : list Byte.byte)
        (evs : list Event) :
  tasks rt = [FileRead cid chunk] ->
  dataChannel (self rt) = Some dc -> readyState dc <> dc_open ->
  0 <= bufferedAmountLowThreshold dc ->
  bufferedAmount dc <= bufferedAmountLowThreshold dc ->
  bufferedAmount dc <= 16 * 1024 * 1024 ->
  forallb transfer_event evs = true ->
  snd (run rt (ReaderLoad 0 :: evs)) = [ConsoleError unexpected_send_error] /\
  map chunkIndex (closures (fst (run rt (ReaderLoad 0 :: evs))))
  = map chunkIndex (closures rt) /\
  tasks (fst (run rt (ReaderLoad 0 :: evs))) = [].
Proof.
  intros Hts Hdc Hclosed Hth Hb Hb16 Hevs.
  cbn [run step]. rewrite Hts. cbn [nth_error].
  assert (Hsend : forall fr, dc_send dc fr = inl InvalidStateError).
  { intros fr. unfold dc_send. destruct (readyState dc); try reflexivity. congruence. }
  assert (Htry : forall rt0,
             self rt0 = self rt ->
             trySend rt0 cid chunk = (rt0, [ConsoleError unexpected_send_error])).
  { intros rt0 Hs. unfold trySend. rewrite Hs, Hdc.
    replace (16 * 1024 * 1024 <? bufferedAmount dc) with false
      by (symmetry; apply Z.ltb_ge; exact Hb16).
    rewrite Hsend. reflexivity. }
  assert (H1 : exists rt1,
             reader_onload (take_task rt 0) cid chunk
             = (rt1, [ConsoleError unexpected_send_error]) /\
             stalled rt1 /\ map chunkIndex (closures rt1) = map chunkIndex (closures rt)).
  { unfold reader_onload. cbn [take_task with_tasks closures].
    destruct (nth_error (closures rt) cid) as [c|] eqn:Hc.
    - rewrite Htry by reflexivity. eexists. split; [reflexivity|]. split.
      + split; [cbn; rewrite Hts; reflexivity|]. exists dc. cbn. auto.
      + cbn [set_closure with_closures closures].
        change (closures (take_task rt 0)) with (closures rt).
        apply map_chunkIndex_set_isReading. exact Hc.
    - rewrite Htry by reflexivity. eexists. split; [reflexivity|]. split; [|reflexivity].
      split; [cbn; rewrite Hts; reflexivity|]. exists dc. cbn. auto. }
  destruct H1 as (rt1 & -> & Hst & Hcl).
  destruct (run_stalled evs rt1 Hst Hevs) as (Hst2 & Heff2 & Hcl2).
  destruct (run rt1 evs) as [rt2 eff2]. cbn [fst snd] in *. subst eff2.
  rewrite Hcl2, Hcl. destruct Hst2 as [Hts2 _]. auto.
Qed.

Lemma closed_channel_drops_chunk_witness :
  let f := {| File.name := "a.txt"; File.type := "text/plain";
              File.bytes := [Byte.x61; Byte.x62; Byte.x63] |} in
  let rt := fst (run (connected "p1")
                     [CallSendFile f 1700000000000; ChannelReadyState dc_closed]) in
  let evs := [ChannelDrain 100; TimerFires 0; ReaderLoad 0] in
  snd (run rt (ReaderLoad 0 :: evs)) = [ConsoleError unexpected_send_error] /\
  map chunkIndex (closures (fst (run rt (ReaderLoad 0 :: evs)))) = [0].
Proof.
  intros f rt evs.
  destruct (dataChannel (self rt)) as [dc|] eqn:Hdc; [|vm_compute in Hdc; discriminate].
  assert (Hfacts : readyState dc = dc_closed /\
                   bufferedAmountLowThreshold dc = 1024 * 1024 /\
                   bufferedAmount dc <= 1024 * 1024).
  { vm_compute in Hdc. injection Hdc as <-. cbn. repeat split. discriminate. }
  destruct Hfacts as (Hrs & Hth & Hb).
  destruct (closed_channel_drops_chunk rt dc 0 (chunk_of f 0) evs
              ltac:(vm_compute; reflexivity) Hdc
              ltac:(rewrite Hrs; discriminate) ltac:(lia) ltac:(lia) ltac:(lia) eq_refl)
    as (Heff & Hcl & _).
  split; [exact Heff|]. rewrite Hcl. vm_compute. reflexivity.
Defined.

(** ** Candidates from one page to the other *)

(** A candidate the browser gathers is relayed only if it is not null
    and a non-empty remote identity is set.  Then, with the relay
    connection open, exactly one envelope is sent, addressed to the
    remote identity; a page with that identity and a peer connection
    that receives it adds the candidate to its connection and changes
    nothing else. *)
Theorem candidate_reaches_remote_connection
        (rt : Runtime) (cand : option string) (receiver : Runtime)
        (pc : RTCPeerConnection) :
  (cand = None \/ remoteId (self rt) = None \/ remoteId (self rt) = Some ""%string ->
   onicecandidate rt cand = (rt, [])) /\
  (forall c r,
      cand = Some c -> remoteId (self rt) = Some r -> r <> ""%string ->
      ws_readyState (ws (self rt)) = WS_OPEN ->
      peerId (self receiver) = r -> peerConnection (self receiver) = Some pc ->
      exists env,
        onicecandidate rt cand = (rt, [WsSend env]) /\
        Envelope.to env = Some r /\ Envelope.from env = peerId (self rt) /\
        handleSignal receiver env
        = (with_self receiver
             (set_peerConnection (self receiver) (Some (pc_add_candidate pc (Some c)))),
           [])).
Proof.
  split.
  - intros [->|[H|H]]; unfold onicecandidate.
    + reflexivity.
    + rewrite H. destruct cand; reflexivity.
    + rewrite H. destruct cand; reflexivity.
  - intros c r -> Hr Hne Hws Hid Hpc. unfold onicecandidate. rewrite Hr.
    apply String.eqb_neq in Hne. rewrite Hne.
    unfold sendSignal. rewrite Hws. eexists. split; [reflexivity|].
    unfold envelope_of. cbn [Envelope.to Envelope.from Envelope.type Envelope.candidate
                             body_type body_candidate].
    split; [exact Hr|]. split; [reflexivity|].
    unfold handleSignal. cbn [Envelope.to Envelope.type Envelope.candidate].
    rewrite Hr, Hid. cbn [option_string_eqb]. rewrite String.eqb_refl.
    cbn [negb String.eqb Ascii.eqb Bool.eqb]. unfold pc_call. rewrite Hpc. reflexivity.
Qed.

Lemma candidate_reaches_remote_connection_witness :
  let a := fst (run (new_PeerTransfer "A") (initiate "B" "o")) in
  let b := fst (run (new_PeerTransfer "B") (respond (offer_envelope "A" "B" "o") "n")) in
  exists env pc',
    snd (step a (IceCandidate (Some "c1"%string))) = [WsSend env] /\
    peerConnection (self (fst (step b (WsMessage env)))) = Some pc' /\
    iceCandidates pc' = [Some "c1"%string].
Proof.
  intros a b.
  destruct (peerConnection (self b)) as [pc|] eqn:Hpc; [|vm_compute in Hpc; discriminate].
  assert (Hic : iceCandidates pc = []).
  { vm_compute in Hpc. injection Hpc as <-. reflexivity. }
  destruct (candidate_reaches_remote_connection a (Some "c1"%string) b pc) as [_ H].
  destruct (H "c1"%string "B"%string eq_refl eq_refl ltac:(discriminate) eq_refl eq_refl Hpc)
    as (env & Hsend & _ & _ & Hrecv).
  exists env, (pc_add_candidate pc (Some "c1"%string)).
  split; [|split].
  - change (step a (IceCandidate (Some "c1"%string)))
      with (onicecandidate a (Some "c1"%string)).
    rewrite Hsend. reflexivity.
  - change (step b (WsMessage env)) with (handleSignal b env). rewrite Hrecv. reflexivity.
  - cbn [pc_add_candidate iceCandidates]. rewrite Hic. reflexivity.
Defined.
